(** * OOXML Viewer: part synchronisation and change detection

    A shallow embedding of [src/ooxml-viewer.ts] (class [OOXMLViewer]):
    the cache files kept for every part of an OOXML package, the walk that
    builds the part tree ([_populateOOXMLViewer]), the change detector
    ([_fileHasBeenChangedFromOutside]), the write-back of a saved cache file
    ([_updateOOXMLFile]) and the removal of deleted parts
    ([_removeDeletedParts]).

    The host (the editor's file-system API, the zip codec, the XML
    formatter, [path]) is not part of the repository; it is modelled in the
    first half of the file, with the failure modes the code reacts to. *)

From Stdlib Require Import ZArith String Ascii List Lia.
From Stdlib.Strings Require Import Byte.
From stdpp Require Import gmap strings list fin_maps.

Local Open Scope string_scope.
Local Open Scope list_scope.

(** ** Strings as JavaScript uses them

    A string holds its text as the bytes of the text's UTF-8 encoding.  The
    separators and prefixes the code looks for are ASCII, so that splitting
    and comparing work on these bytes as they do on the characters. *)

Module JS.

(** The UTF-16 code units a byte of the encoding accounts for: one for the
    first byte of a character of one, two or three bytes, two for the first
    byte of a character of four bytes (a surrogate pair), none for a byte
    that continues a character. *)
Definition codeUnits (c : ascii) : nat :=
  let n := nat_of_ascii c in
  if (n <? 128)%nat then 1
  else if (n <? 192)%nat then 0
  else if (n <? 240)%nat then 1
  else 2.

(** [s.length] *)
Fixpoint length (s : string) : nat :=
  match s with
  | EmptyString => 0
  | String c s' => codeUnits c + length s'
  end.

Definition isSlash (c : ascii) : bool := Ascii.eqb c "/"%char.

(** [s.split(sep)] for a non-empty separator.  [skip] counts the
    characters of a separator occurrence that are still to be consumed. *)
Fixpoint splitFrom (sep : string) (skip : nat) (s : string) : list string :=
  match s with
  | EmptyString => [""]
  | String c s' =>
      match skip with
      | S k => splitFrom sep k s'
      | O =>
          if String.prefix sep s
          then "" :: splitFrom sep (String.length sep - 1) s'
          else match splitFrom sep 0 s' with
               | h :: t => String c h :: t
               | [] => [String c ""]
               end
      end
  end.

Definition split (sep s : string) : list string := splitFrom sep 0 s.

(** [parts.join(sep)] *)
Fixpoint joinWith (sep : string) (parts : list string) : string :=
  match parts with
  | [] => ""
  | [p] => p
  | p :: rest => p ++ sep ++ joinWith sep rest
  end.

Definition startsWith (s p : string) : bool := String.prefix p s.

(** [s.substring(1)] *)
Definition substring1 (s : string) : string :=
  match s with
  | EmptyString => ""
  | String _ s' => s'
  end.

(** [s.replace(/\\/g, '/')] *)
Fixpoint backslashesToSlashes (s : string) : string :=
  match s with
  | EmptyString => ""
  | String c s' =>
      String (if Ascii.eqb c "\"%char then "/"%char else c)
             (backslashesToSlashes s')
  end.

(** [arr[arr.length - 1]] of a non-empty array of strings *)
Definition lastOf (l : list string) : string := List.last l "".

(** a non-empty string is truthy *)
Definition truthy (s : string) : bool := negb (String.eqb s "").

End JS.

(** ** The [path] module (POSIX flavour) *)

Module Path.

Definition chars := list_ascii_of_string.
Definition str := string_of_list_ascii.

Fixpoint dropWhile (p : ascii -> bool) (l : list ascii) : list ascii :=
  match l with
  | [] => []
  | c :: l' => if p c then dropWhile p l' else l
  end.

Fixpoint takeWhile (p : ascii -> bool) (l : list ascii) : list ascii :=
  match l with
  | [] => []
  | c :: l' => if p c then c :: takeWhile p l' else []
  end.

Definition notSlash (c : ascii) : bool := negb (JS.isSlash c).

(** [dirname]: scanning from the end down to index 1, skip the trailing
    separators and the last component; what is left of the separator
    found there is the directory. *)
Definition dirname (path : string) : string :=
  match chars path with
  | [] => "."
  | c0 :: rest =>
      let hasRoot := JS.isSlash c0 in
      let r1 := dropWhile JS.isSlash (rev rest) in
      match dropWhile notSlash r1 with
      | [] => if hasRoot then "/" else "."
      | _ :: r3 =>
          match r3 with
          | [] => if hasRoot then "//" else str [c0]
          | _ => str (c0 :: rev r3)
          end
      end
  end.

(** [basename] without a suffix argument: the last component, trailing
    separators ignored. *)
Definition basename (path : string) : string :=
  let r1 := dropWhile JS.isSlash (rev (chars path)) in
  str (rev (takeWhile notSlash r1)).

(** [parse(path).dir] and [parse(path).base] *)
Definition parseBase (path : string) : string := basename path.

Definition parseDir (path : string) : string :=
  match chars path with
  | [] => ""
  | c0 :: rest =>
      let isAbsolute := JS.isSlash c0 in
      let scanned := if isAbsolute then rest else c0 :: rest in
      let r1 := dropWhile JS.isSlash (rev scanned) in
      match dropWhile notSlash r1 with
      | [] => if isAbsolute then "/" else ""
      | _ :: r3 => str ((if isAbsolute then [c0] else []) ++ rev r3)
      end
  end.

(** [format({ dir, base })]: no [root] is passed, so a non-empty [dir] is
    always followed by the separator. *)
Definition format (dir base : string) : string :=
  if JS.truthy dir then dir ++ "/" ++ base else base.

(** One segment of [normalizeString]; the stack is kept reversed. *)
Definition normStep (allowAboveRoot : bool) (acc : list string)
           (seg : string) : list string :=
  if String.eqb seg "" || String.eqb seg "." then acc
  else if String.eqb seg ".." then
    match acc with
    | [] => if allowAboveRoot then [".."] else []
    | top :: below =>
        if String.eqb top ".."
        then (if allowAboveRoot then ".." :: acc else acc)
        else below
    end
  else seg :: acc.

Definition normalizeString (segs : list string) (allowAboveRoot : bool)
  : list string :=
  rev (fold_left (normStep allowAboveRoot) segs []).

Definition endsWithSlash (path : string) : bool :=
  match rev (chars path) with
  | c :: _ => JS.isSlash c
  | [] => false
  end.

Definition normalize (path : string) : string :=
  if String.eqb path "" then "."
  else
    let isAbsolute := JS.startsWith path "/" in
    let trailingSeparator := endsWithSlash path in
    let p := JS.joinWith "/"
               (normalizeString (JS.split "/" path) (negb isAbsolute)) in
    if String.eqb p ""
    then (if isAbsolute then "/" else if trailingSeparator then "./" else ".")
    else (if isAbsolute then "/" else "") ++ p
         ++ (if trailingSeparator then "/" else "").

(** [join(...args)] *)
Definition join (args : list string) : string :=
  match filter (fun a => JS.truthy a = true) args with
  | [] => "."
  | nonEmpty => normalize (JS.joinWith "/" nonEmpty)
  end.

End Path.

(** ** The host: files, the zip codec, the formatter *)

Definition Bytes := list byte.

Global Instance byte_eq_decision : EqDecision byte := byte_eq_dec.
Global Instance Bytes_eq_decision : EqDecision Bytes := list_eq_dec.

Inductive FileType := FtFile | FtDirectory.

Global Instance FileType_eq_decision : EqDecision FileType.
Proof. solve_decision. Defined.

Inductive FsEntry :=
| RegularFile (content : Bytes)
| Directory.

Global Instance FsEntry_eq_decision : EqDecision FsEntry.
Proof. solve_decision. Defined.

Record FileStat := { ftype : FileType; mtime : Z }.

Inductive Err :=
| FileNotFound (path : string)
| FileIsADirectory (path : string)
| FileExists (path : string)
| ExecFailed (stderr : string)
| CorruptZip
| FormatterFailed.

(** Calls made on the host, in the order they are made, and the errors
    handed to [console.error]. *)
Inductive HostCall :=
| CallStat (path : string)
| CallReadFile (path : string)
| CallWriteFile (path : string)
| CallCreateDirectory (path : string)
| CallDelete (path : string)
| CallRimraf (path : string)
| ConsoleError (e : Err)
| UnhandledRejection (e : Err).

(** A [JSZipObject]: [dir] and the uncompressed content. *)
Record JSZipObject := { dir : bool; data : Bytes }.

(** [zip.files]: the entries by name, in insertion order. *)
Definition JSZip := list (string * JSZipObject).

Inductive Icon :=
| IconUnset
| ThemeFolder
| ThemeFile
| IconImage (asset : string).

Definition asteriskYellow := IconImage "images/asterisk.yellow.svg".
Definition asteriskGreen := IconImage "images/asterisk.green.svg".
Definition asteriskRed := IconImage "images/asterisk.red.svg".

(** Modelled from the spec: the class [FileNode] of
    [ooxml-tree-view-provider] is missing from the sources.  The spec's Part
    Node has a [name] (the local segment, here [fileName], which is also
    what [description] shows), a [fullPath], a status icon and an ordered
    sequence of [children]; [parent] is the position in the tree. *)
#[local] Unset Elimination Schemes.
Inductive FileNode := mkFileNode {
  fileName : string;
  fullPath : string;
  iconPath : Icon;
  children : list FileNode
}.
#[local] Set Elimination Schemes.

(** Modelled from the spec: [new FileNode()], a node with no name, no path
    and no children. *)
Definition newFileNode : FileNode := mkFileNode "" "" IconUnset [].

Definition description (n : FileNode) : string := fileName n.

Record Host := {
  cwd : string;
  platform : string;
  (** [execPromise('attrib +h ...')]: rejected, or resolved with a stderr *)
  attrib : string -> Err + string;
  (** [formatXml], which throws on text it cannot parse *)
  formatXml : string -> option string;
  (** [async('text')], [Buffer.toString()] *)
  utf8Decode : Bytes -> string;
  (** [new TextEncoder().encode] *)
  utf8Encode : string -> Bytes;
  (** [JSZip.loadAsync], which rejects what is not a zip file *)
  loadAsync : Bytes -> option JSZip;
  (** [generateAsync({ type: 'uint8array' })] *)
  generateAsync : JSZip -> Bytes
}.

Record World := mkWorld {
  files : gmap string FsEntry;
  mtimes : gmap string Z;
  clock : Z;
  zip : JSZip;
  rootFileNode : FileNode;
  watchActions : gmap string Z;
  ooxmlFilePath : string;
  trace : list HostCall
}.

Definition setFiles (f : gmap string FsEntry) (w : World) : World :=
  mkWorld f (mtimes w) (clock w) (zip w) (rootFileNode w) (watchActions w)
          (ooxmlFilePath w) (trace w).
Definition setMtimes (m : gmap string Z) (w : World) : World :=
  mkWorld (files w) m (clock w) (zip w) (rootFileNode w) (watchActions w)
          (ooxmlFilePath w) (trace w).
Definition setClock (c : Z) (w : World) : World :=
  mkWorld (files w) (mtimes w) c (zip w) (rootFileNode w) (watchActions w)
          (ooxmlFilePath w) (trace w).
Definition setZip (z : JSZip) (w : World) : World :=
  mkWorld (files w) (mtimes w) (clock w) z (rootFileNode w) (watchActions w)
          (ooxmlFilePath w) (trace w).
Definition setRootFileNode (r : FileNode) (w : World) : World :=
  mkWorld (files w) (mtimes w) (clock w) (zip w) r (watchActions w)
          (ooxmlFilePath w) (trace w).
Definition setWatchActions (a : gmap string Z) (w : World) : World :=
  mkWorld (files w) (mtimes w) (clock w) (zip w) (rootFileNode w) a
          (ooxmlFilePath w) (trace w).
Definition setOoxmlFilePath (p : string) (w : World) : World :=
  mkWorld (files w) (mtimes w) (clock w) (zip w) (rootFileNode w)
          (watchActions w) p (trace w).
Definition logCall (c : HostCall) (w : World) : World :=
  mkWorld (files w) (mtimes w) (clock w) (zip w) (rootFileNode w)
          (watchActions w) (ooxmlFilePath w) (trace w ++ [c]).

(** ** Asynchronous code as a state and exception monad *)

Inductive Result (A : Type) :=
| Ok (a : A)
| Throw (e : Err).
Arguments Ok {A} a.
Arguments Throw {A} e.

Definition M (A : Type) : Type := World -> Result A * World.

Definition ret {A} (a : A) : M A := fun w => (Ok a, w).
Definition throw {A} (e : Err) : M A := fun w => (Throw e, w).
Definition bind {A B} (m : M A) (k : A -> M B) : M B :=
  fun w => match m w with
           | (Ok a, w') => k a w'
           | (Throw e, w') => (Throw e, w')
           end.
Definition tryCatch {A} (m : M A) (handler : Err -> M A) : M A :=
  fun w => match m w with
           | (Ok a, w') => (Ok a, w')
           | (Throw e, w') => handler e w'
           end.
Definition gets {A} (f : World -> A) : M A := fun w => (Ok (f w), w).
Definition modify (f : World -> World) : M unit := fun w => (Ok tt, f w).

Global Instance M_ret : MRet M := @ret.
Global Instance M_bind : MBind M := fun A B k m => bind m k.

(** The state a computation ends in, whatever it returned. *)
Definition exec {A} (m : M A) (w : World) : World := snd (m w).

(** ** [workspace.fs], [existsSync], [rimraf] *)

Module Fs.

Definition under (root path : string) : bool :=
  String.eqb root path || String.prefix (root ++ "/") path.

Definition removeTree (root : string) (f : gmap string FsEntry)
  : gmap string FsEntry :=
  filter (fun kv => under root (fst kv) = false) f.

Definition existsSync (path : string) (w : World) : bool :=
  match files w !! path with
  | Some _ => true
  | None => false
  end.

Definition stat (path : string) : M FileStat :=
  modify (logCall (CallStat path));;
  e ← gets (fun w => files w !! path);
  t ← gets (fun w => default 0%Z (mtimes w !! path));
  match e with
  | Some (RegularFile _) => ret {| ftype := FtFile; mtime := t |}
  | Some Directory => ret {| ftype := FtDirectory; mtime := t |}
  | None => throw (FileNotFound path)
  end.

Definition readFile (path : string) : M Bytes :=
  modify (logCall (CallReadFile path));;
  e ← gets (fun w => files w !! path);
  match e with
  | Some (RegularFile b) => ret b
  | Some Directory => throw (FileIsADirectory path)
  | None => throw (FileNotFound path)
  end.

(** What stands before each separator of [s] that has something before
    it, the shortest first; [pre] is what has been read already. *)
Fixpoint foldersAlong (pre s : string) : list string :=
  match s with
  | EmptyString => []
  | String c s' =>
      let rest := foldersAlong (pre ++ String c "") s' in
      if JS.isSlash c && JS.truthy pre then pre :: rest else rest
  end.

(** The folders above [path], the nearest first (the root is always
    there and is left out). *)
Definition above (path : string) : list string := rev (foldersAlong "" path).

(** The editor's [mkdirp]: going up from the folder, the first path that
    exists must be a folder, and the missing ones below it are created.
    [chain] is the folder and the folders above it, the nearest first. *)
Fixpoint mkdirpChain (chain : list string) (f : gmap string FsEntry)
  : Err + gmap string FsEntry :=
  match chain with
  | [] => inr f
  | q :: up =>
      match f !! q with
      | Some Directory => inr f
      | Some (RegularFile _) => inl (FileExists q)
      | None =>
          match mkdirpChain up f with
          | inl e => inl e
          | inr f' => inr (<[q := Directory]> f')
          end
      end
  end.

Definition mkdirp (path : string) (f : gmap string FsEntry)
  : Err + gmap string FsEntry :=
  mkdirpChain (path :: above path) f.

(** The files after a write: a folder cannot be written to, a file that is
    there is replaced, and for a file that is missing the folders above it
    are made first. *)
Definition written (path : string) (b : Bytes) (f : gmap string FsEntry)
  : Err + gmap string FsEntry :=
  match f !! path with
  | Some Directory => inl (FileIsADirectory path)
  | Some (RegularFile _) => inr (<[path := RegularFile b]> f)
  | None =>
      match mkdirpChain (above path) f with
      | inl e => inl e
      | inr f' => inr (<[path := RegularFile b]> f')
      end
  end.

Definition writeFile (path : string) (b : Bytes) : M unit :=
  modify (logCall (CallWriteFile path));;
  f ← gets files;
  match written path b f with
  | inl e => throw e
  | inr f' =>
      modify (fun w =>
        setClock (clock w + 1)
          (setMtimes (<[path := clock w]> (mtimes w)) (setFiles f' w)))
  end.

(** [createDirectory], which makes the missing folders above as well. *)
Definition createDirectory (path : string) : M unit :=
  modify (logCall (CallCreateDirectory path));;
  f ← gets files;
  match mkdirp path f with
  | inl e => throw e
  | inr f' => modify (setFiles f')
  end.

(** [delete(uri, { recursive: true, useTrash: false })] *)
Definition delete (path : string) : M unit :=
  modify (logCall (CallDelete path));;
  e ← gets (fun w => files w !! path);
  match e with
  | None => throw (FileNotFound path)
  | Some _ => modify (fun w => setFiles (removeTree path (files w)) w)
  end.

Definition rimraf (path : string) : M unit :=
  modify (logCall (CallRimraf path));;
  modify (fun w => setFiles (removeTree path (files w)) w).

End Fs.

(** ** [JSZip] *)

Module Zip.

(** [Object.keys(zip.files)] *)
Definition keys (z : JSZip) : list string := map fst z.

(** [zip.files[name]] *)
Fixpoint get (z : JSZip) (name : string) : option JSZipObject :=
  match z with
  | [] => None
  | (k, o) :: z' => if String.eqb k name then Some o else get z' name
  end.

(** [zip.file(name)]: the entry unless it is a folder *)
Definition file (z : JSZip) (name : string) : option JSZipObject :=
  match get z name with
  | Some o => if dir o then None else Some o
  | None => None
  end.

(** [this.files[name] = o]: an entry of that name is replaced where it
    stands, a new one goes last. *)
Fixpoint set (z : JSZip) (name : string) (o : JSZipObject) : JSZip :=
  match z with
  | [] => [(name, o)]
  | (k, old) :: z' =>
      if String.eqb k name then (k, o) :: z'
      else (k, old) :: set z' name o
  end.

Definition forceTrailingSlash (name : string) : string :=
  if Path.endsWithSlash name then name else name ++ "/".

(** [parentFolder]: what stands before the last separator, one trailing
    separator set aside; empty when there is no separator or nothing
    before it. *)
Definition parentFolder (path : string) : string :=
  let r := rev (Path.chars path) in
  let r := match r with
           | c :: r' => if JS.isSlash c then r' else r
           | [] => []
           end in
  match Path.dropWhile Path.notSlash r with
  | [] => ""
  | _ :: before => Path.str (rev before)
  end.

(** [folderAdd(name, true)]: a folder entry is added unless it is there,
    after the folder entries of the folders above it.  [fuel] bounds the
    folders above; the length of the name is enough. *)
Fixpoint folderAdd (fuel : nat) (z : JSZip) (name : string) : JSZip :=
  let name := forceTrailingSlash name in
  match get z name with
  | Some _ => z
  | None =>
      let parent := parentFolder name in
      let z1 := match fuel with
                | S k => if JS.truthy parent then folderAdd k z parent else z
                | O => z
                end in
      set z1 name {| dir := true; data := [] |}
  end.

(** [zip.file(name, data, { binary: true })], with [createFolders] as it is
    by default: the folders of the name get their entries, then the entry
    itself is set. *)
Definition put (z : JSZip) (name : string) (b : Bytes) : JSZip :=
  let parent := parentFolder name in
  let z1 := if JS.truthy parent
            then folderAdd (String.length name) z parent else z in
  set z1 name {| dir := false; data := b |}.

(** [Array.prototype.includes] on the keys *)
Definition includes (l : list string) (name : string) : bool :=
  existsb (String.eqb name) l.

End Zip.

(** ** The part tree, addressed the way the code holds on to nodes

    [currentFileNode] is a reference into the tree under [rootFileNode]; it
    is kept here as the list of child indices leading to the node, and an
    assignment to a field of the node is an update at that position. *)

Module Tree.

Definition setIconPath (i : Icon) (n : FileNode) : FileNode :=
  mkFileNode (fileName n) (fullPath n) i (children n).
Definition setFullPath (p : string) (n : FileNode) : FileNode :=
  mkFileNode (fileName n) p (iconPath n) (children n).
Definition setChildren (l : list FileNode) (n : FileNode) : FileNode :=
  mkFileNode (fileName n) (fullPath n) (iconPath n) l.
(** [children.push(c)] *)
Definition pushChild (c : FileNode) (n : FileNode) : FileNode :=
  setChildren (children n ++ [c]) n.

Fixpoint getNode (ref : list nat) (n : FileNode) : option FileNode :=
  match ref with
  | [] => Some n
  | i :: ref' =>
      match children n !! i with
      | Some c => getNode ref' c
      | None => None
      end
  end.

Fixpoint updateNode (ref : list nat) (f : FileNode -> FileNode)
         (n : FileNode) : FileNode :=
  match ref with
  | [] => f n
  | i :: ref' =>
      match children n !! i with
      | Some c => setChildren (<[i := updateNode ref' f c]> (children n)) n
      | None => n
      end
  end.

(** [children.find(c => c.description === name)], with the index *)
Definition findChild (name : string) (n : FileNode)
  : option (nat * FileNode) :=
  list_find (fun c => description c = name) (children n).

(** [arr.splice(i, 1)] *)
Definition splice1 (i : nat) (arr : list FileNode) : list FileNode :=
  take i arr ++ drop (S i) arr.

End Tree.

(** ** [OOXMLViewer] *)

Section OOXMLViewer.

Context (H : Host).

Definition cacheFolderName : string :=
  ".53d3a0ba-37e3-41cf-a068-b10b392cf8ca".

Definition fileCachePath : string := Path.join [cwd H; cacheFolderName].

Definition consoleError (e : Err) : M unit := modify (logCall (ConsoleError e)).

Definition node (ref : list nat) : M FileNode :=
  r ← gets rootFileNode;
  ret (default newFileNode (Tree.getNode ref r)).

Definition updateTree (ref : list nat) (f : FileNode -> FileNode) : M unit :=
  modify (fun w => setRootFileNode (Tree.updateNode ref f (rootFileNode w)) w).

Fixpoint forEachM {A} (l : list A) (body : A -> M unit) : M unit :=
  match l with
  | [] => ret tt
  | a :: l' => body a;; forEachM l' body
  end.

(** [_getPrevFilePath] *)
Definition _getPrevFilePath (path : string) : string :=
  Path.format (Path.parseDir path) ("prev." ++ Path.parseBase path).

(** The three cache files of a part, as [_fileHasBeenChangedFromOutside]
    and [getDiff] name them. *)
Definition currentFile (fullPath : string) : string :=
  Path.join [fileCachePath; fullPath].
Definition previousFile (fullPath : string) : string :=
  Path.join [fileCachePath; _getPrevFilePath fullPath].
Definition compareFile (fullPath fileName : string) : string :=
  Path.join [fileCachePath; Path.dirname fullPath;
             ("compare." ++ fileName)%string].

(** [_createFile]: whatever fails inside is caught and logged. *)
Definition _createFile (fullPath fileName : string) : M unit :=
  tryCatch
    (let folderPath := Path.join [fileCachePath; Path.dirname fullPath] in
     let filePath := Path.join [folderPath; fileName] in
     let preFilePath := Path.join [fileCachePath; fullPath] in
     Fs.createDirectory folderPath;;
     (if JS.startsWith (platform H) "win"
      then match attrib H ("attrib +h " ++ fileCachePath) with
           | inl e => throw e
           | inr stderr =>
               if JS.truthy stderr then throw (ExecFailed stderr) else ret tt
           end
      else ret tt);;
     file ← gets (fun w => Zip.file (zip w) fullPath);
     text ← match file with
            | Some f => ret (utf8Decode H (data f))
            | None => b ← Fs.readFile preFilePath; ret (utf8Decode H b)
            end;
     if JS.startsWith text "<?xml"
     then
       formattedXml ←
         (if (Z.of_nat (JS.length text) <? 100000)%Z
          then match formatXml H text with
               | Some x => ret x
               | None => throw FormatterFailed
               end
          else ret "");
       Fs.writeFile filePath
         (utf8Encode H (if JS.truthy formattedXml then formattedXml else text))
     else
       match file with
       | Some f => Fs.writeFile filePath (data f)
       | None => ret tt
       end)
    consoleError.

(** [_fileHasBeenChangedFromOutside] *)
Definition _fileHasBeenChangedFromOutside (firstFile : string) : M bool :=
  tryCatch
    (let secondFile := _getPrevFilePath firstFile in
     let firstFilePath := Path.join [fileCachePath; firstFile] in
     let secondFilePath := Path.join [fileCachePath; secondFile] in
     firstStat ← Fs.stat firstFilePath;
     secondStat ← Fs.stat secondFilePath;
     match ftype firstStat, ftype secondStat with
     | FtFile, FtFile =>
         firstBuffer ← Fs.readFile firstFilePath;
         secondBuffer ← Fs.readFile secondFilePath;
         if bool_decide (firstBuffer = secondBuffer) then ret false
         else ret true
     | _, _ => ret false
     end)
    (fun err => consoleError err;; ret false).

(** The body of [if (existingFileNode)]: the node is materialised again
    and compared with its previous generation. *)
Definition visitExisting (currentFileNode : list nat) : M unit :=
  n ← node currentFileNode;
  _createFile (fullPath n) (fileName n);;
  filesAreDifferent ← _fileHasBeenChangedFromOutside (fullPath n);
  if (filesAreDifferent : bool)
  then
    updateTree currentFileNode (Tree.setIconPath asteriskYellow);;
    _createFile (_getPrevFilePath (fullPath n)) ("compare." ++ fileName n);;
    _createFile (fullPath n) ("prev." ++ fileName n)
  else
    updateTree currentFileNode
      (Tree.setIconPath
         (match children n with
          | [] => ThemeFile
          | _ => ThemeFolder
          end)).

(** The [else] branch: a new node under [currentFileNode], with its three
    cache files; the result is the reference to the new node. *)
Definition visitNew (showNewFileLabel : bool)
           (fileWithPath fileOrFolderName : string)
           (currentFileNode : list nat) : M (list nat) :=
  parent ← node currentFileNode;
  let newNode := mkFileNode fileOrFolderName fileWithPath IconUnset [] in
  let i := length (children parent) in
  updateTree currentFileNode (Tree.pushChild newNode);;
  let currentFileNode := currentFileNode ++ [i] in
  _createFile fileWithPath fileOrFolderName;;
  _createFile fileWithPath ("prev." ++ fileOrFolderName);;
  (if showNewFileLabel
   then
     let compareFilePath :=
       Path.join [fileCachePath; Path.dirname fileWithPath;
                  ("compare." ++ fileOrFolderName)%string] in
     updateTree currentFileNode (Tree.setIconPath asteriskGreen);;
     Fs.writeFile compareFilePath []
   else
     _createFile fileWithPath ("compare." ++ fileOrFolderName));;
  mret currentFileNode.

(** The inner loop of [_populateOOXMLViewer]: one step per segment of the
    entry path, from [currentFileNode] down. *)
Fixpoint walkNames (showNewFileLabel : bool) (fileWithPath : string)
         (names : list string) (currentFileNode : list nat)
  : M (list nat) :=
  match names with
  | [] => mret currentFileNode
  | fileOrFolderName :: names' =>
      parent ← node currentFileNode;
      match Tree.findChild fileOrFolderName parent with
      | Some (i, _) =>
          let currentFileNode := currentFileNode ++ [i] in
          visitExisting currentFileNode;;
          walkNames showNewFileLabel fileWithPath names' currentFileNode
      | None =>
          currentFileNode ←
            visitNew showNewFileLabel fileWithPath fileOrFolderName
                     currentFileNode;
          walkNames showNewFileLabel fileWithPath names' currentFileNode
      end
  end.

(** A callback of [forEach] that is not awaited: what it throws ends that
    callback only. *)
Definition detached {A} (m : M A) : M (option A) :=
  tryCatch (a ← m; ret (Some a))
           (fun e => modify (logCall (UnhandledRejection e));; ret None).

(** The callbacks splice by the index they were started with, one after
    the other in the order they were started. *)
Fixpoint applySplices (i : nat) (results : list (FileNode * bool))
         (arr : list FileNode) : list FileNode :=
  match results with
  | [] => arr
  | (_, true) :: rest => applySplices (S i) rest (Tree.splice1 i arr)
  | (_, false) :: rest => applySplices (S i) rest arr
  end.

(** [arr.forEach(callback)] with what every callback leaves for its
    element; the callbacks run one after the other. *)
Definition forEachCollect {A B} (callback : A -> M B) : list A -> M (list B) :=
  fix each (l : list A) : M (list B) :=
    match l with
    | [] => mret []
    | a :: l' =>
        b ← callback a;
        rest ← each l';
        mret (b :: rest)
    end.

(** The callback of [node.children.forEach] in [_removeDeletedParts], for
    the child [n]: what becomes of [n], and whether the callback ends with
    [arr.splice(i, 1)].  [recur] is [_removeDeletedParts] itself. *)
Definition removeDeletedCallback (recur : FileNode -> M FileNode)
           (n : FileNode) : M (FileNode * bool) :=
  match n with
  | mkFileNode nName nFull nIcon nChildren =>
      let path := Path.join [fileCachePath; nFull] in
      fileNames ← gets (fun w => Zip.keys (zip w));
      if negb (Zip.includes fileNames nFull)
      then
        read ← detached (Fs.readFile path);
        match read with
        | None => mret (n, false)
        | Some b =>
            if JS.truthy (utf8Decode H b)
            then
              detached (Fs.writeFile (Path.join [fileCachePath; nFull]) []);;
              mret (Tree.setIconPath asteriskRed n, false)
            else
              deleted ← detached
                (Fs.delete path;;
                 Fs.delete
                   (Path.join [Path.dirname path;
                               ("prev." ++ Path.basename path)%string]);;
                 Fs.delete
                   (Path.join [Path.dirname path;
                               ("compare." ++ Path.basename path)%string]));
              mret (n, bool_decide (deleted = Some tt))
        end
      else
        match nChildren with
        | [] => mret (n, false)
        | _ =>
            ch ← forEachCollect recur nChildren;
            mret (mkFileNode nName nFull nIcon ch, false)
        end
  end.

(** [_removeDeletedParts(node)]: [node] with its children as the callbacks
    leave them. *)
Fixpoint _removeDeletedParts (nd : FileNode) : M FileNode :=
  match nd with
  | mkFileNode ndName ndFull ndIcon arr =>
      results ← forEachCollect (removeDeletedCallback _removeDeletedParts) arr;
      mret (mkFileNode ndName ndFull ndIcon
              (applySplices 0 results (map fst results)))
  end.

(** [_populateOOXMLViewer] *)
Definition _populateOOXMLViewer (files : JSZip) (showNewFileLabel : bool)
  : M unit :=
  forEachM (Zip.keys files) (fun fileWithPath =>
    match Zip.get files fileWithPath with
    | Some {| dir := true |} => ret tt
    | _ =>
        currentFileNode ←
          walkNames showNewFileLabel fileWithPath
                    (JS.split "/" fileWithPath) [];
        updateTree currentFileNode (Tree.setFullPath fileWithPath)
    end);;
  (if showNewFileLabel
   then
     r ← gets rootFileNode;
     r' ← _removeDeletedParts r;
     modify (setRootFileNode r')
   else ret tt).

(** [_resetOOXMLViewer] *)
Definition _resetOOXMLViewer : M unit :=
  tryCatch
    (modify (setZip []);;
     modify (setRootFileNode newFileNode);;
     present ← gets (Fs.existsSync fileCachePath);
     if (present : bool) then Fs.rimraf fileCachePath else ret tt)
    consoleError.

(** [viewContents]: the first load of a package *)
Definition viewContents (fsPath : string) : M unit :=
  tryCatch
    (modify (setOoxmlFilePath fsPath);;
     _resetOOXMLViewer;;
     bytes ← Fs.readFile fsPath;
     match loadAsync H bytes with
     | None => throw CorruptZip
     | Some z =>
         modify (fun w => setZip (zip w ++ z) w);;
         files ← gets zip;
         _populateOOXMLViewer files false;;
         Fs.createDirectory fileCachePath
     end)
    consoleError.

(** [_reloadOoxmlFile], run by the watcher when the package file changes;
    no part is open in an editor tab. *)
Definition _reloadOoxmlFile (filePath : string) : M unit :=
  bytes ← Fs.readFile filePath;
  match loadAsync H bytes with
  | None => throw CorruptZip
  | Some ooxmlZip =>
      modify (setZip ooxmlZip);;
      files ← gets zip;
      _populateOOXMLViewer files true
  end.

(** The entry a saved cache file stands for: what follows the cache
    folder name in its path, with forward slashes and no leading one. *)
Definition normalizedPathOf (fileName : string) : string :=
  let pathArr := JS.split cacheFolderName fileName in
  let normalizedPath := JS.backslashesToSlashes (JS.lastOf pathArr) in
  if JS.startsWith normalizedPath "/"
  then JS.substring1 normalizedPath else normalizedPath.

(** The compare file next to the previous generation of a saved file. *)
Definition savedCompareFile (fileName : string) : string :=
  Path.join [Path.dirname (_getPrevFilePath fileName);
             ("compare." ++ Path.basename fileName)%string].

(** [_updateOOXMLFile], run when a text document is saved *)
Definition _updateOOXMLFile (fileName : string) : M unit :=
  tryCatch
    (let prevFilePath :=
       if JS.truthy fileName then _getPrevFilePath fileName else "" in
     here ← gets (Fs.existsSync fileName);
     prevHere ← gets (Fs.existsSync prevFilePath);
     if JS.truthy fileName && here && JS.truthy prevFilePath && prevHere
     then
       stats ← Fs.stat fileName;
       let time := mtime stats in
       last ← gets (fun w => watchActions w !! fileName);
       if bool_decide (ftype stats <> FtDirectory)
          && bool_decide (last <> Some time)
       then
         modify (fun w =>
           setWatchActions (<[fileName := time]> (watchActions w)) w);;
         cur ← Fs.readFile fileName;
         prev ← Fs.readFile prevFilePath;
         if bool_decide (cur = prev) then ret tt
         else
           let normalizedPath := normalizedPathOf fileName in
           modify (fun w => setZip (Zip.put (zip w) normalizedPath cur) w);;
           zipFile ← gets (fun w => generateAsync H (zip w));
           target ← gets ooxmlFilePath;
           Fs.writeFile target zipFile;;
           Fs.writeFile (savedCompareFile fileName) prev;;
           Fs.writeFile prevFilePath cur
       else ret tt
     else ret tt)
    (fun err => ret tt).

End OOXMLViewer.

(** ** [OOXMLViewer]: the commands of the tree view *)

(** [commands.executeCommand('vscode.diff', leftUri, rightUri, title)]: the
    command [getDiff] has the editor run. *)
Inductive Command :=
| VscodeDiff (left right title : string).

Section OOXMLViewerCommands.

Context (H : Host).

(** [clear] *)
Definition clear : M unit := _resetOOXMLViewer H.

(** [getDiff]: the command it runs.  (What the editor does with the
    command is not part of the sources.) *)
Definition getDiff (file : FileNode) : Command :=
  let filePath :=
    Path.join [fileCachePath H; Path.dirname (fullPath file); fileName file] in
  let compareFilePath :=
    Path.join [fileCachePath H; Path.dirname (fullPath file);
               ("compare." ++ fileName file)%string] in
  let rightUri := filePath in
  let leftUri := compareFilePath in
  let title :=
    (Path.basename filePath ++ " ↔ " ++ Path.basename compareFilePath)%string in
  VscodeDiff leftUri rightUri title.

End OOXMLViewerCommands.

(** ** [OOXMLPackageFileWatcher]: the guard of the change handler

    [setupFileWatchers] keeps a flag [locked] next to the handler of
    [onDidChange].  The handler runs up to its [await] when a change is
    reported, and goes on after it when the promise of
    [openOOXMLPackage] is fulfilled; when the promise is rejected the rest
    of the handler is not run. *)
Module Watcher.

Record State := mkState {
  locked : bool;
  (** calls of [openOOXMLPackage] that have not settled yet *)
  opening : nat;
  (** calls of [openOOXMLPackage] made so far *)
  opens : nat
}.

Definition initial : State := mkState false 0 0.

Inductive Event :=
| Change        (** the package file has changed *)
| OpenFulfilled (** a pending [openOOXMLPackage] has ended *)
| OpenRejected  (** a pending [openOOXMLPackage] has thrown *).

Definition step (s : State) (ev : Event) : State :=
  match ev with
  | Change =>
      if locked s then s
      else mkState true (S (opening s)) (S (opens s))
  | OpenFulfilled =>
      match opening s with
      | O => s
      | S k => mkState false k (opens s)
      end
  | OpenRejected =>
      match opening s with
      | O => s
      | S k => mkState (locked s) k (opens s)
      end
  end.

Definition run (events : list Event) (s : State) : State :=
  fold_left step events s.

End Watcher.

(** ** A concrete host, for running the code on examples *)

Module Demo.

(** A byte format for packages: per entry the name, a 0 byte, the folder
    flag, then every content byte behind a 1 byte, and a 0 byte. *)
Fixpoint encodeData (b : Bytes) : Bytes :=
  match b with
  | [] => [x00]
  | c :: b' => x01 :: c :: encodeData b'
  end.

Fixpoint encode (z : JSZip) : Bytes :=
  match z with
  | [] => []
  | (name, o) :: z' =>
      list_byte_of_string name ++ [x00]
        ++ [if dir o then x01 else x00]
        ++ encodeData (data o) ++ encode z'
  end.

Inductive DecoderState :=
| InName (name : Bytes)
| AtFlag (name : Bytes)
| AtMark (name : Bytes) (isDir : bool) (content : Bytes)
| AtByte (name : Bytes) (isDir : bool) (content : Bytes).

Fixpoint decodeFrom (st : DecoderState) (acc : JSZip) (b : Bytes)
  : option JSZip :=
  match b with
  | [] => match st with
          | InName [] => Some (rev acc)
          | _ => None
          end
  | c :: b' =>
      match st with
      | InName name =>
          if bool_decide (c = x00) then decodeFrom (AtFlag name) acc b'
          else decodeFrom (InName (name ++ [c])) acc b'
      | AtFlag name =>
          decodeFrom (AtMark name (bool_decide (c = x01)) []) acc b'
      | AtMark name isDir content =>
          if bool_decide (c = x00)
          then decodeFrom (InName [])
                 ((string_of_list_byte name,
                   {| dir := isDir; data := content |}) :: acc) b'
          else decodeFrom (AtByte name isDir content) acc b'
      | AtByte name isDir content =>
          decodeFrom (AtMark name isDir (content ++ [c])) acc b'
      end
  end.

Definition decode (b : Bytes) : option JSZip := decodeFrom (InName []) [] b.

(** The decoder of UTF-8 as [Buffer.toString()] and [async('text')] have
    it: well-formed text is its own encoding, and every byte or truncated
    character that is not well-formed becomes U+FFFD. *)
Definition replacement : Bytes := [xef; xbf; xbd].

(** What a byte starts when no character is pending: what is put out, the
    bytes kept, how many more are needed, and the bounds of the next one. *)
Definition startByte (c : byte) : Bytes * (Bytes * nat * N * N) :=
  let n := Byte.to_N c in
  if (n <? 128)%N then ([c], ([], O, 128%N, 191%N))
  else if (194 <=? n)%N && (n <=? 223)%N then ([], ([c], 1%nat, 128%N, 191%N))
  else if (224 <=? n)%N && (n <=? 239)%N
  then ([], ([c], 2%nat, if (n =? 224)%N then 160%N else 128%N,
                         if (n =? 237)%N then 159%N else 191%N))
  else if (240 <=? n)%N && (n <=? 244)%N
  then ([], ([c], 3%nat, if (n =? 240)%N then 144%N else 128%N,
                         if (n =? 244)%N then 143%N else 191%N))
  else (replacement, ([], O, 128%N, 191%N)).

Fixpoint utf8From (pending : Bytes) (needed : nat) (lower upper : N)
         (b : Bytes) : Bytes :=
  match b with
  | [] => match needed with
          | O => []
          | S _ => replacement
          end
  | c :: b' =>
      match needed with
      | O =>
          let '(out, (pending', needed', lower', upper')) := startByte c in
          out ++ utf8From pending' needed' lower' upper' b'
      | S k =>
          let n := Byte.to_N c in
          if (lower <=? n)%N && (n <=? upper)%N
          then match k with
               | O => pending ++ c :: utf8From [] O 128%N 191%N b'
               | S _ => utf8From (pending ++ [c]) k 128%N 191%N b'
               end
          else
            let '(out, (pending', needed', lower', upper')) := startByte c in
            replacement ++ out ++ utf8From pending' needed' lower' upper' b'
      end
  end.

Definition decodeText (b : Bytes) : string :=
  string_of_list_byte (utf8From [] O 128%N 191%N b).

(** A formatter that puts every tag on a line of its own. *)
Fixpoint breakTags (s : string) : string :=
  match s with
  | EmptyString => ""
  | String c s' =>
      match c, s' with
      | ">"%char, String "<"%char _ =>
          String c (String "010"%char (breakTags s'))
      | _, _ => String c (breakTags s')
      end
  end.

Definition host : Host := {|
  cwd := "/w";
  platform := "linux";
  attrib := fun _ => inr "";
  formatXml := fun text => Some (breakTags text);
  utf8Decode := decodeText;
  utf8Encode := list_byte_of_string;
  loadAsync := decode;
  generateAsync := encode
|}.

Definition bytes (s : string) : Bytes := list_byte_of_string s.

Definition part (name content : string) : string * JSZipObject :=
  (name, {| dir := false; data := bytes content |}).

Definition folder (name : string) : string * JSZipObject :=
  (name, {| dir := true; data := [] |}).

Definition docPath : string := "/w/doc.docx".

(** Nothing opened yet: only the package is on disk. *)
Definition initial (package : JSZip) : World := {|
  files := {[ docPath := RegularFile (encode package) ]};
  mtimes := ∅;
  clock := 1;
  zip := [];
  rootFileNode := newFileNode;
  watchActions := ∅;
  ooxmlFilePath := "";
  trace := []
|}.

(** Another program rewrites the package; the watcher reloads it. *)
Definition modifiedOutside (package : JSZip) (w : World) : World :=
  exec (_reloadOoxmlFile host docPath)
       (setFiles (<[docPath := RegularFile (encode package)]> (files w)) w).

Definition opened (package : JSZip) : World :=
  exec (viewContents host docPath) (initial package).

Definition cacheFile (w : World) (relative : string) : option FsEntry :=
  files w !! (fileCachePath host ++ "/" ++ relative)%string.

(** What an editor leaves on disk when it saves [content] to [path]. *)
Definition editorWrites (path : string) (content : Bytes) (time : Z)
           (w : World) : World :=
  setMtimes (<[path := time]> (mtimes w))
    (setFiles (<[path := RegularFile content]> (files w)) w).

Definition inCache (relative : string) : string :=
  (fileCachePath host ++ "/" ++ relative)%string.

(** A package with an XML part and a binary part in one folder, and later
    states of it. *)
Definition package1 : JSZip :=
  [part "a/x.xml" "<?xml?><a><b/></a>"; part "a/y.bin" "AAA"].
Definition package2 : JSZip :=
  [part "a/x.xml" "<?xml?><a><c/></a>"; part "a/y.bin" "BBB"].
Definition package3 : JSZip :=
  [part "a/x.xml" "<?xml?><a><c/></a>"; part "a/y.bin" "CCC"].
Definition packageWithoutY : JSZip :=
  [part "a/x.xml" "<?xml?><a><b/></a>"].

(** A flat package, and the same without its second part. *)
Definition flatPackage : JSZip := [part "x.xml" "<?xml?><a/>"; part "y.bin" "AAA"].
Definition flatPackageWithoutY : JSZip := [part "x.xml" "<?xml?><a/>"].

(** The user saves a cache file from an editor tab. *)
Definition savedInEditor (path : string) (content : Bytes) (time : Z)
           (w : World) : World :=
  exec (_updateOOXMLFile host path) (editorWrites path content time w).

(** A Windows host on which [attrib] complains. *)
Definition windowsHost : Host := {|
  cwd := "/w";
  platform := "win32";
  attrib := fun _ => inr "Access denied";
  formatXml := fun text => Some (breakTags text);
  utf8Decode := decodeText;
  utf8Encode := list_byte_of_string;
  loadAsync := decode;
  generateAsync := encode
|}.

(** An XML text of more than 100000 characters. *)
Fixpoint padding (n : nat) : string :=
  match n with
  | O => ""
  | S k => String " " (padding k)
  end.

Definition largeXml : string :=
  ("<?xml?><a>" ++ padding (Z.to_nat 100000) ++ "</a>")%string.

Definition largePackage : JSZip := [part "big.xml" largeXml].

(** An XML text that is over that limit in bytes and under it in UTF-16 code
    units: 50000 letters of two bytes each. *)
Fixpoint accents (n : nat) : string :=
  match n with
  | O => ""
  | S k => String "195" (String "169" (accents k))
  end.

Definition accentedXml : string :=
  ("<?xml?><a>" ++ accents (Z.to_nat 50000) ++ "</a>")%string.

Definition accentedPackage : JSZip := [part "big.xml" accentedXml].

End Demo.

(** ** Vocabulary of the properties *)

Module PathShape.
Import Path.

Definition slashFree (s : string) : Prop :=
  Forall (fun c => JS.isSlash c = false) (chars s).

(** A segment that [normalize] keeps as it is. *)
Definition plain (s : string) : Prop :=
  slashFree s /\ s <> "" /\ s <> "." /\ s <> "..".

(** What [join] puts in front of a last plain segment. *)
Definition joinBase (x : string) : string :=
  if String.eqb x "" then ""
  else
    let isAbsolute := JS.startsWith x "/" in
    ((if isAbsolute then "/" else "")
     ++ match normalizeString (JS.split "/" x) (negb isAbsolute) with
        | [] => ""
        | segs => JS.joinWith "/" segs ++ "/"
        end)%string.

End PathShape.

Definition noWrite (calls : list HostCall) : Prop :=
  forall p, CallWriteFile p ∉ calls.

Definition noRead (calls : list HostCall) : Prop :=
  forall p, CallReadFile p ∉ calls.

(** [m] leaves the component [proj] of the state as it found it. *)
Definition keeps {A X} (proj : World -> X) (m : M A) : Prop :=
  forall w, proj (m w).2 = proj w.

(** [m] returns; nothing it throws escapes. *)
Definition returns {A} (m : M A) : Prop :=
  forall w, exists a, (m w).1 = Ok a.

(** The host calls touch neither the tree nor the zip. *)
Definition hostOnly {A} (m : M A) : Prop :=
  keeps rootFileNode m /\ keeps zip m.

(** The invariant of the data model as the specification words it: below
    [p], the [fullPath] of every node is its parent's, a slash, and its own
    name. *)
Fixpoint fullPathsFollowParent (p : FileNode) : bool :=
  match p with
  | mkFileNode _ pFull _ ch =>
      forallb (fun c =>
                 String.eqb (fullPath c) (pFull ++ "/" ++ fileName c)
                 && fullPathsFollowParent c) ch
  end.

(** What the walk keeps instead: the names met on the way from the root
    down to a node are the first segments of that node's [fullPath].
    [names] are the names down to [n], [n]'s own included. *)
Fixpoint namesLeadFullPaths (names : list string) (n : FileNode) : Prop :=
  match n with
  | mkFileNode _ _ _ ch =>
      (fix each (l : list FileNode) : Prop :=
         match l with
         | [] => True
         | c :: l' =>
             ((names ++ [fileName c]) `prefix_of` JS.split "/" (fullPath c)
              /\ namesLeadFullPaths (names ++ [fileName c]) c)
             /\ each l'
         end) ch
  end.

(** A node below the root, reached by [names]. *)
Definition nodeOk (names : list string) (n : FileNode) : Prop :=
  names `prefix_of` JS.split "/" (fullPath n) /\ namesLeadFullPaths names n.

(** The names of the nodes a reference passes through. *)
Fixpoint namesAlong (ref : list nat) (n : FileNode) : option (list string) :=
  match ref with
  | [] => Some []
  | i :: ref' =>
      match children n !! i with
      | Some c =>
          match namesAlong ref' c with
          | Some names => Some (fileName c :: names)
          | None => None
          end
      | None => None
      end
  end.

(** What [_removeDeletedParts] may do to a node: it keeps its name and
    path, and whatever paths its descendants carried. *)
Definition sameNodeFewerChildren (n n' : FileNode) : Prop :=
  fileName n' = fileName n /\ fullPath n' = fullPath n
  /\ forall names, namesLeadFullPaths names n -> namesLeadFullPaths names n'.

(** [m] returns a result related to [a] by [P] and touches only files. *)
Definition yields {A B} (P : A -> B -> Prop) (m : A -> M B) (a : A) : Prop :=
  forall w, exists b w',
    m a w = (Ok b, w') /\ P a b /\ zip w' = zip w
    /\ rootFileNode w' = rootFileNode w.

(** *** What [_createFile] and the detector do to the files, as functions *)

Section FileEffects.

Context (H : Host).

(** The [attrib] step fails (on Windows only). *)
Definition attribFails : bool :=
  JS.startsWith (platform H) "win"
  && match attrib H ("attrib +h " ++ fileCachePath H) with
     | inl _ => true
     | inr stderr => JS.truthy stderr
     end.

(** The bytes [_createFile] writes for [fullPath], if it comes to write:
    the entry of the zip, formatted when it is XML of moderate size; or,
    for XML only, the content of the cache file of that path when the zip
    has no such entry. *)
Definition materialise (z : JSZip) (fs : gmap string FsEntry)
           (fullPath : string) : option Bytes :=
  let file := Zip.file z fullPath in
  let text :=
    match file with
    | Some f => Some (utf8Decode H (data f))
    | None =>
        match fs !! Path.join [fileCachePath H; fullPath] with
        | Some (RegularFile b) => Some (utf8Decode H b)
        | _ => None
        end
    end in
  match text with
  | None => None
  | Some text =>
      if JS.startsWith text "<?xml"
      then
        if (Z.of_nat (JS.length text) <? 100000)%Z
        then match formatXml H text with
             | Some x => Some (utf8Encode H (if JS.truthy x then x else text))
             | None => None
             end
        else Some (utf8Encode H text)
      else match file with
           | Some f => Some (data f)
           | None => None
           end
  end.

Definition folderOf (fullPath : string) : string :=
  Path.join [fileCachePath H; Path.dirname fullPath].

Definition fileOf (fullPath fileName : string) : string :=
  Path.join [folderOf fullPath; fileName].

(** The files after [_createFile fullPath fileName]. *)
Definition createFileEffect (z : JSZip) (fs : gmap string FsEntry)
           (fullPath fileName : string) : gmap string FsEntry :=
  match Fs.mkdirp (folderOf fullPath) fs with
  | inl _ => fs
  | inr fs1 =>
      if attribFails then fs1
      else
        match materialise z fs1 fullPath with
        | None => fs1
        | Some b =>
            match Fs.written (fileOf fullPath fileName) b fs1 with
            | inl _ => fs1
            | inr fs2 => fs2
            end
        end
  end.

(** The answer of [_fileHasBeenChangedFromOutside]. *)
Definition changedFromOutside (fs : gmap string FsEntry)
           (fullPath : string) : bool :=
  match fs !! currentFile H fullPath, fs !! previousFile H fullPath with
  | Some (RegularFile b1), Some (RegularFile b2) =>
      negb (bool_decide (b1 = b2))
  | _, _ => false
  end.

End FileEffects.

(** *** A cache in step with the package *)

(** Every node below [n] satisfies [p]. *)
Fixpoint allBelow (p : FileNode -> bool) (n : FileNode) : bool :=
  match n with
  | mkFileNode _ _ _ ch => forallb (fun c => p c && allBelow p c) ch
  end.

(** The node the names lead to, by the search the walk uses. *)
Fixpoint findPath (names : list string) (n : FileNode) : option FileNode :=
  match names with
  | [] => Some n
  | name :: names' =>
      match Tree.findChild name n with
      | Some (_, c) => findPath names' c
      | None => None
      end
  end.

(** The tree with every icon taken off. *)
Fixpoint eraseIcons (n : FileNode) : FileNode :=
  match n with
  | mkFileNode name full _ ch => mkFileNode name full IconUnset (map eraseIcons ch)
  end.

(** Properties of nodes that do not look at icons or children. *)
Definition byNameAndPath (p : FileNode -> bool) : Prop :=
  forall n n', fileName n = fileName n' -> fullPath n = fullPath n' ->
               p n = p n'.

Section Quiet.

Context (H : Host).

(** Nothing is left to do for the node: materialising it again leaves every
    file as it is, its current and previous files do not differ, and its
    path is an entry of the zip. *)
Definition nodeQuiet (z : JSZip) (fs : gmap string FsEntry) (n : FileNode)
  : bool :=
  bool_decide (createFileEffect H z fs (fullPath n) (fileName n) = fs)
  && negb (changedFromOutside H fs (fullPath n))
  && Zip.includes (Zip.keys z) (fullPath n).

(** The walk skips the entry (a folder of the zip). *)
Definition skipped (z : JSZip) (e : string) : bool :=
  match Zip.get z e with
  | Some {| dir := true |} => true
  | _ => false
  end.

(** The walk for the entry finds a node at every step, and the last one
    carries the entry's path. *)
Definition entryPresent (root : FileNode) (e : string) : bool :=
  match findPath (JS.split "/" e) root with
  | Some leaf => String.eqb (fullPath leaf) e
  | None => false
  end.

(** The cache is in step with the package: every node is quiet and every
    entry has its node. *)
Definition quiet (w : World) : bool :=
  allBelow (nodeQuiet (zip w) (files w)) (rootFileNode w)
  && forallb (fun e => skipped (zip w) e || entryPresent (rootFileNode w) e)
             (Zip.keys (zip w)).

End Quiet.

(** *** Further vocabulary *)

(** The folder is there whenever something is in it. *)
Definition folderHoldsItsFiles (root : string) (fs : gmap string FsEntry)
  : Prop :=
  fs !! root = None -> forall p, Fs.under root p = true -> fs !! p = None.

(** The previous and compare files as [_removeDeletedParts] names them,
    from the path of the cache file. *)
Definition prevBeside (path : string) : string :=
  Path.join [Path.dirname path; ("prev." ++ Path.basename path)%string].
Definition compareBeside (path : string) : string :=
  Path.join [Path.dirname path; ("compare." ++ Path.basename path)%string].

(** New nodes for [name] and the names below it, each with the path of the
    entry they are made for. *)
Fixpoint freshChain (e : string) (name : string) (names : list string)
  : FileNode :=
  mkFileNode name e IconUnset
    match names with
    | [] => []
    | name' :: rest => [freshChain e name' rest]
    end.

(** The entry [e] put into the tree below [n] along [names]: a child of the
    right name is entered, a missing one is added behind its siblings, and
    the node the names end at takes [e] as its path. *)
Fixpoint insertNames (e : string) (names : list string) (n : FileNode)
  : FileNode :=
  match names with
  | [] => Tree.setFullPath e n
  | name :: names' =>
      match Tree.findChild name n with
      | Some (i, c) =>
          Tree.setChildren (<[i := insertNames e names' c]> (children n)) n
      | None => Tree.pushChild (freshChain e name names') n
      end
  end.

Definition insertEntry (t : FileNode) (e : string) : FileNode :=
  insertNames e (JS.split "/" e) t.

(** The entries of [files] that are no folders, put into the tree in their
    order. *)
Definition insertParts (files : JSZip) (t : FileNode) : FileNode :=
  fold_left (fun t e => if skipped files e then t else insertEntry t e)
            (Zip.keys files) t.

(** [m] keeps [Inv] where it holds. *)
Definition preserves {A} (Inv : World -> Prop) (m : M A) : Prop :=
  forall w, Inv w -> Inv (m w).2.

(** The stack of [normalizeString], top first: plain segments above
    [".."] segments, which are there only when the path is relative. *)
Fixpoint stackOk (allowAboveRoot : bool) (acc : list string) : Prop :=
  match acc with
  | [] => True
  | top :: below =>
      (PathShape.plain top /\ stackOk allowAboveRoot below)
      \/ (top = ".." /\ allowAboveRoot = true
          /\ Forall (fun s => s = "..") below)
  end.

(** A normalized path with a last segment: what [join] returns when
    something is left of its arguments, without a trailing separator. *)
Definition normalPath (x : string) : Prop :=
  exists (isAbsolute : bool) (segs : list string),
    segs <> [] /\ stackOk (negb isAbsolute) (rev segs)
    /\ x = ((if isAbsolute then "/" else "") ++ JS.joinWith "/" segs)%string.

(** [s.includes(sep)] *)
Fixpoint occursIn (sep s : string) : bool :=
  match s with
  | EmptyString => false
  | String _ s' => String.prefix sep s || occursIn sep s'
  end.

Definition notDot (c : ascii) : Prop := c <> "."%char.

(** The next [k] characters are there and none is a dot. *)
Fixpoint noDotAhead (k : nat) (s : string) : Prop :=
  match k with
  | O => True
  | S k' =>
      match s with
      | EmptyString => False
      | String c s' => notDot c /\ noDotAhead k' s'
      end
  end.

Definition folderNameTail : string := JS.substring1 cacheFolderName.

(** [PathShape.plain], decided. *)
Definition plainb (s : string) : bool :=
  forallb (fun c => negb (JS.isSlash c)) (Path.chars s)
  && negb (String.eqb s "") && negb (String.eqb s ".")
  && negb (String.eqb s "..").

(** An entry path made of plain segments. *)
Definition plainPathb (e : string) : bool := forallb plainb (JS.split "/" e).

(** A node whose cache files are inside the cache folder. *)
Definition safeNode (n : FileNode) : bool :=
  plainPathb (fullPath n) && plainb (fileName n).

Section InsideTheCacheFolder.
Context (H : Host) (fs0 : gmap string FsEntry).

(** The nodes are safe, and outside the cache folder nothing has changed
    since the files were [fs0], but that folders above the cache folder
    were made where they were missing. *)
Definition insideInv (w : World) : Prop :=
  allBelow safeNode (rootFileNode w) = true
  /\ forall q, Fs.under (fileCachePath H) q = false ->
               files w !! q = fs0 !! q
               \/ (fs0 !! q = None /\ files w !! q = Some Directory
                   /\ q ∈ Fs.above (fileCachePath H)).

End InsideTheCacheFolder.

(** The children of [nd], the children of their children's children, and
    so on (the nodes at every second level below [nd]) carry paths that
    are entries of the zip. *)
Fixpoint oddLevelsPresent (z : JSZip) (nd : FileNode) : bool :=
  match nd with
  | mkFileNode _ _ _ ch =>
      forallb
        (fun n =>
           Zip.includes (Zip.keys z) (fullPath n)
           && match n with
              | mkFileNode _ _ _ grandchildren =>
                  forallb (oddLevelsPresent z) grandchildren
              end)
        ch
  end.

(** No two children of the node have the same name. *)
Definition siblingsDistinct (n : FileNode) : bool :=
  bool_decide (NoDup (map fileName (children n))).

(** *** The cache file layout, in the words of the specification

    Under the cache root the entries mirror the folder structure of the
    package, and a part has up to three files named [<name>],
    [prev.<name>] and [compare.<name>]. *)

(** The last segment of an entry path. *)
Definition partName (e : string) : string := List.last (JS.split "/" e) "".

(** The file of the part [e] for [role], which is [""], ["prev."] or
    ["compare."]. *)
Definition generationFile (H : Host) (role e : string) : string :=
  (fileCachePath H ++ "/"
   ++ JS.joinWith "/" (removelast (JS.split "/" e) ++ [role ++ partName e]))%string.

Definition generationFiles (H : Host) (e : string) : list string :=
  [generationFile H "" e; generationFile H "prev." e;
   generationFile H "compare." e].

(** The entry [JSZip] adds for a folder of a path. *)
Definition folderEntry : JSZipObject := {| dir := true; data := [] |}.

(** *** A pass as a sequence of visits *)

(** A step of the walk: a node that is there is visited again, or a node
    is made; what counts for the files are the path and the name the node
    carries. *)
Inductive Visit :=
| VisitExisting (fullPath fileName : string)
| VisitNew (fullPath fileName : string).

Global Instance Visit_eq_decision : EqDecision Visit.
Proof. solve_decision. Defined.

(** The visits of the walk for the entry [e] along [names], from [n]. *)
Fixpoint walkVisits (e : string) (names : list string) (n : FileNode)
  : list Visit :=
  match names with
  | [] => []
  | name :: names' =>
      match Tree.findChild name n with
      | Some (_, c) =>
          VisitExisting (fullPath c) (fileName c) :: walkVisits e names' c
      | None => map (VisitNew e) (name :: names')
      end
  end.

(** The visits of a pass over the entries [keys] of [files], from the
    tree [t]. *)
Fixpoint passVisits (files : JSZip) (keys : list string) (t : FileNode)
  : list Visit :=
  match keys with
  | [] => []
  | e :: keys' =>
      if skipped files e then passVisits files keys' t
      else walkVisits e (JS.split "/" e) t
           ++ passVisits files keys' (insertEntry t e)
  end.

Section VisitEffects.

Context (H : Host).

(** The files after the visit of a node that is there. *)
Definition existingEffect (z : JSZip) (fs : gmap string FsEntry)
           (fullPath fileName : string) : gmap string FsEntry :=
  let fs1 := createFileEffect H z fs fullPath fileName in
  if changedFromOutside H fs1 fullPath
  then
    createFileEffect H z
      (createFileEffect H z fs1 (_getPrevFilePath fullPath)
         ("compare." ++ fileName))
      fullPath ("prev." ++ fileName)
  else fs1.

(** The files after a visit, and the error that ends the pass there (the
    write of an empty compare file is the one step that is not guarded). *)
Definition visitEffect (showNewFileLabel : bool) (z : JSZip)
           (fs : gmap string FsEntry) (v : Visit)
  : gmap string FsEntry * option Err :=
  match v with
  | VisitExisting p n => (existingEffect z fs p n, None)
  | VisitNew p n =>
      let fs2 :=
        createFileEffect H z (createFileEffect H z fs p n)
                         p ("prev." ++ n) in
      if showNewFileLabel
      then match Fs.written (compareFile H p n) [] fs2 with
           | inl e => (fs2, Some e)
           | inr fs3 => (fs3, None)
           end
      else (createFileEffect H z fs2 p ("compare." ++ n), None)
  end.

Fixpoint visitsEffect (showNewFileLabel : bool) (z : JSZip)
         (vs : list Visit) (fs : gmap string FsEntry)
  : gmap string FsEntry * option Err :=
  match vs with
  | [] => (fs, None)
  | v :: vs' =>
      match visitEffect showNewFileLabel z fs v with
      | (fs1, None) => visitsEffect showNewFileLabel z vs' fs1
      | (fs1, Some e) => (fs1, Some e)
      end
  end.

(** Every path a call of [_createFile] can change: the file, the folder,
    and the folders above them. *)
Definition createFilePaths (fullPath fileName : string) : list string :=
  let t := fileOf H fullPath fileName in
  let d := folderOf H fullPath in
  t :: Fs.above t ++ d :: Fs.above d.

(** The paths a visit can write a file to. *)
Definition visitFiles (v : Visit) : list string :=
  match v with
  | VisitExisting p n =>
      [fileOf H p n;
       fileOf H (_getPrevFilePath p) ("compare." ++ n);
       fileOf H p ("prev." ++ n)]
  | VisitNew p n =>
      [fileOf H p n; fileOf H p ("prev." ++ n);
       fileOf H p ("compare." ++ n); compareFile H p n]
  end.

(** Every path a visit can change. *)
Definition visitPaths (v : Visit) : list string :=
  match v with
  | VisitExisting p n =>
      createFilePaths p n
      ++ createFilePaths (_getPrevFilePath p) ("compare." ++ n)
      ++ createFilePaths p ("prev." ++ n)
  | VisitNew p n =>
      createFilePaths p n ++ createFilePaths p ("prev." ++ n)
      ++ createFilePaths p ("compare." ++ n)
      ++ compareFile H p n :: Fs.above (compareFile H p n)
  end.

Definition disjointb (l k : list string) : bool :=
  forallb (fun p => negb (existsb (String.eqb p) k)) l.

(** The folder of the part and the folders above it. *)
Definition partFolders (e : string) : list string :=
  folderOf H e :: Fs.above (folderOf H e).

(** The visit changes none of the three files of the part [e] and puts no
    file where one of its folders is. *)
Definition leavesAlone (e : string) (v : Visit) : bool :=
  disjointb (generationFiles H e) (visitPaths v)
  && disjointb (partFolders e) (visitFiles v).

(** Among the visits [vs] the part [e] is handled by [v0], once, and the
    other visits leave it alone. *)
Definition handledOnceBy (e : string) (v0 : Visit) (vs : list Visit) : bool :=
  bool_decide (length (filter (fun v => v = v0) vs) = 1)
  && forallb (fun v => bool_decide (v = v0) || leavesAlone e v) vs.

(** The removal of deleted parts has nothing to do at the node, or what it
    empties or deletes there is neither [q] nor something [q] is in. *)
Definition sparesPath (z : JSZip) (q : string) (n : FileNode) : bool :=
  Zip.includes (Zip.keys z) (fullPath n)
  || (let path := currentFile H (fullPath n) in
      negb (Fs.under path q) && negb (Fs.under (prevBeside path) q)
      && negb (Fs.under (compareBeside path) q)).

(** The removal spares the three files of the part [e] at the node. *)
Definition sparedAt (z : JSZip) (e : string) (n : FileNode) : bool :=
  forallb (fun k => sparesPath z k n) (generationFiles H e).

(** The pass over [files] from the tree [t] handles the part [e] by the
    visit [v0], and nothing else in the pass touches the files of [e]. *)
Definition handledBy (files : JSZip) (t : FileNode) (e : string)
           (v0 : Visit) : bool :=
  handledOnceBy e v0 (passVisits files (Zip.keys files) t)
  && allBelow (sparedAt files e) (insertParts files t).

(** The files of the part can be written: none of them is a folder, and
    neither the folder of the part nor a folder above it is a file. *)
Definition writable (fs : gmap string FsEntry) (e : string) : bool :=
  forallb (fun k => negb (bool_decide (fs !! k = Some Directory)))
          (generationFiles H e)
  && forallb (fun q => match fs !! q with
                       | Some (RegularFile _) => false
                       | _ => true
                       end)
             (partFolders e).

(** From [fs] to [fs'] the path [q] keeps what it had, or it was missing and
    a folder was made there. *)
Definition foldersOnly (fs fs' : gmap string FsEntry) (q : string) : Prop :=
  fs' !! q = fs !! q \/ (fs !! q = None /\ fs' !! q = Some Directory).

(** The files of the part [e] are in step with what its entry materialises
    to: the current file holds these bytes in a folder that is there, and
    the previous file holds them too or cannot be read. *)
Definition settled (fs : gmap string FsEntry) (e : string) (m : Bytes)
  : Prop :=
  fs !! generationFile H "" e = Some (RegularFile m)
  /\ (fs !! generationFile H "prev." e = Some (RegularFile m)
      \/ forall b, fs !! generationFile H "prev." e <> Some (RegularFile b))
  /\ fs !! folderOf H e = Some Directory.

End VisitEffects.

(** * Properties *)

(** ** Running a computation *)

Arguments Path.join : simpl never.
Arguments Path.dirname : simpl never.
Arguments Path.basename : simpl never.
Arguments Path.normalize : simpl never.
Arguments _getPrevFilePath : simpl never.
Arguments fileCachePath : simpl never.
Arguments JS.split : simpl never.

Ltac unfold_io :=
  unfold mbind, M_bind, mret, M_ret, bind, ret, throw, tryCatch, gets,
    modify, exec in *.

(** Case analysis on what is found at a path, replayed on the later reads
    of the same path. *)
Ltac case_lookup :=
  match goal with
  | |- context [files ?w !! ?p] =>
      let E := fresh "E" in
      destruct (files w !! p) as [[?|]|] eqn:E; simpl; rewrite ?E; simpl
  end.

Section Detector.

Context (H : Host).

(** What the detector answers, and that it only reads. *)
Lemma detector_run (fullPath : string) (w : World) :
  let r := _fileHasBeenChangedFromOutside H fullPath w in
  r.1 = Ok (match files w !! currentFile H fullPath,
                  files w !! previousFile H fullPath with
            | Some (RegularFile b1), Some (RegularFile b2) =>
                negb (bool_decide (b1 = b2))
            | _, _ => false
            end)
  /\ files r.2 = files w /\ zip r.2 = zip w
  /\ rootFileNode r.2 = rootFileNode w.
Proof.
  unfold _fileHasBeenChangedFromOutside, currentFile, previousFile.
  unfold Fs.stat, Fs.readFile, consoleError. unfold_io. simpl.
  repeat case_lookup; auto.
  all: repeat case_bool_decide; simpl; auto; congruence.
Qed.

End Detector.

(** ** Facts about paths *)

Module PathFacts.
Import Path PathShape.


Lemma append_cons (c : ascii) (a b : string) :
  (String c a ++ b)%string = String c (a ++ b).
Proof. reflexivity. Qed.

Lemma append_nil_l (b : string) : ("" ++ b)%string = b.
Proof. reflexivity. Qed.

Lemma append_nil_r (a : string) : (a ++ "")%string = a.
Proof. induction a as [|c a IH]; [reflexivity|]. now rewrite append_cons, IH. Qed.

Lemma chars_app (a b : string) : chars (a ++ b) = (chars a ++ chars b)%list.
Proof.
  induction a as [|c a IH]; [reflexivity|].
  rewrite append_cons. simpl. now rewrite <- IH.
Qed.

Lemma str_chars (s : string) : str (chars s) = s.
Proof. apply string_of_list_ascii_of_string. Qed.

Lemma chars_str (l : list ascii) : chars (str l) = l.
Proof. apply list_ascii_of_string_of_list_ascii. Qed.

Lemma chars_inj (a b : string) : chars a = chars b -> a = b.
Proof. intros E. rewrite <- (str_chars a), <- (str_chars b). now rewrite E. Qed.

Lemma app_inv_tail_str (a b t : string) : (a ++ t = b ++ t)%string -> a = b.
Proof.
  intros E. apply chars_inj. apply (f_equal chars) in E.
  rewrite !chars_app in E. now apply app_inv_tail in E.
Qed.

Lemma string_app_assoc (a b c : string) :
  ((a ++ b) ++ c = a ++ (b ++ c))%string.
Proof.
  induction a as [|x a IH]; [reflexivity|].
  rewrite !append_cons. now rewrite IH.
Qed.

Lemma split_cons (c : ascii) (s : string) :
  JS.split "/" (String c s) =
  if JS.isSlash c then "" :: JS.split "/" s
  else match JS.split "/" s with
       | h :: t => String c h :: t
       | [] => [String c ""]
       end.
Proof.
  unfold JS.split, JS.isSlash. cbn [JS.splitFrom String.prefix String.length].
  destruct (ascii_dec "/" c) as [<-|Hne].
  - now destruct s.
  - destruct (Ascii.eqb c "/") eqn:E; [|reflexivity].
    apply Ascii.eqb_eq in E. congruence.
Qed.

Lemma split_nonempty (s : string) : JS.split "/" s <> [].
Proof.
  induction s as [|c s IH]; [discriminate|].
  rewrite split_cons. destruct (JS.isSlash c); [discriminate|].
  destruct (JS.split "/" s); [contradiction | discriminate].
Qed.

Lemma split_slashFree (n : string) : slashFree n -> JS.split "/" n = [n].
Proof.
  unfold slashFree. induction n as [|c n IH]; intros Hn; [reflexivity|].
  change (chars (String c n)) with (c :: chars n) in Hn.
  inversion Hn as [|? ? Hc Hrest]; subst.
  rewrite split_cons, Hc, IH by assumption. reflexivity.
Qed.

Lemma split_app_slash (x n : string) :
  JS.split "/" (x ++ "/" ++ n) = (JS.split "/" x ++ JS.split "/" n)%list.
Proof.
  induction x as [|c x IH].
  - change ("" ++ "/" ++ n)%string with (String "/" n).
    rewrite split_cons. reflexivity.
  - rewrite append_cons, !split_cons. destruct (JS.isSlash c).
    + simpl. now rewrite <- IH.
    + rewrite IH.
      destruct (JS.split "/" x) eqn:E; [now apply split_nonempty in E|].
      reflexivity.
Qed.

Lemma normStep_plain (b : bool) (acc : list string) (n : string) :
  plain n -> normStep b acc n = n :: acc.
Proof.
  intros (_ & H1 & H2 & H3). unfold normStep.
  apply String.eqb_neq in H1, H2, H3. now rewrite H1, H2, H3.
Qed.

Lemma normalizeString_snoc (segs : list string) (n : string) (b : bool) :
  plain n ->
  normalizeString (segs ++ [n]) b = (normalizeString segs b ++ [n])%list.
Proof.
  intros Hn. unfold normalizeString.
  rewrite fold_left_app. simpl. now rewrite normStep_plain.
Qed.

Lemma joinWith_snoc (l : list string) (n : string) :
  JS.joinWith "/" (l ++ [n]) =
  match l with
  | [] => n
  | _ => (JS.joinWith "/" l ++ "/" ++ n)%string
  end.
Proof.
  induction l as [|a l IH]; [reflexivity|].
  destruct l as [|a' l]; [reflexivity|].
  change (JS.joinWith "/" ((a :: a' :: l) ++ [n]))
    with (a ++ "/" ++ JS.joinWith "/" ((a' :: l) ++ [n]))%string.
  rewrite IH.
  change (JS.joinWith "/" (a :: a' :: l))
    with (a ++ "/" ++ JS.joinWith "/" (a' :: l))%string.
  now rewrite !string_app_assoc.
Qed.

Lemma endsWithSlash_app (x n : string) :
  slashFree n -> n <> "" -> endsWithSlash (x ++ n) = false.
Proof.
  intros Hn Hne. unfold endsWithSlash. rewrite chars_app, rev_app_distr.
  unfold slashFree in Hn.
  destruct (chars n) as [|c l] eqn:E.
  - exfalso. apply Hne. apply chars_inj. now rewrite E.
  - apply Forall_rev in Hn.
    destruct (rev (c :: l)) as [|d r] eqn:Er.
    + apply (f_equal (@length _)) in Er. rewrite length_rev in Er. discriminate.
    + simpl. now inversion Hn.
Qed.

Lemma startsWith_cons (c : ascii) (s : string) :
  JS.startsWith (String c s) "/" = JS.isSlash c.
Proof.
  unfold JS.startsWith, JS.isSlash. cbn [String.prefix].
  assert (He : String.prefix "" s = true) by now destruct s.
  rewrite He. destruct (ascii_dec "/" c) as [<-|Hne]; [reflexivity|].
  symmetry. apply Ascii.eqb_neq. congruence.
Qed.

Lemma startsWith_app (x y : string) :
  x <> "" -> JS.startsWith (x ++ y) "/" = JS.startsWith x "/".
Proof.
  destruct x as [|a x]; [congruence|]. intros _.
  now rewrite append_cons, !startsWith_cons.
Qed.


Lemma normalize_plain (n : string) : plain n -> normalize n = n.
Proof.
  intros Hn. pose proof Hn as (Hs & H1 & H2 & H3). unfold normalize.
  apply String.eqb_neq in H1 as H1'. rewrite H1'.
  assert (Habs : JS.startsWith n "/" = false).
  { destruct n as [|c n]; [congruence|]. unfold slashFree in Hs.
    change (chars (String c n)) with (c :: chars n) in Hs.
    inversion Hs as [|? ? Hc _]; subst. now rewrite startsWith_cons. }
  rewrite Habs. rewrite split_slashFree by assumption.
  change [n] with ([] ++ [n])%list. rewrite normalizeString_snoc by assumption.
  change (normalizeString [] (negb false)) with (@nil string).
  cbn [app JS.joinWith]. rewrite H1'.
  pose proof (endsWithSlash_app "" n Hs H1) as He.
  rewrite append_nil_l in He. rewrite He.
  now rewrite append_nil_l, append_nil_r.
Qed.

Lemma truthy_true (s : string) : JS.truthy s = true <-> s <> "".
Proof.
  unfold JS.truthy. rewrite negb_true_iff. apply String.eqb_neq.
Qed.

Lemma join_cons_truthy (x : string) (l : list string) :
  x <> "" ->
  join (x :: l) =
  normalize (JS.joinWith "/" (x :: filter (fun a => JS.truthy a = true) l)).
Proof.
  intros Hx. unfold join. rewrite filter_cons.
  destruct (decide (JS.truthy x = true)) as [_|Hn]; [reflexivity|].
  exfalso. apply Hn. now apply truthy_true.
Qed.

Lemma join_cons_empty (l : list string) : join ("" :: l) = join l.
Proof. unfold join. rewrite filter_cons. reflexivity. Qed.

Lemma join2_plain (x n : string) :
  plain n -> join [x; n] = (joinBase x ++ n)%string.
Proof.
  intros Hn. pose proof Hn as (Hs & H1 & H2 & H3).
  assert (Hfn : filter (fun a => JS.truthy a = true) [n] = [n]).
  { rewrite filter_cons.
    destruct (decide (JS.truthy n = true)) as [_|Hf]; [reflexivity|].
    exfalso. apply Hf. now apply truthy_true. }
  unfold joinBase. destruct (String.eqb x "") eqn:Ex.
  - apply String.eqb_eq in Ex. subst x. rewrite join_cons_empty.
    rewrite join_cons_truthy by assumption.
    rewrite filter_nil. cbn [JS.joinWith]. rewrite append_nil_l.
    now apply normalize_plain.
  - apply String.eqb_neq in Ex. rewrite join_cons_truthy by assumption.
    rewrite Hfn.
    change (JS.joinWith "/" [x; n]) with (x ++ "/" ++ n)%string.
    unfold normalize.
    assert (Hnz : forall a : string, (a ++ n)%string <> "").
    { intros a E. apply (f_equal chars) in E. rewrite chars_app in E.
      apply app_eq_nil in E as [_ E]. apply H1. now apply chars_inj. }
    pose proof (Hnz (x ++ "/")%string) as Hne.
    rewrite string_app_assoc in Hne.
    apply String.eqb_neq in Hne. rewrite Hne.
    rewrite startsWith_app by assumption.
    rewrite split_app_slash, (split_slashFree n) by assumption.
    rewrite normalizeString_snoc by assumption.
    rewrite joinWith_snoc.
    pose proof (endsWithSlash_app (x ++ "/") n Hs H1) as He.
    rewrite string_app_assoc in He. rewrite He. clear He.
    set (segs := normalizeString (JS.split "/" x) (negb (JS.startsWith x "/"))).
    set (pre := if JS.startsWith x "/" then "/" else "").
    destruct segs as [|s0 segs'].
    + apply String.eqb_neq in H1 as H1'. rewrite H1'.
      now rewrite !append_nil_r.
    + set (j := JS.joinWith "/" (s0 :: segs')).
      pose proof (Hnz (j ++ "/")%string) as Hj.
      rewrite string_app_assoc in Hj. apply String.eqb_neq in Hj.
      rewrite Hj. now rewrite append_nil_r, !string_app_assoc.
Qed.

Lemma takeWhile_notSlash (l : list ascii) :
  Forall (fun c => JS.isSlash c = false) (takeWhile notSlash l).
Proof.
  induction l as [|c l IH]; simpl; [constructor|].
  unfold notSlash at 1. destruct (JS.isSlash c) eqn:E; simpl; [constructor|].
  now constructor.
Qed.

Lemma basename_slashFree (path : string) : slashFree (basename path).
Proof.
  unfold slashFree, basename. rewrite chars_str.
  apply Forall_rev. apply takeWhile_notSlash.
Qed.

Lemma slashFree_app (a b : string) :
  slashFree a -> slashFree b -> slashFree (a ++ b).
Proof.
  unfold slashFree. rewrite chars_app. intros Ha Hb.
  apply Forall_app. now split.
Qed.

Lemma prefixed_plain (role b : string) (c : ascii) (role' : string) :
  role = String c role' -> c <> "."%char ->
  slashFree role -> slashFree b -> plain (role ++ b).
Proof.
  intros -> Hc Hr Hb. split; [now apply slashFree_app|].
  rewrite append_cons. repeat split; intros E; inversion E; congruence.
Qed.

Lemma compare_plain (b : string) : slashFree b -> plain ("compare." ++ b).
Proof.
  intros Hb. apply (prefixed_plain _ _ "c"%char "ompare."); auto.
  all: try discriminate.
  all: unfold slashFree; simpl; repeat constructor.
Qed.

Lemma prev_plain (b : string) : slashFree b -> plain ("prev." ++ b).
Proof.
  intros Hb. apply (prefixed_plain _ _ "p"%char "rev."); auto.
  all: try discriminate.
  all: unfold slashFree; simpl; repeat constructor.
Qed.

(** The two role prefixes never produce the same file name. *)
Lemma compare_ne_prev (x y b : string) :
  (x ++ "compare." ++ b)%string <> (y ++ "prev." ++ b)%string.
Proof.
  intros E. rewrite <- !string_app_assoc in E. apply app_inv_tail_str in E.
  apply (f_equal (fun s => rev (chars s))) in E.
  rewrite !chars_app, !rev_app_distr in E. simpl in E. discriminate.
Qed.

Lemma format_shape (d b : string) :
  exists pre, format d b = (pre ++ b)%string.
Proof.
  unfold format. destruct (JS.truthy d).
  - exists (d ++ "/")%string. now rewrite string_app_assoc.
  - now exists "".
Qed.

End PathFacts.

(** *** Splitting and joining *)

Section SplitJoin.

Lemma joinWith_cons2 (sep p q : string) (rest : list string) :
  JS.joinWith sep (p :: q :: rest)
  = (p ++ sep ++ JS.joinWith sep (q :: rest))%string.
Proof. reflexivity. Qed.

Lemma joinWith_split (s : string) : JS.joinWith "/" (JS.split "/" s) = s.
Proof.
  induction s as [|c s IH]; [reflexivity|].
  rewrite PathFacts.split_cons.
  pose proof (PathFacts.split_nonempty s) as Hne.
  destruct (JS.split "/" s) as [|h t] eqn:E; [congruence|].
  destruct (JS.isSlash c) eqn:Ec.
  - apply Ascii.eqb_eq in Ec. subst c.
    rewrite joinWith_cons2, IH. reflexivity.
  - destruct t as [|h' t].
    + simpl in *. now rewrite IH.
    + rewrite joinWith_cons2 in *. rewrite PathFacts.append_cons.
      now rewrite IH.
Qed.

Lemma split_inj (a b : string) : JS.split "/" a = JS.split "/" b -> a = b.
Proof.
  intros E. rewrite <- (joinWith_split a), <- (joinWith_split b). now rewrite E.
Qed.

End SplitJoin.

(** ** Folders and writes *)

Module FsFacts.
Import Path PathShape PathFacts.

Lemma foldersAlong_app (a : string) :
  forall pre b,
    Fs.foldersAlong pre (a ++ b)
    = Fs.foldersAlong pre a ++ Fs.foldersAlong (pre ++ a) b.
Proof.
  induction a as [|c a IH]; intros pre b.
  - simpl. now rewrite append_nil_r.
  - rewrite append_cons. cbn [Fs.foldersAlong]. rewrite IH.
    replace ((pre ++ String c "") ++ a)%string with (pre ++ String c a)%string
      by (now rewrite string_app_assoc).
    destruct (JS.isSlash c && JS.truthy pre); reflexivity.
Qed.

Lemma foldersAlong_slashFree (n : string) :
  slashFree n -> forall pre, Fs.foldersAlong pre n = [].
Proof.
  induction n as [|c n IH]; intros Hn pre; [reflexivity|].
  unfold slashFree in Hn. cbn [chars list_ascii_of_string] in Hn.
  inversion Hn as [|? ? Hc Hrest]; subst.
  cbn [Fs.foldersAlong]. rewrite Hc. simpl. now apply IH.
Qed.

(** The folders above a path with a last segment. *)
Lemma above_last_segment (x n : string) :
  x <> "" -> slashFree n -> Fs.above (x ++ "/" ++ n) = x :: Fs.above x.
Proof.
  intros Hx Hn. unfold Fs.above.
  rewrite foldersAlong_app. rewrite append_nil_l.
  change ("/" ++ n)%string with (String "/" n).
  cbn [Fs.foldersAlong]. rewrite (proj2 (truthy_true x) Hx).
  change (JS.isSlash "/") with true. cbn [andb].
  rewrite (foldersAlong_slashFree n Hn).
  rewrite rev_app_distr. reflexivity.
Qed.

Lemma foldersAlong_spec (s : string) :
  forall pre q,
    q ∈ Fs.foldersAlong pre s <->
    q <> "" /\ exists a b, s = (a ++ "/" ++ b)%string /\ q = (pre ++ a)%string.
Proof.
  induction s as [|c s IH]; intros pre q.
  - simpl. split; [intros Hin; inversion Hin|].
    intros (_ & a & b & E & _). destruct a; discriminate.
  - cbn [Fs.foldersAlong].
    assert (Hrest : q ∈ Fs.foldersAlong (pre ++ String c "") s <->
              q <> "" /\ exists a b, s = (a ++ "/" ++ b)%string
                                     /\ q = (pre ++ String c a)%string).
    { rewrite IH. split; intros (Hq & a & b & E & Eq); split; auto;
        exists a, b; split; auto.
      - now rewrite Eq, string_app_assoc.
      - now rewrite Eq, string_app_assoc. }
    destruct (JS.isSlash c) eqn:Ec; cbn [andb].
    + assert (c = "/"%char) by (now apply Ascii.eqb_eq in Ec). subst c.
      destruct (JS.truthy pre) eqn:Et.
      * rewrite elem_of_cons, Hrest. apply truthy_true in Et. split.
        -- intros [-> | (Hq & a & b & E & Eq)].
           ++ split; [exact Et|]. exists "", s. split; [reflexivity|].
              now rewrite append_nil_r.
           ++ split; [exact Hq|]. exists (String "/" a), b. split; [|exact Eq].
              now rewrite E.
        -- intros (Hq & a & b & E & Eq). destruct a as [|c0 a].
           ++ left. now rewrite Eq, append_nil_r.
           ++ right. split; [exact Hq|]. injection E as -> ->.
              now exists a, b.
      * rewrite Hrest. split.
        -- intros (Hq & a & b & E & Eq). split; [exact Hq|].
           exists (String "/" a), b. split; [|exact Eq]. now rewrite E.
        -- intros (Hq & a & b & E & Eq). destruct a as [|c0 a].
           ++ exfalso. rewrite append_nil_r in Eq. subst q.
              apply truthy_true in Hq. congruence.
           ++ split; [exact Hq|]. injection E as -> ->. now exists a, b.
    + rewrite Hrest. split.
      * intros (Hq & a & b & E & Eq). split; [exact Hq|].
        exists (String c a), b. split; [|exact Eq]. now rewrite E.
      * intros (Hq & a & b & E & Eq). destruct a as [|c0 a].
        -- exfalso. injection E as -> _. discriminate.
        -- split; [exact Hq|]. injection E as -> ->. now exists a, b.
Qed.

(** A folder above [p] is what stands before one of its separators. *)
Lemma above_spec (p q : string) :
  q ∈ Fs.above p <-> q <> "" /\ exists b, p = (q ++ "/" ++ b)%string.
Proof.
  unfold Fs.above.
  assert (Hrev : q ∈ rev (Fs.foldersAlong "" p) <-> q ∈ Fs.foldersAlong "" p).
  { rewrite !list_elem_of_In. symmetry. apply in_rev. }
  rewrite Hrev, foldersAlong_spec. split.
  - intros (Hq & a & b & E & ->). rewrite append_nil_l in *.
    split; [exact Hq | now exists b].
  - intros (Hq & b & E). split; [exact Hq|]. now exists q, b.
Qed.

Lemma prefix_app_iff (a p : string) :
  String.prefix a p = true <-> exists b, p = (a ++ b)%string.
Proof.
  revert p. induction a as [|c a IH]; intros p.
  - split; [intros _; now exists p | intros _; now destruct p].
  - destruct p as [|c' p]; simpl.
    + split; [discriminate | intros [b E]; discriminate].
    + destruct (ascii_dec c c') as [->|Hne].
      * rewrite IH. split; intros [b E]; exists b; [now rewrite E|].
        now injection E.
      * split; [discriminate|]. intros [b E]. injection E as -> _.
        congruence.
Qed.

Lemma under_spec (root p : string) :
  Fs.under root p = true <->
  p = root \/ exists b, p = (root ++ "/" ++ b)%string.
Proof.
  unfold Fs.under. rewrite orb_true_iff, String.eqb_eq, prefix_app_iff.
  split; (intros [E | [b E]]; [left; congruence | right; exists b]).
  - now rewrite E, string_app_assoc.
  - now rewrite E, string_app_assoc.
Qed.

Lemma above_under (p q : string) : q ∈ Fs.above p -> Fs.under q p = true.
Proof.
  intros Hq. apply above_spec in Hq as (_ & b & E).
  apply under_spec. right. now exists b.
Qed.

(** *** [mkdirp] *)

Lemma mkdirpChain_lookup (chain : list string) :
  forall f f',
    Fs.mkdirpChain chain f = inr f' ->
    forall q, f' !! q = f !! q
              \/ (f !! q = None /\ f' !! q = Some Directory /\ q ∈ chain).
Proof.
  induction chain as [|c chain IH]; intros f f' E q.
  - injection E as <-. now left.
  - cbn [Fs.mkdirpChain] in E.
    destruct (f !! c) as [[b|]|] eqn:Ec; [discriminate| |].
    + injection E as <-. now left.
    + destruct (Fs.mkdirpChain chain f) as [e|f1] eqn:E1; [discriminate|].
      injection E as <-.
      destruct (decide (q = c)) as [->|Hne].
      * right. rewrite lookup_insert_eq. repeat split; auto. now left.
      * rewrite lookup_insert_ne by congruence.
        destruct (IH f f1 E1 q) as [Hq | (Hn & Hd & Hin)]; [now left|].
        right. repeat split; auto. now right.
Qed.

Lemma mkdirpChain_there (c : string) (chain : list string)
      (f : gmap string FsEntry) :
  f !! c = Some Directory -> Fs.mkdirpChain (c :: chain) f = inr f.
Proof. intros E. cbn [Fs.mkdirpChain]. now rewrite E. Qed.

Lemma mkdirpChain_head (c : string) (chain : list string) :
  forall f f',
    Fs.mkdirpChain (c :: chain) f = inr f' -> f' !! c = Some Directory.
Proof.
  intros f f' E. cbn [Fs.mkdirpChain] in E.
  destruct (f !! c) as [[b|]|] eqn:Ec; [discriminate| |].
  - now injection E as <-.
  - destruct (Fs.mkdirpChain chain f); [discriminate|].
    injection E as <-. now rewrite lookup_insert_eq.
Qed.

(** [mkdirp] goes through when no path of the chain is a file. *)
Lemma mkdirpChain_succeeds (chain : list string) (f : gmap string FsEntry) :
  Forall (fun q => forall b, f !! q <> Some (RegularFile b)) chain ->
  exists f', Fs.mkdirpChain chain f = inr f'.
Proof.
  induction chain as [|c chain IH]; intros Hall.
  - now exists f.
  - inversion Hall as [|? ? Hc Hrest]; subst. cbn [Fs.mkdirpChain].
    destruct (f !! c) as [[b|]|] eqn:Ec.
    + now destruct (Hc b).
    + now exists f.
    + destruct (IH Hrest) as [f1 ->]. now eexists.
Qed.

(** It makes folders only: what is a file afterwards was that file
    before, and what was there before is there as it was. *)
Lemma mkdirpChain_keeps (chain : list string) (f f' : gmap string FsEntry)
      (q : string) (x : FsEntry) :
  Fs.mkdirpChain chain f = inr f' -> f !! q = Some x -> f' !! q = Some x.
Proof.
  intros E Hq. destruct (mkdirpChain_lookup chain f f' E q) as [-> | (Hn & _)];
    congruence.
Qed.

Lemma mkdirpChain_files (chain : list string) (f f' : gmap string FsEntry)
      (q : string) (b : Bytes) :
  Fs.mkdirpChain chain f = inr f' ->
  f' !! q = Some (RegularFile b) -> f !! q = Some (RegularFile b).
Proof.
  intros E Hq. destruct (mkdirpChain_lookup chain f f' E q) as [<- | (_ & Hd & _)];
    congruence.
Qed.

Lemma mkdirpChain_off (chain : list string) (f f' : gmap string FsEntry)
      (q : string) :
  Fs.mkdirpChain chain f = inr f' -> q ∉ chain -> f' !! q = f !! q.
Proof.
  intros E Hq. destruct (mkdirpChain_lookup chain f f' E q) as [-> | (_ & _ & Hin)];
    [reflexivity | contradiction].
Qed.

(** *** Writes *)

Lemma written_lookup (p : string) (b : Bytes) (f f' : gmap string FsEntry) :
  Fs.written p b f = inr f' ->
  f' !! p = Some (RegularFile b)
  /\ forall q, q <> p ->
       f' !! q = f !! q
       \/ (f !! q = None /\ f' !! q = Some Directory /\ q ∈ Fs.above p).
Proof.
  unfold Fs.written. intros E.
  destruct (f !! p) as [[b0|]|] eqn:Ep; [|discriminate|].
  - injection E as <-. split; [now rewrite lookup_insert_eq|].
    intros q Hq. left. now rewrite lookup_insert_ne by congruence.
  - destruct (Fs.mkdirpChain (Fs.above p) f) as [e|f1] eqn:E1; [discriminate|].
    injection E as <-. split; [now rewrite lookup_insert_eq|].
    intros q Hq. rewrite lookup_insert_ne by congruence.
    exact (mkdirpChain_lookup _ _ _ E1 q).
Qed.

(** A write to a file that is there, or into a folder that is there,
    changes that file only. *)
Lemma written_over (p : string) (b b0 : Bytes) (f : gmap string FsEntry) :
  f !! p = Some (RegularFile b0) ->
  Fs.written p b f = inr (<[p := RegularFile b]> f).
Proof. intros E. unfold Fs.written. now rewrite E. Qed.

Lemma written_into (d n : string) (b : Bytes) (f : gmap string FsEntry) :
  d <> "" -> slashFree n ->
  f !! d = Some Directory ->
  f !! (d ++ "/" ++ n)%string <> Some Directory ->
  Fs.written (d ++ "/" ++ n) b f = inr (<[(d ++ "/" ++ n)%string := RegularFile b]> f).
Proof.
  intros Hd Hn Ed Ep. unfold Fs.written.
  destruct (f !! (d ++ "/" ++ n)%string) as [[b0|]|] eqn:E;
    [reflexivity | congruence |].
  rewrite above_last_segment by assumption.
  now rewrite (mkdirpChain_there d _ f Ed).
Qed.

Lemma written_fails (p : string) (b : Bytes) (f : gmap string FsEntry) :
  f !! p = Some Directory -> Fs.written p b f = inl (FileIsADirectory p).
Proof. intros E. unfold Fs.written. now rewrite E. Qed.

End FsFacts.

Section PrevPath.
Import Path PathShape PathFacts.

Lemma dropWhile_head (p : ascii -> bool) (c : ascii) (l : list ascii) :
  p c = false -> dropWhile p (c :: l) = c :: l.
Proof. intros E. simpl. now rewrite E. Qed.

Lemma takeWhile_app_stop (p : ascii -> bool) (a b : list ascii) (c : ascii) :
  Forall (fun x => p x = true) a -> p c = false ->
  takeWhile p (a ++ c :: b) = a.
Proof.
  intros Ha Hc. induction Ha as [|x a Hx Ha IH]; simpl.
  - now rewrite Hc.
  - now rewrite Hx, IH.
Qed.

Lemma takeWhile_all (p : ascii -> bool) (a : list ascii) :
  Forall (fun x => p x = true) a -> takeWhile p a = a.
Proof.
  intros Ha. induction Ha as [|x a Hx Ha IH]; simpl; [reflexivity|].
  now rewrite Hx, IH.
Qed.

Lemma slashFree_rev_notSlash (x : string) :
  slashFree x -> Forall (fun c => notSlash c = true) (rev (chars x)).
Proof.
  intros Hx. apply Forall_rev. eapply Forall_impl; [exact Hx|].
  intros c Hc. unfold notSlash. now rewrite Hc.
Qed.

Lemma dropWhile_slashFree_rev (x : string) (rest : list ascii) :
  slashFree x -> x <> "" ->
  dropWhile JS.isSlash (rev (chars x) ++ rest) = rev (chars x) ++ rest.
Proof.
  intros Hx Hne.
  assert (Hrev : Forall (fun c => JS.isSlash c = false) (rev (chars x)))
    by now apply Forall_rev.
  destruct (rev (chars x)) as [|c l] eqn:E.
  - exfalso. apply Hne. apply chars_inj.
    rewrite <- (rev_involutive (chars x)), E. reflexivity.
  - simpl. inversion Hrev as [|? ? Hc _]; subst. now rewrite Hc.
Qed.

Lemma basename_after_slash (d x : string) :
  slashFree x -> x <> "" -> basename (d ++ "/" ++ x) = x.
Proof.
  intros Hx Hne. unfold basename.
  rewrite !chars_app. simpl. rewrite rev_app_distr. simpl.
  rewrite <- app_assoc. simpl.
  rewrite dropWhile_slashFree_rev by assumption.
  rewrite takeWhile_app_stop; [|now apply slashFree_rev_notSlash|reflexivity].
  rewrite rev_involutive. apply str_chars.
Qed.

Lemma basename_of_slashFree (x : string) :
  slashFree x -> x <> "" -> basename x = x.
Proof.
  intros Hx Hne. unfold basename.
  rewrite <- (app_nil_r (rev (chars x))).
  rewrite dropWhile_slashFree_rev by assumption. rewrite app_nil_r.
  rewrite takeWhile_all by now apply slashFree_rev_notSlash.
  rewrite rev_involutive. apply str_chars.
Qed.

(** X14. The path [_getPrevFilePath] gives names a file called ["prev."]
    followed by the name of the file of the path it was given; it is never
    the path it was given, whatever that is. *)
Theorem prev_path_names_another_file (path : string) :
  basename (_getPrevFilePath path) = ("prev." ++ basename path)%string
  /\ _getPrevFilePath path <> path.
Proof.
  assert (Hbase : basename (_getPrevFilePath path)
                  = ("prev." ++ basename path)%string).
  { pose proof (prev_plain (basename path) (basename_slashFree path))
      as (Hsf & Hne & _).
    unfold _getPrevFilePath, format, parseBase.
    destruct (JS.truthy (parseDir path)).
    - now apply basename_after_slash.
    - now apply basename_of_slashFree. }
  split; [exact Hbase|].
  intros E. rewrite E in Hbase.
  apply (f_equal (fun s => length (chars s))) in Hbase.
  rewrite chars_app in Hbase. rewrite length_app in Hbase.
  simpl in Hbase. lia.
Qed.

End PrevPath.

(** ** The algebra of [join] and [normalize] *)

Module PathAlgebra.
Import Path PathShape PathFacts.

Lemma stackOk_dots (b : bool) (acc : list string) :
  b = true -> Forall (fun s => s = "..") acc -> stackOk b acc.
Proof.
  intros Hb Hall. induction Hall as [|s acc -> Hall IH]; [exact I|].
  right. auto.
Qed.

Lemma dots_not_plain : ~ plain "..".
Proof. intros (_ & _ & _ & Hn). now apply Hn. Qed.

Lemma normStep_stackOk (b : bool) (acc : list string) (seg : string) :
  slashFree seg -> stackOk b acc -> stackOk b (normStep b acc seg).
Proof.
  intros Hsf Hok. unfold normStep.
  destruct (String.eqb seg "" || String.eqb seg ".") eqn:E1; [exact Hok|].
  apply orb_false_iff in E1 as [E1a E1b].
  destruct (String.eqb seg "..") eqn:E2.
  - destruct acc as [|top below].
    + destruct b; simpl; [right; repeat split; constructor | exact I].
    + destruct (String.eqb top "..") eqn:E3.
      * apply String.eqb_eq in E3. subst top. destruct b; [|exact Hok].
        right. repeat split. constructor; [reflexivity|].
        destruct Hok as [[Hp _]|(_ & _ & Hall)]; [|exact Hall].
        now apply dots_not_plain in Hp.
      * destruct Hok as [[_ Hb]|(Ht & _)]; [exact Hb|].
        rewrite Ht in E3. discriminate.
  - left. split; [|exact Hok]. split; [exact Hsf|].
    apply String.eqb_neq in E1a, E1b, E2. repeat split; assumption.
Qed.

Lemma split_all_slashFree (s : string) : Forall slashFree (JS.split "/" s).
Proof.
  induction s as [|c s IH]; [repeat constructor|].
  rewrite split_cons. destruct (JS.isSlash c) eqn:Ec.
  - constructor; [constructor | exact IH].
  - destruct (JS.split "/" s) as [|h t]; [repeat constructor; exact Ec|].
    inversion IH; subst. constructor; [|assumption].
    unfold slashFree in *. simpl. now constructor.
Qed.

Lemma fold_stackOk (b : bool) (segs : list string) :
  forall acc,
    Forall slashFree segs -> stackOk b acc ->
    stackOk b (fold_left (normStep b) segs acc).
Proof.
  induction segs as [|s segs IH]; intros acc Hs Hok; [exact Hok|].
  inversion Hs; subst. simpl. apply IH; [assumption|].
  now apply normStep_stackOk.
Qed.

Lemma stackOk_below (b : bool) (top : string) (below : list string) :
  stackOk b (top :: below) -> stackOk b below.
Proof.
  intros [[_ Hb]|(_ & Hb & Hall)]; [exact Hb | now apply stackOk_dots].
Qed.

Lemma stackOk_segs (b : bool) (acc : list string) :
  stackOk b acc -> Forall (fun s => slashFree s /\ s <> "") acc.
Proof.
  induction acc as [|top below IH]; intros Hok; [constructor|].
  constructor; [|apply IH; eapply stackOk_below; eauto].
  destruct Hok as [[(Hsf & Hne & _) _]|(-> & _)]; [now split|].
  split; [|discriminate]. unfold slashFree. simpl. repeat constructor.
Qed.

Lemma fold_rev_stack (b : bool) (acc : list string) :
  stackOk b acc -> fold_left (normStep b) (rev acc) [] = acc.
Proof.
  induction acc as [|top below IH]; intros Hok; [reflexivity|].
  simpl rev. rewrite fold_left_app. simpl.
  rewrite IH by (eapply stackOk_below; eauto).
  destruct Hok as [[Hp _]|(-> & -> & Hall)]; [now apply normStep_plain|].
  unfold normStep. simpl.
  destruct below as [|t bl]; [reflexivity|].
  inversion Hall; subst. reflexivity.
Qed.

Lemma fold_plain (b : bool) (P : list string) :
  forall acc, Forall plain P -> fold_left (normStep b) P acc = rev P ++ acc.
Proof.
  induction P as [|p P IH]; intros acc HP; [reflexivity|].
  inversion HP; subst. simpl. rewrite normStep_plain by assumption.
  rewrite IH by assumption. now rewrite <- app_assoc.
Qed.

Lemma stackOk_push (b : bool) (P acc : list string) :
  Forall plain P -> stackOk b acc -> stackOk b (P ++ acc).
Proof.
  intros HP Hok. induction HP as [|p P Hp HP IH]; [exact Hok|].
  simpl. now left.
Qed.

Lemma split_empty : JS.split "/" "" = [""].
Proof. reflexivity. Qed.

Lemma split_joinWith (S : list string) :
  Forall slashFree S -> S <> [] -> JS.split "/" (JS.joinWith "/" S) = S.
Proof.
  intros HS. induction HS as [|s S Hs HS IH]; [congruence|]. intros _.
  destruct S as [|s' S'].
  - simpl. now apply split_slashFree.
  - change (JS.joinWith "/" (s :: s' :: S'))
      with (s ++ "/" ++ JS.joinWith "/" (s' :: S'))%string.
    rewrite split_app_slash, IH by discriminate.
    now rewrite split_slashFree.
Qed.

Lemma joinWith_app (A B : list string) :
  A <> [] -> B <> [] ->
  JS.joinWith "/" (A ++ B)
  = (JS.joinWith "/" A ++ "/" ++ JS.joinWith "/" B)%string.
Proof.
  intros HA HB. induction A as [|a A IH]; [congruence|].
  destruct A as [|a' A'].
  - simpl. destruct B; [congruence|]. reflexivity.
  - change (JS.joinWith "/" ((a :: a' :: A') ++ B))
      with (a ++ "/" ++ JS.joinWith "/" ((a' :: A') ++ B))%string.
    rewrite IH by discriminate.
    change (JS.joinWith "/" (a :: a' :: A'))
      with (a ++ "/" ++ JS.joinWith "/" (a' :: A'))%string.
    now rewrite !string_app_assoc.
Qed.

Lemma app_nonempty_r (a b : string) : b <> "" -> (a ++ b)%string <> "".
Proof.
  intros Hb E. apply (f_equal chars) in E. rewrite chars_app in E.
  apply app_eq_nil in E as [_ E]. apply Hb. now apply chars_inj.
Qed.

Lemma app_nonempty_l (a b : string) : a <> "" -> (a ++ b)%string <> "".
Proof. destruct a; [congruence|]. discriminate. Qed.

Lemma joinWith_head (s : string) (S : list string) :
  exists rest, JS.joinWith "/" (s :: S) = (s ++ rest)%string.
Proof.
  destruct S as [|s' S'].
  - exists "". simpl. now rewrite append_nil_r.
  - eexists. reflexivity.
Qed.

Lemma joinWith_nonempty (s : string) (S : list string) :
  s <> "" -> JS.joinWith "/" (s :: S) <> "".
Proof.
  intros Hs. destruct (joinWith_head s S) as [rest ->].
  now apply app_nonempty_l.
Qed.

Lemma startsWith_slashFree (s rest : string) :
  slashFree s -> s <> "" -> JS.startsWith (s ++ rest) "/" = false.
Proof.
  intros Hs Hne. destruct s as [|c s]; [congruence|].
  rewrite append_cons, startsWith_cons.
  unfold slashFree in Hs. simpl in Hs. now inversion Hs.
Qed.

Lemma startsWith_slash (r : string) : JS.startsWith ("/" ++ r) "/" = true.
Proof. change ("/" ++ r)%string with (String "/" r). apply startsWith_cons. Qed.

(** What [normalize] returns has the segments [normalizeString] left. *)
Lemma normalize_fold (x : string) :
  x <> "" ->
  let b := negb (JS.startsWith x "/") in
  fold_left (normStep b) (JS.split "/" (normalize x)) []
  = fold_left (normStep b) (JS.split "/" x) []
  /\ JS.startsWith (normalize x) "/" = JS.startsWith x "/"
  /\ normalize x <> "".
Proof.
  intros Hx b. unfold normalize.
  apply String.eqb_neq in Hx as Hx'. rewrite Hx'.
  unfold normalizeString. fold b.
  set (A := fold_left (normStep b) (JS.split "/" x) []).
  assert (Hok : stackOk b A)
    by (apply fold_stackOk; [apply split_all_slashFree | exact I]).
  pose proof (stackOk_segs b A Hok) as Hsegs.
  destruct (rev A) as [|s0 S'] eqn:ES.
  - assert (A = []) as ->.
    { rewrite <- (rev_involutive A), ES. reflexivity. }
    cbn [JS.joinWith]. rewrite String.eqb_refl.
    subst b. destruct (JS.startsWith x "/"); [now repeat split|].
    destruct (endsWithSlash x); now repeat split.
  - assert (HS : Forall (fun s => slashFree s /\ s <> "") (s0 :: S')).
    { rewrite <- ES. now apply Forall_rev. }
    assert (Hsf : Forall slashFree (s0 :: S'))
      by (eapply Forall_impl; [exact HS | now intros ? []]).
    inversion HS as [|? ? [Hs0 Hne0] _]; subst.
    pose proof (joinWith_nonempty s0 S' Hne0) as Hp.
    apply String.eqb_neq in Hp as Hp'. rewrite Hp'.
    assert (Hfold : forall acc,
      fold_left (normStep b) (JS.split "/" (JS.joinWith "/" (s0 :: S'))) acc
      = fold_left (normStep b) (s0 :: S') acc)
      by (intros acc; now rewrite split_joinWith).
    assert (HA : fold_left (normStep b) (s0 :: S') [] = A).
    { rewrite <- ES. now apply fold_rev_stack. }
    assert (Htail : forall tr : bool,
      fold_left (normStep b)
        (JS.split "/" (JS.joinWith "/" (s0 :: S')
                       ++ (if tr then "/" else ""))) []
      = A).
    { intros [|].
      - change (JS.joinWith "/" (s0 :: S') ++ "/")%string
          with (JS.joinWith "/" (s0 :: S') ++ "/" ++ "")%string.
        rewrite split_app_slash, fold_left_app, Hfold, HA. reflexivity.
      - now rewrite append_nil_r, Hfold. }
    subst b. destruct (JS.startsWith x "/") eqn:Eabs.
    + split; [|split; [apply startsWith_slash | discriminate]].
      change ("/" ++ ?r)%string with ("" ++ "/" ++ r)%string.
      rewrite split_app_slash, split_empty. cbn [app fold_left].
      change (normStep (negb true) [] "") with (@nil string).
      apply Htail.
    + rewrite append_nil_l. split; [apply Htail|]. split.
      * destruct (joinWith_head s0 S') as [rest ->].
        rewrite string_app_assoc. now apply startsWith_slashFree.
      * now apply app_nonempty_l.
Qed.

Lemma endsWithSlash_app_r (x c : string) :
  c <> "" -> endsWithSlash (x ++ c) = endsWithSlash c.
Proof.
  intros Hc. unfold endsWithSlash. rewrite chars_app, rev_app_distr.
  destruct (rev (chars c)) as [|d r] eqn:E; [|reflexivity].
  exfalso. apply Hc. apply chars_inj.
  rewrite <- (rev_involutive (chars c)), E. reflexivity.
Qed.

(** [normalize] of a path continued by a separator and more depends on the
    path through its segments only. *)
Lemma normalize_continued (x y c : string) :
  x <> "" -> y <> "" -> c <> "" ->
  JS.startsWith x "/" = JS.startsWith y "/" ->
  fold_left (normStep (negb (JS.startsWith x "/"))) (JS.split "/" x) []
  = fold_left (normStep (negb (JS.startsWith x "/"))) (JS.split "/" y) [] ->
  normalize (x ++ "/" ++ c) = normalize (y ++ "/" ++ c).
Proof.
  intros Hx Hy Hc Habs Hfold. unfold normalize.
  pose proof (app_nonempty_l x ("/" ++ c) Hx) as Hxe.
  pose proof (app_nonempty_l y ("/" ++ c) Hy) as Hye.
  apply String.eqb_neq in Hxe, Hye. rewrite Hxe, Hye.
  rewrite !startsWith_app by assumption. rewrite <- Habs.
  assert (Hends : forall z : string,
            endsWithSlash (z ++ "/" ++ c) = endsWithSlash c).
  { intros z. rewrite <- string_app_assoc. now apply endsWithSlash_app_r. }
  rewrite !Hends. unfold normalizeString.
  rewrite !split_app_slash, !fold_left_app, Hfold. reflexivity.
Qed.

Lemma join_nonempty (a : string) (l : list string) :
  a <> "" -> join (a :: l) <> "".
Proof.
  intros Ha. rewrite join_cons_truthy by assumption.
  apply normalize_fold. destruct (joinWith_head a
    (filter (fun a => JS.truthy a = true) l)) as [rest ->].
  now apply app_nonempty_l.
Qed.

Lemma filter_truthy_one (c : string) :
  c <> "" -> filter (fun a => JS.truthy a = true) [c] = [c].
Proof.
  intros Hc. rewrite filter_cons.
  destruct (decide (JS.truthy c = true)) as [_|Hf]; [reflexivity|].
  exfalso. apply Hf. now apply truthy_true.
Qed.

(** [join(join(a, b), c)] is [join(a, b, c)]. *)
Lemma join_assoc (a b c : string) :
  a <> "" -> c <> "" -> join [join [a; b]; c] = join [a; b; c].
Proof.
  intros Ha Hc.
  pose proof (join_nonempty a [b] Ha) as Hn.
  rewrite (join_cons_truthy (join [a; b])) by assumption.
  rewrite filter_truthy_one by assumption.
  rewrite (join_cons_truthy a [b; c]) by assumption.
  rewrite (join_cons_truthy a [b]) in * by assumption.
  set (j := JS.joinWith "/" (a :: filter (fun a => JS.truthy a = true) [b]))
    in *.
  assert (Hj : j <> "").
  { subst j. destruct (joinWith_head a
      (filter (fun a => JS.truthy a = true) [b])) as [rest ->].
    now apply app_nonempty_l. }
  assert (Hj3 : JS.joinWith "/"
                  (a :: filter (fun a => JS.truthy a = true) [b; c])
                = (j ++ "/" ++ c)%string).
  { subst j. rewrite !filter_cons.
    destruct (decide (JS.truthy c = true)) as [_|Hf];
      [|exfalso; apply Hf; now apply truthy_true].
    destruct (decide (JS.truthy b = true)); rewrite filter_nil.
    - change (JS.joinWith "/" [a; b; c]) with (a ++ "/" ++ b ++ "/" ++ c)%string.
      change (JS.joinWith "/" [a; b]) with (a ++ "/" ++ b)%string.
      now rewrite !string_app_assoc.
    - reflexivity. }
  rewrite Hj3.
  change (JS.joinWith "/" [normalize j; c])
    with (normalize j ++ "/" ++ c)%string.
  destruct (normalize_fold j Hj) as (Hfold & Habs & Hne).
  apply normalize_continued; auto.
  now rewrite Habs.
Qed.

(** *** Normalized paths *)

Lemma normalPath_facts (x : string) (isAbsolute : bool) (segs : list string) :
  segs <> [] -> stackOk (negb isAbsolute) (rev segs) ->
  x = ((if isAbsolute then "/" else "") ++ JS.joinWith "/" segs)%string ->
  x <> "" /\ JS.startsWith x "/" = isAbsolute
  /\ fold_left (normStep (negb isAbsolute)) (JS.split "/" x) [] = rev segs
  /\ endsWithSlash x = false
  /\ x <> "/".
Proof.
  intros Hne Hok ->.
  pose proof (stackOk_segs _ _ Hok) as Hsegs. apply Forall_rev in Hsegs.
  rewrite rev_involutive in Hsegs.
  assert (Hsf : Forall slashFree segs)
    by (eapply Forall_impl; [exact Hsegs | now intros ? []]).
  destruct segs as [|s0 S'] eqn:ES; [congruence|]. rewrite <- ES in *.
  assert (Hs0 : slashFree s0 /\ s0 <> "")
    by (rewrite ES in Hsegs; now inversion Hsegs).
  destruct Hs0 as [Hs0 Hne0].
  assert (Hp : JS.joinWith "/" segs <> "")
    by (rewrite ES; now apply joinWith_nonempty).
  assert (Hfold : fold_left (normStep (negb isAbsolute))
                    (JS.split "/" (JS.joinWith "/" segs)) [] = rev segs).
  { rewrite split_joinWith by assumption.
    rewrite <- (rev_involutive segs) at 1. now apply fold_rev_stack. }
  assert (Hends : forall pre : string,
            endsWithSlash (pre ++ JS.joinWith "/" segs) = false).
  { intros pre. destruct (exists_last Hne) as (init & lst & Einit).
    assert (Hl : slashFree lst /\ lst <> "").
    { rewrite Einit in Hsegs. apply Forall_app in Hsegs as [_ Hl].
      now inversion Hl. }
    rewrite Einit, joinWith_snoc. destruct init as [|i0 init'].
    - now apply endsWithSlash_app.
    - rewrite <- !string_app_assoc. now apply endsWithSlash_app. }
  destruct isAbsolute.
  - split; [discriminate|]. split; [apply startsWith_slash|]. split; [|split].
    + change ("/" ++ ?r)%string with ("" ++ "/" ++ r)%string.
      rewrite split_app_slash, split_empty. cbn [app fold_left].
      exact Hfold.
    + apply Hends.
    + intros E.
      change ("/" ++ JS.joinWith "/" segs)%string
        with (String "/" (JS.joinWith "/" segs)) in E.
      injection E as E. contradiction.
  - rewrite append_nil_l. split; [exact Hp|]. split; [|split; [|split]].
    + rewrite ES. destruct (joinWith_head s0 S') as [rest ->].
      now apply startsWith_slashFree.
    + exact Hfold.
    + apply (Hends "").
    + rewrite ES. destruct (joinWith_head s0 S') as [rest ->].
      destruct s0 as [|c s0]; [congruence|].
      rewrite append_cons. intros [= -> _].
      unfold slashFree in Hs0. simpl in Hs0. now inversion Hs0.
Qed.

Lemma plains_normalPath (P : list string) :
  P <> [] -> Forall plain P -> normalPath (JS.joinWith "/" P).
Proof.
  intros Hne HP. exists false, P. split; [exact Hne|]. split; [|reflexivity].
  rewrite <- (app_nil_r (rev P)). apply stackOk_push; [|exact I].
  now apply Forall_rev.
Qed.

(** [join] of a normalized path and plain segments puts them one behind
    the other. *)
Lemma join_normal_plains (x : string) (P : list string) :
  normalPath x -> P <> [] -> Forall plain P ->
  join [x; JS.joinWith "/" P] = (x ++ "/" ++ JS.joinWith "/" P)%string
  /\ normalPath (x ++ "/" ++ JS.joinWith "/" P).
Proof.
  intros (isAbs & S & HS & Hok & Ex) HP Hplain.
  destruct (normalPath_facts x isAbs S HS Hok Ex)
    as (Hx & Habs & Hfold & _ & _).
  destruct (plains_normalPath P HP Hplain) as (isAbs' & S' & HS' & Hok' & Ee).
  destruct (normalPath_facts _ isAbs' S' HS' Hok' Ee)
    as (He & _ & _ & Hends & _).
  set (e := JS.joinWith "/" P) in *.
  assert (Hjoined : JS.joinWith "/" (S ++ P)
                    = (JS.joinWith "/" S ++ "/" ++ e)%string)
    by now apply joinWith_app.
  assert (Hsf : Forall slashFree P)
    by (eapply Forall_impl; [exact Hplain | now intros ? []]).
  assert (He1 : endsWithSlash (x ++ "/" ++ e) = false).
  { rewrite <- string_app_assoc. rewrite endsWithSlash_app_r by assumption.
    exact Hends. }
  assert (Hs : normalizeString (JS.split "/" (x ++ "/" ++ e)) (negb isAbs)
               = S ++ P).
  { unfold normalizeString.
    rewrite split_app_slash, fold_left_app, Hfold.
    unfold e. rewrite split_joinWith by assumption.
    rewrite fold_plain by assumption.
    now rewrite rev_app_distr, !rev_involutive. }
  assert (Hp : (JS.joinWith "/" S ++ "/" ++ e)%string <> "")
    by (apply app_nonempty_r; discriminate).
  apply String.eqb_neq in Hp.
  split.
  - rewrite join_cons_truthy by assumption.
    rewrite filter_truthy_one by assumption.
    change (JS.joinWith "/" [x; e]) with (x ++ "/" ++ e)%string.
    unfold normalize.
    pose proof (app_nonempty_l x ("/" ++ e) Hx) as Hxe.
    apply String.eqb_neq in Hxe. rewrite Hxe.
    rewrite startsWith_app by assumption. rewrite Habs, He1, Hs, Hjoined, Hp.
    rewrite Ex, append_nil_r. now rewrite !string_app_assoc.
  - exists isAbs, (S ++ P). split; [now destruct S|]. split.
    + rewrite rev_app_distr. apply stackOk_push; [now apply Forall_rev|].
      exact Hok.
    + rewrite Hjoined, Ex. now rewrite !string_app_assoc.
Qed.

Lemma join_normal_plain (x n : string) :
  normalPath x -> plain n ->
  join [x; n] = (x ++ "/" ++ n)%string /\ normalPath (x ++ "/" ++ n).
Proof.
  intros Hx Hn. apply (join_normal_plains x [n]); auto; discriminate.
Qed.

Lemma join_normal_dot (x : string) : normalPath x -> join [x; "."] = x.
Proof.
  intros (isAbs & S & HS & Hok & Ex).
  destruct (normalPath_facts x isAbs S HS Hok Ex)
    as (Hx & Habs & Hfold & _ & _).
  assert (He1 : endsWithSlash (x ++ "/" ++ ".") = false).
  { rewrite <- string_app_assoc. now rewrite endsWithSlash_app_r. }
  assert (Hs : normalizeString (JS.split "/" (x ++ "/" ++ ".")) (negb isAbs)
               = S).
  { unfold normalizeString.
    rewrite split_app_slash, fold_left_app, Hfold.
    change (JS.split "/" ".") with ["."]. cbn [fold_left].
    change (normStep (negb isAbs) (rev S) ".") with (rev S).
    apply rev_involutive. }
  assert (Hp : JS.joinWith "/" S <> "").
  { pose proof (stackOk_segs _ _ Hok) as Hsegs. apply Forall_rev in Hsegs.
    rewrite rev_involutive in Hsegs.
    destruct S as [|s0 S']; [congruence|]. inversion Hsegs as [|? ? [_ ?] _].
    now apply joinWith_nonempty. }
  apply String.eqb_neq in Hp.
  rewrite join_cons_truthy by assumption.
  rewrite filter_truthy_one by discriminate.
  change (JS.joinWith "/" [x; "."]) with (x ++ "/" ++ ".")%string.
  unfold normalize.
  pose proof (app_nonempty_l x ("/" ++ ".") Hx) as Hxe.
  apply String.eqb_neq in Hxe. rewrite Hxe.
  rewrite startsWith_app by assumption. rewrite Habs, He1, Hs, Hp.
  now rewrite Ex, append_nil_r.
Qed.

Lemma cacheFolderName_plain : plain cacheFolderName.
Proof.
  split; [|repeat split; discriminate].
  unfold slashFree, cacheFolderName. simpl. repeat constructor.
Qed.

Lemma fileCachePath_normal (H : Host) : normalPath (fileCachePath H).
Proof.
  unfold fileCachePath. rewrite join2_plain by apply cacheFolderName_plain.
  unfold joinBase. destruct (String.eqb (cwd H) "") eqn:E.
  - exists false, [cacheFolderName]. split; [discriminate|].
    split; [|reflexivity]. simpl. left. split; [|exact I].
    apply cacheFolderName_plain.
  - set (isAbs := JS.startsWith (cwd H) "/").
    unfold normalizeString.
    set (A := fold_left (normStep (negb isAbs)) (JS.split "/" (cwd H)) []).
    assert (Hok : stackOk (negb isAbs) A)
      by (apply fold_stackOk; [apply split_all_slashFree | exact I]).
    exists isAbs, (rev A ++ [cacheFolderName]). split; [now destruct (rev A)|].
    split.
    + rewrite rev_app_distr, rev_involutive. simpl. left.
      split; [apply cacheFolderName_plain | exact Hok].
    + rewrite joinWith_snoc. destruct (rev A) as [|s0 S'].
      * now rewrite append_nil_r.
      * now rewrite !string_app_assoc.
Qed.

(** *** [dirname], [basename] and [parse] of a path with a last segment *)

Lemma dropWhile_app_stop (p : ascii -> bool) (a b : list ascii) (c : ascii) :
  Forall (fun x => p x = true) a -> p c = false ->
  dropWhile p (a ++ c :: b) = c :: b.
Proof.
  intros Ha Hc. induction Ha as [|x a Hx Ha IH]; simpl.
  - now rewrite Hc.
  - now rewrite Hx.
Qed.

Lemma dropWhile_all (p : ascii -> bool) (a : list ascii) :
  Forall (fun x => p x = true) a -> dropWhile p a = [].
Proof.
  intros Ha. induction Ha as [|x a Hx Ha IH]; simpl; [reflexivity|].
  now rewrite Hx.
Qed.

Lemma dropWhile_slashFree (l : list ascii) :
  Forall (fun c => JS.isSlash c = false) l -> dropWhile JS.isSlash l = l.
Proof. intros Hl. destruct Hl as [|c l Hc _]; simpl; [|rewrite Hc]; auto. Qed.

Lemma scan_last_segment (front : list ascii) (n : string) :
  slashFree n -> n <> "" ->
  dropWhile notSlash
    (dropWhile JS.isSlash (rev (front ++ "/"%char :: chars n)))
  = "/"%char :: rev front.
Proof.
  intros Hn Hne. rewrite rev_app_distr. simpl. rewrite <- app_assoc. simpl.
  rewrite dropWhile_slashFree_rev by assumption.
  apply dropWhile_app_stop; [now apply slashFree_rev_notSlash | reflexivity].
Qed.

Lemma str_cons (c : ascii) (l : list ascii) : str (c :: l) = String c (str l).
Proof. reflexivity. Qed.

Lemma dirname_last_segment (y n : string) :
  y <> "" -> y <> "/" -> slashFree n -> n <> "" ->
  dirname (y ++ "/" ++ n) = y.
Proof.
  intros Hy Hroot Hn Hne. unfold dirname.
  destruct y as [|c0 y']; [congruence|].
  rewrite !chars_app. cbn [chars list_ascii_of_string app].
  change (list_ascii_of_string y') with (chars y').
  change (list_ascii_of_string n) with (chars n).
  rewrite scan_last_segment by assumption.
  destruct (rev (chars y')) as [|d r] eqn:Er.
  - assert (y' = "") as ->.
    { apply chars_inj. rewrite <- (rev_involutive (chars y')), Er.
      reflexivity. }
    destruct (JS.isSlash c0) eqn:Ec; [|reflexivity].
    apply Ascii.eqb_eq in Ec. subst c0. congruence.
  - rewrite <- Er, rev_involutive, str_cons, str_chars. reflexivity.
Qed.

Lemma parseDir_last_segment (y n : string) :
  y <> "" -> slashFree n -> n <> "" -> parseDir (y ++ "/" ++ n) = y.
Proof.
  intros Hy Hn Hne. unfold parseDir.
  destruct y as [|c0 y']; [congruence|].
  rewrite !chars_app. cbn [chars list_ascii_of_string app].
  change (list_ascii_of_string y') with (chars y').
  change (list_ascii_of_string n) with (chars n).
  destruct (JS.isSlash c0).
  - rewrite scan_last_segment by assumption.
    rewrite rev_involutive. cbn [app]. now rewrite str_cons, str_chars.
  - change (c0 :: chars y' ++ "/"%char :: chars n)
      with ((c0 :: chars y') ++ "/"%char :: chars n).
    rewrite (scan_last_segment (c0 :: chars y')) by assumption.
    rewrite rev_involutive. cbn [app]. now rewrite str_cons, str_chars.
Qed.

Lemma slashFree_scan (n : string) (c0 : ascii) (rest : list ascii) :
  slashFree n -> chars n = c0 :: rest ->
  dropWhile notSlash (dropWhile JS.isSlash (rev rest)) = []
  /\ dropWhile notSlash (dropWhile JS.isSlash (rev (c0 :: rest))) = []
  /\ JS.isSlash c0 = false.
Proof.
  intros Hn E. unfold slashFree in Hn. rewrite E in Hn.
  inversion Hn as [|? ? Hc Hrest]; subst.
  assert (H1 : Forall (fun c => JS.isSlash c = false) (rev rest))
    by now apply Forall_rev.
  assert (H2 : Forall (fun c => JS.isSlash c = false) (rev (c0 :: rest)))
    by now apply Forall_rev.
  rewrite !dropWhile_slashFree by assumption.
  split; [|split; [|exact Hc]].
  all: apply dropWhile_all; eapply Forall_impl; try eassumption.
  all: intros c Hc'; unfold notSlash; now rewrite Hc'.
Qed.

Lemma dirname_of_segment (n : string) :
  slashFree n -> n <> "" -> dirname n = ".".
Proof.
  intros Hn Hne. unfold dirname.
  destruct (chars n) as [|c0 rest] eqn:E.
  - exfalso. apply Hne. apply chars_inj. now rewrite E.
  - destruct (slashFree_scan n c0 rest Hn E) as (-> & _ & ->). reflexivity.
Qed.

Lemma parseDir_of_segment (n : string) :
  slashFree n -> n <> "" -> parseDir n = "".
Proof.
  intros Hn Hne. unfold parseDir.
  destruct (chars n) as [|c0 rest] eqn:E; [reflexivity|].
  destruct (slashFree_scan n c0 rest Hn E) as (_ & H2 & ->). now rewrite H2.
Qed.

Lemma getPrev_last_segment (y n : string) :
  y <> "" -> slashFree n -> n <> "" ->
  _getPrevFilePath (y ++ "/" ++ n) = (y ++ "/" ++ "prev." ++ n)%string.
Proof.
  intros Hy Hn Hne. unfold _getPrevFilePath, parseBase, format.
  rewrite parseDir_last_segment, basename_after_slash by assumption.
  apply truthy_true in Hy. now rewrite Hy.
Qed.

Lemma getPrev_of_segment (n : string) :
  slashFree n -> n <> "" -> _getPrevFilePath n = ("prev." ++ n)%string.
Proof.
  intros Hn Hne. unfold _getPrevFilePath, parseBase, format.
  rewrite parseDir_of_segment, basename_of_slashFree by assumption.
  reflexivity.
Qed.

End PathAlgebra.

(** ** The edit writer *)

Section EditWriter.

Context (H : Host).

Local Arguments savedCompareFile : simpl never.
Local Arguments normalizedPathOf : simpl never.


(** C6. A save whose bytes equal those of the previous generation writes
    nothing: no file changes (so neither the package nor any of the three
    generation files), the in-memory zip stays as it is, and no write is
    issued to the host at all. *)
Theorem save_identical_is_noop (fileName : string) (b : Bytes) (w : World) :
  files w !! fileName = Some (RegularFile b) ->
  files w !! _getPrevFilePath fileName = Some (RegularFile b) ->
  let w' := exec (_updateOOXMLFile H fileName) w in
  files w' = files w /\ zip w' = zip w
  /\ exists calls, trace w' = (trace w ++ calls)%list /\ noWrite calls.
Proof.
  intros Hcur Hprev.
  unfold _updateOOXMLFile, Fs.existsSync, Fs.stat, Fs.readFile.
  unfold_io. simpl.
  destruct (JS.truthy fileName) eqn:Et; simpl.
  2:{ repeat split; auto. exists []. split; [now rewrite app_nil_r|].
      intros p Hin. inversion Hin. }
  repeat progress (rewrite ?Hcur, ?Hprev; simpl).
  destruct (JS.truthy (_getPrevFilePath fileName)) eqn:Etp; simpl.
  2:{ repeat split; auto. exists []. split; [now rewrite app_nil_r|].
      intros p Hin. inversion Hin. }
  repeat progress (rewrite ?Hcur, ?Hprev; simpl).
  case_bool_decide; simpl.
  2:{ repeat split; auto. eexists. split; [reflexivity|].
      intros p Hin. apply list_elem_of_In in Hin. simpl in Hin.
      intuition discriminate. }
  repeat progress (rewrite ?Hcur, ?Hprev; simpl).
  rewrite bool_decide_eq_true_2 by reflexivity. simpl.
  repeat split; auto. eexists. split.
  - rewrite <- !app_assoc. reflexivity.
  - intros p Hin. apply list_elem_of_In in Hin. simpl in Hin.
    intuition discriminate.
Qed.

Lemma getPrevFilePath_shape (path : string) :
  exists pre,
    _getPrevFilePath path = (pre ++ "prev." ++ Path.basename path)%string.
Proof. unfold _getPrevFilePath, Path.parseBase. apply PathFacts.format_shape. Qed.

Lemma getPrevFilePath_truthy (path : string) :
  JS.truthy (_getPrevFilePath path) = true.
Proof.
  destruct (getPrevFilePath_shape path) as [pre ->].
  apply PathFacts.truthy_true. intros E.
  apply (f_equal Path.chars) in E. rewrite !PathFacts.chars_app in E.
  apply app_eq_nil in E as [_ E]. discriminate.
Qed.

Lemma savedCompareFile_ne_prev (fileName : string) :
  savedCompareFile fileName <> _getPrevFilePath fileName.
Proof.
  unfold savedCompareFile.
  rewrite PathFacts.join2_plain
    by (apply PathFacts.compare_plain, PathFacts.basename_slashFree).
  destruct (getPrevFilePath_shape fileName) as [pre E]. rewrite E at 2.
  apply PathFacts.compare_ne_prev.
Qed.

(** C8, as the code has it.  A save notification for a path whose
    modification time is the one recorded at the last processed save of
    that path is ignored: no file is read, nothing is written, the zip and
    every file stay as they are. *)
Theorem save_with_recorded_mtime_is_ignored (fileName : string) (w : World) :
  watchActions w !! fileName = Some (default 0%Z (mtimes w !! fileName)) ->
  let w' := exec (_updateOOXMLFile H fileName) w in
  files w' = files w /\ zip w' = zip w /\ watchActions w' = watchActions w
  /\ exists calls,
      trace w' = (trace w ++ calls)%list /\ noRead calls /\ noWrite calls.
Proof.
  intros Hseen.
  unfold _updateOOXMLFile, Fs.existsSync, Fs.stat, Fs.readFile.
  unfold_io. simpl.
  destruct (JS.truthy fileName && _ && _ && _)%bool; simpl.
  2:{ repeat split; auto. exists []. rewrite app_nil_r.
      repeat split; intros p Hin; inversion Hin. }
  assert (Hcalls : forall c, (forall p, c <> CallReadFile p) ->
            (forall p, c <> CallWriteFile p) ->
            exists calls, (trace w ++ [c])%list = (trace w ++ calls)%list
                          /\ noRead calls /\ noWrite calls).
  { intros c Hr Hw. exists [c]. split; [reflexivity|].
    split; intros p Hin; apply list_elem_of_In in Hin; simpl in Hin;
      destruct Hin as [E|[]]; [eapply Hr | eapply Hw]; exact E. }
  destruct (files w !! fileName) as [[b|]|] eqn:E; simpl.
  - rewrite Hseen.
    rewrite (bool_decide_eq_false_2 (Some _ <> Some _)) by tauto.
    simpl. do 3 (split; [reflexivity|]). apply Hcalls; discriminate.
  - do 3 (split; [reflexivity|]). apply Hcalls; discriminate.
  - do 3 (split; [reflexivity|]). apply Hcalls; discriminate.
Qed.

End EditWriter.

Section Naming.
Context (H : Host).
Import Path PathShape PathFacts PathAlgebra.

Lemma fileCachePath_nonempty : fileCachePath H <> "".
Proof.
  destruct (fileCachePath_normal H) as (a & S & HS & Hok & E).
  now destruct (normalPath_facts _ a S HS Hok E).
Qed.

(** The path given as three arguments of [join] is the path [_createFile]
    makes in two steps. *)
Lemma join3_fileOf (fullPath name : string) :
  name <> "" ->
  join [fileCachePath H; dirname fullPath; name] = fileOf H fullPath name.
Proof.
  intros Hn. unfold fileOf, folderOf. symmetry.
  apply join_assoc; [apply fileCachePath_nonempty | exact Hn].
Qed.

Lemma compareFile_fileOf (fullPath name : string) :
  compareFile H fullPath name = fileOf H fullPath ("compare." ++ name).
Proof. unfold compareFile. now apply join3_fileOf. Qed.

Lemma joinBase_shape (x : string) :
  joinBase x = "" \/ exists y, joinBase x = (y ++ "/")%string.
Proof.
  unfold joinBase. destruct (String.eqb x ""); [now left|].
  destruct (normalizeString _ _) as [|s0 S'].
  - destruct (JS.startsWith x "/"); [right; now exists "" | now left].
  - right. eexists. now rewrite <- string_app_assoc.
Qed.

Lemma basename_join_plain (x n : string) :
  plain n -> basename (join [x; n]) = n.
Proof.
  intros Hn. pose proof Hn as (Hsf & Hne & _).
  rewrite join2_plain by assumption.
  destruct (joinBase_shape x) as [-> | [y ->]].
  - rewrite append_nil_l. now apply basename_of_slashFree.
  - rewrite string_app_assoc. now apply basename_after_slash.
Qed.

(** X18. [getDiff] has the editor compare the very files the pass writes for
    the node: on the left its compare generation, on the right its current
    file, under a title made of the two file names. *)
Theorem getDiff_compares_the_files_the_pass_writes (file : FileNode) :
  plain (fileName file) ->
  getDiff H file
  = VscodeDiff
      (fileOf H (fullPath file) ("compare." ++ fileName file))
      (fileOf H (fullPath file) (fileName file))
      (fileName file ++ " ↔ " ++ "compare." ++ fileName file).
Proof.
  intros Hn. pose proof Hn as (Hsf & Hne & _).
  pose proof (compare_plain (fileName file) Hsf) as Hc.
  unfold getDiff.
  rewrite !join3_fileOf by (try assumption; apply Hc).
  unfold fileOf. now rewrite !basename_join_plain.
Qed.

(** The folder of an entry whose path is made of plain segments, the
    entry's cache file and its previous file, spelled out. *)
Lemma plain_entry_paths (e : string) :
  Forall plain (JS.split "/" e) ->
  let name := basename e in
  plain name
  /\ normalPath (folderOf H e)
  /\ currentFile H e = (folderOf H e ++ "/" ++ name)%string
  /\ previousFile H e = (folderOf H e ++ "/" ++ "prev." ++ name)%string.
Proof.
  intros Hplain. cbv zeta.
  pose proof (fileCachePath_normal H) as HC.
  destruct (exists_last (split_nonempty e)) as (dsegs & name & Es).
  rewrite Es in Hplain. apply Forall_app in Hplain as [Hd Hn].
  inversion Hn as [|? ? Hname _]; subst.
  pose proof Hname as (Hsf & Hne & _).
  pose proof (prev_plain name Hsf) as Hprev.
  assert (Ee : e = JS.joinWith "/" (dsegs ++ [name]))
    by (rewrite <- Es; symmetry; apply joinWith_split).
  rewrite joinWith_snoc in Ee.
  unfold currentFile, previousFile, folderOf.
  destruct dsegs as [|d0 dsegs'].
  - subst e. rewrite basename_of_slashFree by assumption.
    rewrite dirname_of_segment, getPrev_of_segment by assumption.
    rewrite join_normal_dot by assumption.
    split; [exact Hname|]. split; [exact HC|].
    split; now apply join_normal_plain.
  - set (D := JS.joinWith "/" (d0 :: dsegs')) in *.
    destruct (plains_normalPath (d0 :: dsegs') ltac:(discriminate) Hd)
      as (a & S & HS & Hok & ED).
    destruct (normalPath_facts D a S HS Hok ED) as (HD & _ & _ & _ & HDr).
    subst e. rewrite basename_after_slash by assumption.
    rewrite dirname_last_segment, getPrev_last_segment by assumption.
    destruct (join_normal_plains (fileCachePath H) (d0 :: dsegs') HC
                ltac:(discriminate) Hd) as [EF HF].
    fold D in EF, HF. rewrite EF.
    split; [exact Hname|]. split; [exact HF|]. split.
    + destruct (join_normal_plains (fileCachePath H)
                  ((d0 :: dsegs') ++ [name]) HC) as [E _].
      * now destruct dsegs'.
      * apply Forall_app. split; [exact Hd | now constructor].
      * rewrite joinWith_snoc in E. fold D in E. rewrite E.
        now rewrite !string_app_assoc.
    + destruct (join_normal_plains (fileCachePath H)
                  ((d0 :: dsegs') ++ ["prev." ++ name]%string) HC) as [E _].
      * now destruct dsegs'.
      * apply Forall_app. split; [exact Hd | now constructor].
      * rewrite joinWith_snoc in E. fold D in E. rewrite E.
        now rewrite !string_app_assoc.
Qed.

(** X19. For a part whose entry path is made of plain segments, every function
    that names one of its three generation files names the same file: the
    file [_createFile] writes is the file the detector reads, the file the
    save handler takes as previous or compare file, and the file
    [_removeDeletedParts] deletes. *)
Theorem generation_files_have_one_name_each (e : string) :
  Forall plain (JS.split "/" e) ->
  let name := basename e in
  let cur := currentFile H e in
  fileOf H e name = cur
  /\ (fileOf H e ("prev." ++ name) = previousFile H e
      /\ _getPrevFilePath cur = previousFile H e
      /\ prevBeside cur = previousFile H e)
  /\ (fileOf H e ("compare." ++ name) = compareFile H e name
      /\ savedCompareFile cur = compareFile H e name
      /\ compareBeside cur = compareFile H e name).
Proof.
  intros Hplain name cur.
  destruct (plain_entry_paths e Hplain) as (Hname & HF & Ecur & Eprev).
  fold name in Hname, Ecur, Eprev. fold cur in Ecur.
  pose proof Hname as (Hsf & Hne & _).
  pose proof (prev_plain name Hsf) as Hp.
  pose proof (compare_plain name Hsf) as Hc.
  pose proof Hp as (Hpsf & Hpne & _).
  destruct HF as (a & S & HS & Hok & EF).
  destruct (normalPath_facts _ a S HS Hok EF) as (HFne & _ & _ & _ & HFr).
  assert (HF : normalPath (folderOf H e)) by (now exists a, S).
  assert (Hfile : forall x, plain x ->
            fileOf H e x = (folderOf H e ++ "/" ++ x)%string)
    by (intros x Hx; unfold fileOf; now apply join_normal_plain).
  assert (Ecmp : compareFile H e name
                 = (folderOf H e ++ "/" ++ "compare." ++ name)%string)
    by (rewrite compareFile_fileOf; now apply Hfile).
  assert (Hdir : dirname cur = folderOf H e)
    by (rewrite Ecur; now apply dirname_last_segment).
  assert (Hbase : basename cur = name)
    by (rewrite Ecur; now apply basename_after_slash).
  assert (Hprevcur : _getPrevFilePath cur
                     = (folderOf H e ++ "/" ++ "prev." ++ name)%string)
    by (rewrite Ecur; now apply getPrev_last_segment).
  split; [|split; [split; [|split] | split; [|split]]].
  - rewrite Hfile by assumption. now rewrite Ecur.
  - rewrite Hfile by assumption. now rewrite Eprev.
  - now rewrite Hprevcur, Eprev.
  - unfold prevBeside. rewrite Hdir, Hbase, Eprev.
    now apply join_normal_plain.
  - rewrite Hfile by assumption. now rewrite Ecmp.
  - unfold savedCompareFile. rewrite Hprevcur, Hbase, Ecmp.
    rewrite dirname_last_segment by assumption.
    now apply join_normal_plain.
  - unfold compareBeside. rewrite Hdir, Hbase, Ecmp.
    now apply join_normal_plain.
Qed.

End Naming.

Section EntryOfCacheFile.
Import Path PathShape PathFacts PathAlgebra.

Lemma folderName_cons : cacheFolderName = String "." folderNameTail.
Proof. reflexivity. Qed.

Lemma folderNameTail_noDot : Forall notDot (chars folderNameTail).
Proof.
  unfold folderNameTail, cacheFolderName. simpl.
  repeat (constructor; [discriminate|]). constructor.
Qed.

Lemma prefix_noDotAhead (t : string) :
  Forall notDot (chars t) ->
  forall s, String.prefix t s = true -> noDotAhead (String.length t) s.
Proof.
  induction t as [|c t IH]; intros Ht s Hp; [exact I|].
  simpl in Ht. inversion Ht as [|? ? Hc Hrest]; subst.
  destruct s as [|d s]; [discriminate|]. simpl in Hp.
  destruct (ascii_dec c d) as [<-|]; [|discriminate].
  simpl. split; [exact Hc|]. now apply IH.
Qed.

Lemma split_skip_tail (sep t r : string) :
  JS.splitFrom sep (String.length t) (t ++ r) = JS.splitFrom sep 0 r.
Proof.
  induction t as [|c t IH]; [reflexivity|].
  rewrite append_cons. simpl. exact IH.
Qed.

Lemma split_no_occurrence (sep r : string) :
  occursIn sep r = false -> JS.splitFrom sep 0 r = [r].
Proof.
  induction r as [|c r IH]; intros Hr; [reflexivity|].
  cbn [occursIn] in Hr. apply orb_false_iff in Hr as [Hp Hr].
  cbn [JS.splitFrom]. rewrite Hp, (IH Hr). reflexivity.
Qed.

Lemma prefix_app (s r : string) : String.prefix s (s ++ r) = true.
Proof.
  induction s as [|c s IH]; [now destruct r|].
  rewrite append_cons. simpl.
  destruct (ascii_dec c c); [exact IH | congruence].
Qed.

(** Splitting at the cache folder name: the part behind its last
    occurrence is the last piece. *)
Lemma split_at_folderName (r : string) :
  occursIn cacheFolderName r = false ->
  forall (pre : string) (skip : nat),
    noDotAhead skip (pre ++ cacheFolderName ++ r) ->
    exists front,
      front <> []
      /\ JS.splitFrom cacheFolderName skip (pre ++ cacheFolderName ++ r)
         = front ++ [r].
Proof.
  intros Hr. induction pre as [|c pre IH]; intros skip Hskip.
  - rewrite append_nil_l in *. rewrite folderName_cons in *.
    rewrite append_cons in *.
    destruct skip as [|k]; [|simpl in Hskip; now destruct Hskip as [[] _]].
    cbn [JS.splitFrom]. rewrite <- append_cons, <- folderName_cons.
    rewrite prefix_app. exists [""]. split; [discriminate|].
    cbn [app]. f_equal.
    change (String.length cacheFolderName - 1)
      with (String.length folderNameTail).
    rewrite split_skip_tail. now apply split_no_occurrence.
  - rewrite append_cons in *. destruct skip as [|k].
    + cbn [JS.splitFrom].
      destruct (String.prefix cacheFolderName
                  (String c (pre ++ cacheFolderName ++ r))) eqn:Ep.
      * destruct (IH (String.length cacheFolderName - 1)) as (front & Hne & ->).
        { rewrite folderName_cons in Ep. cbn [String.prefix] in Ep.
          destruct (ascii_dec "." c); [|discriminate].
          change (String.length cacheFolderName - 1)
            with (String.length folderNameTail).
          apply prefix_noDotAhead; [apply folderNameTail_noDot | exact Ep]. }
        exists ("" :: front). split; [discriminate | reflexivity].
      * destruct (IH 0 I) as (front & Hne & ->).
        destruct front as [|f0 front']; [congruence|].
        exists (String c f0 :: front'). split; [discriminate | reflexivity].
    + cbn [JS.splitFrom]. simpl in Hskip. destruct Hskip as [_ Hskip].
      now apply IH.
Qed.

Lemma lastOf_snoc (front : list string) (r : string) :
  JS.lastOf (front ++ [r]) = r.
Proof. unfold JS.lastOf. apply last_last. Qed.

Lemma occursIn_slash (e : string) :
  occursIn cacheFolderName ("/" ++ e) = occursIn cacheFolderName e.
Proof.
  change ("/" ++ e)%string with (String "/" e). cbn [occursIn].
  rewrite folderName_cons at 1. cbn [String.prefix].
  destruct (ascii_dec "." "/"); [discriminate | reflexivity].
Qed.

Lemma normalizedPathOf_behind_folderName (pre e : string) :
  occursIn cacheFolderName e = false ->
  JS.backslashesToSlashes e = e ->
  normalizedPathOf (pre ++ cacheFolderName ++ "/" ++ e) = e.
Proof.
  intros Hocc Hback. unfold normalizedPathOf, JS.split.
  destruct (split_at_folderName ("/" ++ e)) with (pre := pre) (skip := 0)
    as (front & _ & ->); [now rewrite occursIn_slash | exact I |].
  rewrite lastOf_snoc.
  change (JS.backslashesToSlashes ("/" ++ e))
    with (String "/" (JS.backslashesToSlashes e)).
  rewrite Hback. rewrite startsWith_cons. reflexivity.
Qed.

Context (H : Host).

Lemma fileCachePath_ends_with_folderName :
  exists pre, fileCachePath H = (pre ++ cacheFolderName)%string.
Proof.
  unfold fileCachePath. rewrite join2_plain by apply cacheFolderName_plain.
  now eexists.
Qed.

(** X20. The entry a save is written to is the entry its cache file was made
    for: for an entry path of plain segments, without a backslash and
    without the name of the cache folder in it, [_updateOOXMLFile] computes
    from the path of the entry's cache file the entry path itself. *)
Theorem saved_cache_file_names_its_entry (e : string) :
  Forall plain (JS.split "/" e) ->
  JS.backslashesToSlashes e = e ->
  occursIn cacheFolderName e = false ->
  normalizedPathOf (currentFile H e) = e.
Proof.
  intros Hplain Hback Hocc.
  assert (Ecur : currentFile H e = (fileCachePath H ++ "/" ++ e)%string).
  { unfold currentFile. rewrite <- (joinWith_split e) at 1 2.
    apply join_normal_plains; [apply fileCachePath_normal | | exact Hplain].
    apply split_nonempty. }
  rewrite Ecur.
  destruct fileCachePath_ends_with_folderName as [pre ->].
  rewrite string_app_assoc.
  now apply normalizedPathOf_behind_folderName.
Qed.

End EntryOfCacheFile.

(** ** The cache files of a part, by the layout and by the code *)

Section Layout.
Context (H : Host).
Import Path PathShape PathFacts PathAlgebra FsFacts.

Lemma removelast_snoc {A} (l : list A) (x : A) : removelast (l ++ [x]) = l.
Proof. apply removelast_last. Qed.

(** For an entry path made of plain segments, the folder of the part and
    its files as the code names them are the ones of the layout. *)
Lemma plain_entry_layout (e : string) :
  Forall plain (JS.split "/" e) ->
  let name := partName e in
  let d := folderOf H e in
  plain name /\ basename e = name /\ normalPath d
  /\ (forall x, plain x -> fileOf H e x = (d ++ "/" ++ x)%string)
  /\ (forall role, generationFile H role e = (d ++ "/" ++ role ++ name)%string)
  /\ dirname (_getPrevFilePath e) = dirname e
  /\ currentFile H e = (d ++ "/" ++ name)%string
  /\ previousFile H e = (d ++ "/" ++ "prev." ++ name)%string.
Proof.
  intros Hplain. cbv zeta.
  destruct (plain_entry_paths H e Hplain) as (Hbase & HF & Ecur & Eprev).
  pose proof (fileCachePath_normal H) as HC.
  destruct (exists_last (split_nonempty e)) as (dsegs & name & Es).
  unfold generationFile, partName. rewrite Es.
  rewrite removelast_snoc, last_last.
  rewrite Es in Hplain. apply Forall_app in Hplain as [Hd Hn].
  inversion Hn as [|? ? Hname _]; subst.
  pose proof Hname as (Hsf & Hne & _).
  assert (Ee : e = JS.joinWith "/" (dsegs ++ [name]))
    by (rewrite <- Es; symmetry; apply joinWith_split).
  rewrite joinWith_snoc in Ee.
  assert (Hb : basename e = name).
  { destruct dsegs; subst e;
      [now apply basename_of_slashFree | now apply basename_after_slash]. }
  rewrite Hb in *.
  split; [exact Hname|]. split; [reflexivity|]. split; [exact HF|].
  split; [intros x Hx; unfold fileOf; now apply join_normal_plain|].
  split; [|split; [|now split]].
  - intros role. rewrite joinWith_snoc. unfold folderOf.
    destruct dsegs as [|d0 dsegs'].
    + subst e. rewrite dirname_of_segment by assumption.
      now rewrite join_normal_dot by assumption.
    + set (D := JS.joinWith "/" (d0 :: dsegs')) in *.
      destruct (plains_normalPath (d0 :: dsegs') ltac:(discriminate) Hd)
        as (a & S & HS & Hok & ED).
      destruct (normalPath_facts D a S HS Hok ED) as (HD & _ & _ & _ & HDr).
      subst e. rewrite dirname_last_segment by assumption.
      destruct (join_normal_plains (fileCachePath H) (d0 :: dsegs') HC
                  ltac:(discriminate) Hd) as [EF _].
      fold D in EF. rewrite EF. now rewrite !string_app_assoc.
  - destruct dsegs as [|d0 dsegs'].
    + subst e. rewrite getPrev_of_segment by assumption.
      pose proof (prev_plain name Hsf) as (Hp1 & Hp2 & _).
      now rewrite !dirname_of_segment.
    + set (D := JS.joinWith "/" (d0 :: dsegs')) in *.
      destruct (plains_normalPath (d0 :: dsegs') ltac:(discriminate) Hd)
        as (a & S & HS & Hok & ED).
      destruct (normalPath_facts D a S HS Hok ED) as (HD & _ & _ & _ & HDr).
      subst e. rewrite getPrev_last_segment by assumption.
      pose proof (prev_plain name Hsf) as (Hp1 & Hp2 & _).
      now rewrite !dirname_last_segment.
Qed.

End Layout.

Section LayoutOfSavedFile.
Context (H : Host).
Import Path PathShape PathFacts PathAlgebra FsFacts.

(** The current file of a part is the cache root, a separator and the
    entry path, whatever the path. *)
Lemma generationFile_current (e : string) :
  generationFile H "" e = (fileCachePath H ++ "/" ++ e)%string.
Proof.
  unfold generationFile, partName. rewrite append_nil_l.
  rewrite <- app_removelast_last by apply split_nonempty.
  now rewrite joinWith_split.
Qed.

Lemma generationFile_inside (role e : string) :
  Fs.under (fileCachePath H) (generationFile H role e) = true.
Proof. apply under_spec. right. unfold generationFile. now eexists. Qed.

(** What [_updateOOXMLFile] computes from the path of a saved current
    file: the previous and the compare file of the part, and its entry. *)
Lemma saved_file_names (e : string) :
  Forall plain (JS.split "/" e) ->
  let saved := generationFile H "" e in
  _getPrevFilePath saved = generationFile H "prev." e
  /\ savedCompareFile saved = generationFile H "compare." e
  /\ Fs.above saved = partFolders H e
  /\ Fs.above (generationFile H "prev." e) = partFolders H e
  /\ Fs.above (generationFile H "compare." e) = partFolders H e
  /\ saved <> generationFile H "prev." e
  /\ saved <> generationFile H "compare." e
  /\ generationFile H "prev." e <> generationFile H "compare." e.
Proof.
  intros Hplain saved. unfold saved.
  destruct (plain_entry_layout H e Hplain)
    as (Hname & _ & HF & _ & Hgen & _ & _ & _).
  pose proof Hname as (Hsf & Hne & _).
  pose proof (prev_plain _ Hsf) as (Hpsf & Hpne & _).
  pose proof (compare_plain _ Hsf) as Hc. pose proof Hc as (Hcsf & Hcne & _).
  destruct HF as (a & S & HS & Hok & EF).
  destruct (normalPath_facts _ a S HS Hok EF) as (HFne & _ & _ & _ & HFr).
  assert (HF : normalPath (folderOf H e)) by (now exists a, S).
  rewrite !Hgen, !append_nil_l. unfold partFolders.
  rewrite getPrev_last_segment by assumption.
  split; [reflexivity|]. split.
  { unfold savedCompareFile. rewrite getPrev_last_segment by assumption.
    rewrite dirname_last_segment by assumption.
    rewrite basename_after_slash by assumption.
    now apply join_normal_plain. }
  rewrite !above_last_segment by assumption.
  do 3 (split; [reflexivity|]).
  assert (Hinj : forall x y : string,
            (folderOf H e ++ "/" ++ x)%string = (folderOf H e ++ "/" ++ y)%string
            -> x = y).
  { intros x y E. apply (f_equal chars) in E. rewrite !chars_app in E.
    apply app_inv_head in E. apply app_inv_head in E. now apply chars_inj. }
  split; [|split]; intros E; apply Hinj in E.
  - apply (f_equal (fun s => length (chars s))) in E.
    rewrite chars_app, length_app in E. simpl in E. lia.
  - apply (f_equal (fun s => length (chars s))) in E.
    rewrite chars_app, length_app in E. simpl in E. lia.
  - discriminate.
Qed.

End LayoutOfSavedFile.

(** ** The change detector *)

Section DetectorOfPart.
Context (H : Host).
Import Path PathShape PathFacts PathAlgebra.

(** What the detector answers, from what is at the two paths. *)
Lemma detector_answer (r : Result bool) (fs : gmap string FsEntry)
      (c p : string) :
  r = Ok (match fs !! c, fs !! p with
          | Some (RegularFile b1), Some (RegularFile b2) =>
              negb (bool_decide (b1 = b2))
          | _, _ => false
          end) ->
  (r = Ok true <->
   exists b1 b2,
     fs !! c = Some (RegularFile b1) /\ fs !! p = Some (RegularFile b2)
     /\ b1 <> b2)
  /\ ((forall b, fs !! c <> Some (RegularFile b))
      \/ (forall b, fs !! p <> Some (RegularFile b)) -> r = Ok false).
Proof.
  intros ->. split; [split|].
  - intros Heq.
    destruct (fs !! c) as [[b1|]|]; try discriminate;
      destruct (fs !! p) as [[b2|]|]; try discriminate.
    exists b1, b2. repeat split; auto.
    intros ->. rewrite bool_decide_eq_true_2 in Heq by reflexivity.
    discriminate.
  - intros (b1 & b2 & H1 & H2 & Hne). rewrite H1, H2.
    rewrite bool_decide_eq_false_2 by assumption. reflexivity.
  - intros [Hn | Hn].
    + destruct (fs !! c) as [[b1|]|]; auto.
      exfalso. eapply Hn. reflexivity.
    + destruct (fs !! c) as [[b1|]|]; auto.
      destruct (fs !! p) as [[b2|]|]; auto.
      exfalso. eapply Hn. reflexivity.
Qed.

(** C7. [_fileHasBeenChangedFromOutside] never throws and changes no file,
    whatever path it is given; it returns [true] exactly when the two files
    it looks at are regular files with different bytes, and [false] when
    either of them is missing or is no file.  For the path of a part (plain
    segments) the two files are the part's [<name>] and [prev.<name>] of
    the cache layout, which are the files the pass writes as current and as
    previous generation. *)
Theorem detector_true_iff_bytes_differ (fullPath : string) (w : World) :
  let r := _fileHasBeenChangedFromOutside H fullPath w in
  ((exists b, r.1 = Ok b) /\ files r.2 = files w)
  /\ (r.1 = Ok true <->
      exists b1 b2,
        files w !! currentFile H fullPath = Some (RegularFile b1)
        /\ files w !! previousFile H fullPath = Some (RegularFile b2)
        /\ b1 <> b2)
  /\ (Forall plain (JS.split "/" fullPath) ->
      let current := generationFile H "" fullPath in
      let previous := generationFile H "prev." fullPath in
      (fileOf H fullPath (partName fullPath) = current
       /\ fileOf H fullPath ("prev." ++ partName fullPath) = previous)
      /\ (r.1 = Ok true <->
          exists b1 b2,
            files w !! current = Some (RegularFile b1)
            /\ files w !! previous = Some (RegularFile b2)
            /\ b1 <> b2)
      /\ ((forall b, files w !! current <> Some (RegularFile b))
          \/ (forall b, files w !! previous <> Some (RegularFile b))
          -> r.1 = Ok false)).
Proof.
  intros r. destruct (detector_run H fullPath w) as (Hr & Hf & _).
  fold r in Hr, Hf. split; [split; [eexists; exact Hr | exact Hf]|].
  split; [exact (proj1 (detector_answer _ _ _ _ Hr))|].
  intros Hplain current previous.
  destruct (plain_entry_layout H fullPath Hplain)
    as (Hname & _ & _ & Hfile & Hgen & _ & Ecur & Eprev).
  pose proof Hname as (Hsf & _).
  assert (Ec : currentFile H fullPath = current).
  { unfold current. rewrite Hgen, Ecur. now rewrite append_nil_l. }
  assert (Ep : previousFile H fullPath = previous).
  { unfold previous. now rewrite Hgen, Eprev. }
  rewrite Ec, Ep in Hr. split.
  - unfold current, previous. rewrite !Hgen, append_nil_l.
    split; apply Hfile; [exact Hname | now apply prev_plain].
  - exact (detector_answer _ _ _ _ Hr).
Qed.

End DetectorOfPart.

(** ** Setting an entry of the zip *)

Module ZipFacts.
Import Path PathShape PathFacts FsFacts.

Lemma get_set_eq (z : JSZip) (name : string) (o : JSZipObject) :
  Zip.get (Zip.set z name o) name = Some o.
Proof.
  induction z as [|[k old] z IH]; simpl.
  - now rewrite String.eqb_refl.
  - destruct (String.eqb k name) eqn:E; simpl; rewrite E; auto.
Qed.

Lemma get_set_ne (z : JSZip) (name other : string) (o : JSZipObject) :
  other <> name -> Zip.get (Zip.set z name o) other = Zip.get z other.
Proof.
  intros Hne. induction z as [|[k old] z IH]; simpl.
  - destruct (String.eqb name other) eqn:E; [|reflexivity].
    apply String.eqb_eq in E. congruence.
  - destruct (String.eqb k name) eqn:E; simpl.
    + apply String.eqb_eq in E. subst k.
      destruct (String.eqb name other) eqn:E2; [|reflexivity].
      apply String.eqb_eq in E2. congruence.
    + now rewrite IH.
Qed.

Lemma endsWithSlash_force (name : string) :
  endsWithSlash (Zip.forceTrailingSlash name) = true.
Proof.
  unfold Zip.forceTrailingSlash.
  destruct (endsWithSlash name) eqn:E; [exact E|].
  unfold endsWithSlash. rewrite chars_app, rev_app_distr. reflexivity.
Qed.

Lemma prefix_refl (s : string) : String.prefix s s = true.
Proof. apply prefix_app_iff. exists "". now rewrite append_nil_r. Qed.

Lemma prefix_trans (a b c : string) :
  String.prefix a b = true -> String.prefix b c = true ->
  String.prefix a c = true.
Proof.
  rewrite !prefix_app_iff. intros [x ->] [y ->]. exists (x ++ y)%string.
  now rewrite string_app_assoc.
Qed.

Lemma dropWhile_split (p : ascii -> bool) (l : list ascii) :
  exists front, l = (front ++ dropWhile p l)%list.
Proof.
  induction l as [|c l [front IH]]; [now exists []|]. simpl.
  destruct (p c); [|now exists []].
  exists (c :: front). simpl. now f_equal.
Qed.

(** The folder of a name, with its separator, begins the name. *)
Lemma parentFolder_prefix (path : string) :
  Zip.parentFolder path <> "" ->
  String.prefix (Zip.forceTrailingSlash (Zip.parentFolder path)) path = true.
Proof.
  unfold Zip.parentFolder.
  set (r := rev (chars path)).
  set (r1 := match r with
             | c :: r' => if JS.isSlash c then r' else r
             | [] => []
             end).
  assert (Hr1 : exists tail, r = (tail ++ r1)%list).
  { unfold r1. destruct r as [|c r']; [now exists []|].
    destruct (JS.isSlash c); [now exists [c] | now exists []]. }
  destruct Hr1 as [tail Hr].
  destruct (dropWhile_split notSlash r1) as [front Hfront].
  destruct (dropWhile notSlash r1) as [|c before] eqn:Ed; [congruence|].
  intros Hne.
  assert (Hc : c = "/"%char).
  { assert (Hhead : notSlash c = false).
    { clear -Ed. induction r1 as [|x r1 IH]; [discriminate|]. simpl in Ed.
      destruct (notSlash x) eqn:Ex; [now apply IH|]. now injection Ed as <- _. }
    unfold notSlash, JS.isSlash in Hhead. apply negb_false_iff in Hhead.
    now apply Ascii.eqb_eq in Hhead. }
  subst c.
  assert (Epath : path = (str (rev before) ++ "/" ++ str (rev (tail ++ front)))%string).
  { apply chars_inj. rewrite !chars_app, !chars_str.
    rewrite <- (rev_involutive (chars path)). fold r.
    rewrite Hr, Hfront, !rev_app_distr. simpl.
    rewrite <- !app_assoc. reflexivity. }
  unfold Zip.forceTrailingSlash.
  destruct (endsWithSlash (str (rev before))) eqn:Ee.
  - apply prefix_app_iff. eexists. exact Epath.
  - apply prefix_app_iff. exists (str (rev (tail ++ front))).
    rewrite Epath at 1. now rewrite string_app_assoc.
Qed.

(** [folderAdd] adds folder entries only: names that end with the
    separator and begin the name they are added for. *)
Lemma get_folderAdd (fuel : nat) :
  forall (z : JSZip) (name other : string),
    Zip.get (Zip.folderAdd fuel z name) other = Zip.get z other
    \/ (Zip.get z other = None
        /\ Zip.get (Zip.folderAdd fuel z name) other = Some folderEntry
        /\ String.prefix other (Zip.forceTrailingSlash name) = true).
Proof.
  induction fuel as [|fuel IH]; intros z name other; cbn [Zip.folderAdd].
  - destruct (Zip.get z (Zip.forceTrailingSlash name)) eqn:Eg; [now left|].
    destruct (decide (other = Zip.forceTrailingSlash name)) as [->|Hne].
    + right. rewrite get_set_eq. repeat split; auto. apply prefix_refl.
    + left. now apply get_set_ne.
  - destruct (Zip.get z (Zip.forceTrailingSlash name)) eqn:Eg; [now left|].
    destruct (decide (other = Zip.forceTrailingSlash name)) as [->|Hne].
    + right. rewrite get_set_eq. repeat split; auto. apply prefix_refl.
    + rewrite get_set_ne by assumption.
      destruct (JS.truthy (Zip.parentFolder (Zip.forceTrailingSlash name)))
        eqn:Et; [|now left].
      destruct (IH z (Zip.parentFolder (Zip.forceTrailingSlash name)) other)
        as [E | (Hn & Hs & Hp)]; [now left|].
      right. repeat split; auto.
      eapply prefix_trans; [exact Hp|].
      apply parentFolder_prefix. now apply truthy_true.
Qed.

(** [zip.file(name, data)]: the entry is set, every other entry that was
    there stays as it was, and what is added besides are folder entries
    for the folders of the name. *)
Lemma get_put (z : JSZip) (name : string) (b : Bytes) :
  Zip.get (Zip.put z name b) name = Some {| dir := false; data := b |}
  /\ forall other, other <> name ->
       Zip.get (Zip.put z name b) other = Zip.get z other
       \/ (Zip.get z other = None
           /\ Zip.get (Zip.put z name b) other = Some folderEntry
           /\ String.prefix other name = true).
Proof.
  unfold Zip.put. split; [apply get_set_eq|].
  intros other Hne. rewrite get_set_ne by assumption.
  destruct (JS.truthy (Zip.parentFolder name)) eqn:Et; [|now left].
  destruct (get_folderAdd (String.length name) z (Zip.parentFolder name) other)
    as [E | (Hn & Hs & Hp)]; [now left|].
  right. repeat split; auto.
  eapply prefix_trans; [exact Hp|].
  apply parentFolder_prefix. now apply truthy_true.
Qed.

End ZipFacts.

(** ** A save with new content *)

Section SaveWithNewContent.
Context (H : Host).
Import Path PathShape PathFacts PathAlgebra FsFacts ZipFacts.

Local Arguments savedCompareFile : simpl never.
Local Arguments normalizedPathOf : simpl never.
Local Arguments Zip.put : simpl never.
Local Arguments Fs.written : simpl never.

(** The entry a saved current file stands for. *)
Lemma saved_file_entry (e : string) :
  JS.backslashesToSlashes e = e ->
  occursIn cacheFolderName e = false ->
  normalizedPathOf (generationFile H "" e) = e.
Proof.
  intros Hback Hocc. rewrite generationFile_current.
  destruct (fileCachePath_ends_with_folderName H) as [pre ->].
  rewrite string_app_assoc.
  now apply normalizedPathOf_behind_folderName.
Qed.

(** C2, as the code has it.  The current file of the part [e] is saved
    with bytes that differ from its previous generation, and the save is
    not one the debounce drops (its modification time is not the one
    recorded at the last processed save).  Then the package is rewritten:
    what is at its place decodes to a zip in which [e] has the new bytes,
    every entry that was there keeps what it had, and the only entries
    added are folder entries, without content, for folders of the path of
    [e]; the part's [compare.<name>] holds the old previous bytes and its
    [prev.<name>] the new bytes. *)
Theorem save_changed_rewrites_package
    (e : string) (cur prev pkg0 : Bytes) (w : World) :
  Forall plain (JS.split "/" e) ->
  JS.backslashesToSlashes e = e ->
  occursIn cacheFolderName e = false ->
  let saved := generationFile H "" e in
  let previous := generationFile H "prev." e in
  let compare := generationFile H "compare." e in
  files w !! saved = Some (RegularFile cur) ->
  files w !! previous = Some (RegularFile prev) ->
  cur <> prev ->
  watchActions w !! saved <> Some (default 0%Z (mtimes w !! saved)) ->
  Forall (fun q => files w !! q = Some Directory) (Fs.above saved) ->
  files w !! compare <> Some Directory ->
  files w !! ooxmlFilePath w = Some (RegularFile pkg0) ->
  Fs.under (fileCachePath H) (ooxmlFilePath w) = false ->
  loadAsync H (generateAsync H (Zip.put (zip w) e cur))
  = Some (Zip.put (zip w) e cur) ->
  let w' := exec (_updateOOXMLFile H saved) w in
  (exists pkg z',
      files w' !! ooxmlFilePath w = Some (RegularFile pkg)
      /\ loadAsync H pkg = Some z'
      /\ Zip.file z' e = Some {| dir := false; data := cur |}
      /\ (forall other o, other <> e ->
            Zip.get (zip w) other = Some o -> Zip.get z' other = Some o)
      /\ (forall other o, other <> e ->
            Zip.get z' other = Some o ->
            Zip.get (zip w) other = Some o
            \/ (Zip.get (zip w) other = None
                /\ o = {| dir := true; data := [] |}
                /\ String.prefix other e = true)))
  /\ files w' !! compare = Some (RegularFile prev)
  /\ files w' !! previous = Some (RegularFile cur).
Proof.
  intros Hplain Hback Hocc saved previous compare
         Hcur Hprev Hdiff Hfresh Hfolders Hcmp Hpkg Hout Hcodec.
  destruct (saved_file_names H e Hplain)
    as (Eprev & Ecmp & Eab & _ & Eabc & Hsp & Hsc & Hpc).
  fold saved previous compare in Eprev, Ecmp, Eab, Eabc, Hsp, Hsc, Hpc.
  pose proof (saved_file_entry e Hback Hocc) as Enorm. fold saved in Enorm.
  assert (Hin : forall role, ooxmlFilePath w <> generationFile H role e).
  { intros role E. rewrite E, generationFile_inside in Hout. discriminate. }
  pose proof (Hin "") as Hts. pose proof (Hin "prev.") as Htp.
  pose proof (Hin "compare.") as Htc. fold saved in Hts.
  fold previous in Htp. fold compare in Htc.
  assert (Hname : saved <> "").
  { unfold saved. rewrite generationFile_current.
    apply app_nonempty_l. apply (fileCachePath_nonempty H). }
  set (z1 := Zip.put (zip w) e cur) in *.
  set (pkg := generateAsync H z1) in *.
  set (fs1 := <[ooxmlFilePath w := RegularFile pkg]> (files w)).
  set (fs2 := <[compare := RegularFile prev]> fs1).
  set (fs3 := <[previous := RegularFile cur]> fs2).
  assert (W1 : Fs.written (ooxmlFilePath w) pkg (files w) = inr fs1)
    by (now apply written_over with pkg0).
  assert (W2 : Fs.written compare prev fs1 = inr fs2).
  { unfold Fs.written, fs1. rewrite lookup_insert_ne by assumption.
    destruct (files w !! compare) as [[c0|]|] eqn:Ec;
      [reflexivity | congruence |].
    rewrite Eabc. rewrite Eab in Hfolders. unfold partFolders in *.
    apply Forall_cons in Hfolders as [Hd _].
    rewrite mkdirpChain_there; [reflexivity|].
    rewrite lookup_insert_ne; [exact Hd|].
    intros E. rewrite <- E, Hpkg in Hd. discriminate. }
  assert (W3 : Fs.written previous cur fs2 = inr fs3).
  { apply written_over with prev. unfold fs2, fs1.
    rewrite lookup_insert_ne by congruence.
    now rewrite lookup_insert_ne by congruence. }
  assert (Hrun : files (exec (_updateOOXMLFile H saved) w) = fs3).
  { unfold _updateOOXMLFile, Fs.existsSync, Fs.stat, Fs.readFile,
      Fs.writeFile.
    unfold_io. simpl.
    apply truthy_true in Hname. rewrite Hname.
    rewrite getPrevFilePath_truthy, Eprev.
    repeat progress (rewrite ?Hcur, ?Hprev; simpl).
    rewrite (bool_decide_eq_true_2 _ Hfresh). simpl.
    repeat progress (rewrite ?Hcur, ?Hprev; simpl).
    rewrite (bool_decide_eq_false_2 _ Hdiff). simpl.
    rewrite Enorm. fold z1. fold pkg.
    rewrite W1. simpl. rewrite Ecmp, W2. simpl. rewrite W3. reflexivity. }
  cbv zeta. rewrite Hrun. unfold fs3, fs2, fs1.
  split; [|split].
  - exists pkg, z1.
    rewrite lookup_insert_ne by congruence.
    rewrite lookup_insert_ne by congruence.
    rewrite lookup_insert_eq. split; [reflexivity|]. split; [exact Hcodec|].
    destruct (get_put (zip w) e cur) as [Hset Hother]. fold z1 in Hset, Hother.
    split; [unfold Zip.file; now rewrite Hset|]. split.
    + intros other o Hne Ho.
      destruct (Hother other Hne) as [-> | (Hn & _)]; congruence.
    + intros other o Hne Ho.
      destruct (Hother other Hne) as [E | (Hn & Hs & Hp)].
      * left. congruence.
      * right. rewrite Hs in Ho. injection Ho as <-. now repeat split.
  - rewrite lookup_insert_ne by congruence. now rewrite lookup_insert_eq.
  - now rewrite lookup_insert_eq.
Qed.

End SaveWithNewContent.

(** ** What a computation leaves alone, and what cannot throw *)

Section Frames.

Context (H : Host).



Lemma keeps_ret {A X} (proj : World -> X) (a : A) : keeps proj (mret a).
Proof. intros w. reflexivity. Qed.

Lemma keeps_throw {A X} (proj : World -> X) (e : Err) :
  keeps proj (@throw A e).
Proof. intros w. reflexivity. Qed.

Lemma keeps_gets {A X} (proj : World -> X) (f : World -> A) :
  keeps proj (gets f).
Proof. intros w. reflexivity. Qed.

Lemma keeps_modify {X} (proj : World -> X) (f : World -> World) :
  (forall w, proj (f w) = proj w) -> keeps proj (modify f).
Proof. intros Hf w. apply Hf. Qed.

Lemma keeps_bind {A B X} (proj : World -> X) (m : M A) (k : A -> M B) :
  keeps proj m -> (forall a, keeps proj (k a)) -> keeps proj (m ≫= k).
Proof.
  intros Hm Hk w. unfold mbind, M_bind, bind.
  specialize (Hm w). destruct (m w) as [[a|e] w1]; simpl in *.
  - now rewrite Hk.
  - assumption.
Qed.

Lemma keeps_tryCatch {A X} (proj : World -> X) (m : M A) (h : Err -> M A) :
  keeps proj m -> (forall e, keeps proj (h e)) -> keeps proj (tryCatch m h).
Proof.
  intros Hm Hh w. unfold tryCatch.
  specialize (Hm w). destruct (m w) as [[a|e] w1]; simpl in *.
  - assumption.
  - now rewrite Hh.
Qed.

Lemma returns_ret {A} (a : A) : returns (mret a).
Proof. intros w. now exists a. Qed.

Lemma returns_gets {A} (f : World -> A) : returns (gets f).
Proof. intros w. now eexists. Qed.

Lemma returns_modify (f : World -> World) : returns (modify f).
Proof. intros w. now eexists. Qed.

Lemma returns_bind {A B} (m : M A) (k : A -> M B) :
  returns m -> (forall a, returns (k a)) -> returns (m ≫= k).
Proof.
  intros Hm Hk w. unfold mbind, M_bind, bind.
  destruct (Hm w) as [a Ha]. destruct (m w) as [r w1]. simpl in Ha.
  subst r. apply Hk.
Qed.

Lemma returns_tryCatch {A} (m : M A) (h : Err -> M A) :
  (forall e, returns (h e)) -> returns (tryCatch m h).
Proof.
  intros Hh w. unfold tryCatch. destruct (m w) as [[a|e] w1].
  - now exists a.
  - apply Hh.
Qed.

Lemma returns_consoleError (e : Err) : returns (consoleError e).
Proof. apply returns_modify. Qed.

Lemma returns_detached {A} (m : M A) : returns (detached m).
Proof.
  apply returns_tryCatch. intros e. apply returns_bind.
  - apply returns_modify.
  - intros _. apply returns_ret.
Qed.

(** [_createFile] swallows every error. *)
Lemma createFile_returns (fullPath fileName : string) :
  returns (_createFile H fullPath fileName).
Proof. apply returns_tryCatch, returns_consoleError. Qed.

Lemma detector_returns (firstFile : string) :
  returns (_fileHasBeenChangedFromOutside H firstFile).
Proof.
  apply returns_tryCatch. intros e. apply returns_bind.
  - apply returns_consoleError.
  - intros _. apply returns_ret.
Qed.


Lemma hostOnly_ret {A} (a : A) : hostOnly (mret a).
Proof. split; apply keeps_ret. Qed.

Lemma hostOnly_throw {A} (e : Err) : hostOnly (@throw A e).
Proof. split; apply keeps_throw. Qed.

Lemma hostOnly_gets {A} (f : World -> A) : hostOnly (gets f).
Proof. split; apply keeps_gets. Qed.

Lemma hostOnly_bind {A B} (m : M A) (k : A -> M B) :
  hostOnly m -> (forall a, hostOnly (k a)) -> hostOnly (m ≫= k).
Proof.
  intros [? ?] Hk. split; apply keeps_bind; auto; intros a; apply Hk.
Qed.

Lemma hostOnly_tryCatch {A} (m : M A) (h : Err -> M A) :
  hostOnly m -> (forall e, hostOnly (h e)) -> hostOnly (tryCatch m h).
Proof.
  intros [? ?] Hh. split; apply keeps_tryCatch; auto; intros e; apply Hh.
Qed.

Lemma hostOnly_log (c : HostCall) : hostOnly (modify (logCall c)).
Proof. split; apply keeps_modify; reflexivity. Qed.

Lemma hostOnly_setFiles (f : World -> gmap string FsEntry) :
  hostOnly (modify (fun w => setFiles (f w) w)).
Proof. split; apply keeps_modify; reflexivity. Qed.

Lemma hostOnly_stat (p : string) : hostOnly (Fs.stat p).
Proof.
  unfold Fs.stat. apply hostOnly_bind; [apply hostOnly_log|]. intros _.
  apply hostOnly_bind; [apply hostOnly_gets|]. intros e.
  apply hostOnly_bind; [apply hostOnly_gets|]. intros t.
  destruct e as [[|]|]; first [apply hostOnly_ret | apply hostOnly_throw].
Qed.

Lemma hostOnly_readFile (p : string) : hostOnly (Fs.readFile p).
Proof.
  unfold Fs.readFile. apply hostOnly_bind; [apply hostOnly_log|]. intros _.
  apply hostOnly_bind; [apply hostOnly_gets|]. intros e.
  destruct e as [[|]|]; first [apply hostOnly_ret | apply hostOnly_throw].
Qed.

Lemma hostOnly_writeFile (p : string) (b : Bytes) :
  hostOnly (Fs.writeFile p b).
Proof.
  unfold Fs.writeFile. apply hostOnly_bind; [apply hostOnly_log|]. intros _.
  apply hostOnly_bind; [apply hostOnly_gets|]. intros f.
  destruct (Fs.written p b f); try apply hostOnly_throw;
    split; apply keeps_modify; reflexivity.
Qed.

Lemma hostOnly_createDirectory (p : string) : hostOnly (Fs.createDirectory p).
Proof.
  unfold Fs.createDirectory.
  apply hostOnly_bind; [apply hostOnly_log|]. intros _.
  apply hostOnly_bind; [apply hostOnly_gets|]. intros f.
  destruct (Fs.mkdirp p f); try apply hostOnly_throw;
    split; apply keeps_modify; reflexivity.
Qed.

Lemma hostOnly_delete (p : string) : hostOnly (Fs.delete p).
Proof.
  unfold Fs.delete. apply hostOnly_bind; [apply hostOnly_log|]. intros _.
  apply hostOnly_bind; [apply hostOnly_gets|]. intros e.
  destruct e as [[|]|]; try apply hostOnly_throw;
    split; apply keeps_modify; reflexivity.
Qed.

Lemma hostOnly_consoleError (e : Err) : hostOnly (consoleError e).
Proof. apply hostOnly_log. Qed.

Lemma hostOnly_detached {A} (m : M A) : hostOnly m -> hostOnly (detached m).
Proof.
  intros Hm. apply hostOnly_tryCatch.
  - apply hostOnly_bind; [assumption|]. intros a. apply hostOnly_ret.
  - intros e. apply hostOnly_bind; [apply hostOnly_log|].
    intros _. apply hostOnly_ret.
Qed.

Lemma createFile_hostOnly (fullPath fileName : string) :
  hostOnly (_createFile H fullPath fileName).
Proof.
  unfold _createFile.
  apply hostOnly_tryCatch; [|apply hostOnly_consoleError].
  apply hostOnly_bind; [apply hostOnly_createDirectory|]. intros _.
  apply hostOnly_bind.
  { destruct (JS.startsWith (platform H) "win"); [|apply hostOnly_ret].
    destruct (attrib H _) as [e|stderr]; [apply hostOnly_throw|].
    destruct (JS.truthy stderr); [apply hostOnly_throw | apply hostOnly_ret]. }
  intros _. apply hostOnly_bind; [apply hostOnly_gets|]. intros file.
  apply hostOnly_bind.
  { destruct file; [apply hostOnly_ret|].
    apply hostOnly_bind; [apply hostOnly_readFile|].
    intros b. apply hostOnly_ret. }
  intros text. destruct (JS.startsWith text "<?xml").
  - apply hostOnly_bind; [|intros x; apply hostOnly_writeFile].
    destruct (_ <? _)%Z; [|apply hostOnly_ret].
    destruct (formatXml H text); [apply hostOnly_ret | apply hostOnly_throw].
  - destruct file; [apply hostOnly_writeFile | apply hostOnly_ret].
Qed.

Lemma detector_hostOnly (firstFile : string) :
  hostOnly (_fileHasBeenChangedFromOutside H firstFile).
Proof.
  unfold _fileHasBeenChangedFromOutside. apply hostOnly_tryCatch.
  - apply hostOnly_bind; [apply hostOnly_stat|]. intros s1.
    apply hostOnly_bind; [apply hostOnly_stat|]. intros s2.
    destruct (ftype s1), (ftype s2); try apply hostOnly_ret.
    apply hostOnly_bind; [apply hostOnly_readFile|]. intros b1.
    apply hostOnly_bind; [apply hostOnly_readFile|]. intros b2.
    destruct (bool_decide _); apply hostOnly_ret.
  - intros e. apply hostOnly_bind; [apply hostOnly_consoleError|].
    intros _. apply hostOnly_ret.
Qed.

End Frames.

(** ** The part tree and the paths its nodes carry *)

Section TreePaths.

Context (H : Host).

Lemma FileNode_rose_ind (P : FileNode -> Prop) :
  (forall name full icon ch,
      Forall P ch -> P (mkFileNode name full icon ch)) ->
  forall n, P n.
Proof.
  intros Hn. fix IH 1. intros [name full icon ch]. apply Hn.
  induction ch as [|c ch IHch]; constructor; [apply IH | exact IHch].
Qed.

Lemma namesLead_children (names : list string) (n : FileNode) :
  namesLeadFullPaths names n <->
  Forall (fun c => nodeOk (names ++ [fileName c]) c) (children n).
Proof.
  destruct n as [name full icon ch]. simpl.
  induction ch as [|c ch IH]; simpl.
  - split; [constructor | trivial].
  - rewrite Forall_cons. unfold nodeOk at 1. now rewrite IH.
Qed.

Lemma namesLead_setIconPath (names : list string) (i : Icon) (n : FileNode) :
  namesLeadFullPaths names (Tree.setIconPath i n)
  <-> namesLeadFullPaths names n.
Proof. now rewrite !namesLead_children. Qed.

Lemma namesLead_setFullPath (names : list string) (p : string) (n : FileNode) :
  namesLeadFullPaths names (Tree.setFullPath p n)
  <-> namesLeadFullPaths names n.
Proof. now rewrite !namesLead_children. Qed.

Lemma namesLead_pushChild (names : list string) (c n : FileNode) :
  namesLeadFullPaths names n ->
  nodeOk (names ++ [fileName c]) c ->
  namesLeadFullPaths names (Tree.pushChild c n).
Proof.
  rewrite !namesLead_children. simpl. intros Hn Hc.
  apply Forall_app. split; [assumption|]. now constructor.
Qed.

Lemma namesLead_leaf (names : list string) (name full : string) (i : Icon) :
  namesLeadFullPaths names (mkFileNode name full i []).
Proof. exact I. Qed.

(** An update at a reference keeps the invariant when it keeps it at the
    node it is applied to. *)
Lemma update_nodeOk (f : FileNode -> FileNode) (ref : list nat) :
  forall (c : FileNode) (names done : list string),
    nodeOk names c ->
    namesAlong ref c = Some done ->
    (forall n, Tree.getNode ref c = Some n ->
               nodeOk (names ++ done) n ->
               nodeOk (names ++ done) (f n) /\ fileName (f n) = fileName n) ->
    nodeOk names (Tree.updateNode ref f c)
    /\ fileName (Tree.updateNode ref f c) = fileName c.
Proof.
  induction ref as [|i ref IH]; intros c names done Hc Hdone Hf; simpl in *.
  - injection Hdone as <-. rewrite app_nil_r in Hf. now apply Hf.
  - destruct (children c !! i) as [ci|] eqn:Ei; [|discriminate].
    destruct (namesAlong ref ci) as [done'|] eqn:Ed; [|discriminate].
    injection Hdone as <-.
    destruct Hc as [Hpre Hlead].
    rewrite namesLead_children in Hlead.
    assert (Hci : nodeOk (names ++ [fileName ci]) ci).
    { eapply Forall_lookup_1 in Hlead; eauto. }
    destruct (IH ci (names ++ [fileName ci]) done' Hci Ed) as [Hu Hname].
    { intros n Hn. rewrite <- app_assoc. simpl. now apply Hf. }
    split; [|reflexivity]. split; [exact Hpre|].
    rewrite namesLead_children. simpl.
    apply Forall_insert; [assumption|]. now rewrite Hname.
Qed.

Lemma update_namesLead (f : FileNode -> FileNode) (ref : list nat)
      (root : FileNode) (done : list string) :
  namesLeadFullPaths [] root ->
  namesAlong ref root = Some done ->
  (forall n, Tree.getNode ref root = Some n ->
             (namesLeadFullPaths done n -> namesLeadFullPaths done (f n))
             /\ (ref <> [] -> nodeOk done n ->
                 nodeOk done (f n) /\ fileName (f n) = fileName n)) ->
  namesLeadFullPaths [] (Tree.updateNode ref f root).
Proof.
  intros Hroot Hdone Hf. destruct ref as [|i ref]; simpl in *.
  - injection Hdone as <-. destruct (Hf root eq_refl) as [Hl _]. now apply Hl.
  - destruct (children root !! i) as [ci|] eqn:Ei; [|discriminate].
    destruct (namesAlong ref ci) as [done'|] eqn:Ed; [|discriminate].
    injection Hdone as <-.
    pose proof Hroot as Hlead. rewrite namesLead_children in Hlead.
    assert (Hci : nodeOk ([] ++ [fileName ci]) ci).
    { eapply Forall_lookup_1 in Hlead; eauto. }
    destruct (update_nodeOk f ref ci ([] ++ [fileName ci]) done' Hci Ed)
      as [Hu Hname].
    { intros n Hn Hok. apply (Hf n Hn); [discriminate | exact Hok]. }
    rewrite namesLead_children. simpl.
    apply Forall_insert; [assumption|]. now rewrite Hname.
Qed.

Lemma namesAlong_getNode (ref : list nat) :
  forall (root : FileNode) (done : list string),
    namesAlong ref root = Some done ->
    exists n, Tree.getNode ref root = Some n.
Proof.
  induction ref as [|i ref IH]; intros root done Hd; simpl in *.
  - now exists root.
  - destruct (children root !! i) as [c|]; [|discriminate].
    destruct (namesAlong ref c) as [d|] eqn:E; [|discriminate].
    now apply (IH c d).
Qed.

Lemma getNode_snoc (ref : list nat) (i : nat) :
  forall root : FileNode,
    Tree.getNode (ref ++ [i]) root =
    match Tree.getNode ref root with
    | Some n => children n !! i
    | None => None
    end.
Proof.
  induction ref as [|j ref IH]; intros root; simpl.
  - now destruct (children root !! i).
  - destruct (children root !! j) as [c|]; [apply IH | reflexivity].
Qed.

Lemma namesAlong_snoc (ref : list nat) (i : nat) :
  forall (root n c : FileNode) (done : list string),
    namesAlong ref root = Some done ->
    Tree.getNode ref root = Some n ->
    children n !! i = Some c ->
    namesAlong (ref ++ [i]) root = Some (done ++ [fileName c]).
Proof.
  induction ref as [|j ref IH]; intros root n c done Hd Hn Hc; simpl in *.
  - injection Hd as <-. injection Hn as <-. now rewrite Hc.
  - destruct (children root !! j) as [cj|]; [|discriminate].
    destruct (namesAlong ref cj) as [d|] eqn:E; [|discriminate].
    injection Hd as <-. now rewrite (IH cj n c d).
Qed.

Lemma updateNode_fileName (f : FileNode -> FileNode) (ref : list nat) :
  (forall n, fileName (f n) = fileName n) ->
  forall root, fileName (Tree.updateNode ref f root) = fileName root.
Proof.
  intros Hf. destruct ref as [|i ref]; intros root; simpl; [apply Hf|].
  now destruct (children root !! i).
Qed.

(** An update that changes neither names nor the lists of children leaves
    every reference where it was. *)
Lemma namesAlong_update (f : FileNode -> FileNode) :
  (forall n, fileName (f n) = fileName n) ->
  (forall n, children (f n) = children n) ->
  forall (ref ref' : list nat) (root : FileNode),
    namesAlong ref' (Tree.updateNode ref f root) = namesAlong ref' root.
Proof.
  intros Hname Hch. induction ref as [|i ref IH]; intros ref' root; simpl.
  - destruct ref' as [|j ref']; simpl; [reflexivity|]. now rewrite Hch.
  - destruct (children root !! i) as [ci|] eqn:Ei; [|reflexivity].
    destruct ref' as [|j ref']; simpl; [reflexivity|].
    destruct (decide (i = j)) as [<-|Hne].
    + rewrite list_lookup_insert_eq by (eapply lookup_lt_Some; eauto).
      rewrite Ei, IH. now rewrite updateNode_fileName.
    + now rewrite list_lookup_insert_ne.
Qed.

Lemma namesAlong_pushChild (c : FileNode) (ref : list nat) :
  forall (root n : FileNode) (done : list string),
    namesAlong ref root = Some done ->
    Tree.getNode ref root = Some n ->
    namesAlong (ref ++ [length (children n)])
               (Tree.updateNode ref (Tree.pushChild c) root)
    = Some (done ++ [fileName c]).
Proof.
  induction ref as [|j ref IH]; intros root n done Hd Hn; simpl in *.
  - injection Hd as <-. injection Hn as <-.
    rewrite lookup_app_r by lia. now rewrite Nat.sub_diag.
  - destruct (children root !! j) as [cj|] eqn:Ej; [|discriminate].
    destruct (namesAlong ref cj) as [d|] eqn:E; [|discriminate].
    injection Hd as <-. simpl.
    rewrite list_lookup_insert_eq by (eapply lookup_lt_Some; eauto).
    rewrite (IH cj n d E Hn).
    rewrite updateNode_fileName; [reflexivity|]. now intros [].
Qed.

Lemma findChild_Some (name : string) (n : FileNode) (i : nat) (c : FileNode) :
  Tree.findChild name n = Some (i, c) ->
  children n !! i = Some c /\ fileName c = name.
Proof.
  unfold Tree.findChild. intros Hf. apply list_find_Some in Hf.
  destruct Hf as (Hi & Hname & _). now split.
Qed.

Lemma bind_run {A B} (m : M A) (k : A -> M B) (w : World) :
  (m ≫= k) w = match m w with
               | (Ok a, w1) => k a w1
               | (Throw e, w1) => (Throw e, w1)
               end.
Proof. reflexivity. Qed.

Lemma hostOnly_run {A} (m : M A) (w : World) :
  hostOnly m -> returns m ->
  exists a w1, m w = (Ok a, w1)
               /\ rootFileNode w1 = rootFileNode w /\ zip w1 = zip w.
Proof.
  intros [Ht Hz] Hr. destruct (Hr w) as [a Ha].
  specialize (Ht w). specialize (Hz w).
  destruct (m w) as [r w1]. simpl in *. subst r. now exists a, w1.
Qed.

Lemma node_run (ref : list nat) (w : World) :
  node ref w = (Ok (default newFileNode (Tree.getNode ref (rootFileNode w))), w).
Proof. reflexivity. Qed.

Lemma updateTree_run (ref : list nat) (f : FileNode -> FileNode) (w : World) :
  updateTree ref f w
  = (Ok tt, setRootFileNode (Tree.updateNode ref f (rootFileNode w)) w).
Proof. reflexivity. Qed.

Lemma setIconPath_keeps_invariant (x : Icon) (ref : list nat)
      (root : FileNode) (done : list string) :
  namesLeadFullPaths [] root ->
  namesAlong ref root = Some done ->
  namesLeadFullPaths [] (Tree.updateNode ref (Tree.setIconPath x) root).
Proof.
  intros Hinv Hd. apply (update_namesLead _ ref root done Hinv Hd).
  intros n _. split.
  - now rewrite namesLead_setIconPath.
  - intros _ [Hp Hl]. split; [|reflexivity].
    split; [exact Hp | now rewrite namesLead_setIconPath].
Qed.

Lemma pushChild_keeps_invariant (c : FileNode) (ref : list nat)
      (root : FileNode) (done : list string) :
  namesLeadFullPaths [] root ->
  namesAlong ref root = Some done ->
  nodeOk (done ++ [fileName c]) c ->
  namesLeadFullPaths [] (Tree.updateNode ref (Tree.pushChild c) root).
Proof.
  intros Hinv Hd Hc. apply (update_namesLead _ ref root done Hinv Hd).
  intros n _. split.
  - intros Hl. now apply namesLead_pushChild.
  - intros _ [Hp Hl]. split; [|reflexivity].
    split; [exact Hp | now apply namesLead_pushChild].
Qed.

Lemma setFullPath_keeps_invariant (e : string) (ref : list nat)
      (root : FileNode) :
  namesLeadFullPaths [] root ->
  namesAlong ref root = Some (JS.split "/" e) ->
  namesLeadFullPaths [] (Tree.updateNode ref (Tree.setFullPath e) root).
Proof.
  intros Hinv Hd. apply (update_namesLead _ ref root _ Hinv Hd).
  intros n _. split.
  - now rewrite namesLead_setFullPath.
  - intros _ [Hp Hl]. split; [|reflexivity].
    split; [reflexivity | now rewrite namesLead_setFullPath].
Qed.

(** A visit of a node that is there already changes its icon at most. *)
Lemma visitExisting_run (ref : list nat) (w : World) :
  exists x w',
    visitExisting H ref w = (Ok tt, w')
    /\ rootFileNode w'
       = Tree.updateNode ref (Tree.setIconPath x) (rootFileNode w)
    /\ zip w' = zip w.
Proof.
  unfold visitExisting. rewrite bind_run, node_run.
  set (n := default newFileNode (Tree.getNode ref (rootFileNode w))).
  rewrite bind_run.
  destruct (hostOnly_run (_createFile H (fullPath n) (fileName n)) w
              (createFile_hostOnly H _ _) (createFile_returns H _ _))
    as (u1 & w1 & E1 & T1 & Z1).
  rewrite E1, bind_run.
  destruct (hostOnly_run (_fileHasBeenChangedFromOutside H (fullPath n)) w1
              (detector_hostOnly H _) (detector_returns H _))
    as (different & w2 & E2 & T2 & Z2).
  rewrite E2. destruct different.
  - rewrite bind_run, updateTree_run, bind_run.
    match goal with
    | |- context [_createFile H ?a ?b ?w0] =>
        destruct (hostOnly_run (_createFile H a b) w0
                    (createFile_hostOnly H _ _) (createFile_returns H _ _))
          as (u3 & w3 & E3 & T3 & Z3)
    end.
    rewrite E3.
    destruct (hostOnly_run
                (_createFile H (fullPath n) ("prev." ++ fileName n)) w3
                (createFile_hostOnly H _ _) (createFile_returns H _ _))
      as ([] & w4 & E4 & T4 & Z4).
    rewrite E4. eexists _, w4. split; [reflexivity|].
    rewrite T4, T3, Z4, Z3. simpl. rewrite T2, T1, Z2, Z1. split; reflexivity.
  - rewrite updateTree_run. eexists _, _. split; [reflexivity|].
    simpl. rewrite T2, T1, Z2, Z1. split; reflexivity.
Qed.

(** A visit that creates a node adds it as the last child; only the write of
    an empty compare file can make it throw. *)
Lemma visitNew_run (showNew : bool) (e name : string) (ref : list nat)
      (w : World) :
  let n := default newFileNode (Tree.getNode ref (rootFileNode w)) in
  let ref' := (ref ++ [length (children n)])%list in
  let pushed :=
    Tree.updateNode ref (Tree.pushChild (mkFileNode name e IconUnset []))
                    (rootFileNode w) in
  exists r w',
    visitNew H showNew e name ref w = (r, w')
    /\ (r = Ok ref' \/ exists err, r = Throw err)
    /\ (rootFileNode w' = pushed
        \/ rootFileNode w'
           = Tree.updateNode ref' (Tree.setIconPath asteriskGreen) pushed)
    /\ zip w' = zip w.
Proof.
  intros n ref' pushed. unfold visitNew. rewrite bind_run, node_run. fold n.
  rewrite bind_run, updateTree_run.
  set (w1 := setRootFileNode _ w).
  rewrite bind_run.
  destruct (hostOnly_run (_createFile H e name) w1
              (createFile_hostOnly H _ _) (createFile_returns H _ _))
    as (u2 & w2 & E2 & T2 & Z2).
  rewrite E2, bind_run.
  destruct (hostOnly_run (_createFile H e ("prev." ++ name)) w2
              (createFile_hostOnly H _ _) (createFile_returns H _ _))
    as (u3 & w3 & E3 & T3 & Z3).
  rewrite E3, bind_run.
  destruct showNew.
  - rewrite bind_run, updateTree_run.
    match goal with
    | |- context [Fs.writeFile ?p ?b ?w0] =>
        pose proof (proj1 (hostOnly_writeFile p b) w0) as T4;
        pose proof (proj2 (hostOnly_writeFile p b) w0) as Z4;
        destruct (Fs.writeFile p b w0) as [[u|err] w4]
    end; simpl in T4, Z4.
    + eexists _, w4. split; [reflexivity|].
      split; [now left|]. rewrite T4, Z4, T3, T2, Z3, Z2. split; [now right|].
      reflexivity.
    + eexists _, w4. split; [reflexivity|].
      split; [right; now eexists|]. rewrite T4, Z4, T3, T2, Z3, Z2.
      split; [now right | reflexivity].
  - destruct (hostOnly_run (_createFile H e ("compare." ++ name)) w3
                (createFile_hostOnly H _ _) (createFile_returns H _ _))
      as (u4 & w4 & E4 & T4 & Z4).
    rewrite E4. eexists _, w4. split; [reflexivity|].
    split; [now left|]. rewrite T4, Z4, T3, T2, Z3, Z2.
    split; [now left | reflexivity].
Qed.

(** The inner loop keeps the invariant, and ends at a node whose names are
    the segments of the entry path. *)
Lemma walkNames_keeps_invariant (showNew : bool) (e : string) :
  forall (names : list string) (cur : list nat) (w : World)
         (done : list string),
    namesLeadFullPaths [] (rootFileNode w) ->
    namesAlong cur (rootFileNode w) = Some done ->
    (done ++ names)%list = JS.split "/" e ->
    let r := walkNames H showNew e names cur w in
    namesLeadFullPaths [] (rootFileNode r.2)
    /\ forall cur', r.1 = Ok cur' ->
         namesAlong cur' (rootFileNode r.2) = Some (JS.split "/" e).
Proof.
  induction names as [|name names IH]; intros cur w done Hinv Hcur Hsplit.
  - simpl. rewrite app_nil_r in Hsplit. subst done.
    split; [assumption|]. intros cur' [= <-]. assumption.
  - cbn [walkNames].
    destruct (namesAlong_getNode _ _ _ Hcur) as [n Hn].
    rewrite bind_run, node_run, Hn. cbn [default from_option id].
    destruct (Tree.findChild name n) as [[i c]|] eqn:Ef.
    + apply findChild_Some in Ef as [Hi Hname].
      rewrite bind_run.
      destruct (visitExisting_run (cur ++ [i]) w) as (x & w3 & E3 & T3 & _).
      rewrite E3.
      assert (Href : namesAlong (cur ++ [i]) (rootFileNode w)
                     = Some (done ++ [name])).
      { rewrite <- Hname. eapply namesAlong_snoc; eauto. }
      apply (IH (cur ++ [i]) w3 (done ++ [name])).
      * rewrite T3. eapply setIconPath_keeps_invariant; eauto.
      * rewrite T3. rewrite namesAlong_update; auto.
      * now rewrite <- app_assoc.
    + rewrite bind_run.
      destruct (visitNew_run showNew e name cur w)
        as (r & w4 & E4 & Hr & T4 & _).
      rewrite E4. rewrite Hn in Hr, T4. cbn [default from_option id] in Hr, T4.
      set (newNode := mkFileNode name e IconUnset []) in *.
      assert (Hroot1 : namesLeadFullPaths []
                (Tree.updateNode cur (Tree.pushChild newNode) (rootFileNode w))).
      { eapply pushChild_keeps_invariant; eauto.
        split; [|exact I]. simpl. rewrite <- Hsplit.
        exists names. now rewrite <- app_assoc. }
      assert (Href1 : namesAlong (cur ++ [length (children n)])
                (Tree.updateNode cur (Tree.pushChild newNode) (rootFileNode w))
                      = Some (done ++ [name])).
      { now rewrite (namesAlong_pushChild newNode cur _ n done Hcur Hn). }
      assert (Hinv4 : namesLeadFullPaths [] (rootFileNode w4)
                      /\ namesAlong (cur ++ [length (children n)])
                                    (rootFileNode w4) = Some (done ++ [name])).
      { destruct T4 as [-> | ->]; [now split|]. split.
        - eapply setIconPath_keeps_invariant; eauto.
        - rewrite namesAlong_update; auto. }
      destruct Hinv4 as [Hinv4 Href4].
      destruct Hr as [-> | [err ->]].
      * apply (IH _ w4 (done ++ [name])); auto.
        now rewrite <- app_assoc.
      * simpl. split; [assumption | discriminate].
Qed.

Lemma forEachCollect_yields {A B} (P : A -> B -> Prop)
      (callback : A -> M B) (l : list A) :
  Forall (yields P callback) l ->
  yields (Forall2 P) (forEachCollect callback) l.
Proof.
  induction l as [|a l IH]; intros Hl w.
  - exists [], w. repeat split. constructor.
  - inversion Hl as [|? ? Ha Hrest]; subst.
    destruct (Ha w) as (b & w1 & E1 & Pb & Z1 & T1).
    destruct (IH Hrest w1) as (bs & w2 & E2 & Pbs & Z2 & T2).
    exists (b :: bs), w2. cbn [forEachCollect].
    rewrite bind_run, E1. fold (forEachCollect callback l).
    rewrite bind_run, E2. repeat split; try congruence.
    now constructor.
Qed.

Lemma splice1_Forall (P : FileNode -> Prop) (i : nat) (arr : list FileNode) :
  Forall P arr -> Forall P (Tree.splice1 i arr).
Proof.
  intros Harr. unfold Tree.splice1. apply Forall_app. split.
  - now apply Forall_take.
  - now apply Forall_drop.
Qed.

Lemma applySplices_Forall (P : FileNode -> Prop)
      (results : list (FileNode * bool)) :
  forall (i : nat) (arr : list FileNode),
    Forall P arr -> Forall P (applySplices i results arr).
Proof.
  induction results as [|[n b] results IH]; intros i arr Harr; simpl.
  - assumption.
  - destruct b; apply IH; [now apply splice1_Forall | assumption].
Qed.

Lemma sameNode_refl (n : FileNode) : sameNodeFewerChildren n n.
Proof. repeat split; auto. Qed.

Lemma sameNode_setIconPath (x : Icon) (n : FileNode) :
  sameNodeFewerChildren n (Tree.setIconPath x n).
Proof.
  repeat split; auto. intros names. now rewrite namesLead_setIconPath.
Qed.

Lemma sameNode_children (names : list string) (l l' : list FileNode) :
  Forall2 sameNodeFewerChildren l l' ->
  Forall (fun c => nodeOk (names ++ [fileName c]) c) l ->
  Forall (fun c => nodeOk (names ++ [fileName c]) c) l'.
Proof.
  induction 1 as [|n n' l l' (Hname & Hfull & Hlead) _ IH]; intros Hl.
  - constructor.
  - inversion Hl as [|? ? [Hp Hn] Hrest]; subst. constructor; [|now apply IH].
    unfold nodeOk. rewrite Hname, Hfull. split; [exact Hp | now apply Hlead].
Qed.

Lemma detached_run {A} (m : M A) (w : World) :
  hostOnly m ->
  exists r w', detached m w = (Ok r, w')
               /\ zip w' = zip w /\ rootFileNode w' = rootFileNode w.
Proof.
  intros Hm.
  destruct (hostOnly_run (detached m) w (hostOnly_detached m Hm)
              (returns_detached m)) as (r & w' & E & T & Z).
  now exists r, w'.
Qed.

Lemma removeDeletedCallback_yields (recur : FileNode -> M FileNode)
      (n : FileNode) :
  Forall (yields sameNodeFewerChildren recur) (children n) ->
  yields (fun a (r : FileNode * bool) => sameNodeFewerChildren a r.1)
         (removeDeletedCallback H recur) n.
Proof.
  intros Hch w. destruct n as [nName nFull nIcon nChildren].
  unfold removeDeletedCallback. rewrite bind_run. cbn [gets].
  destruct (negb (Zip.includes (Zip.keys (zip w)) nFull)).
  - rewrite bind_run.
    destruct (detached_run (Fs.readFile (Path.join [fileCachePath H; nFull])) w
                (hostOnly_readFile _)) as (read & w1 & E1 & Z1 & T1).
    rewrite E1. destruct read as [b|].
    + destruct (JS.truthy (utf8Decode H b)).
      * rewrite bind_run.
        match goal with
        | |- context [detached ?m w1] =>
            destruct (detached_run m w1 (hostOnly_writeFile _ _))
              as (r2 & w2 & E2 & Z2 & T2)
        end.
        rewrite E2. eexists _, w2. split; [reflexivity|].
        split; [apply sameNode_setIconPath|]. split; congruence.
      * rewrite bind_run.
        match goal with
        | |- context [detached ?m w1] =>
            destruct (detached_run m w1) as (r2 & w2 & E2 & Z2 & T2)
        end.
        { repeat (apply hostOnly_bind; [apply hostOnly_delete|]; intros _).
          apply hostOnly_delete. }
        rewrite E2. eexists _, w2. split; [reflexivity|].
        split; [apply sameNode_refl|]. split; congruence.
    + eexists _, w1. split; [reflexivity|].
      split; [apply sameNode_refl|]. split; congruence.
  - destruct nChildren as [|c rest].
    + eexists _, w. split; [reflexivity|]. split; [apply sameNode_refl|].
      split; reflexivity.
    + rewrite bind_run.
      destruct (forEachCollect_yields _ recur (c :: rest) Hch w)
        as (ch & w1 & E1 & Hrel & Z1 & T1).
      rewrite E1. eexists _, w1. split; [reflexivity|].
      split; [|split; assumption].
      repeat split; auto. intros names.
      rewrite !namesLead_children. cbn [children]. cbn [fst].
      now apply sameNode_children.
Qed.

(** [_removeDeletedParts] always returns, and only takes nodes away or
    changes icons. *)
Lemma removeDeletedParts_yields (nd : FileNode) :
  yields sameNodeFewerChildren (_removeDeletedParts H) nd.
Proof.
  cut (yields sameNodeFewerChildren (_removeDeletedParts H) nd
       /\ Forall (yields sameNodeFewerChildren (_removeDeletedParts H))
                 (children nd)); [tauto|].
  induction nd as [name full icon arr IH] using FileNode_rose_ind.
  assert (Harr : Forall (yields sameNodeFewerChildren (_removeDeletedParts H))
                        arr).
  { eapply Forall_impl; [exact IH|]. intros n Hn. apply Hn. }
  split; [|exact Harr]. intros w. cbn [_removeDeletedParts].
  rewrite bind_run.
  destruct (forEachCollect_yields
              (fun a (r : FileNode * bool) => sameNodeFewerChildren a r.1)
              (removeDeletedCallback H (_removeDeletedParts H)) arr) with (w := w)
    as (results & w1 & E1 & Hrel & Z1 & T1).
  { eapply Forall_impl; [exact IH|]. intros n Hn.
    apply removeDeletedCallback_yields. apply Hn. }
  rewrite E1. eexists _, w1. split; [reflexivity|].
  split; [|split; assumption].
  repeat split; auto. intros names.
  rewrite !namesLead_children. cbn [children]. intros Hnames.
  apply applySplices_Forall.
  apply (sameNode_children names arr); [|assumption].
  clear -Hrel. induction Hrel; simpl; constructor; auto.
Qed.

Lemma forEachM_invariant {A} (Inv : World -> Prop) (body : A -> M unit)
      (l : list A) :
  (forall a w, Inv w -> Inv (body a w).2) ->
  forall w, Inv w -> Inv (forEachM l body w).2.
Proof.
  intros Hbody. induction l as [|a l IH]; intros w Hw; simpl.
  - assumption.
  - rewrite bind_run. specialize (Hbody a w Hw).
    destruct (body a w) as [[u|e] w1]; simpl in *; [now apply IH | assumption].
Qed.

Lemma populate_keeps_invariant
    (files : JSZip) (showNewFileLabel : bool) (w : World) :
  namesLeadFullPaths [] (rootFileNode w) ->
  namesLeadFullPaths []
    (rootFileNode (exec (_populateOOXMLViewer H files showNewFileLabel) w)).
Proof.
  intros Hinv. unfold exec, _populateOOXMLViewer. rewrite bind_run.
  match goal with
  | |- context [forEachM ?l ?body w] =>
      pose proof (forEachM_invariant
                    (fun w => namesLeadFullPaths [] (rootFileNode w))
                    body l) as Hloop
  end.
  simpl in Hloop. specialize (fun Hb => Hloop Hb w Hinv).
  match type of Hloop with
  | ?P -> _ => assert (Hbody : P)
  end.
  { clear. intros e w Hinv.
    assert (Hwalk : namesLeadFullPaths []
              (rootFileNode
                 ((walkNames H showNewFileLabel e (JS.split "/" e) []
                   ≫= fun cur => updateTree cur (Tree.setFullPath e)) w).2)).
    { rewrite bind_run.
      destruct (walkNames_keeps_invariant showNewFileLabel e
                  (JS.split "/" e) [] w [] Hinv eq_refl eq_refl)
        as [Hroot Href].
      destruct (walkNames H showNewFileLabel e (JS.split "/" e) [] w)
        as [[cur|err] w1]; simpl in *; [|assumption].
      apply setFullPath_keeps_invariant; auto. }
    destruct (Zip.get files e) as [[[|] b]|]; auto. }
  specialize (Hloop Hbody).
  destruct (forEachM _ _ w) as [[u|err] w1]; simpl in *; [|assumption].
  destruct showNewFileLabel; [|assumption].
  rewrite bind_run. cbn [gets]. rewrite bind_run.
  destruct (removeDeletedParts_yields (rootFileNode w1) w1)
    as (r & w2 & E & (_ & _ & Hlead) & _ & _).
  rewrite E. simpl. now apply Hlead.
Qed.

(** C9, as the code has it.  A reconciliation pass keeps this invariant of
    the part tree: for every node below the root, folder nodes included, the
    names met from the root down to the node are the first segments of the
    node's [fullPath] (which is a whole entry path, not the parent's path
    followed by the node's name). *)
Theorem populate_keeps_names_leading_full_paths
    (files : JSZip) (showNewFileLabel : bool) (w : World) :
  namesLeadFullPaths [] (rootFileNode w) ->
  namesLeadFullPaths []
    (rootFileNode (exec (_populateOOXMLViewer H files showNewFileLabel) w)).
Proof. apply populate_keeps_invariant. Qed.

(** The first load starts from an empty tree and so establishes it. *)
Corollary viewContents_names_lead_full_paths (fsPath : string) (w : World) :
  namesLeadFullPaths [] (rootFileNode (exec (viewContents H fsPath) w)).
Proof.
  unfold exec, viewContents, tryCatch.
  match goal with
  | |- context [(?m ≫= ?k) w] =>
      assert (Hmain : namesLeadFullPaths [] (rootFileNode ((m ≫= k) w).2))
  end.
  { rewrite bind_run. cbn [modify]. rewrite bind_run.
    set (w0 := setOoxmlFilePath fsPath w).
    assert (Hreset : exists w1, _resetOOXMLViewer H w0 = (Ok tt, w1)
                                /\ rootFileNode w1 = newFileNode).
    { unfold _resetOOXMLViewer, tryCatch. rewrite bind_run. cbn [modify].
      rewrite bind_run. cbn [modify]. rewrite bind_run. cbn [gets].
      destruct (Fs.existsSync _ _).
      - unfold Fs.rimraf. rewrite bind_run. cbn [modify]. eexists. split; reflexivity.
      - eexists. split; reflexivity. }
    destruct Hreset as (w1 & E1 & T1). rewrite E1. rewrite bind_run.
    pose proof (proj1 (hostOnly_readFile fsPath) w1) as T2.
    destruct (Fs.readFile fsPath w1) as [[bytes|err] w2]; simpl in T2;
      [|simpl; rewrite T2, T1; exact I].
    destruct (loadAsync H bytes) as [z|]; [|simpl; rewrite T2, T1; exact I].
    rewrite bind_run. cbn [modify]. rewrite bind_run. cbn [gets].
    rewrite bind_run.
    match goal with
    | |- context [_populateOOXMLViewer H ?f false ?w3] =>
        pose proof (populate_keeps_invariant f false w3) as Hp;
        unfold exec in Hp;
        destruct (_populateOOXMLViewer H f false w3) as [[u|err] w4]
    end.
    - pose proof (proj1 (hostOnly_createDirectory (fileCachePath H)) w4) as T5.
      destruct (Fs.createDirectory (fileCachePath H) w4) as [r w5].
      simpl in *. rewrite T5. apply Hp. rewrite T2, T1. exact I.
    - simpl in *. apply Hp. rewrite T2, T1. exact I. }
  match type of Hmain with
  | context [?m w] => destruct (m w) as [[u|err] w1]; simpl in *; assumption
  end.
Qed.

End TreePaths.

(** ** The effect of the steps of a pass on the files *)

Section StepEffects.

Context (H : Host).

Lemma createFile_files (fullPath fileName : string) (w : World) :
  files (exec (_createFile H fullPath fileName) w)
  = createFileEffect H (zip w) (files w) fullPath fileName.
Proof.
  unfold _createFile, createFileEffect, materialise, attribFails, fileOf,
    folderOf, Fs.createDirectory, Fs.readFile, Fs.writeFile, consoleError.
  unfold_io. simpl.
  destruct (Fs.mkdirp (Path.join [fileCachePath H; Path.dirname fullPath])
              (files w)) as [e0|fs1] eqn:Efolder; simpl; [reflexivity|].
  destruct (JS.startsWith (platform H) "win"); simpl.
  all: try (destruct (attrib H _) as [e|stderr]; simpl; [reflexivity|];
            destruct (JS.truthy stderr); simpl; [reflexivity|]).
  all: destruct (Zip.file (zip w) fullPath) as [f|]; simpl.
  all: repeat
         match goal with
         | E : ?x = _ |- context [match ?x with _ => _ end] =>
             rewrite E; simpl
         | |- context [match ?m !! ?p with _ => _ end] =>
              let E := fresh "E" in
              destruct (m !! p) as [[?|]|] eqn:E; simpl
         | |- context [if JS.startsWith ?t "<?xml" then _ else _] =>
             destruct (JS.startsWith t "<?xml"); simpl
         | |- context [(?a <? ?b)%Z] => destruct (a <? b)%Z; simpl
         | |- context [formatXml H ?t] => destruct (formatXml H t); simpl
         | |- context [Fs.written ?p ?b ?m] =>
             destruct (Fs.written p b m); simpl
         end.
  all: reflexivity.
Qed.

Lemma detector_result (fullPath : string) (w : World) :
  (_fileHasBeenChangedFromOutside H fullPath w).1
  = Ok (changedFromOutside H (files w) fullPath).
Proof. apply detector_run. Qed.

Lemma detector_files (fullPath : string) (w : World) :
  files (_fileHasBeenChangedFromOutside H fullPath w).2 = files w.
Proof. apply detector_run. Qed.

End StepEffects.

(** ** A pass over a cache that is in step with the package *)

Section QuietPass.

Context (H : Host).

Lemma createFile_run (fullPath fileName : string) (w : World) :
  exists w1,
    _createFile H fullPath fileName w = (Ok tt, w1)
    /\ files w1 = createFileEffect H (zip w) (files w) fullPath fileName
    /\ zip w1 = zip w /\ rootFileNode w1 = rootFileNode w.
Proof.
  destruct (hostOnly_run (_createFile H fullPath fileName) w
              (createFile_hostOnly H _ _) (createFile_returns H _ _))
    as ([] & w1 & E & T & Z).
  exists w1. repeat split; auto.
  pose proof (createFile_files H fullPath fileName w) as Hf.
  unfold exec in Hf. now rewrite E in Hf.
Qed.

Lemma detector_run_full (fullPath : string) (w : World) :
  exists w1,
    _fileHasBeenChangedFromOutside H fullPath w
    = (Ok (changedFromOutside H (files w) fullPath), w1)
    /\ files w1 = files w /\ zip w1 = zip w
    /\ rootFileNode w1 = rootFileNode w.
Proof.
  destruct (detector_run H fullPath w) as (Hr & Hf & Hz & Ht).
  destruct (_fileHasBeenChangedFromOutside H fullPath w) as [r w1].
  simpl in *. subst r. now exists w1.
Qed.

Lemma allBelow_children (p : FileNode -> bool) (n : FileNode) :
  allBelow p n = true <->
  Forall (fun c => p c = true /\ allBelow p c = true) (children n).
Proof.
  destruct n as [name full icon ch]. simpl.
  rewrite forallb_forall, Forall_forall.
  split; intros Hall c Hc.
  - apply list_elem_of_In in Hc. apply Hall in Hc.
    now apply andb_true_iff in Hc.
  - apply andb_true_iff. apply Hall. now apply list_elem_of_In.
Qed.

Lemma allBelow_getNode (p : FileNode -> bool) (ref : list nat) :
  forall (root n : FileNode),
    allBelow p root = true ->
    Tree.getNode ref root = Some n ->
    allBelow p n = true /\ (ref <> [] -> p n = true).
Proof.
  induction ref as [|i ref IH]; intros root n Hall Hn; simpl in Hn.
  - injection Hn as <-. split; [assumption | congruence].
  - destruct (children root !! i) as [c|] eqn:Ei; [|discriminate].
    apply allBelow_children in Hall.
    pose proof (Forall_lookup_1 _ _ _ _ Hall Ei) as [Hc Hbelow].
    destruct (IH c n Hbelow Hn) as [Hn1 Hn2]. split; [assumption|].
    intros _. destruct ref as [|j ref]; [|apply Hn2; discriminate].
    simpl in Hn. now injection Hn as <-.
Qed.

Lemma allBelow_mono (p q : FileNode -> bool) (n : FileNode) :
  (forall c, p c = true -> q c = true) ->
  allBelow p n = true -> allBelow q n = true.
Proof.
  intros Hpq. induction n as [name full icon ch IH] using FileNode_rose_ind.
  rewrite !allBelow_children. simpl. intros Hall.
  rewrite Forall_forall in IH, Hall. apply Forall_forall. intros c Hc.
  destruct (Hall c Hc) as [Hp Hb]. split; [now apply Hpq | now apply IH].
Qed.

Lemma eraseIcons_fields (n : FileNode) :
  fileName (eraseIcons n) = fileName n
  /\ fullPath (eraseIcons n) = fullPath n
  /\ children (eraseIcons n) = map eraseIcons (children n).
Proof. now destruct n. Qed.

Lemma allBelow_eraseIcons (p : FileNode -> bool) (n : FileNode) :
  byNameAndPath p -> allBelow p (eraseIcons n) = allBelow p n.
Proof.
  intros Hp. induction n as [name full icon ch IH] using FileNode_rose_ind.
  simpl. induction ch as [|c ch IHch]; simpl; [reflexivity|].
  inversion IH as [|? ? Hc Hrest]; subst.
  rewrite Hc, (IHch Hrest). f_equal. f_equal.
  apply Hp; apply eraseIcons_fields.
Qed.

Lemma findChild_eraseIcons (name : string) (n : FileNode) :
  Tree.findChild name (eraseIcons n)
  = prod_map id eraseIcons <$> Tree.findChild name n.
Proof.
  unfold Tree.findChild. destruct n as [nm full icon ch]. simpl.
  induction ch as [|c ch IH]; simpl; [reflexivity|].
  unfold description in *.
  destruct (eraseIcons_fields c) as (Hn & _ & _). rewrite Hn.
  destruct (decide (fileName c = name)); simpl; [reflexivity|].
  rewrite IH. destruct (list_find _ ch) as [[i x]|]; reflexivity.
Qed.

Lemma findPath_eraseIcons (names : list string) :
  forall n, findPath names (eraseIcons n) = eraseIcons <$> findPath names n.
Proof.
  induction names as [|name names IH]; intros n; simpl; [reflexivity|].
  rewrite findChild_eraseIcons.
  destruct (Tree.findChild name n) as [[i c]|]; simpl; [apply IH | reflexivity].
Qed.

Lemma entryPresent_eraseIcons (root : FileNode) (e : string) :
  entryPresent (eraseIcons root) e = entryPresent root e.
Proof.
  unfold entryPresent. rewrite findPath_eraseIcons.
  destruct (findPath (JS.split "/" e) root) as [leaf|]; simpl; [|reflexivity].
  now destruct leaf.
Qed.

Lemma nodeQuiet_byNameAndPath (z : JSZip) (fs : gmap string FsEntry) :
  byNameAndPath (nodeQuiet H z fs).
Proof. intros n n' Hn Hf. unfold nodeQuiet. now rewrite Hn, Hf. Qed.

(** Whether a state is quiet does not depend on the icons. *)
Lemma quiet_eraseIcons (w w' : World) :
  files w' = files w -> zip w' = zip w ->
  eraseIcons (rootFileNode w') = eraseIcons (rootFileNode w) ->
  quiet H w' = quiet H w.
Proof.
  intros Hf Hz Ht. unfold quiet. rewrite Hf, Hz.
  rewrite <- (allBelow_eraseIcons _ (rootFileNode w'))
    by apply nodeQuiet_byNameAndPath.
  rewrite <- (allBelow_eraseIcons _ (rootFileNode w))
    by apply nodeQuiet_byNameAndPath.
  rewrite Ht. f_equal.
  assert (Hep : forall e, entryPresent (rootFileNode w') e
                          = entryPresent (rootFileNode w) e).
  { intros e. rewrite <- (entryPresent_eraseIcons (rootFileNode w')).
    rewrite <- (entryPresent_eraseIcons (rootFileNode w)). now rewrite Ht. }
  induction (Zip.keys (zip w)) as [|e l IHl]; simpl; [reflexivity|].
  now rewrite Hep, IHl.
Qed.

Lemma eraseIcons_update (f : FileNode -> FileNode) (ref : list nat) :
  (forall n, eraseIcons (f n) = eraseIcons n) ->
  forall root, eraseIcons (Tree.updateNode ref f root) = eraseIcons root.
Proof.
  intros Hf. induction ref as [|i ref IH]; intros root; simpl; [apply Hf|].
  destruct (children root !! i) as [c|] eqn:Ei; [|reflexivity].
  destruct root as [name full icon ch]. simpl in *. f_equal.
  rewrite list_fmap_insert, IH. apply list_insert_id.
  now rewrite list_lookup_fmap, Ei.
Qed.

Lemma eraseIcons_setIconPath (x : Icon) (n : FileNode) :
  eraseIcons (Tree.setIconPath x n) = eraseIcons n.
Proof. now destruct n. Qed.

Lemma getNode_update_same (f : FileNode -> FileNode) (ref : list nat) :
  forall root n,
    Tree.getNode ref root = Some n ->
    Tree.getNode ref (Tree.updateNode ref f root) = Some (f n).
Proof.
  induction ref as [|i ref IH]; intros root n Hn; simpl in *.
  - now injection Hn as <-.
  - destruct (children root !! i) as [c|] eqn:Ei; [|discriminate]. simpl.
    rewrite list_lookup_insert_eq by (eapply lookup_lt_Some; eauto).
    now apply IH.
Qed.

(** In a quiet state a visit changes an icon and nothing else. *)
Lemma visitExisting_quiet (ref : list nat) (c : FileNode) (w : World) :
  Tree.getNode ref (rootFileNode w) = Some c ->
  nodeQuiet H (zip w) (files w) c = true ->
  exists x w',
    visitExisting H ref w = (Ok tt, w')
    /\ files w' = files w /\ zip w' = zip w
    /\ rootFileNode w'
       = Tree.updateNode ref (Tree.setIconPath x) (rootFileNode w).
Proof.
  intros Hc Hq. unfold nodeQuiet in Hq.
  apply andb_true_iff in Hq as [Hq _]. apply andb_true_iff in Hq as [Hsame Hdet].
  apply bool_decide_eq_true in Hsame. apply negb_true_iff in Hdet.
  unfold visitExisting. rewrite bind_run, node_run, Hc.
  cbn [default from_option id]. rewrite bind_run.
  destruct (createFile_run (fullPath c) (fileName c) w)
    as (w1 & E1 & F1 & Z1 & T1).
  rewrite E1, bind_run. rewrite Hsame in F1.
  destruct (detector_run_full (fullPath c) w1) as (w2 & E2 & F2 & Z2 & T2).
  rewrite E2, F1, Hdet. rewrite updateTree_run.
  eexists _, _. split; [reflexivity|]. simpl.
  rewrite F2, F1, Z2, Z1, T2, T1. repeat split; reflexivity.
Qed.

Lemma findPath_setIconPath (names : list string) (x : Icon) (n : FileNode) :
  fullPath <$> findPath names (Tree.setIconPath x n)
  = fullPath <$> findPath names n.
Proof. destruct names; reflexivity. Qed.

(** In a quiet state the inner loop only walks down. *)
Lemma walkNames_quiet (showNew : bool) (e : string) :
  forall (names : list string) (cur : list nat) (w : World)
         (n : FileNode) (full : string),
    allBelow (nodeQuiet H (zip w) (files w)) (rootFileNode w) = true ->
    Tree.getNode cur (rootFileNode w) = Some n ->
    fullPath <$> findPath names n = Some full ->
    exists cur' w',
      walkNames H showNew e names cur w = (Ok cur', w')
      /\ files w' = files w /\ zip w' = zip w
      /\ eraseIcons (rootFileNode w') = eraseIcons (rootFileNode w)
      /\ exists leaf', Tree.getNode cur' (rootFileNode w') = Some leaf'
                       /\ fullPath leaf' = full.
Proof.
  induction names as [|name names IH]; intros cur w n full Hq Hn Hleaf.
  - simpl in *. injection Hleaf as <-. exists cur, w. repeat split; eauto.
  - cbn [walkNames]. rewrite bind_run, node_run, Hn.
    cbn [default from_option id]. cbn [findPath] in Hleaf.
    destruct (Tree.findChild name n) as [[i c]|] eqn:Ef; [|discriminate].
    apply findChild_Some in Ef as [Hi _].
    assert (Hc : Tree.getNode (cur ++ [i]) (rootFileNode w) = Some c).
    { now rewrite getNode_snoc, Hn. }
    destruct (allBelow_getNode _ _ _ _ Hq Hc) as [_ Hqc].
    rewrite bind_run.
    destruct (visitExisting_quiet (cur ++ [i]) c w Hc)
      as (x & w1 & E1 & F1 & Z1 & T1).
    { apply Hqc. now destruct cur. }
    rewrite E1.
    assert (He1 : eraseIcons (rootFileNode w1) = eraseIcons (rootFileNode w)).
    { rewrite T1. apply eraseIcons_update. apply eraseIcons_setIconPath. }
    destruct (IH (cur ++ [i]) w1 (Tree.setIconPath x c) full)
      as (cur' & w2 & E2 & F2 & Z2 & T2 & Hleaf2).
    + rewrite F1, Z1.
      rewrite <- (allBelow_eraseIcons _ (rootFileNode w1))
        by apply nodeQuiet_byNameAndPath.
      rewrite He1. rewrite allBelow_eraseIcons
        by apply nodeQuiet_byNameAndPath. assumption.
    + rewrite T1. now apply getNode_update_same.
    + now rewrite findPath_setIconPath.
    + exists cur', w2. rewrite E2. repeat split; try congruence.
Qed.

Lemma updateNode_id (f : FileNode -> FileNode) (ref : list nat) :
  forall root n,
    Tree.getNode ref root = Some n -> f n = n ->
    Tree.updateNode ref f root = root.
Proof.
  induction ref as [|i ref IH]; intros root n Hn Hf; simpl in *.
  - now injection Hn as <-.
  - destruct (children root !! i) as [c|] eqn:Ei; [|reflexivity].
    rewrite (IH c n Hn Hf). destruct root as [nm full icon ch]. simpl in *.
    unfold Tree.setChildren. simpl. f_equal. now apply list_insert_id.
Qed.

Lemma forEachCollect_same (recur : FileNode -> M FileNode)
      (l : list FileNode) (w : World) :
  Forall (fun n => recur n w = (Ok n, w)) l ->
  forEachCollect recur l w = (Ok l, w).
Proof.
  induction l as [|a l IH]; intros Hl; [reflexivity|].
  inversion Hl as [|? ? Ha Hrest]; subst.
  cbn [forEachCollect]. rewrite bind_run, Ha.
  fold (forEachCollect recur l). rewrite bind_run, (IH Hrest). reflexivity.
Qed.

Lemma applySplices_none (results : list (FileNode * bool)) :
  forall (i : nat) (arr : list FileNode),
    Forall (fun r => r.2 = false) results ->
    applySplices i results arr = arr.
Proof.
  induction results as [|[n b] results IH]; intros i arr Hr; simpl.
  - reflexivity.
  - inversion Hr as [|? ? Hb Hrest]; subst. simpl in Hb. subst b.
    now apply IH.
Qed.

(** When every node carries the path of an entry, [_removeDeletedParts]
    touches nothing. *)
Lemma removeDeletedParts_quiet (w : World) (nd : FileNode) :
  allBelow (fun n => Zip.includes (Zip.keys (zip w)) (fullPath n)) nd = true ->
  _removeDeletedParts H nd w = (Ok nd, w).
Proof.
  set (p := fun n => Zip.includes (Zip.keys (zip w)) (fullPath n)).
  cut ((allBelow p nd = true -> _removeDeletedParts H nd w = (Ok nd, w))
       /\ Forall (fun c => allBelow p c = true ->
                           _removeDeletedParts H c w = (Ok c, w))
                 (children nd)); [tauto|].
  induction nd as [name full icon arr IH] using FileNode_rose_ind.
  assert (Harr : Forall (fun c => allBelow p c = true ->
                                  _removeDeletedParts H c w = (Ok c, w)) arr).
  { eapply Forall_impl; [exact IH|]. intros c Hc. apply Hc. }
  split; [|exact Harr]. intros Hall.
  apply allBelow_children in Hall. cbn [children] in Hall.
  cbn [_removeDeletedParts]. rewrite bind_run.
  assert (Hcb : Forall (fun n =>
            removeDeletedCallback H (_removeDeletedParts H) n w
            = (Ok (n, false), w)) arr).
  { rewrite Forall_forall in IH, Hall. apply Forall_forall. intros n Hn.
    destruct (Hall n Hn) as [Hp Hbelow]. destruct (IH n Hn) as [_ Hgrand].
    destruct n as [nName nFull nIcon nChildren].
    unfold removeDeletedCallback. rewrite bind_run. cbn [gets].
    unfold p in Hp. simpl in Hp. rewrite Hp. cbn [negb].
    destruct nChildren as [|c rest]; [reflexivity|].
    rewrite bind_run, forEachCollect_same; [reflexivity|].
    apply allBelow_children in Hbelow. cbn [children] in *.
    rewrite Forall_forall in Hgrand, Hbelow. apply Forall_forall.
    intros g Hg. apply Hgrand; [assumption|]. now apply Hbelow. }
  assert (Hres : forEachCollect
                   (removeDeletedCallback H (_removeDeletedParts H)) arr w
                 = (Ok (map (fun n => (n, false)) arr), w)).
  { clear -Hcb. induction arr as [|a arr IHa]; [reflexivity|].
    inversion Hcb as [|? ? Ha Hrest]; subst.
    cbn [forEachCollect]. rewrite bind_run, Ha.
    fold (forEachCollect (removeDeletedCallback H (_removeDeletedParts H)) arr).
    rewrite bind_run, (IHa Hrest). reflexivity. }
  rewrite Hres. unfold mret, M_ret, ret. cbv beta. f_equal. f_equal. f_equal.
  rewrite applySplices_none.
  - rewrite map_map. simpl. apply map_id.
  - apply Forall_forall. intros r Hr. apply list_elem_of_In in Hr.
    apply in_map_iff in Hr as (n & <- & _). reflexivity.
Qed.

Lemma forEachM_ok {A} (Inv : World -> Prop) (body : A -> M unit)
      (l : list A) :
  (forall a w1, a ∈ l -> Inv w1 ->
                exists w2, body a w1 = (Ok tt, w2) /\ Inv w2) ->
  forall w, Inv w -> exists w', forEachM l body w = (Ok tt, w') /\ Inv w'.
Proof.
  induction l as [|a l IH]; intros Hbody w Hw; simpl.
  - now exists w.
  - rewrite bind_run.
    destruct (Hbody a w) as (w1 & E1 & Hw1); [constructor | assumption |].
    rewrite E1. apply IH; [|assumption].
    intros b w2 Hb. apply Hbody. now constructor.
Qed.

Lemma setFullPath_same (n : FileNode) : Tree.setFullPath (fullPath n) n = n.
Proof. now destruct n. Qed.

(** The state a pass over a quiet cache ends in. *)
Lemma populate_quiet (showNew : bool) (w : World) :
  quiet H w = true ->
  exists w',
    _populateOOXMLViewer H (zip w) showNew w = (Ok tt, w')
    /\ files w' = files w /\ zip w' = zip w
    /\ eraseIcons (rootFileNode w') = eraseIcons (rootFileNode w).
Proof.
  intros Hq. pose proof Hq as Hq0. unfold quiet in Hq.
  apply andb_true_iff in Hq as [Hnodes Hentries].
  rewrite forallb_forall in Hentries.
  set (Inv := fun w1 : World =>
                files w1 = files w /\ zip w1 = zip w
                /\ eraseIcons (rootFileNode w1) = eraseIcons (rootFileNode w)).
  unfold _populateOOXMLViewer. rewrite bind_run.
  match goal with
  | |- context [forEachM ?l ?body w] =>
      destruct (forEachM_ok Inv body l) with (w := w) as (w1 & E1 & Hinv1)
  end.
  { intros e w1 He (F1 & Z1 & T1).
    apply list_elem_of_In in He. specialize (Hentries e He).
    unfold skipped in Hentries.
    assert (Hwalk : entryPresent (rootFileNode w) e = true ->
              exists w2,
                (walkNames H showNew e (JS.split "/" e) []
                 ≫= fun cur => updateTree cur (Tree.setFullPath e)) w1
                = (Ok tt, w2) /\ Inv w2).
    { intros Hp. rewrite <- entryPresent_eraseIcons, <- T1,
        entryPresent_eraseIcons in Hp.
      unfold entryPresent in Hp.
      destruct (findPath (JS.split "/" e) (rootFileNode w1)) as [leaf|] eqn:El;
        [|discriminate].
      apply String.eqb_eq in Hp.
      destruct (walkNames_quiet showNew e (JS.split "/" e) [] w1
                  (rootFileNode w1) e)
        as (cur' & w2 & E2 & F2 & Z2 & T2 & leaf' & Hl' & Hfull).
      - rewrite F1, Z1.
        rewrite <- (allBelow_eraseIcons _ (rootFileNode w1))
          by apply nodeQuiet_byNameAndPath.
        rewrite T1. rewrite allBelow_eraseIcons
          by apply nodeQuiet_byNameAndPath. assumption.
      - reflexivity.
      - rewrite El. simpl. now rewrite Hp.
      - rewrite bind_run, E2, updateTree_run.
        eexists. split; [reflexivity|]. unfold Inv. simpl.
        rewrite (updateNode_id _ _ _ leaf' Hl')
          by (rewrite <- Hfull; apply setFullPath_same).
        repeat split; congruence. }
    destruct (Zip.get (zip w) e) as [[[|] d]|]; simpl in Hentries.
    - exists w1. split; [reflexivity|]. now repeat split.
    - now apply Hwalk.
    - now apply Hwalk. }
  { now repeat split. }
  rewrite E1. destruct Hinv1 as (F1 & Z1 & T1).
  destruct showNew.
  - rewrite bind_run. cbn [gets]. rewrite bind_run.
    rewrite removeDeletedParts_quiet.
    + eexists. split; [reflexivity|]. simpl. now repeat split.
    + rewrite Z1.
      rewrite <- (allBelow_eraseIcons _ (rootFileNode w1))
        by (intros n n' _ Hf; now rewrite Hf).
      rewrite T1. rewrite allBelow_eraseIcons
        by (intros n n' _ Hf; now rewrite Hf).
      eapply allBelow_mono; [|exact Hnodes].
      intros c Hc. unfold nodeQuiet in Hc.
      now apply andb_true_iff in Hc as [_ Hc].
  - exists w1. now repeat split.
Qed.

(** The same for [_reloadOoxmlFile], when the package decodes to the zip
    the cache is in step with. *)
Lemma reload_quiet (filePath : string) (b : Bytes) (w : World) :
  quiet H w = true ->
  files w !! filePath = Some (RegularFile b) ->
  loadAsync H b = Some (zip w) ->
  exists w',
    _reloadOoxmlFile H filePath w = (Ok tt, w')
    /\ files w' = files w /\ zip w' = zip w
    /\ eraseIcons (rootFileNode w') = eraseIcons (rootFileNode w).
Proof.
  intros Hq Hfile Hload. unfold _reloadOoxmlFile, Fs.readFile.
  rewrite bind_run, bind_run. cbn [modify]. rewrite bind_run. cbn [gets].
  change (files (logCall (CallReadFile filePath) w)) with (files w).
  rewrite Hfile. cbn [mret M_ret ret]. rewrite Hload.
  rewrite bind_run. cbn [modify]. rewrite bind_run. cbn [gets].
  set (w0 := setZip (zip w) (logCall (CallReadFile filePath) w)).
  change (zip w0) with (zip w).
  destruct (populate_quiet true w0) as (w' & E & F & Z & T).
  { now rewrite (quiet_eraseIcons w w0). }
  change (zip w0) with (zip w) in E. rewrite E.
  exists w'. split; [reflexivity|]. now repeat split.
Qed.

(** A pass over a cache that is in step with the package (every node of
    the tree carries the path of an entry of the package, materialising it
    again would write what its cache file holds already, its current and
    previous files do not differ, and every entry has its node), for a
    package file that still decodes to the same zip: every file stays
    byte-identical, and the cache is in step with the package again. *)
Lemma quiet_pass_changes_no_file (filePath : string) (b : Bytes) (w : World) :
  quiet H w = true ->
  files w !! filePath = Some (RegularFile b) ->
  loadAsync H b = Some (zip w) ->
  let w' := exec (_reloadOoxmlFile H filePath) w in
  files w' = files w /\ quiet H w' = true.
Proof.
  intros Hq Hfile Hload.
  destruct (reload_quiet filePath b w Hq Hfile Hload) as (w' & E & F & Z & T).
  unfold exec. rewrite E. simpl. split; [assumption|].
  now rewrite (quiet_eraseIcons w w' F Z T).
Qed.

End QuietPass.

(** ** What [_createFile] does to the files *)

Section CreateFileEffect.
Context (H : Host).
Import Path PathShape PathFacts PathAlgebra FsFacts.

(** With the entry in the zip, what is materialised does not depend on the
    files. *)
Lemma materialise_of_zip (z : JSZip) (fs fs' : gmap string FsEntry)
      (fullPath : string) (f : JSZipObject) :
  Zip.file z fullPath = Some f ->
  materialise H z fs fullPath = materialise H z fs' fullPath.
Proof. intros Hf. unfold materialise. now rewrite Hf. Qed.

(** [_createFile] makes folders and writes one file: away from that file
    every path keeps what it had, or is a folder that was missing; and no
    path loses what it had but that file. *)
Lemma createFileEffect_lookup (z : JSZip) (fs : gmap string FsEntry)
      (fullPath fileName q : string) :
  let fs' := createFileEffect H z fs fullPath fileName in
  fs' !! q = fs !! q
  \/ (fs !! q = None /\ fs' !! q = Some Directory
      /\ q ∈ createFilePaths H fullPath fileName)
  \/ (q = fileOf H fullPath fileName
      /\ fs !! q <> Some Directory
      /\ exists b, fs' !! q = Some (RegularFile b)).
Proof.
  cbv zeta. unfold createFileEffect, createFilePaths, Fs.mkdirp.
  set (t := fileOf H fullPath fileName). set (d := folderOf H fullPath).
  destruct (Fs.mkdirpChain (d :: Fs.above d) fs) as [e0|fs1] eqn:E1;
    [now left|].
  assert (H1 : fs1 !! q = fs !! q
               \/ (fs !! q = None /\ fs1 !! q = Some Directory
                   /\ q ∈ t :: Fs.above t ++ d :: Fs.above d)).
  { destruct (mkdirpChain_lookup _ _ _ E1 q) as [E | (Hn & Hd & Hin)];
      [now left|].
    right. repeat split; auto. right. apply elem_of_app. now right. }
  destruct (attribFails H); [destruct H1; auto|].
  destruct (materialise H z fs1 fullPath) as [b|]; [|destruct H1; auto].
  destruct (Fs.written t b fs1) as [e2|fs2] eqn:E2; [destruct H1; auto|].
  destruct (written_lookup _ _ _ _ E2) as [Ht Hoff].
  destruct (decide (q = t)) as [->|Hne].
  - destruct (fs !! t) as [[b0|]|] eqn:Et.
    + right. right. repeat split; [discriminate|]. now exists b.
    + exfalso. pose proof (mkdirpChain_keeps _ _ _ t Directory E1 Et) as Hk.
      unfold Fs.written in E2. rewrite Hk in E2. discriminate.
    + destruct (fs1 !! t) as [[b0|]|] eqn:Et1.
      * right. right. repeat split; [discriminate|]. now exists b.
      * exfalso. unfold Fs.written in E2. rewrite Et1 in E2. discriminate.
      * right. right. repeat split; [discriminate|]. now exists b.
  - destruct (Hoff q Hne) as [E | (Hn & Hd & Hin)].
    + rewrite E. destruct H1; auto.
    + destruct H1 as [E | (Hn0 & Hd0 & _)]; [|congruence].
      right. left. rewrite <- E. repeat split; auto. right.
      apply elem_of_app. now left.
Qed.

(** Away from the paths of the call nothing changes. *)
Lemma createFileEffect_frame (z : JSZip) (fs : gmap string FsEntry)
      (fullPath fileName q : string) :
  q ∉ createFilePaths H fullPath fileName ->
  createFileEffect H z fs fullPath fileName !! q = fs !! q.
Proof.
  intros Hq.
  destruct (createFileEffect_lookup z fs fullPath fileName q)
    as [E | [(_ & _ & Hin) | (-> & _)]]; [exact E | contradiction |].
  exfalso. apply Hq. unfold createFilePaths. now left.
Qed.

(** Away from the file of the call, what is there stays, and what comes
    is a folder. *)
Lemma createFileEffect_off_file (z : JSZip) (fs : gmap string FsEntry)
      (fullPath fileName q : string) :
  q <> fileOf H fullPath fileName ->
  let fs' := createFileEffect H z fs fullPath fileName in
  fs' !! q = fs !! q \/ (fs !! q = None /\ fs' !! q = Some Directory).
Proof.
  intros Hq. cbv zeta.
  destruct (createFileEffect_lookup z fs fullPath fileName q)
    as [E | [(Hn & Hd & _) | (-> & _)]]; [now left | now right | congruence].
Qed.

(** The files that are there afterwards and were not there before, with
    these bytes, are the file of the call. *)
Lemma createFileEffect_files (z : JSZip) (fs : gmap string FsEntry)
      (fullPath fileName q : string) (b : Bytes) :
  createFileEffect H z fs fullPath fileName !! q = Some (RegularFile b) ->
  fs !! q = Some (RegularFile b) \/ q = fileOf H fullPath fileName.
Proof.
  intros Hq.
  destruct (createFileEffect_lookup z fs fullPath fileName q)
    as [E | [(_ & Hd & _) | (-> & _)]];
    [left; congruence | congruence | now right].
Qed.

(** A folder stays a folder. *)
Lemma createFileEffect_folder (z : JSZip) (fs : gmap string FsEntry)
      (fullPath fileName q : string) :
  fs !! q = Some Directory ->
  createFileEffect H z fs fullPath fileName !! q = Some Directory.
Proof.
  intros Hq.
  destruct (createFileEffect_lookup z fs fullPath fileName q)
    as [E | [(Hn & _) | (_ & Hnd & _)]]; congruence.
Qed.

(** [_createFile] for a file in a folder, when nothing stands in its way:
    the folder is made if it is missing, and the file holds the
    materialised bytes. *)
Lemma createFileEffect_written (z : JSZip) (fs : gmap string FsEntry)
      (fullPath x : string) (f : JSZipObject) (b : Bytes) :
  Zip.file z fullPath = Some f ->
  materialise H z ∅ fullPath = Some b ->
  attribFails H = false ->
  let d := folderOf H fullPath in
  d <> "" -> slashFree x ->
  fileOf H fullPath x = (d ++ "/" ++ x)%string ->
  Forall (fun q => forall b0, fs !! q <> Some (RegularFile b0))
         (d :: Fs.above d) ->
  fs !! (d ++ "/" ++ x)%string <> Some Directory ->
  exists fs1,
    Fs.mkdirp d fs = inr fs1
    /\ fs1 !! d = Some Directory
    /\ createFileEffect H z fs fullPath x
       = <[(d ++ "/" ++ x)%string := RegularFile b]> fs1.
Proof.
  intros Hf Hb Hattrib d Hd Hx Hfile Hchain Htarget.
  unfold createFileEffect. fold d. rewrite Hfile.
  unfold Fs.mkdirp.
  destruct (mkdirpChain_succeeds _ fs Hchain) as [fs1 E1]. rewrite E1.
  pose proof (mkdirpChain_head _ _ _ _ E1) as Hd1.
  exists fs1. split; [reflexivity|]. split; [exact Hd1|].
  rewrite Hattrib. rewrite (materialise_of_zip z _ ∅ fullPath f Hf), Hb.
  rewrite written_into; auto.
  intros Ht.
  destruct (mkdirpChain_lookup _ _ _ E1 (d ++ "/" ++ x)%string)
    as [E | (_ & _ & Hin)]; [congruence|].
  apply elem_of_cons in Hin as [E | Hin].
  - apply (f_equal (fun s => length (chars s))) in E.
    rewrite !chars_app, !length_app in E. simpl in E. lia.
  - apply above_spec in Hin as (_ & r & E).
    apply (f_equal (fun s => length (chars s))) in E.
    rewrite !chars_app, !length_app in E. simpl in E. lia.
Qed.

(** [_createFile] with the entry in the zip, when no folder on the way to
    the file is a file and the file is no folder: the file holds the
    materialised bytes. *)
Lemma createFileEffect_writes (z : JSZip) (fs : gmap string FsEntry)
      (fullPath fileName : string) (f : JSZipObject) (b : Bytes) :
  Zip.file z fullPath = Some f ->
  materialise H z ∅ fullPath = Some b ->
  attribFails H = false ->
  let d := folderOf H fullPath in
  let t := fileOf H fullPath fileName in
  (forall q, q ∈ d :: Fs.above d ++ Fs.above t ->
             forall b0, fs !! q <> Some (RegularFile b0)) ->
  t ∉ d :: Fs.above d ->
  fs !! t <> Some Directory ->
  createFileEffect H z fs fullPath fileName !! t = Some (RegularFile b).
Proof.
  intros Hf Hb Hattrib d t Hway Hnot Hfile.
  unfold createFileEffect, Fs.mkdirp. fold d. fold t.
  destruct (mkdirpChain_succeeds (d :: Fs.above d) fs) as [fs1 E1].
  { apply Forall_forall. intros q Hq. apply Hway.
    apply elem_of_cons in Hq as [-> | Hq]; [now left|].
    right. apply elem_of_app. now left. }
  rewrite E1, Hattrib, (materialise_of_zip z _ ∅ fullPath f Hf), Hb.
  assert (Ht : fs1 !! t = fs !! t) by now apply (mkdirpChain_off _ _ _ _ E1).
  unfold Fs.written. rewrite Ht.
  destruct (fs !! t) as [[b0|]|] eqn:Et; [apply lookup_insert_eq | congruence|].
  destruct (mkdirpChain_succeeds (Fs.above t) fs1) as [fs2 E2].
  { apply Forall_forall. intros q Hq b0 Hq1.
    apply (mkdirpChain_files _ _ _ _ _ E1) in Hq1. revert Hq1. apply Hway.
    right. apply elem_of_app. now right. }
  rewrite E2. apply lookup_insert_eq.
Qed.

End CreateFileEffect.

(** ** What else the code shows *)

Section FirstLoad.
Context (H : Host).

Ltac run_createFile w' T Z F :=
  match goal with
  | |- context [_createFile H ?a ?b ?w0] =>
      destruct (createFile_run H a b w0) as (w' & -> & F & Z & T)
  end.

Lemma visitNew_first_load_run (e name : string) (ref : list nat) (w : World) :
  let n := default newFileNode (Tree.getNode ref (rootFileNode w)) in
  exists w',
    visitNew H false e name ref w = (Ok (ref ++ [length (children n)]), w')
    /\ rootFileNode w'
       = Tree.updateNode ref (Tree.pushChild (mkFileNode name e IconUnset []))
           (rootFileNode w)
    /\ zip w' = zip w.
Proof.
  intros n. unfold visitNew.
  rewrite bind_run, node_run. fold n.
  rewrite bind_run, updateTree_run, bind_run.
  run_createFile w1 T1 Z1 F1. rewrite bind_run.
  run_createFile w2 T2 Z2 F2. rewrite bind_run.
  run_createFile w3 T3 Z3 F3.
  exists w3. split; [reflexivity|].
  rewrite T3, T2, T1, Z3, Z2, Z1. split; reflexivity.
Qed.

Lemma walkNames_first_load_returns (e : string) :
  forall (names : list string) (cur : list nat) (w : World),
    exists cur' w', walkNames H false e names cur w = (Ok cur', w').
Proof.
  induction names as [|name names IH]; intros cur w.
  - now exists cur, w.
  - cbn [walkNames]. rewrite bind_run, node_run.
    destruct (Tree.findChild name _) as [[i c]|].
    + rewrite bind_run.
      destruct (visitExisting_run H (cur ++ [i]) w) as (x & w1 & -> & _).
      apply IH.
    + rewrite bind_run.
      destruct (visitNew_first_load_run e name cur w) as (w1 & -> & _).
      apply IH.
Qed.

Lemma first_load_completes (files : JSZip) (w : World) :
  exists w', _populateOOXMLViewer H files false w = (Ok tt, w').
Proof.
  unfold _populateOOXMLViewer. rewrite bind_run.
  destruct (forEachM_ok (fun _ => True)
              (fun fileWithPath =>
                 match Zip.get files fileWithPath with
                 | Some {| dir := true |} => ret tt
                 | _ =>
                     currentFileNode ←
                       walkNames H false fileWithPath
                                 (JS.split "/" fileWithPath) [];
                     updateTree currentFileNode (Tree.setFullPath fileWithPath)
                 end)
              (Zip.keys files)) with (w := w) as (w' & E & _); [|exact I|].
  - intros a w1 _ _.
    assert (Hwalk : exists w2,
      (currentFileNode ← walkNames H false a (JS.split "/" a) [];
       updateTree currentFileNode (Tree.setFullPath a)) w1 = (Ok tt, w2)).
    { rewrite bind_run.
      destruct (walkNames_first_load_returns a (JS.split "/" a) [] w1)
        as (cur' & w2 & ->).
      rewrite updateTree_run. now eexists. }
    destruct (Zip.get files a) as [[[] ?]|].
    + exists w1. now split.
    + destruct Hwalk as [w2 E]. exists w2. now split.
    + destruct Hwalk as [w2 E]. exists w2. now split.
  - rewrite E. now exists w'.
Qed.

(** X1. The pass of the first load always runs to its end: whatever fails
    while a part is materialised or compared is caught where it happens. *)
Theorem first_load_pass_always_completes (files : JSZip) (w : World) :
  exists w', _populateOOXMLViewer H files false w = (Ok tt, w').
Proof. apply first_load_completes. Qed.

End FirstLoad.

Section Reset.
Context (H : Host).

Lemma removeTree_lookup (root p : string) (fs : gmap string FsEntry) :
  Fs.removeTree root fs !! p = if Fs.under root p then None else fs !! p.
Proof.
  unfold Fs.removeTree.
  destruct (Fs.under root p) eqn:E.
  - apply map_lookup_filter_None. right. intros x _. simpl. congruence.
  - destruct (fs !! p) as [x|] eqn:Ep.
    + apply map_lookup_filter_Some. now split.
    + apply map_lookup_filter_None. now left.
Qed.

Lemma under_refl (root : string) : Fs.under root root = true.
Proof. unfold Fs.under. now rewrite String.eqb_refl. Qed.

(** X2. [_resetOOXMLViewer] (and so [clear]) empties the zip and the tree and
    removes the cache folder with all that is in it; every other file stays,
    and so do the recorded save times. *)
Theorem reset_removes_the_cache_and_nothing_else (w : World) :
  folderHoldsItsFiles (fileCachePath H) (files w) ->
  let r := clear H w in
  r.1 = Ok tt
  /\ zip r.2 = [] /\ rootFileNode r.2 = newFileNode
  /\ watchActions r.2 = watchActions w
  /\ forall p, files r.2 !! p
               = if Fs.under (fileCachePath H) p then None else files w !! p.
Proof.
  intros Hwf. unfold clear, _resetOOXMLViewer, Fs.existsSync, Fs.rimraf.
  unfold_io. simpl.
  destruct (files w !! fileCachePath H) as [x|] eqn:E; simpl.
  - repeat split. intros p. apply removeTree_lookup.
  - repeat split. intros p.
    destruct (Fs.under (fileCachePath H) p) eqn:Eu; [|reflexivity].
    now apply Hwf.
Qed.

(** What the first load of a package that cannot be read or decoded
    leaves. *)
Lemma unreadable_first_load
    (fsPath : string) (w : World) :
  folderHoldsItsFiles (fileCachePath H) (files w) ->
  (forall b, files w !! fsPath = Some (RegularFile b) ->
             loadAsync H b = None) ->
  let r := viewContents H fsPath w in
  r.1 = Ok tt
  /\ zip r.2 = [] /\ rootFileNode r.2 = newFileNode
  /\ ooxmlFilePath r.2 = fsPath
  /\ (forall p, files r.2 !! p
                = if Fs.under (fileCachePath H) p then None else files w !! p)
  /\ exists e, last (trace r.2) = Some (ConsoleError e).
Proof.
  intros Hwf Hbad.
  assert (Hgone : forall fs : gmap string FsEntry,
            (forall p, fs !! p
               = if Fs.under (fileCachePath H) p then None else files w !! p) ->
            forall b, fs !! fsPath = Some (RegularFile b) -> loadAsync H b = None).
  { intros fs Hfs b Hb. rewrite Hfs in Hb.
    destruct (Fs.under _ _); [discriminate|]. now apply Hbad. }
  unfold viewContents, _resetOOXMLViewer, Fs.existsSync, Fs.rimraf, Fs.readFile,
    consoleError.
  unfold_io. simpl.
  destruct (files w !! fileCachePath H) as [x|] eqn:E; simpl.
  - pose proof (Hgone (Fs.removeTree (fileCachePath H) (files w))
                  (fun p => removeTree_lookup _ p _)) as Hb.
    destruct (Fs.removeTree (fileCachePath H) (files w) !! fsPath)
      as [[b|]|] eqn:Ef; simpl.
    + rewrite (Hb b eq_refl). simpl. repeat split.
      * intros p. apply removeTree_lookup.
      * eexists. now rewrite last_snoc.
    + repeat split.
      * intros p. apply removeTree_lookup.
      * eexists. now rewrite last_snoc.
    + repeat split.
      * intros p. apply removeTree_lookup.
      * eexists. now rewrite last_snoc.
  - assert (Hsame : forall p, files w !! p
               = if Fs.under (fileCachePath H) p then None else files w !! p).
    { intros p. destruct (Fs.under (fileCachePath H) p) eqn:Eu; [|reflexivity].
      now apply Hwf. }
    destruct (files w !! fsPath) as [[b|]|] eqn:Ef; simpl.
    + rewrite (Hbad b eq_refl). simpl. repeat split; auto.
      eexists. now rewrite last_snoc.
    + repeat split; auto. eexists. now rewrite last_snoc.
    + repeat split; auto. eexists. now rewrite last_snoc.
Qed.

(** X3. A package that cannot be read or decoded: [viewContents] logs the error
    and returns, and what it leaves is the reset viewer: no zip entry, an
    empty tree, no cache folder (that of the package shown before is gone),
    and [ooxmlFilePath] naming the package that failed. *)
Theorem unreadable_package_leaves_the_viewer_reset
    (fsPath : string) (w : World) :
  folderHoldsItsFiles (fileCachePath H) (files w) ->
  (forall b, files w !! fsPath = Some (RegularFile b) ->
             loadAsync H b = None) ->
  let r := viewContents H fsPath w in
  r.1 = Ok tt
  /\ zip r.2 = [] /\ rootFileNode r.2 = newFileNode
  /\ ooxmlFilePath r.2 = fsPath
  /\ (forall p, files r.2 !! p
                = if Fs.under (fileCachePath H) p then None else files w !! p)
  /\ exists e, last (trace r.2) = Some (ConsoleError e).
Proof. apply unreadable_first_load. Qed.

End Reset.

Section SaveErrors.
Context (H : Host).

Local Arguments savedCompareFile : simpl never.
Local Arguments normalizedPathOf : simpl never.

(** X4. A save notification for a document with no name, for a file that is
    not there, or for one without a previous generation next to it, does
    nothing at all: no host call, no state change. *)
Theorem save_without_previous_generation_is_ignored
    (fileName : string) (w : World) :
  fileName = "" \/ files w !! fileName = None
  \/ files w !! _getPrevFilePath fileName = None ->
  _updateOOXMLFile H fileName w = (Ok tt, w).
Proof.
  intros Hmiss. unfold _updateOOXMLFile, Fs.existsSync. unfold_io. simpl.
  destruct (JS.truthy fileName) eqn:Et; simpl; [|reflexivity].
  destruct Hmiss as [-> | [E | E]]; [discriminate | |].
  - now rewrite E.
  - rewrite E. simpl. now rewrite !andb_false_r.
Qed.

(** X5. A changed save whose package cannot be written (a directory is in its
    place): the error is swallowed and no file changes, so compare and
    previous keep their bytes; but the entry of the in-memory zip has been
    replaced already, and the modification time is recorded as processed. *)
Theorem failed_package_write_changes_no_file
    (fileName : string) (cur prev : Bytes) (w : World) :
  fileName <> "" ->
  files w !! fileName = Some (RegularFile cur) ->
  files w !! _getPrevFilePath fileName = Some (RegularFile prev) ->
  cur <> prev ->
  watchActions w !! fileName <> Some (default 0%Z (mtimes w !! fileName)) ->
  files w !! ooxmlFilePath w = Some Directory ->
  let r := _updateOOXMLFile H fileName w in
  r.1 = Ok tt
  /\ files r.2 = files w
  /\ zip r.2 = Zip.put (zip w) (normalizedPathOf fileName) cur
  /\ watchActions r.2 !! fileName = Some (default 0%Z (mtimes w !! fileName)).
Proof.
  intros Hname Hcur Hprev Hdiff Hfresh Hpkg.
  unfold _updateOOXMLFile, Fs.existsSync, Fs.stat, Fs.readFile, Fs.writeFile.
  unfold_io. simpl.
  apply PathFacts.truthy_true in Hname. rewrite Hname.
  rewrite getPrevFilePath_truthy.
  repeat progress (rewrite ?Hcur, ?Hprev; simpl).
  rewrite (bool_decide_eq_true_2 _ Hfresh). simpl.
  repeat progress (rewrite ?Hcur, ?Hprev; simpl).
  rewrite (bool_decide_eq_false_2 _ Hdiff). simpl.
  rewrite (FsFacts.written_fails _ _ _ Hpkg). simpl. repeat split.
  apply lookup_insert_eq.
Qed.

End SaveErrors.

Section DeletedParts.
Context (H : Host).

(** X6. First phase of a removal.  For a child whose path is no entry of the
    zip any more and whose cache file still has content, the callback of
    [_removeDeletedParts] empties the cache file and marks the node with
    the red asterisk; the node stays in the tree, and so do its previous
    and compare files. *)
Theorem deleted_part_is_first_emptied_and_marked
    (recur : FileNode -> M FileNode) (n : FileNode) (b : Bytes) (w : World) :
  Zip.includes (Zip.keys (zip w)) (fullPath n) = false ->
  files w !! currentFile H (fullPath n) = Some (RegularFile b) ->
  JS.truthy (utf8Decode H b) = true ->
  exists w',
    removeDeletedCallback H recur n w
    = (Ok (Tree.setIconPath asteriskRed n, false), w')
    /\ files w' = <[currentFile H (fullPath n) := RegularFile []]> (files w)
    /\ zip w' = zip w.
Proof.
  intros Hgone Hfile Htext. destruct n as [name full icon ch].
  unfold currentFile in *. simpl in *.
  unfold removeDeletedCallback, detached, Fs.readFile, Fs.writeFile.
  unfold_io. simpl. rewrite Hgone. simpl.
  rewrite Hfile. simpl. rewrite Htext. simpl.
  rewrite (FsFacts.written_over _ _ _ _ Hfile). simpl.
  eexists. repeat split.
Qed.

(** X7. Second phase of a removal.  Once the cache file of a deleted part
    is empty, the callback of [_removeDeletedParts] deletes the cache file,
    then the previous file, then the compare file, and only
    when all three deletions succeed it takes the node out of the tree: if
    the previous or the compare file is missing, the deletions made so far
    stand and the node stays. *)
Theorem emptied_part_is_removed_when_all_three_files_are_deleted
    (recur : FileNode -> M FileNode) (n : FileNode) (b : Bytes) (w : World) :
  Zip.includes (Zip.keys (zip w)) (fullPath n) = false ->
  files w !! currentFile H (fullPath n) = Some (RegularFile b) ->
  JS.truthy (utf8Decode H b) = false ->
  let path := currentFile H (fullPath n) in
  let fs1 := Fs.removeTree path (files w) in
  let fs2 := Fs.removeTree (prevBeside path) fs1 in
  let fs3 := Fs.removeTree (compareBeside path) fs2 in
  exists spliced w',
    removeDeletedCallback H recur n w = (Ok (n, spliced), w')
    /\ zip w' = zip w
    /\ (spliced = true <->
        fs1 !! prevBeside path <> None /\ fs2 !! compareBeside path <> None)
    /\ files w'
       = match fs1 !! prevBeside path, fs2 !! compareBeside path with
         | None, _ => fs1
         | Some _, None => fs2
         | Some _, Some _ => fs3
         end.
Proof.
  intros Hgone Hfile Htext. destruct n as [name full icon ch].
  unfold prevBeside, compareBeside, currentFile in *. simpl in *.
  unfold removeDeletedCallback, detached, Fs.delete, Fs.readFile.
  unfold_io. simpl. rewrite Hgone. simpl.
  rewrite Hfile. simpl. rewrite Htext. simpl. rewrite Hfile. simpl.
  match goal with
  | |- context [Fs.removeTree ?p (files w) !! ?q] =>
      destruct (Fs.removeTree p (files w) !! q) as [x1|] eqn:E1; simpl
  end.
  - match goal with
    | |- context [Fs.removeTree ?p ?fs !! ?q] =>
        lazymatch fs with
        | Fs.removeTree _ _ =>
            destruct (Fs.removeTree p fs !! q) as [x2|] eqn:E2; simpl
        end
    end.
    + eexists _, _. split; [reflexivity|]. repeat split; auto; discriminate.
    + eexists _, _. split; [reflexivity|]. repeat split; auto; try discriminate.
      intros [_ []]; reflexivity.
  - eexists _, _. split; [reflexivity|]. repeat split; auto; try discriminate.
    intros [[] _]; reflexivity.
Qed.

End DeletedParts.

Section TreeShape.
Context (H : Host).

Lemma eraseIcons_freshChain (e : string) (names : list string) :
  forall name, eraseIcons (freshChain e name names) = freshChain e name names.
Proof.
  induction names as [|name' rest IH]; intros name; simpl; [reflexivity|].
  now rewrite IH.
Qed.

Lemma eraseIcons_insertNames (e : string) (names : list string) :
  forall n, eraseIcons (insertNames e names n)
            = insertNames e names (eraseIcons n).
Proof.
  induction names as [|name names IH]; intros n.
  - now destruct n.
  - cbn [insertNames]. rewrite findChild_eraseIcons.
    destruct (Tree.findChild name n) as [[i c]|]; simpl.
    + destruct n as [nm full icon ch]. simpl.
      unfold Tree.setChildren. simpl. f_equal.
      rewrite list_fmap_insert. now rewrite IH.
    + destruct n as [nm full icon ch]. simpl.
      unfold Tree.pushChild, Tree.setChildren. simpl. f_equal.
      rewrite map_app. simpl. now rewrite eraseIcons_freshChain.
Qed.

Lemma updateNode_twice (f g : FileNode -> FileNode) (ref : list nat) :
  forall root,
    Tree.updateNode ref f (Tree.updateNode ref g root)
    = Tree.updateNode ref (fun n => f (g n)) root.
Proof.
  induction ref as [|i ref IH]; intros root; [reflexivity|].
  cbn [Tree.updateNode].
  destruct (children root !! i) as [c|] eqn:E.
  - destruct root as [nm full icon ch]. simpl in *.
    rewrite list_lookup_insert_eq by (eapply lookup_lt_Some; eauto).
    unfold Tree.setChildren. simpl. rewrite list_insert_insert_eq.
    now rewrite IH.
  - now rewrite E.
Qed.

Lemma updateNode_ext_at (f g : FileNode -> FileNode) (ref : list nat) :
  forall root n,
    Tree.getNode ref root = Some n -> f n = g n ->
    Tree.updateNode ref f root = Tree.updateNode ref g root.
Proof.
  induction ref as [|i ref IH]; intros root n Hn E.
  - simpl in *. now injection Hn as ->.
  - cbn [Tree.getNode Tree.updateNode] in *.
    destruct (children root !! i) as [c|]; [|reflexivity].
    now rewrite (IH c n Hn E).
Qed.

Lemma updateNode_snoc (F : FileNode -> FileNode) (ref : list nat) (i : nat) :
  forall root n c,
    Tree.getNode ref root = Some n -> children n !! i = Some c ->
    Tree.updateNode (ref ++ [i]) F root
    = Tree.updateNode ref
        (fun m => Tree.setChildren (<[i := F c]> (children m)) m) root.
Proof.
  induction ref as [|j ref IH]; intros root n c Hn Hc.
  - simpl in *. injection Hn as ->. now rewrite Hc.
  - cbn [Tree.getNode Tree.updateNode app] in *.
    destruct (children root !! j) as [d|]; [|discriminate].
    now rewrite (IH d n c Hn Hc).
Qed.

Lemma updateNode_into_pushed (F : FileNode -> FileNode) (c : FileNode)
      (ref : list nat) :
  forall root n,
    Tree.getNode ref root = Some n ->
    Tree.updateNode (ref ++ [length (children n)]) F
      (Tree.updateNode ref (Tree.pushChild c) root)
    = Tree.updateNode ref (Tree.pushChild (F c)) root.
Proof.
  induction ref as [|j ref IH]; intros root n Hn.
  - simpl in *. injection Hn as ->. destruct n as [nm full icon ch]. simpl.
    rewrite lookup_app_r by lia. rewrite Nat.sub_diag. simpl.
    unfold Tree.pushChild, Tree.setChildren. simpl. f_equal.
    rewrite insert_app_r_alt by lia. now rewrite Nat.sub_diag.
  - cbn [Tree.getNode Tree.updateNode app] in *.
    destruct (children root !! j) as [d|] eqn:E; [|discriminate].
    destruct root as [nm full icon ch]. simpl in *.
    rewrite list_lookup_insert_eq by (eapply lookup_lt_Some; eauto).
    unfold Tree.setChildren. simpl. rewrite list_insert_insert_eq.
    now rewrite (IH d n Hn).
Qed.

Lemma eraseIcons_update_ext (f g : FileNode -> FileNode) (ref : list nat) :
  forall root n,
    Tree.getNode ref root = Some n ->
    eraseIcons (f n) = eraseIcons (g n) ->
    eraseIcons (Tree.updateNode ref f root)
    = eraseIcons (Tree.updateNode ref g root).
Proof.
  induction ref as [|i ref IH]; intros root n Hn E.
  - simpl in *. now injection Hn as ->.
  - cbn [Tree.getNode Tree.updateNode] in *.
    destruct (children root !! i) as [c|]; [|reflexivity].
    destruct root as [nm full icon ch]. simpl.
    rewrite !list_fmap_insert. now rewrite (IH c n Hn E).
Qed.

Lemma insertNames_into_fresh (e name : string) (names : list string) :
  insertNames e names (mkFileNode name e IconUnset [])
  = freshChain e name names.
Proof. destruct names; reflexivity. Qed.

(** The walk of the first load, as an insertion into the tree. *)
Lemma walkNames_first_load_tree (e : string) :
  forall (names : list string) (cur : list nat) (w : World) (n : FileNode),
    Tree.getNode cur (rootFileNode w) = Some n ->
    exists cur' w',
      walkNames H false e names cur w = (Ok cur', w')
      /\ zip w' = zip w
      /\ eraseIcons (Tree.updateNode cur' (Tree.setFullPath e) (rootFileNode w'))
         = eraseIcons (Tree.updateNode cur (insertNames e names)
                         (rootFileNode w)).
Proof.
  induction names as [|name names IH]; intros cur w n Hn.
  - exists cur, w. repeat split.
  - cbn [walkNames]. rewrite bind_run, node_run, Hn.
    cbn [default from_option id].
    destruct (Tree.findChild name n) as [[i c]|] eqn:Ef.
    + pose proof Ef as Ef'. apply findChild_Some in Ef' as [Hi Hname].
      rewrite bind_run.
      destruct (visitExisting_run H (cur ++ [i]) w) as (x & w1 & -> & T1 & Z1).
      assert (Hc : Tree.getNode (cur ++ [i]) (rootFileNode w) = Some c).
      { now rewrite getNode_snoc, Hn. }
      destruct (IH (cur ++ [i]) w1 (Tree.setIconPath x c))
        as (cur' & w' & E & Z & T).
      { rewrite T1. now apply getNode_update_same. }
      exists cur', w'. split; [exact E|]. split; [congruence|].
      rewrite T, T1, updateNode_twice.
      rewrite (eraseIcons_update_ext _ (insertNames e names) _ _ c Hc).
      2:{ rewrite !eraseIcons_insertNames. now rewrite eraseIcons_setIconPath. }
      rewrite (updateNode_snoc _ cur i _ n c Hn Hi).
      f_equal. apply (updateNode_ext_at _ _ cur _ n Hn).
      cbn [insertNames]. now rewrite Ef.
    + rewrite bind_run.
      destruct (visitNew_first_load_run H e name cur w) as (w1 & -> & T1 & Z1).
      rewrite Hn in *. cbn [default from_option id] in *.
      set (newNode := mkFileNode name e IconUnset []) in *.
      destruct (IH (cur ++ [length (children n)]) w1 newNode)
        as (cur' & w' & E & Z & T).
      { rewrite T1, getNode_snoc.
        rewrite (getNode_update_same _ _ _ _ Hn).
        destruct n as [nm full icon ch]. simpl.
        rewrite lookup_app_r by lia. now rewrite Nat.sub_diag. }
      exists cur', w'. split; [exact E|]. split; [congruence|].
      rewrite T, T1. rewrite (updateNode_into_pushed _ _ _ _ n Hn).
      f_equal. apply (updateNode_ext_at _ _ cur _ n Hn).
      cbn [insertNames]. rewrite Ef. unfold newNode.
      now rewrite insertNames_into_fresh.
Qed.

End TreeShape.

Section FirstLoadTree.
Context (H : Host).

(** What one entry does to the tree in the pass of the first load. *)
Lemma first_load_entry_tree (files : JSZip) (e : string) (w : World) :
  let body :=
    match Zip.get files e with
    | Some {| dir := true |} => ret tt
    | _ =>
        currentFileNode ← walkNames H false e (JS.split "/" e) [];
        updateTree currentFileNode (Tree.setFullPath e)
    end in
  exists w',
    body w = (Ok tt, w')
    /\ eraseIcons (rootFileNode w')
       = (if skipped files e then eraseIcons (rootFileNode w)
          else insertEntry (eraseIcons (rootFileNode w)) e).
Proof.
  intros body.
  assert (Hwalk : exists w',
    (currentFileNode ← walkNames H false e (JS.split "/" e) [];
     updateTree currentFileNode (Tree.setFullPath e)) w = (Ok tt, w')
    /\ eraseIcons (rootFileNode w') = insertEntry (eraseIcons (rootFileNode w)) e).
  { rewrite bind_run.
    destruct (walkNames_first_load_tree H e (JS.split "/" e) [] w
                (rootFileNode w) eq_refl) as (cur' & w' & -> & _ & T).
    rewrite updateTree_run. eexists. split; [reflexivity|].
    simpl. rewrite T. simpl. unfold insertEntry.
    now rewrite eraseIcons_insertNames. }
  unfold body, skipped.
  destruct (Zip.get files e) as [[[] ?]|]; [|exact Hwalk..].
  exists w. now split.
Qed.

Lemma first_load_tree (files : JSZip) (w : World) :
  eraseIcons (rootFileNode (exec (_populateOOXMLViewer H files false) w))
  = insertParts files (eraseIcons (rootFileNode w)).
Proof.
  unfold _populateOOXMLViewer, exec, insertParts. rewrite bind_run.
  generalize (Zip.keys files) as keys. intros keys. revert w.
  induction keys as [|e keys IH]; intros w; [reflexivity|].
  cbn [forEachM fold_left].
  change (?m ;; ?k) with (m ≫= fun _ => k).
  rewrite bind_run.
  destruct (first_load_entry_tree files e w) as (w1 & -> & T1).
  rewrite <- T1. apply IH.
Qed.

(** X8. The tree the pass of the first load builds, icons aside: the
    entries of the package that are no folders, inserted in their order as
    paths of names. *)
Theorem first_load_builds_the_tree_of_entry_paths
    (files : JSZip) (w : World) :
  eraseIcons (rootFileNode (exec (_populateOOXMLViewer H files false) w))
  = insertParts files (eraseIcons (rootFileNode w)).
Proof. apply first_load_tree. Qed.

End FirstLoadTree.

Section Present.
Context (H : Host).

Lemma findChild_insert_same (name : string) (n c c' : FileNode) (i : nat) :
  Tree.findChild name n = Some (i, c) -> fileName c' = name ->
  Tree.findChild name (Tree.setChildren (<[i := c']> (children n)) n)
  = Some (i, c').
Proof.
  unfold Tree.findChild. intros Hf Hc'. simpl.
  apply list_find_Some in Hf as (Hi & Hp & Hfirst).
  apply list_find_Some. split; [|split].
  - apply list_lookup_insert_eq. eapply lookup_lt_Some; eauto.
  - exact Hc'.
  - intros j y Hj Hlt. rewrite list_lookup_insert_ne in Hj by lia. eauto.
Qed.

Lemma findChild_insert_other (name name2 : string) (n c c' d : FileNode)
      (i j : nat) :
  Tree.findChild name n = Some (j, d) ->
  Tree.findChild name2 n = Some (i, c) ->
  name <> name2 -> fileName c' = name2 ->
  Tree.findChild name (Tree.setChildren (<[i := c']> (children n)) n)
  = Some (j, d).
Proof.
  unfold Tree.findChild, description. intros Hf Hf2 Hne Hc'. simpl.
  apply list_find_Some in Hf as (Hj & Hp & Hfirst).
  apply list_find_Some in Hf2 as (Hi & Hp2 & _).
  assert (i <> j) by (intros ->; congruence).
  apply list_find_Some. split; [|split].
  - now rewrite list_lookup_insert_ne.
  - exact Hp.
  - intros k y Hk Hlt. destruct (decide (k = i)) as [->|Hki].
    + rewrite list_lookup_insert_eq in Hk by (eapply lookup_lt_Some; eauto).
      injection Hk as <-. congruence.
    + rewrite list_lookup_insert_ne in Hk by congruence. eauto.
Qed.

Lemma findChild_push_found (name : string) (n x d : FileNode) (j : nat) :
  Tree.findChild name n = Some (j, d) ->
  Tree.findChild name (Tree.pushChild x n) = Some (j, d).
Proof.
  unfold Tree.findChild. intros Hf. simpl.
  apply list_find_Some in Hf as (Hj & Hp & Hfirst).
  apply list_find_Some. split; [|split].
  - apply lookup_app_l_Some. exact Hj.
  - exact Hp.
  - intros k y Hk Hlt.
    rewrite lookup_app_l in Hk
      by (apply lookup_lt_Some in Hj; lia).
    eauto.
Qed.

Lemma findChild_push_new (name : string) (n x : FileNode) :
  Tree.findChild name n = None -> fileName x = name ->
  Tree.findChild name (Tree.pushChild x n)
  = Some (length (children n), x).
Proof.
  unfold Tree.findChild. intros Hf Hx. simpl.
  apply list_find_None in Hf.
  apply list_find_Some. split; [|split].
  - rewrite lookup_app_r by lia. now rewrite Nat.sub_diag.
  - exact Hx.
  - intros k y Hk Hlt. rewrite lookup_app_l in Hk by lia.
    eapply Forall_lookup_1 in Hf; eauto.
Qed.

Lemma freshChain_fields (e name : string) (names : list string) :
  fileName (freshChain e name names) = name
  /\ fullPath (freshChain e name names) = e.
Proof. destruct names; now split. Qed.

Lemma findPath_freshChain (e : string) (names : list string) :
  forall name,
    exists leaf, findPath names (freshChain e name names) = Some leaf
                 /\ fullPath leaf = e.
Proof.
  induction names as [|name' rest IH]; intros name.
  - eexists. split; reflexivity.
  - destruct (IH name') as (leaf & E & Hp).
    exists leaf. split; [|exact Hp].
    cbn [findPath freshChain]. unfold Tree.findChild. cbn [children list_find].
    rewrite decide_True by apply freshChain_fields. simpl. exact E.
Qed.

Lemma insertNames_fileName (e : string) (names : list string) (n : FileNode) :
  fileName (insertNames e names n) = fileName n.
Proof.
  destruct names as [|name names]; [now destruct n|].
  cbn [insertNames]. now destruct (Tree.findChild name n) as [[i c]|].
Qed.

Lemma insertNames_fullPath (e name : string) (names : list string)
      (n : FileNode) :
  fullPath (insertNames e (name :: names) n) = fullPath n.
Proof.
  cbn [insertNames]. now destruct (Tree.findChild name n) as [[i c]|].
Qed.

(** After the insertion the names of the entry lead to a node with the
    entry's path. *)
Lemma findPath_insert_same (e : string) (names : list string) :
  forall n,
    exists leaf, findPath names (insertNames e names n) = Some leaf
                 /\ fullPath leaf = e.
Proof.
  induction names as [|name names IH]; intros n.
  - eexists. split; [reflexivity|]. now destruct n.
  - cbn [insertNames findPath].
    destruct (Tree.findChild name n) as [[i c]|] eqn:Ef.
    + rewrite (findChild_insert_same name n c _ i Ef)
        by (rewrite insertNames_fileName;
            now apply findChild_Some in Ef as [_ ?]).
      apply IH.
    + rewrite (findChild_push_new name n _ Ef) by apply freshChain_fields.
      apply findPath_freshChain.
Qed.

(** The insertion of another entry leaves the node of an entry where the
    names find it, with its path. *)
Lemma findPath_insert_other (e2 : string) (names2 : list string) :
  forall (names1 : list string) (n leaf : FileNode),
    names1 <> names2 ->
    findPath names1 n = Some leaf ->
    exists leaf', findPath names1 (insertNames e2 names2 n) = Some leaf'
                  /\ fullPath leaf' = fullPath leaf.
Proof.
  induction names2 as [|name2 names2 IH]; intros names1 n leaf Hne Hfind.
  - destruct names1 as [|name1 names1]; [congruence|].
    exists leaf. split; [|reflexivity].
    cbn [insertNames findPath] in *. now destruct n.
  - destruct names1 as [|name1 names1].
    + simpl in Hfind. injection Hfind as <-.
      eexists. split; [reflexivity|]. apply insertNames_fullPath.
    + cbn [findPath] in Hfind.
      destruct (Tree.findChild name1 n) as [[j d]|] eqn:E1; [|discriminate].
      cbn [insertNames findPath].
      destruct (Tree.findChild name2 n) as [[i c]|] eqn:E2.
      * destruct (decide (name1 = name2)) as [->|Hn].
        -- rewrite E1 in E2. injection E2 as <- <-.
           rewrite (findChild_insert_same name2 n d _ j E1)
             by (rewrite insertNames_fileName;
                 now apply findChild_Some in E1 as [_ ?]).
           apply (IH names1 d leaf); [congruence | exact Hfind].
        -- rewrite (findChild_insert_other name1 name2 n c _ d i j E1 E2 Hn)
             by (rewrite insertNames_fileName;
                 now apply findChild_Some in E2 as [_ ?]).
           now exists leaf.
      * rewrite (findChild_push_found name1 n _ d j E1). now exists leaf.
Qed.

Lemma entryPresent_insert_same (t : FileNode) (e : string) :
  entryPresent (insertEntry t e) e = true.
Proof.
  unfold entryPresent, insertEntry.
  destruct (findPath_insert_same e (JS.split "/" e) t) as (leaf & -> & <-).
  apply String.eqb_refl.
Qed.

Lemma entryPresent_insert_other (t : FileNode) (e e2 : string) :
  entryPresent t e = true -> entryPresent (insertEntry t e2) e = true.
Proof.
  destruct (decide (e = e2)) as [->|Hne];
    [intros _; apply entryPresent_insert_same|].
  unfold entryPresent, insertEntry.
  destruct (findPath (JS.split "/" e) t) as [leaf|] eqn:E; [|discriminate].
  intros Hp.
  destruct (findPath_insert_other e2 (JS.split "/" e2) (JS.split "/" e) t leaf)
    as (leaf' & -> & ->); [|exact E|exact Hp].
  intros Hs. apply Hne. now apply split_inj.
Qed.

Lemma insertParts_present (files : JSZip) (keys : list string) (e : string) :
  forall t,
    skipped files e = false ->
    e ∈ keys \/ entryPresent t e = true ->
    entryPresent
      (fold_left (fun t e => if skipped files e then t else insertEntry t e)
                 keys t) e = true.
Proof.
  intros t Hs. revert t.
  induction keys as [|k keys IH]; intros t Hin.
  - destruct Hin as [Hin|Hp]; [inversion Hin | exact Hp].
  - cbn [fold_left]. apply IH.
    destruct Hin as [Hin|Hp].
    + apply elem_of_cons in Hin as [<-|Hin]; [|now left].
      right. rewrite Hs. apply entryPresent_insert_same.
    + right. destruct (skipped files k); [exact Hp|].
      now apply entryPresent_insert_other.
Qed.

Lemma first_load_entry_present (files : JSZip) (e : string) (w : World) :
  e ∈ Zip.keys files ->
  skipped files e = false ->
  entryPresent
    (rootFileNode (exec (_populateOOXMLViewer H files false) w)) e = true.
Proof.
  intros Hin Hs.
  rewrite <- entryPresent_eraseIcons.
  rewrite (first_load_tree H).
  apply insertParts_present; auto.
Qed.

(** X9. After the pass of the first load every part of the package has its
    node: the names of its entry path, searched child by child from the
    root, lead to a node whose [fullPath] is the entry path. *)
Theorem first_load_gives_every_part_its_node
    (files : JSZip) (e : string) (w : World) :
  e ∈ Zip.keys files ->
  skipped files e = false ->
  entryPresent
    (rootFileNode (exec (_populateOOXMLViewer H files false) w)) e = true.
Proof. apply first_load_entry_present. Qed.

End Present.

(** ** A pass, visit by visit *)

Section PassAsVisits.
Context (H : Host).

Lemma writeFile_run (p : string) (b : Bytes) (w : World) :
  exists w',
    Fs.writeFile p b w
    = (match Fs.written p b (files w) with
       | inl e => Throw e
       | inr _ => Ok tt
       end, w')
    /\ files w' = match Fs.written p b (files w) with
                  | inl _ => files w
                  | inr f' => f'
                  end
    /\ zip w' = zip w /\ rootFileNode w' = rootFileNode w.
Proof.
  unfold Fs.writeFile. unfold_io. simpl.
  destruct (Fs.written p b (files w)); eexists; repeat split.
Qed.

(** The visit of a node that is there, with what it does to the files. *)
Lemma visitExisting_effect (ref : list nat) (c : FileNode) (w : World) :
  Tree.getNode ref (rootFileNode w) = Some c ->
  exists x w',
    visitExisting H ref w = (Ok tt, w')
    /\ rootFileNode w'
       = Tree.updateNode ref (Tree.setIconPath x) (rootFileNode w)
    /\ zip w' = zip w
    /\ files w' = existingEffect H (zip w) (files w) (fullPath c) (fileName c).
Proof.
  intros Hc. unfold visitExisting, existingEffect.
  rewrite bind_run, node_run, Hc. cbn [default from_option id].
  rewrite bind_run.
  destruct (createFile_run H (fullPath c) (fileName c) w)
    as (w1 & E1 & F1 & Z1 & T1).
  rewrite E1, bind_run.
  destruct (detector_run_full H (fullPath c) w1) as (w2 & E2 & F2 & Z2 & T2).
  rewrite E2, F1. clear E2.
  destruct (changedFromOutside H
              (createFileEffect H (zip w) (files w) (fullPath c) (fileName c))
              (fullPath c)).
  - rewrite bind_run, updateTree_run, bind_run.
    match goal with
    | |- context [_createFile H ?a ?b ?w0] =>
        destruct (createFile_run H a b w0) as (w4 & E4 & F4 & Z4 & T4)
    end.
    rewrite E4.
    destruct (createFile_run H (fullPath c) ("prev." ++ fileName c) w4)
      as (w5 & E5 & F5 & Z5 & T5).
    rewrite E5. eexists _, w5. split; [reflexivity|].
    rewrite T5, T4, Z5, Z4, F5, F4, Z4. simpl.
    rewrite T2, T1, Z2, Z1, F2, F1. auto.
  - rewrite updateTree_run. eexists _, _. split; [reflexivity|].
    simpl. rewrite T2, T1, Z2, Z1, F2, F1. auto.
Qed.

Lemma getNode_pushed (c n : FileNode) (ref : list nat) (root : FileNode) :
  Tree.getNode ref root = Some n ->
  Tree.getNode (ref ++ [length (children n)])
               (Tree.updateNode ref (Tree.pushChild c) root) = Some c.
Proof.
  intros Hn. rewrite getNode_snoc, (getNode_update_same _ _ _ _ Hn).
  destruct n as [nm full icon ch]. simpl.
  rewrite lookup_app_r by lia. now rewrite Nat.sub_diag.
Qed.

(** The visit that makes a node, with what it does to the files: the node
    is the last child of the node the walk stands on. *)
Lemma visitNew_effect (showNew : bool) (e name : string) (ref : list nat)
      (n : FileNode) (w : World) :
  Tree.getNode ref (rootFileNode w) = Some n ->
  let out := visitEffect H showNew (zip w) (files w) (VisitNew e name) in
  exists w',
    visitNew H showNew e name ref w
    = (match out.2 with
       | None => Ok (ref ++ [length (children n)])
       | Some err => Throw err
       end, w')
    /\ rootFileNode w'
       = Tree.updateNode ref
           (Tree.pushChild
              (mkFileNode name e
                 (if showNew then asteriskGreen else IconUnset) []))
           (rootFileNode w)
    /\ zip w' = zip w
    /\ files w' = out.1.
Proof.
  intros Hn. cbv zeta. unfold visitNew, visitEffect.
  rewrite bind_run, node_run, Hn. cbn [default from_option id].
  rewrite bind_run, updateTree_run.
  set (w0 := setRootFileNode _ w). rewrite bind_run.
  destruct (createFile_run H e name w0) as (w1 & -> & F1 & Z1 & T1).
  rewrite bind_run.
  destruct (createFile_run H e ("prev." ++ name) w1)
    as (w2 & -> & F2 & Z2 & T2).
  rewrite bind_run.
  assert (F02 : files w2
                = createFileEffect H (zip w)
                    (createFileEffect H (zip w) (files w) e name)
                    e ("prev." ++ name)).
  { rewrite F2, F1, Z1. reflexivity. }
  destruct showNew.
  - rewrite bind_run, updateTree_run.
    set (w3 := setRootFileNode _ w2).
    destruct (writeFile_run
                (Path.join [fileCachePath H; Path.dirname e;
                            ("compare." ++ name)%string]) [] w3)
      as (w4 & E4 & F4 & Z4 & T4).
    rewrite E4. change (files w3) with (files w2) in *.
    rewrite F02 in *. unfold compareFile.
    exists w4.
    rewrite T4, Z4, F4. simpl. rewrite T2, T1, Z2, Z1. simpl.
    rewrite (updateNode_into_pushed _ _ _ _ n Hn).
    destruct (Fs.written _ [] _); simpl; auto.
  - destruct (createFile_run H e ("compare." ++ name) w2)
      as (w3 & -> & F3 & Z3 & T3).
    exists w3. simpl.
    rewrite T3, T2, T1, Z3, F3, F02, Z2, Z1. auto.
Qed.

Lemma visitsEffect_app (showNew : bool) (z : JSZip) (l1 l2 : list Visit)
      (fs : gmap string FsEntry) :
  visitsEffect H showNew z (l1 ++ l2) fs
  = match visitsEffect H showNew z l1 fs with
    | (fs1, None) => visitsEffect H showNew z l2 fs1
    | (fs1, Some e) => (fs1, Some e)
    end.
Proof.
  revert fs. induction l1 as [|v l1 IH]; intros fs; simpl; [reflexivity|].
  destruct (visitEffect H showNew z fs v) as [fs1 [e|]];
    [reflexivity | apply IH].
Qed.

(** The visits of a walk do not depend on icons. *)
Lemma walkVisits_ext (e : string) (names : list string) :
  forall n n', eraseIcons n = eraseIcons n' ->
               walkVisits e names n = walkVisits e names n'.
Proof.
  induction names as [|name names IH]; intros n n' E; simpl; [reflexivity|].
  pose proof (findChild_eraseIcons name n) as F1.
  pose proof (findChild_eraseIcons name n') as F2.
  rewrite E in F1. rewrite F1 in F2.
  destruct (Tree.findChild name n) as [[i c]|],
           (Tree.findChild name n') as [[i' c']|];
    simpl in F2; try discriminate; [|reflexivity].
  injection F2 as Ei Ec.
  destruct (eraseIcons_fields c) as (N1 & P1 & _).
  destruct (eraseIcons_fields c') as (N2 & P2 & _).
  rewrite <- N1, <- P1, Ec, N2, P2. f_equal. now apply IH.
Qed.

Lemma walkVisits_leaf (e : string) (names : list string) (n : FileNode) :
  children n = [] -> walkVisits e names n = map (VisitNew e) names.
Proof.
  intros Hch. destruct names as [|name names]; [reflexivity|].
  cbn [walkVisits]. unfold Tree.findChild. now rewrite Hch.
Qed.

Lemma passVisits_ext (z : JSZip) (keys : list string) :
  forall t t', eraseIcons t = eraseIcons t' ->
               passVisits z keys t = passVisits z keys t'.
Proof.
  induction keys as [|e keys IH]; intros t t' E; simpl; [reflexivity|].
  destruct (skipped z e); [now apply IH|].
  rewrite (walkVisits_ext e _ t t' E). f_equal. apply IH.
  unfold insertEntry. now rewrite !eraseIcons_insertNames, E.
Qed.

Lemma eraseIcons_pushChild (c n : FileNode) :
  eraseIcons (Tree.pushChild c n)
  = Tree.pushChild (eraseIcons c) (eraseIcons n).
Proof.
  destruct n as [nm full icon ch]. unfold Tree.pushChild, Tree.setChildren.
  simpl. now rewrite map_app.
Qed.

(** The inner loop as a sequence of visits: the files are what the visits
    make of them, the walk ends where a visit fails, and otherwise the
    tree is what the insertion of the names gives. *)
Lemma walkNames_visits (showNew : bool) (e : string) :
  forall (names : list string) (cur : list nat) (w : World) (n : FileNode),
    Tree.getNode cur (rootFileNode w) = Some n ->
    let out :=
      visitsEffect H showNew (zip w) (walkVisits e names n) (files w) in
    exists r w',
      walkNames H showNew e names cur w = (r, w')
      /\ zip w' = zip w /\ files w' = out.1
      /\ match out.2 with
         | Some err => r = Throw err
         | None =>
             exists cur',
               r = Ok cur'
               /\ eraseIcons (Tree.updateNode cur' (Tree.setFullPath e)
                                (rootFileNode w'))
                  = eraseIcons (Tree.updateNode cur (insertNames e names)
                                  (rootFileNode w))
         end.
Proof.
  induction names as [|name names IH]; intros cur w n Hn; cbv zeta.
  - exists (Ok cur), w. simpl. repeat split. exists cur. now split.
  - cbn [walkNames walkVisits]. rewrite bind_run, node_run, Hn.
    cbn [default from_option id].
    destruct (Tree.findChild name n) as [[i c]|] eqn:Ef.
    + pose proof Ef as Ef'. apply findChild_Some in Ef' as [Hi Hname].
      assert (Hc : Tree.getNode (cur ++ [i]) (rootFileNode w) = Some c)
        by now rewrite getNode_snoc, Hn.
      rewrite bind_run.
      destruct (visitExisting_effect (cur ++ [i]) c w Hc)
        as (x & w1 & -> & T1 & Z1 & F1).
      cbn [visitsEffect visitEffect].
      destruct (IH (cur ++ [i]) w1 (Tree.setIconPath x c))
        as (r & w' & E & Z & F & Hout).
      { rewrite T1. now apply getNode_update_same. }
      rewrite (walkVisits_ext e names (Tree.setIconPath x c) c) in F, Hout
        by apply eraseIcons_setIconPath.
      rewrite Z1, F1 in F, Hout.
      exists r, w'. split; [exact E|]. split; [congruence|].
      split; [exact F|].
      destruct (visitsEffect H showNew (zip w) (walkVisits e names c) _)
        as [fs' [err|]]; simpl in *; [exact Hout|].
      destruct Hout as (cur' & -> & T). exists cur'. split; [reflexivity|].
      rewrite T, T1, updateNode_twice.
      rewrite (eraseIcons_update_ext _ (insertNames e names) _ _ c Hc).
      2:{ rewrite !eraseIcons_insertNames. now rewrite eraseIcons_setIconPath. }
      rewrite (updateNode_snoc _ cur i _ n c Hn Hi).
      f_equal. apply (updateNode_ext_at _ _ cur _ n Hn).
      cbn [insertNames]. now rewrite Ef.
    + rewrite bind_run.
      destruct (visitNew_effect showNew e name cur n w Hn)
        as (w1 & -> & T1 & Z1 & F1).
      cbn [map visitsEffect].
      destruct (visitEffect H showNew (zip w) (files w) (VisitNew e name))
        as [fs1 [err|]] eqn:Ev; simpl in F1 |- *.
      * exists (Throw err), w1. repeat split; auto.
      * set (c' := mkFileNode name e _ []) in *.
        destruct (IH (cur ++ [length (children n)]) w1 c')
          as (r & w' & E & Z & F & Hout).
        { rewrite T1. now apply getNode_pushed. }
        rewrite (walkVisits_leaf e names c' eq_refl) in F, Hout.
        rewrite Z1, F1 in F, Hout.
        exists r, w'. split; [exact E|]. split; [congruence|].
        split; [exact F|].
        destruct (visitsEffect H showNew (zip w) (map (VisitNew e) names) fs1)
          as [fs' [err|]]; simpl in *; [exact Hout|].
        destruct Hout as (cur' & -> & T). exists cur'. split; [reflexivity|].
        rewrite T, T1. rewrite (updateNode_into_pushed _ _ _ _ n Hn).
        apply (eraseIcons_update_ext _ _ cur _ n Hn).
        cbn [insertNames]. rewrite Ef. rewrite !eraseIcons_pushChild.
        f_equal. rewrite eraseIcons_insertNames. unfold c'. simpl.
        rewrite insertNames_into_fresh. now rewrite eraseIcons_freshChain.
Qed.

(** The loop over the entries as a sequence of visits. *)
Lemma entries_visits (z : JSZip) (showNew : bool) :
  forall (keys : list string) (w : World),
    let out :=
      visitsEffect H showNew (zip w) (passVisits z keys (rootFileNode w))
                   (files w) in
    exists r w',
      forEachM keys (fun fileWithPath =>
        match Zip.get z fileWithPath with
        | Some {| dir := true |} => ret tt
        | _ =>
            currentFileNode ←
              walkNames H showNew fileWithPath
                        (JS.split "/" fileWithPath) [];
            updateTree currentFileNode (Tree.setFullPath fileWithPath)
        end) w = (r, w')
      /\ zip w' = zip w /\ files w' = out.1
      /\ match out.2 with
         | Some err => r = Throw err
         | None =>
             r = Ok tt
             /\ eraseIcons (rootFileNode w')
                = fold_left
                    (fun t e => if skipped z e then t else insertEntry t e)
                    keys (eraseIcons (rootFileNode w))
         end.
Proof.
  induction keys as [|e keys IH]; intros w; cbv zeta.
  - exists (Ok tt), w. simpl. repeat split.
  - cbn [forEachM passVisits fold_left].
    change (?m ;; ?k) with (m ≫= fun _ => k). rewrite bind_run.
    destruct (skipped z e) eqn:Es.
    + assert (Hbody : match Zip.get z e with
                      | Some {| dir := true |} => ret tt
                      | _ =>
                          currentFileNode ←
                            walkNames H showNew e (JS.split "/" e) [];
                          updateTree currentFileNode (Tree.setFullPath e)
                      end w = (Ok tt, w)).
      { unfold skipped in Es.
        destruct (Zip.get z e) as [[[] ?]|]; try discriminate. reflexivity. }
      rewrite Hbody. apply IH.
    + assert (Hbody : match Zip.get z e with
                      | Some {| dir := true |} => ret tt
                      | _ =>
                          currentFileNode ←
                            walkNames H showNew e (JS.split "/" e) [];
                          updateTree currentFileNode (Tree.setFullPath e)
                      end
                      = (currentFileNode ←
                           walkNames H showNew e (JS.split "/" e) [];
                         updateTree currentFileNode (Tree.setFullPath e))).
      { unfold skipped in Es.
        destruct (Zip.get z e) as [[[] ?]|]; try discriminate; reflexivity. }
      rewrite Hbody, bind_run, visitsEffect_app.
      destruct (walkNames_visits showNew e (JS.split "/" e) [] w
                  (rootFileNode w) eq_refl) as (r & w1 & -> & Z1 & F1 & Hout).
      destruct (visitsEffect H showNew (zip w)
                  (walkVisits e (JS.split "/" e) (rootFileNode w)) (files w))
        as [fs1 [err|]]; simpl in F1, Hout.
      * subst r. exists (Throw err), w1. repeat split; auto.
      * destruct Hout as (cur' & -> & T). rewrite updateTree_run.
        set (w2 := setRootFileNode _ w1).
        destruct (IH w2) as (r & w' & E & Z & F & Hrest).
        assert (Et : eraseIcons (rootFileNode w2)
                     = insertEntry (eraseIcons (rootFileNode w)) e).
        { unfold w2. simpl. rewrite T. simpl. unfold insertEntry.
          now rewrite eraseIcons_insertNames. }
        assert (Ep : passVisits z keys (rootFileNode w2)
                     = passVisits z keys (insertEntry (rootFileNode w) e)).
        { apply passVisits_ext. rewrite Et. unfold insertEntry.
          now rewrite eraseIcons_insertNames. }
        rewrite Ep in F, Hrest.
        change (zip w2) with (zip w1) in *. change (files w2) with (files w1) in *.
        rewrite Z1, F1 in *.
        exists r, w'. split; [exact E|]. split; [exact Z|]. split; [exact F|].
        destruct (visitsEffect H showNew (zip w) _ fs1) as [fs' [err|]];
          simpl in *; [exact Hrest|].
        destruct Hrest as [-> Hrest]. split; [reflexivity|].
        now rewrite Hrest, Et.
Qed.

(** The one way a sequence of visits ends early: the write of the empty
    compare file of a node that was just made, after its current and
    previous files were materialised. *)
Lemma visitsEffect_fails (showNew : bool) (z : JSZip) (vs : list Visit) :
  forall (fs fs' : gmap string FsEntry) (err : Err),
    visitsEffect H showNew z vs fs = (fs', Some err) ->
    showNew = true
    /\ exists l1 p n l2 fsa,
         vs = l1 ++ VisitNew p n :: l2
         /\ visitsEffect H showNew z l1 fs = (fsa, None)
         /\ fs' = createFileEffect H z (createFileEffect H z fsa p n) p
                    ("prev." ++ n)
         /\ Fs.written (compareFile H p n) [] fs' = inl err.
Proof.
  induction vs as [|v vs IH]; intros fs fs' err Hrun; [discriminate|].
  cbn [visitsEffect] in Hrun.
  destruct (visitEffect H showNew z fs v) as [fs1 [e1|]] eqn:Ev.
  - injection Hrun as <- <-. destruct v as [p n | p n];
      cbn [visitEffect] in Ev; [discriminate|].
    destruct showNew; [|discriminate]. split; [reflexivity|].
    destruct (Fs.written (compareFile H p n) [] _) as [e2|fs3] eqn:Ew;
      [|discriminate].
    injection Ev as <- <-.
    exists [], p, n, vs, fs. repeat split. exact Ew.
  - destruct (IH fs1 fs' err Hrun)
      as (Hs & l1 & p & n & l2 & fsa & -> & E1 & -> & Ew).
    split; [exact Hs|].
    exists (v :: l1), p, n, l2, fsa. split; [reflexivity|].
    split; [|split; [reflexivity | exact Ew]].
    cbn [visitsEffect]. now rewrite Ev.
Qed.

(** *** The removal of deleted parts, away from a path *)

Lemma under_false_ne (p q : string) : Fs.under p q = false -> p <> q.
Proof. intros E ->. now rewrite under_refl in E. Qed.

Lemma forEachCollect_spares {A B} (q : string) (z : JSZip)
      (cb : A -> M B) (l : list A) :
  Forall (fun a => forall w, zip w = z ->
            exists b w', cb a w = (Ok b, w') /\ zip w' = z
                         /\ files w' !! q = files w !! q) l ->
  forall w, zip w = z ->
    exists bs w', forEachCollect cb l w = (Ok bs, w') /\ zip w' = z
                  /\ files w' !! q = files w !! q.
Proof.
  induction l as [|a l IH]; intros Hl w Hz.
  - exists [], w. repeat split; auto.
  - apply Forall_cons in Hl as [Ha Hrest].
    destruct (Ha w Hz) as (b & w1 & E1 & Z1 & F1).
    destruct (IH Hrest w1 Z1) as (bs & w2 & E2 & Z2 & F2).
    exists (b :: bs), w2. cbn [forEachCollect]. rewrite bind_run, E1.
    fold (forEachCollect cb l). rewrite bind_run, E2.
    repeat split; congruence.
Qed.

Lemma removeDeletedCallback_spares (q : string) (z : JSZip)
      (recur : FileNode -> M FileNode) (n : FileNode) :
  sparesPath H z q n = true ->
  Forall (fun g => forall w, zip w = z ->
            exists b w', recur g w = (Ok b, w') /\ zip w' = z
                         /\ files w' !! q = files w !! q) (children n) ->
  forall w, zip w = z ->
    exists b w', removeDeletedCallback H recur n w = (Ok b, w')
                 /\ zip w' = z /\ files w' !! q = files w !! q.
Proof.
  intros Hs Hch w Hz. destruct n as [nName nFull nIcon nChildren].
  unfold sparesPath in Hs. cbn [fullPath children] in *.
  unfold removeDeletedCallback. rewrite bind_run. cbn [gets]. rewrite Hz.
  destruct (Zip.includes (Zip.keys z) nFull) eqn:Ei; cbn [negb].
  - destruct nChildren as [|c rest].
    + eexists _, w. repeat split; auto.
    + rewrite bind_run.
      destruct (forEachCollect_spares q z recur (c :: rest) Hch w Hz)
        as (ch & w1 & E1 & Z1 & F1).
      rewrite E1. eexists _, w1. repeat split; auto.
  - simpl in Hs. apply andb_true_iff in Hs as [Hs H3].
    apply andb_true_iff in Hs as [H1 H2].
    apply negb_true_iff in H1, H2, H3.
    unfold currentFile, prevBeside, compareBeside in *.
    set (path := Path.join [fileCachePath H; nFull]) in *.
    unfold detached, Fs.readFile, Fs.writeFile, Fs.delete. unfold_io. simpl.
    destruct (files w !! path) as [[b|]|] eqn:Ep; simpl.
    + destruct (JS.truthy (utf8Decode H b)); simpl.
      * rewrite (FsFacts.written_over _ _ _ _ Ep). simpl.
        eexists _, _. split; [reflexivity|]. split; [exact Hz|]. simpl.
        apply lookup_insert_ne. now apply under_false_ne.
      * rewrite Ep. simpl.
        match goal with
        | |- context [Fs.removeTree path (files w) !! ?p2] =>
            destruct (Fs.removeTree path (files w) !! p2) eqn:E2; simpl
        end.
        -- match goal with
           | |- context [Fs.removeTree ?p2 (Fs.removeTree path (files w))
                         !! ?p3] =>
               destruct (Fs.removeTree p2 (Fs.removeTree path (files w))
                         !! p3) eqn:E3; simpl
           end.
           ++ eexists _, _. split; [reflexivity|]. split; [exact Hz|]. simpl.
              now rewrite !removeTree_lookup, H1, H2, H3.
           ++ eexists _, _. split; [reflexivity|]. split; [exact Hz|]. simpl.
              now rewrite !removeTree_lookup, H1, H2.
        -- eexists _, _. split; [reflexivity|]. split; [exact Hz|]. simpl.
           now rewrite !removeTree_lookup, H1.
    + eexists _, _. split; [reflexivity|]. split; [exact Hz|]. reflexivity.
    + eexists _, _. split; [reflexivity|]. split; [exact Hz|]. reflexivity.
Qed.

(** The removal changes nothing at a path that every node spares. *)
Lemma removeDeletedParts_spares (q : string) (z : JSZip) (nd : FileNode) :
  allBelow (sparesPath H z q) nd = true ->
  forall w, zip w = z ->
    exists nd' w', _removeDeletedParts H nd w = (Ok nd', w')
                   /\ zip w' = z /\ files w' !! q = files w !! q.
Proof.
  set (R := fun g : FileNode =>
              allBelow (sparesPath H z q) g = true ->
              forall w, zip w = z ->
                exists b w', _removeDeletedParts H g w = (Ok b, w')
                             /\ zip w' = z /\ files w' !! q = files w !! q).
  cut (R nd /\ Forall R (children nd)); [intros [Hr _]; exact Hr|].
  induction nd as [name full icon arr IH] using FileNode_rose_ind.
  assert (Harr : Forall R arr).
  { eapply Forall_impl; [exact IH|]. intros c Hc. apply Hc. }
  split; [|exact Harr]. intros Hall w Hz.
  apply allBelow_children in Hall. cbn [children] in Hall.
  cbn [_removeDeletedParts]. rewrite bind_run.
  destruct (forEachCollect_spares q z
              (removeDeletedCallback H (_removeDeletedParts H)) arr)
    with (w := w) as (results & w1 & E1 & Z1 & F1); [|exact Hz|].
  { rewrite Forall_forall in IH, Hall. apply Forall_forall. intros n Hn.
    destruct (Hall n Hn) as [Hp Hbelow]. destruct (IH n Hn) as [_ Hgrand].
    apply removeDeletedCallback_spares; [exact Hp|].
    apply allBelow_children in Hbelow.
    rewrite Forall_forall in Hgrand, Hbelow. apply Forall_forall.
    intros g Hg. intros w0 Hw0. apply Hgrand; [assumption| |assumption].
    now apply Hbelow. }
  rewrite E1. eexists _, w1. repeat split; auto.
Qed.

Lemma sparesPath_byNameAndPath (z : JSZip) (q : string) :
  byNameAndPath (sparesPath H z q).
Proof. intros n n' Hn Hf. unfold sparesPath. now rewrite Hf. Qed.

Lemma eraseIcons_insertParts (z : JSZip) (t : FileNode) :
  eraseIcons (insertParts z t) = insertParts z (eraseIcons t).
Proof.
  unfold insertParts. generalize (Zip.keys z) as keys. intros keys. revert t.
  induction keys as [|e keys IH]; intros t; simpl; [reflexivity|].
  rewrite IH. destruct (skipped z e); [reflexivity|].
  unfold insertEntry. now rewrite eraseIcons_insertNames.
Qed.

(** A pass as its visits and the removal: the files are what the visits
    make of them where the removal spares them, and when a visit fails the
    pass ends there, with what was written. *)
Lemma populate_visits (z : JSZip) (showNew : bool) (w : World) :
  let out :=
    visitsEffect H showNew (zip w) (passVisits z (Zip.keys z) (rootFileNode w))
                 (files w) in
  exists r w',
    _populateOOXMLViewer H z showNew w = (r, w') /\ zip w' = zip w
    /\ match out.2 with
       | Some err => r = Throw err /\ files w' = out.1
       | None =>
           r = Ok tt
           /\ forall q,
                (showNew = true ->
                 allBelow (sparesPath H (zip w) q)
                          (insertParts z (rootFileNode w)) = true) ->
                files w' !! q = out.1 !! q
       end.
Proof.
  cbv zeta. unfold _populateOOXMLViewer. rewrite bind_run.
  destruct (entries_visits z showNew (Zip.keys z) w)
    as (r & w1 & E & Z & F & Hout).
  rewrite E.
  destruct (visitsEffect H showNew (zip w)
              (passVisits z (Zip.keys z) (rootFileNode w)) (files w))
    as [fs1 [err|]]; simpl in F, Hout |- *.
  - subst r. exists (Throw err), w1. auto.
  - destruct Hout as [-> T]. destruct showNew.
    + rewrite bind_run. cbn [gets]. rewrite bind_run.
      destruct (removeDeletedParts_yields H (rootFileNode w1) w1)
        as (nd' & w2 & E2 & _ & Z2 & T2).
      rewrite E2. eexists _, _. split; [reflexivity|]. simpl.
      split; [congruence|]. split; [reflexivity|].
      intros q Hq. specialize (Hq eq_refl).
      destruct (removeDeletedParts_spares q (zip w) (rootFileNode w1))
        with (w := w1) as (nd2 & w3 & E3 & Z3 & F3); [|exact Z|].
      { rewrite <- (allBelow_eraseIcons _ _ (sparesPath_byNameAndPath _ q)).
        fold (insertParts z (eraseIcons (rootFileNode w))) in T.
        rewrite T, <- eraseIcons_insertParts.
        now rewrite (allBelow_eraseIcons _ _ (sparesPath_byNameAndPath _ q)). }
      assert (Ew : w3 = w2) by congruence. subst w3. now rewrite F3, F.
    + exists (Ok tt), w1. repeat split; auto. intros q _. now rewrite F.
Qed.

End PassAsVisits.

(** ** The files of one part through a pass *)

Section VisitFrames.
Context (H : Host).
Import Path PathShape PathFacts PathAlgebra FsFacts.

Lemma foldersOnly_refl (fs : gmap string FsEntry) (q : string) :
  foldersOnly fs fs q.
Proof. now left. Qed.

Lemma foldersOnly_trans (a b c : gmap string FsEntry) (q : string) :
  foldersOnly a b q -> foldersOnly b c q -> foldersOnly a c q.
Proof.
  unfold foldersOnly. intros [E1 | [N1 D1]] [E2 | [N2 D2]].
  - left. congruence.
  - right. split; congruence.
  - right. split; congruence.
  - congruence.
Qed.

Lemma foldersOnly_folder (a b : gmap string FsEntry) (q : string) :
  foldersOnly a b q -> a !! q = Some Directory -> b !! q = Some Directory.
Proof. intros [E | [N _]] Hq; congruence. Qed.

Lemma foldersOnly_no_file (a b : gmap string FsEntry) (q : string) :
  foldersOnly a b q ->
  (forall x, a !! q <> Some (RegularFile x)) ->
  forall x, b !! q <> Some (RegularFile x).
Proof. intros [E | [_ D]] Hq x; [rewrite E; apply Hq | congruence]. Qed.

Lemma disjointb_spec (l k : list string) (p : string) :
  disjointb l k = true -> p ∈ l -> p ∉ k.
Proof.
  unfold disjointb. rewrite forallb_forall. intros Hall Hp Hk.
  apply list_elem_of_In in Hp. specialize (Hall p Hp).
  apply negb_true_iff in Hall.
  assert (Hex : existsb (String.eqb p) k = true).
  { apply existsb_exists. exists p. split; [now apply list_elem_of_In|].
    apply String.eqb_refl. }
  congruence.
Qed.

(** One call of [_createFile], away from its paths and away from its
    file. *)
Lemma createFileEffect_step (z : JSZip) (fs : gmap string FsEntry)
      (p n q : string) :
  let fs' := createFileEffect H z fs p n in
  (q ∉ createFilePaths H p n -> fs' !! q = fs !! q)
  /\ (q <> fileOf H p n -> foldersOnly fs fs' q).
Proof.
  cbv zeta. split.
  - apply createFileEffect_frame.
  - intros Hq. now apply createFileEffect_off_file.
Qed.

Lemma written_step (p : string) (b : Bytes) (fs fs' : gmap string FsEntry)
      (q : string) :
  Fs.written p b fs = inr fs' ->
  (q ∉ p :: Fs.above p -> fs' !! q = fs !! q)
  /\ (q <> p -> foldersOnly fs fs' q).
Proof.
  intros E. destruct (written_lookup _ _ _ _ E) as [_ Hoff]. split.
  - intros Hq. apply not_elem_of_cons in Hq as [Hne Hab].
    destruct (Hoff q Hne) as [E' | (_ & _ & Hin)]; [exact E' | contradiction].
  - intros Hne. destruct (Hoff q Hne) as [E' | (Hn & Hd & _)];
      [now left | now right].
Qed.

(** A visit that leaves the part alone: its three files keep what they
    hold, and at its folders nothing but folders is made. *)
Lemma leavesAlone_frame (showNew : bool) (z : JSZip)
      (fs : gmap string FsEntry) (e : string) (v : Visit) :
  leavesAlone H e v = true ->
  let fs' := (visitEffect H showNew z fs v).1 in
  (forall k, k ∈ generationFiles H e -> fs' !! k = fs !! k)
  /\ (forall q, q ∈ partFolders H e -> foldersOnly fs fs' q).
Proof.
  unfold leavesAlone. intros Hv. apply andb_true_iff in Hv as [HK HF].
  cbv zeta. split.
  - intros k Hk. pose proof (disjointb_spec _ _ k HK Hk) as Hout.
    destruct v as [p n | p n]; cbn [visitEffect visitPaths fst] in *.
    + unfold existingEffect.
      rewrite !not_elem_of_app in Hout. destruct Hout as (H1 & H2 & H3).
      destruct (changedFromOutside H _ p).
      * rewrite (proj1 (createFileEffect_step z _ _ _ k) H3).
        rewrite (proj1 (createFileEffect_step z _ _ _ k) H2).
        exact (proj1 (createFileEffect_step z _ _ _ k) H1).
      * exact (proj1 (createFileEffect_step z _ _ _ k) H1).
    + rewrite !not_elem_of_app in Hout. destruct Hout as (H1 & H2 & H3 & H4).
      assert (E2 : createFileEffect H z (createFileEffect H z fs p n) p
                     ("prev." ++ n) !! k = fs !! k).
      { rewrite (proj1 (createFileEffect_step z _ _ _ k) H2).
        exact (proj1 (createFileEffect_step z _ _ _ k) H1). }
      destruct showNew.
      * destruct (Fs.written (compareFile H p n) [] _) as [err|fs3] eqn:Ew;
          cbn [fst]; [exact E2|].
        rewrite (proj1 (written_step _ _ _ _ k Ew) H4). exact E2.
      * cbn [fst].
        rewrite (proj1 (createFileEffect_step z _ _ _ k) H3). exact E2.
  - intros q Hq. pose proof (disjointb_spec _ _ q HF Hq) as Hout.
    destruct v as [p n | p n]; cbn [visitEffect visitFiles fst] in *.
    + unfold existingEffect.
      rewrite !not_elem_of_cons in Hout. destruct Hout as (H1 & H2 & H3 & _).
      pose proof (proj2 (createFileEffect_step z fs p n q) H1) as S1.
      destruct (changedFromOutside H _ p); [|exact S1].
      eapply foldersOnly_trans; [exact S1|].
      eapply foldersOnly_trans;
        [exact (proj2 (createFileEffect_step z _ _ _ q) H2)|].
      exact (proj2 (createFileEffect_step z _ _ _ q) H3).
    + rewrite !not_elem_of_cons in Hout.
      destruct Hout as (H1 & H2 & H3 & H4 & _).
      assert (S2 : foldersOnly fs
                     (createFileEffect H z (createFileEffect H z fs p n) p
                        ("prev." ++ n)) q).
      { eapply foldersOnly_trans;
          [exact (proj2 (createFileEffect_step z _ _ _ q) H1)|].
        exact (proj2 (createFileEffect_step z _ _ _ q) H2). }
      destruct showNew.
      * destruct (Fs.written (compareFile H p n) [] _) as [err|fs3] eqn:Ew;
          cbn [fst]; [exact S2|].
        eapply foldersOnly_trans; [exact S2|].
        exact (proj2 (written_step _ _ _ _ q Ew) H4).
      * cbn [fst]. eapply foldersOnly_trans; [exact S2|].
        exact (proj2 (createFileEffect_step z _ _ _ q) H3).
Qed.

(** Visits that leave the part alone, one after the other. *)
Lemma leavesAlone_frames (showNew : bool) (z : JSZip) (e : string)
      (vs : list Visit) :
  Forall (fun v => leavesAlone H e v = true) vs ->
  forall fs,
    let fs' := (visitsEffect H showNew z vs fs).1 in
    (forall k, k ∈ generationFiles H e -> fs' !! k = fs !! k)
    /\ (forall q, q ∈ partFolders H e -> foldersOnly fs fs' q).
Proof.
  induction vs as [|v vs IH]; intros Hall fs; cbv zeta.
  - simpl. split; [reflexivity | intros; apply foldersOnly_refl].
  - apply Forall_cons in Hall as [Hv Hrest]. cbn [visitsEffect].
    destruct (leavesAlone_frame showNew z fs e v Hv) as [K1 F1].
    destruct (visitEffect H showNew z fs v) as [fs1 [err|]]; cbn [fst] in *.
    + split; assumption.
    + destruct (IH Hrest fs1) as [K2 F2]. split.
      * intros k Hk. now rewrite K2, K1.
      * intros q Hq. eapply foldersOnly_trans; [apply F1 | apply F2]; auto.
Qed.

(** The one visit that handles the part, and the visits before and after
    it. *)
Lemma handledOnceBy_split (e : string) (v0 : Visit) (vs : list Visit) :
  handledOnceBy H e v0 vs = true ->
  exists l1 l2,
    vs = l1 ++ v0 :: l2
    /\ Forall (fun v => leavesAlone H e v = true) l1
    /\ Forall (fun v => leavesAlone H e v = true) l2.
Proof.
  unfold handledOnceBy. intros Hh. apply andb_true_iff in Hh as [Hone Hall].
  apply bool_decide_eq_true in Hone. revert Hone Hall.
  induction vs as [|v vs IH]; intros Hone Hall; [discriminate|].
  cbn [forallb] in Hall. apply andb_true_iff in Hall as [Hv Hall].
  rewrite filter_cons in Hone. destruct (decide (v = v0)) as [->|Hne].
  - exists [], vs. split; [reflexivity|]. split; [constructor|].
    simpl in Hone. assert (Hnil : filter (fun v => v = v0) vs = [])
      by (destruct (filter _ vs); [reflexivity | discriminate]).
    apply Forall_forall. intros v Hin.
    rewrite forallb_forall in Hall.
    specialize (Hall v (proj1 (list_elem_of_In _ _) Hin)).
    apply orb_true_iff in Hall as [Hd | Hl]; [|exact Hl].
    apply bool_decide_eq_true in Hd. subst v. exfalso.
    assert (Hv0 : v0 ∈ filter (fun v => v = v0) vs)
      by (apply list_elem_of_filter; now split).
    rewrite Hnil in Hv0. now apply elem_of_nil in Hv0.
  - destruct (IH Hone Hall) as (l1 & l2 & -> & H1 & H2).
    exists (v :: l1), l2. split; [reflexivity|]. split; [|exact H2].
    constructor; [|exact H1].
    apply orb_true_iff in Hv as [Hd | Hl]; [|exact Hl].
    apply bool_decide_eq_true in Hd. contradiction.
Qed.

End VisitFrames.

Section NodeFiles.
Context (H : Host).
Import Path PathShape PathFacts PathAlgebra FsFacts.

Variables (z : JSZip) (e : string) (f : JSZipObject) (m : Bytes)
          (name : string).
Hypothesis Hplain : Forall plain (JS.split "/" e).
Hypothesis Hentry : Zip.file z e = Some f.
Hypothesis Hbytes : materialise H z ∅ e = Some m.
Hypothesis Hattrib : attribFails H = false.
Hypothesis Hname : plain name.

Lemma app_inv_head_str (a b c : string) : (a ++ b = a ++ c)%string -> b = c.
Proof. induction a as [|x a IH]; simpl; [auto|]. intros E. injection E. auto. Qed.

(** The files the walk for [e] writes for a node called [name]: they are
    in the folder of [e], and none of them is that folder or one above
    it. *)
Lemma node_paths :
  let d := folderOf H e in
  d <> ""
  /\ (forall role, role ∈ [""; "prev."; "compare."] ->
        slashFree (role ++ name)
        /\ fileOf H e (role ++ name) = (d ++ "/" ++ role ++ name)%string)
  /\ compareFile H e name = (d ++ "/" ++ "compare." ++ name)%string
  /\ (forall x, (d ++ "/" ++ x)%string ∉ partFolders H e)
  /\ fileOf H e name <> fileOf H e ("prev." ++ name)
  /\ fileOf H e name <> fileOf H e ("compare." ++ name)
  /\ fileOf H e ("prev." ++ name) <> fileOf H e ("compare." ++ name).
Proof.
  cbv zeta.
  destruct (plain_entry_layout H e Hplain) as (_ & _ & Hd & Hfile & _).
  pose proof Hname as (Hsf & Hne & _).
  assert (Hd0 : folderOf H e <> "").
  { destruct Hd as (a & S & HS & Hok & E).
    now destruct (normalPath_facts _ a S HS Hok E). }
  pose proof (prev_plain _ Hsf) as Hp. pose proof (compare_plain _ Hsf) as Hc.
  split; [exact Hd0|]. split.
  { intros role Hrole. rewrite !elem_of_cons in Hrole.
    destruct Hrole as [-> | [-> | [-> | Hr]]];
      [| | | now apply elem_of_nil in Hr].
    - split; [exact Hsf | now apply Hfile].
    - split; [apply Hp | now apply Hfile].
    - split; [apply Hc | now apply Hfile]. }
  split; [rewrite compareFile_fileOf; now apply Hfile|].
  split.
  { intros x Hin. unfold partFolders in Hin.
    apply elem_of_cons in Hin as [E | Hin].
    - apply (f_equal (fun s => length (chars s))) in E.
      rewrite !chars_app, !length_app in E. simpl in E. lia.
    - apply above_spec in Hin as (_ & r & E).
      apply (f_equal (fun s => length (chars s))) in E.
      rewrite !chars_app, !length_app in E. simpl in E. lia. }
  rewrite !Hfile by assumption.
  repeat split; intros E; apply app_inv_head_str in E;
    apply app_inv_head_str in E.
  - apply (f_equal String.length) in E. simpl in E. rewrite append_nil_l in E. lia.
  - apply (f_equal String.length) in E. simpl in E. rewrite append_nil_l in E. lia.
  - discriminate.
Qed.

(** One of the three files of the node is written: it holds the
    materialised bytes in a folder that is there, and elsewhere only
    folders above it were made. *)
Lemma node_file_written (fs : gmap string FsEntry) (role : string) :
  role ∈ [""; "prev."; "compare."] ->
  (forall q, q ∈ partFolders H e ->
             forall b, fs !! q <> Some (RegularFile b)) ->
  fs !! fileOf H e (role ++ name) <> Some Directory ->
  let fs' := createFileEffect H z fs e (role ++ name) in
  fs' !! fileOf H e (role ++ name) = Some (RegularFile m)
  /\ fs' !! folderOf H e = Some Directory
  /\ (forall q, q <> fileOf H e (role ++ name) -> q ∉ partFolders H e ->
                fs' !! q = fs !! q)
  /\ (forall q, q ∈ partFolders H e -> foldersOnly fs fs' q).
Proof.
  intros Hrole HF Hfile. cbv zeta.
  destruct node_paths as (Hd & Hroles & _ & Hout & _).
  destruct (Hroles role Hrole) as [Hxs Hxf]. rewrite Hxf in Hfile |- *.
  destruct (createFileEffect_written H z fs e (role ++ name) f m
              Hentry Hbytes Hattrib Hd Hxs Hxf)
    as (fs1 & E1 & D1 & ->).
  { apply Forall_forall. intros q Hq. apply HF. exact Hq. }
  { exact Hfile. }
  unfold Fs.mkdirp in E1. fold (partFolders H e) in E1.
  assert (Hne : forall q, q ∈ partFolders H e ->
                          q <> (folderOf H e ++ "/" ++ role ++ name)%string).
  { intros q Hq ->. now apply (Hout (role ++ name)%string). }
  split; [apply lookup_insert_eq|]. split.
  { rewrite lookup_insert_ne; [exact D1|]. intros E. symmetry in E.
    revert E. apply Hne. unfold partFolders. now left. }
  split.
  - intros q Hq Hch. rewrite lookup_insert_ne by congruence.
    now apply (mkdirpChain_off _ _ _ _ E1).
  - intros q Hq. unfold foldersOnly.
    rewrite lookup_insert_ne by (intros E; symmetry in E; revert E; now apply Hne).
    destruct (mkdirpChain_lookup _ _ _ E1 q) as [E | (Hn & Hd' & _)];
      [now left | now right].
Qed.

(** The visit that makes a node writes its three files: current and
    previous hold the materialised entry, and the compare file is empty
    on a reload and a third copy on the first load. *)
Lemma new_node_effect (showNew : bool) (fs : gmap string FsEntry) :
  (forall q, q ∈ partFolders H e ->
             forall b, fs !! q <> Some (RegularFile b)) ->
  (forall role, role ∈ [""; "prev."; "compare."] ->
                fs !! fileOf H e (role ++ name) <> Some Directory) ->
  let out := visitEffect H showNew z fs (VisitNew e name) in
  out.2 = None
  /\ out.1 !! fileOf H e name = Some (RegularFile m)
  /\ out.1 !! fileOf H e ("prev." ++ name) = Some (RegularFile m)
  /\ out.1 !! fileOf H e ("compare." ++ name)
     = Some (RegularFile (if showNew then [] else m))
  /\ out.1 !! folderOf H e = Some Directory.
Proof.
  intros HF HK. cbv zeta.
  destruct node_paths as (Hd & Hroles & Ecf & Hout & N12 & N13 & N23).
  assert (R1 : "" ∈ [""; "prev."; "compare."]) by (rewrite !elem_of_cons; auto).
  assert (R2 : "prev." ∈ [""; "prev."; "compare."])
    by (rewrite !elem_of_cons; auto).
  assert (R3 : "compare." ∈ [""; "prev."; "compare."])
    by (rewrite !elem_of_cons; auto).
  assert (Hoff : forall role, role ∈ [""; "prev."; "compare."] ->
                   fileOf H e (role ++ name) ∉ partFolders H e).
  { intros role Hr. destruct (Hroles role Hr) as [_ ->]. apply Hout. }
  pose proof (HK "" R1) as K1. pose proof (HK "prev." R2) as K2.
  pose proof (HK "compare." R3) as K3.
  pose proof (Hoff "" R1) as O1'. pose proof (Hoff "prev." R2) as O2'.
  pose proof (Hoff "compare." R3) as O3'.
  change ("" ++ name)%string with name in *.
  cbn [visitEffect].
  destruct (node_file_written fs "" R1 HF K1) as (A1 & D1 & O1 & C1).
  change ("" ++ name)%string with name in *.
  set (fs1 := createFileEffect H z fs e name) in *.
  destruct (node_file_written fs1 "prev." R2) as (A2 & D2 & O2 & C2).
  { intros q Hq. eapply foldersOnly_no_file; [now apply C1 | now apply HF]. }
  { rewrite O1; [exact K2 | congruence | exact O2']. }
  set (fs2 := createFileEffect H z fs1 e ("prev." ++ name)) in *.
  assert (Hcur2 : fs2 !! fileOf H e name = Some (RegularFile m)).
  { rewrite O2; [exact A1 | exact N12 | exact O1']. }
  assert (Hcmp2 : fs2 !! fileOf H e ("compare." ++ name) <> Some Directory).
  { rewrite O2; [| congruence | exact O3'].
    rewrite O1; [exact K3 | congruence | exact O3']. }
  assert (Hcd : fileOf H e ("compare." ++ name) <> folderOf H e).
  { intros E. apply O3'. rewrite E. unfold partFolders. now left. }
  destruct showNew.
  - rewrite compareFile_fileOf.
    destruct (Hroles "compare." R3) as [Hcs Hcf].
    assert (Ew : Fs.written (fileOf H e ("compare." ++ name)) [] fs2
                 = inr (<[fileOf H e ("compare." ++ name) := RegularFile []]>
                          fs2)).
    { rewrite Hcf in Hcmp2 |- *. now apply written_into. }
    rewrite Ew. cbn [fst snd].
    split; [reflexivity|].
    split; [rewrite lookup_insert_ne by congruence; exact Hcur2|].
    split; [rewrite lookup_insert_ne by congruence; exact A2|].
    split; [apply lookup_insert_eq|].
    rewrite lookup_insert_ne by congruence. exact D2.
  - cbn [fst snd]. split; [reflexivity|].
    destruct (node_file_written fs2 "compare." R3) as (A3 & D3 & O3 & C3).
    { intros q Hq. eapply foldersOnly_no_file; [now apply C2|].
      eapply foldersOnly_no_file; [now apply C1 | now apply HF]. }
    { exact Hcmp2. }
    split; [|split; [|split; [exact A3 | exact D3]]].
    + rewrite O3; [exact Hcur2 | exact N13 | exact O1'].
    + rewrite O3; [exact A2 | exact N23 | exact O2'].
Qed.

End NodeFiles.

Section PartFiles.
Context (H : Host).
Import Path PathShape PathFacts PathAlgebra FsFacts.

Variables (z : JSZip) (e : string) (f : JSZipObject) (m : Bytes).
Hypothesis Hplain : Forall plain (JS.split "/" e).
Hypothesis Hentry : Zip.file z e = Some f.
Hypothesis Hbytes : materialise H z ∅ e = Some m.
Hypothesis Hattrib : attribFails H = false.

Lemma writable_spec (fs : gmap string FsEntry) :
  writable H fs e = true <->
  (forall k, k ∈ generationFiles H e -> fs !! k <> Some Directory)
  /\ (forall q, q ∈ partFolders H e ->
                forall b, fs !! q <> Some (RegularFile b)).
Proof.
  unfold writable. rewrite andb_true_iff, !forallb_forall. split.
  - intros [HK HF]. split.
    + intros k Hk Hd. apply list_elem_of_In in Hk. specialize (HK k Hk).
      apply negb_true_iff, bool_decide_eq_false in HK. contradiction.
    + intros q Hq b Hb. apply list_elem_of_In in Hq. specialize (HF q Hq).
      rewrite Hb in HF. discriminate.
  - intros [HK HF]. split.
    + intros k Hk. apply negb_true_iff, bool_decide_eq_false.
      apply HK. now apply list_elem_of_In.
    + intros q Hq. apply list_elem_of_In in Hq. specialize (HF q Hq).
      destruct (fs !! q) as [[b|]|]; [now destruct (HF b) | reflexivity..].
Qed.

(** The folder of the part, its three files and the folders above them. *)
Lemma part_paths :
  let name := partName e in
  let d := folderOf H e in
  d <> "" /\ plain name
  /\ (forall role, generationFile H role e = (d ++ "/" ++ role ++ name)%string)
  /\ fileOf H e name = generationFile H "" e
  /\ fileOf H e ("prev." ++ name) = generationFile H "prev." e
  /\ fileOf H e ("compare." ++ name) = generationFile H "compare." e
  /\ fileOf H (_getPrevFilePath e) ("compare." ++ name)
     = generationFile H "compare." e
  /\ compareFile H e name = generationFile H "compare." e
  /\ currentFile H e = generationFile H "" e
  /\ previousFile H e = generationFile H "prev." e
  /\ (forall k, k ∈ generationFiles H e -> k ∉ partFolders H e).
Proof.
  cbv zeta.
  destruct (plain_entry_layout H e Hplain)
    as (Hname & _ & Hd & Hfile & Hgen & Hdir & Hcur & Hprev).
  pose proof Hname as (Hsf & Hne & _).
  assert (Hd0 : folderOf H e <> "").
  { destruct Hd as (a & S & HS & Hok & E).
    now destruct (normalPath_facts _ a S HS Hok E). }
  pose proof (prev_plain _ Hsf) as Hp. pose proof (compare_plain _ Hsf) as Hc.
  split; [exact Hd0|]. split; [exact Hname|]. split; [exact Hgen|].
  rewrite !Hgen.
  split; [now rewrite Hfile|]. split; [now rewrite Hfile|].
  split; [now rewrite Hfile|].
  split.
  { unfold fileOf at 1, folderOf at 1. rewrite Hdir.
    fold (folderOf H e). fold (fileOf H e ("compare." ++ partName e)).
    now rewrite Hfile. }
  split; [rewrite compareFile_fileOf; now rewrite Hfile|].
  split; [exact Hcur|]. split; [exact Hprev|].
  intros k Hk Hin. unfold generationFiles in Hk. rewrite !Hgen in Hk.
  assert (Hshape : exists x, k = (folderOf H e ++ "/" ++ x)%string).
  { rewrite !elem_of_cons in Hk.
    destruct Hk as [-> | [-> | [-> | Hk]]];
      [eexists; reflexivity.. | now apply elem_of_nil in Hk]. }
  destruct Hshape as [x ->]. unfold partFolders in Hin.
  apply elem_of_cons in Hin as [E | Hin].
  - apply (f_equal (fun s => length (chars s))) in E.
    rewrite !chars_app, !length_app in E. simpl in E. lia.
  - apply above_spec in Hin as (_ & r & E).
    apply (f_equal (fun s => length (chars s))) in E.
    rewrite !chars_app, !length_app in E. simpl in E. lia.
Qed.

Lemma part_files_distinct :
  generationFile H "" e <> generationFile H "prev." e
  /\ generationFile H "" e <> generationFile H "compare." e
  /\ generationFile H "prev." e <> generationFile H "compare." e.
Proof.
  destruct part_paths as (_ & _ & Hgen & _). rewrite !Hgen.
  repeat split; intros E; apply app_inv_head_str in E;
    apply app_inv_head_str in E.
  - apply (f_equal String.length) in E. simpl in E. lia.
  - apply (f_equal String.length) in E. simpl in E. lia.
  - discriminate.
Qed.

Lemma role_in_files (role : string) :
  role ∈ [""; "prev."; "compare."] ->
  generationFile H role e ∈ generationFiles H e.
Proof.
  intros Hr. unfold generationFiles. rewrite !elem_of_cons in Hr.
  destruct Hr as [-> | [-> | [-> | Hr]]];
    [| | | now apply elem_of_nil in Hr]; rewrite !elem_of_cons; auto.
Qed.

(** One of the three files of the part is written: it holds the
    materialised bytes in a folder that is there, and elsewhere only
    folders above it were made. *)
Lemma part_file_written (fs : gmap string FsEntry) (role : string) :
  role ∈ [""; "prev."; "compare."] ->
  (forall q, q ∈ partFolders H e ->
             forall b, fs !! q <> Some (RegularFile b)) ->
  fs !! generationFile H role e <> Some Directory ->
  let fs' := createFileEffect H z fs e (role ++ partName e) in
  fs' !! generationFile H role e = Some (RegularFile m)
  /\ fs' !! folderOf H e = Some Directory
  /\ (forall q, q <> generationFile H role e -> q ∉ partFolders H e ->
                fs' !! q = fs !! q)
  /\ (forall q, q ∈ partFolders H e -> foldersOnly fs fs' q).
Proof.
  intros Hrole HF Hfile. cbv zeta.
  destruct part_paths as (_ & Hname & Hgen & _).
  destruct (node_paths H e (partName e) Hplain Hname) as (_ & Hroles & _).
  destruct (Hroles role Hrole) as [_ Hxf].
  rewrite Hgen, <- Hxf in Hfile |- *.
  exact (node_file_written H z e f m (partName e) Hplain Hentry Hbytes Hattrib
           Hname fs role Hrole HF Hfile).
Qed.

(** The visit that makes the node of the part writes its three files. *)
Lemma new_part_effect (showNew : bool) (fs : gmap string FsEntry) :
  writable H fs e = true ->
  let out := visitEffect H showNew z fs (VisitNew e (partName e)) in
  out.2 = None
  /\ out.1 !! generationFile H "" e = Some (RegularFile m)
  /\ out.1 !! generationFile H "prev." e = Some (RegularFile m)
  /\ out.1 !! generationFile H "compare." e
     = Some (RegularFile (if showNew then [] else m))
  /\ out.1 !! folderOf H e = Some Directory.
Proof.
  intros Hw. apply writable_spec in Hw as [HK HF]. cbv zeta.
  destruct part_paths as (_ & Hname & _ & Ecur & Eprev & Ecmp & _).
  rewrite <- Ecur, <- Eprev, <- Ecmp.
  apply (new_node_effect H z e f m (partName e) Hplain Hentry Hbytes Hattrib
           Hname showNew fs HF).
  intros role Hrole. rewrite !elem_of_cons in Hrole.
  destruct Hrole as [-> | [-> | [-> | Hr]]];
    [| | | now apply elem_of_nil in Hr].
  - change ("" ++ partName e)%string with (partName e). rewrite Ecur.
    apply HK. apply role_in_files. rewrite !elem_of_cons; auto.
  - rewrite Eprev. apply HK. apply role_in_files. rewrite !elem_of_cons; auto.
  - rewrite Ecmp. apply HK. apply role_in_files. rewrite !elem_of_cons; auto.
Qed.

(** The visit of the node of the part materialises the current file again
    and brings the previous file in step when it differed. *)
Lemma existing_part_effect (fs : gmap string FsEntry) :
  writable H fs e = true ->
  let fs' := existingEffect H z fs e (partName e) in
  settled H fs' e m
  /\ (fs !! generationFile H "prev." e = Some (RegularFile m) ->
      fs' !! generationFile H "prev." e = fs !! generationFile H "prev." e
      /\ fs' !! generationFile H "compare." e
         = fs !! generationFile H "compare." e).
Proof.
  intros Hw. apply writable_spec in Hw as [HK HF]. cbv zeta.
  destruct part_paths
    as (Hd & Hname & Hgen & _ & _ & _ & Ecp & _ & Ecur & Eprev & Hout).
  destruct part_files_distinct as (N12 & N13 & N23).
  assert (Rc : generationFile H "" e ∈ generationFiles H e)
    by (apply role_in_files; rewrite !elem_of_cons; auto).
  assert (Rp : generationFile H "prev." e ∈ generationFiles H e)
    by (apply role_in_files; rewrite !elem_of_cons; auto).
  assert (Rm : generationFile H "compare." e ∈ generationFiles H e)
    by (apply role_in_files; rewrite !elem_of_cons; auto).
  unfold existingEffect, settled.
  destruct (part_file_written fs "") as (A1 & D1 & O1 & C1);
    [rewrite !elem_of_cons; auto | exact HF | now apply HK |].
  change ("" ++ partName e)%string with (partName e) in *.
  set (fs1 := createFileEffect H z fs e (partName e)) in *.
  assert (P1 : fs1 !! generationFile H "prev." e
               = fs !! generationFile H "prev." e)
    by (apply O1; [congruence | now apply Hout]).
  assert (M1 : fs1 !! generationFile H "compare." e
               = fs !! generationFile H "compare." e)
    by (apply O1; [congruence | now apply Hout]).
  unfold changedFromOutside. rewrite Ecur, Eprev, A1, P1.
  destruct (fs !! generationFile H "prev." e) as [[b|]|] eqn:Ep.
  - destruct (decide (m = b)) as [<-|Hne].
    + rewrite bool_decide_eq_true_2 by reflexivity. cbn [negb].
      rewrite A1, P1, M1, D1. auto.
    + rewrite bool_decide_eq_false_2 by exact Hne. cbn [negb].
      set (fs2 := createFileEffect H z fs1 (_getPrevFilePath e)
                    ("compare." ++ partName e)).
      assert (S2 : forall q, q <> generationFile H "compare." e ->
                             foldersOnly fs1 fs2 q).
      { intros q Hq. apply createFileEffect_off_file. now rewrite Ecp. }
      destruct (part_file_written fs2 "prev.") as (A3 & D3 & O3 & C3).
      { rewrite !elem_of_cons; auto. }
      { intros q Hq. eapply foldersOnly_no_file.
        - apply S2. intros ->. now apply (Hout _ Rm).
        - eapply foldersOnly_no_file; [now apply C1 | now apply HF]. }
      { destruct (S2 (generationFile H "prev." e) N23) as [E | [N _]];
          [rewrite E, P1; discriminate | congruence]. }
      split; [|intros E; congruence].
      split; [|split; [left; exact A3 | exact D3]].
      rewrite O3; [| exact N12 | now apply Hout].
      destruct (S2 (generationFile H "" e) N13) as [E | [N _]]; congruence.
  - cbn [negb]. rewrite A1, P1, D1. split; [|discriminate].
    split; [reflexivity|]. split; [right; discriminate | reflexivity].
  - rewrite A1, P1, D1. split; [|discriminate].
    split; [reflexivity|]. split; [right; discriminate | reflexivity].
Qed.


Lemma settled_transfer (fs fs' : gmap string FsEntry) :
  (forall k, k ∈ generationFiles H e -> fs' !! k = fs !! k) ->
  fs' !! folderOf H e = Some Directory ->
  settled H fs e m -> settled H fs' e m.
Proof.
  intros HK Hd (Hcur & Hprev & _). unfold settled.
  rewrite !HK by (apply role_in_files; rewrite !elem_of_cons; auto).
  auto.
Qed.

(** The visits of a pass that ran to its end, for a part that one of them
    handles. *)
Lemma part_handled (showNew : bool) (v0 : Visit) (vs : list Visit)
      (fs fs' : gmap string FsEntry) :
  v0 = VisitExisting e (partName e) \/ v0 = VisitNew e (partName e) ->
  handledOnceBy H e v0 vs = true ->
  writable H fs e = true ->
  visitsEffect H showNew z vs fs = (fs', None) ->
  settled H fs' e m
  /\ (v0 = VisitNew e (partName e) ->
      fs' !! generationFile H "prev." e = Some (RegularFile m)
      /\ fs' !! generationFile H "compare." e
         = Some (RegularFile (if showNew then [] else m)))
  /\ (v0 = VisitExisting e (partName e) ->
      fs !! generationFile H "prev." e = Some (RegularFile m) ->
      fs' !! generationFile H "prev." e = fs !! generationFile H "prev." e
      /\ fs' !! generationFile H "compare." e
         = fs !! generationFile H "compare." e).
Proof.
  intros Hv0 Hh Hw Hrun.
  destruct (handledOnceBy_split H e v0 vs Hh) as (l1 & l2 & -> & H1 & H2).
  rewrite visitsEffect_app in Hrun.
  destruct (leavesAlone_frames H showNew z e l1 H1 fs) as [K1 F1].
  destruct (visitsEffect H showNew z l1 fs) as [fsa [err|]];
    [discriminate|]. cbn [fst] in K1, F1.
  assert (Hwa : writable H fsa e = true).
  { apply writable_spec in Hw as [HK HF]. apply writable_spec. split.
    - intros k Hk. rewrite K1 by exact Hk. now apply HK.
    - intros q Hq. eapply foldersOnly_no_file; [now apply F1 | now apply HF]. }
  assert (Rp : generationFile H "prev." e ∈ generationFiles H e)
    by (apply role_in_files; rewrite !elem_of_cons; auto).
  assert (Rm : generationFile H "compare." e ∈ generationFiles H e)
    by (apply role_in_files; rewrite !elem_of_cons; auto).
  assert (Hdin : folderOf H e ∈ partFolders H e)
    by (unfold partFolders; now left).
  cbn [visitsEffect] in Hrun.
  destruct Hv0 as [-> | ->].
  - cbn [visitEffect] in Hrun.
    destruct (existing_part_effect fsa Hwa) as [Hs Hsame].
    set (fsb := existingEffect H z fsa e (partName e)) in *.
    destruct (leavesAlone_frames H showNew z e l2 H2 fsb) as [K2 F2].
    rewrite Hrun in K2, F2. cbn [fst] in K2, F2.
    assert (Hd' : fs' !! folderOf H e = Some Directory).
    { eapply foldersOnly_folder; [now apply F2 | apply Hs]. }
    split; [now apply (settled_transfer fsb)|].
    split; [discriminate|]. intros _ Hp.
    rewrite !K2 by assumption. rewrite <- !K1 by assumption.
    apply Hsame. now rewrite K1.
  - destruct (new_part_effect showNew fsa Hwa) as (Ho & A & B & C & D).
    destruct (visitEffect H showNew z fsa (VisitNew e (partName e)))
      as [fsb o]. cbn [fst snd] in *. subst o.
    destruct (leavesAlone_frames H showNew z e l2 H2 fsb) as [K2 F2].
    rewrite Hrun in K2, F2. cbn [fst] in K2, F2.
    assert (Hd' : fs' !! folderOf H e = Some Directory).
    { eapply foldersOnly_folder; [now apply F2 | exact D]. }
    split; [apply (settled_transfer fsb); auto; repeat split; auto|].
    split; [|discriminate]. intros _.
    rewrite !K2 by assumption. auto.
Qed.


End PartFiles.

(** ** A part through the first load and through reloads *)

Section Passes.
Context (H : Host).
Import Path PathShape PathFacts PathAlgebra FsFacts.

Lemma under_deeper_file (p dd x : string) :
  Fs.under p dd = true -> Fs.under p (dd ++ "/" ++ x) = true.
Proof.
  rewrite !under_spec. intros [-> | [b ->]]; right.
  - now exists x.
  - exists (b ++ "/" ++ x)%string. now rewrite !string_app_assoc.
Qed.

(** What the removal spares of a file it spares of the folder the file is
    in. *)
Lemma sparesPath_folder (z : JSZip) (dd x : string) (n : FileNode) :
  sparesPath H z (dd ++ "/" ++ x) n = true -> sparesPath H z dd n = true.
Proof.
  unfold sparesPath. intros Hs. apply orb_true_iff in Hs as [Hi | Hs];
    [now rewrite Hi|].
  apply orb_true_iff. right.
  apply andb_true_iff in Hs as [Hs H3]. apply andb_true_iff in Hs as [H1 H2].
  assert (Hnot : forall p, negb (Fs.under p (dd ++ "/" ++ x)) = true ->
                           negb (Fs.under p dd) = true).
  { intros p Hp. destruct (Fs.under p dd) eqn:E; [|reflexivity].
    now rewrite (under_deeper_file p dd x E) in Hp. }
  now rewrite (Hnot _ H1), (Hnot _ H2), (Hnot _ H3).
Qed.

Lemma sparedAt_paths (z : JSZip) (e : string) (t : FileNode) :
  Forall plain (JS.split "/" e) ->
  allBelow (sparedAt H z e) t = true ->
  (forall k, k ∈ generationFiles H e ->
             allBelow (sparesPath H z k) t = true)
  /\ allBelow (sparesPath H z (folderOf H e)) t = true.
Proof.
  intros Hplain Hall.
  assert (HK : forall k, k ∈ generationFiles H e ->
                         allBelow (sparesPath H z k) t = true).
  { intros k Hk. apply (allBelow_mono (sparedAt H z e)); [|exact Hall].
    intros c Hc. unfold sparedAt in Hc. rewrite forallb_forall in Hc.
    apply Hc. now apply list_elem_of_In. }
  split; [exact HK|].
  destruct (part_paths H e Hplain) as (_ & _ & Hgen & _).
  apply (allBelow_mono (sparesPath H z (generationFile H "" e))).
  - intros c Hc. rewrite Hgen in Hc. now apply sparesPath_folder in Hc.
  - apply HK. unfold generationFiles. now left.
Qed.

(** A reload of a package that can be read and decoded is the pass over
    its entries. *)
Lemma reload_starts (filePath : string) (pkg : Bytes) (z : JSZip) (w : World) :
  files w !! filePath = Some (RegularFile pkg) ->
  loadAsync H pkg = Some z ->
  exists w0,
    _reloadOoxmlFile H filePath w = _populateOOXMLViewer H z true w0
    /\ files w0 = files w /\ zip w0 = z
    /\ rootFileNode w0 = rootFileNode w.
Proof.
  intros Hfile Hload. unfold _reloadOoxmlFile, Fs.readFile.
  rewrite bind_run, bind_run. cbn [modify]. rewrite bind_run. cbn [gets].
  change (files (logCall (CallReadFile filePath) w)) with (files w).
  rewrite Hfile. cbn [mret M_ret ret]. rewrite Hload.
  rewrite bind_run. cbn [modify]. rewrite bind_run. cbn [gets].
  eexists. split; [reflexivity|]. repeat split.
Qed.

(** The first load of a package that can be read and decoded is the reset,
    the pass over its entries from the empty tree, and the making of the
    cache folder. *)
Lemma viewContents_starts (fsPath : string) (pkg : Bytes) (z : JSZip)
      (w : World) :
  files w !! fsPath = Some (RegularFile pkg) ->
  Fs.under (fileCachePath H) fsPath = false ->
  loadAsync H pkg = Some z ->
  exists w0 w1,
    zip w0 = z /\ rootFileNode w0 = newFileNode
    /\ (forall p, files w0 !! p = files w !! p \/ files w0 !! p = None)
    /\ _populateOOXMLViewer H z false w0 = (Ok tt, w1)
    /\ viewContents H fsPath w
       = tryCatch (Fs.createDirectory (fileCachePath H)) consoleError w1.
Proof.
  intros Hfile Hout Hload.
  unfold viewContents, _resetOOXMLViewer, Fs.existsSync, Fs.rimraf,
    Fs.readFile.
  unfold_io. simpl.
  destruct (files w !! fileCachePath H) as [x|] eqn:Ec; simpl.
  - rewrite removeTree_lookup, Hout, Hfile. simpl. rewrite Hload. simpl.
    match goal with
    | |- context [_populateOOXMLViewer H z false ?w0] =>
        destruct (first_load_completes H z w0) as (w1 & E);
        exists w0, w1
    end.
    rewrite E. repeat split. intros p. simpl. rewrite removeTree_lookup.
    destruct (Fs.under _ p); auto.
  - rewrite Hfile. simpl. rewrite Hload. simpl.
    match goal with
    | |- context [_populateOOXMLViewer H z false ?w0] =>
        destruct (first_load_completes H z w0) as (w1 & E);
        exists w0, w1
    end.
    rewrite E. repeat split. intros p. now left.
Qed.

(** The making of the cache folder at the end of the first load makes
    folders only. *)
Lemma cache_folder_made (w1 : World) :
  exists w',
    tryCatch (Fs.createDirectory (fileCachePath H)) consoleError w1
    = (Ok tt, w')
    /\ zip w' = zip w1 /\ rootFileNode w' = rootFileNode w1
    /\ ooxmlFilePath w' = ooxmlFilePath w1
    /\ forall q, foldersOnly (files w1) (files w') q.
Proof.
  unfold tryCatch, Fs.createDirectory, consoleError. unfold_io. simpl.
  destruct (Fs.mkdirp (fileCachePath H) (files w1)) as [err|fs'] eqn:E; simpl.
  - eexists. split; [reflexivity|]. repeat split. intros q. now left.
  - eexists. split; [reflexivity|]. repeat split. intros q. simpl.
    destruct (mkdirpChain_lookup _ _ _ E q) as [E' | (Hn & Hd & _)];
      [now left | now right].
Qed.

Section OnePart.

Variables (z : JSZip) (e : string) (f : JSZipObject) (m : Bytes).
Hypothesis Hplain : Forall plain (JS.split "/" e).
Hypothesis Hentry : Zip.file z e = Some f.
Hypothesis Hbytes : materialise H z ∅ e = Some m.
Hypothesis Hattrib : attribFails H = false.

(** A reload that ran to its end, for a part that one of its visits
    handles. *)
Lemma reload_settles (filePath : string) (pkg : Bytes) (v0 : Visit)
      (w w1 : World) :
  files w !! filePath = Some (RegularFile pkg) ->
  loadAsync H pkg = Some z ->
  writable H (files w) e = true ->
  v0 = VisitExisting e (partName e) \/ v0 = VisitNew e (partName e) ->
  handledBy H z (rootFileNode w) e v0 = true ->
  _reloadOoxmlFile H filePath w = (Ok tt, w1) ->
  zip w1 = z
  /\ settled H (files w1) e m
  /\ (v0 = VisitNew e (partName e) ->
      files w1 !! generationFile H "prev." e = Some (RegularFile m)
      /\ files w1 !! generationFile H "compare." e = Some (RegularFile []))
  /\ (v0 = VisitExisting e (partName e) ->
      files w !! generationFile H "prev." e = Some (RegularFile m) ->
      files w1 !! generationFile H "prev." e
      = files w !! generationFile H "prev." e
      /\ files w1 !! generationFile H "compare." e
         = files w !! generationFile H "compare." e).
Proof.
  intros Hfile Hload Hw Hv0 Hh Hrun.
  destruct (reload_starts filePath pkg z w Hfile Hload)
    as (w0 & E0 & F0 & Z0 & T0).
  rewrite E0 in Hrun.
  destruct (populate_visits H z true w0) as (r & w' & E & Z & Hout).
  rewrite Hrun in E. injection E as <- <-.
  rewrite Z0, F0, T0 in Hout.
  unfold handledBy in Hh. apply andb_true_iff in Hh as [Hone Hsp].
  destruct (sparedAt_paths z e _ Hplain Hsp) as [SK Sd].
  destruct (visitsEffect H true z
              (passVisits z (Zip.keys z) (rootFileNode w)) (files w))
    as [fs1 [err|]] eqn:Ev; cbn [fst snd] in Hout;
    [destruct Hout; discriminate|].
  destruct Hout as [_ Hq].
  destruct (part_handled H z e f m Hplain Hentry Hbytes Hattrib true v0 _ _ _
              Hv0 Hone Hw Ev) as (Hs & Hnew & Hold).
  assert (HK : forall k, k ∈ generationFiles H e ->
                         files w1 !! k = fs1 !! k).
  { intros k Hk. apply Hq. intros _. now apply SK. }
  assert (Rp : generationFile H "prev." e ∈ generationFiles H e)
    by (apply role_in_files; rewrite !elem_of_cons; auto).
  assert (Rm : generationFile H "compare." e ∈ generationFiles H e)
    by (apply role_in_files; rewrite !elem_of_cons; auto).
  split; [congruence|]. split.
  { apply (settled_transfer H e m fs1); auto.
    rewrite Hq by (intros _; exact Sd). apply Hs. }
  rewrite !HK by assumption. split; assumption.
Qed.

(** The first load, for a part that one of its visits handles: the three
    files hold the materialised bytes. *)
Lemma first_load_settles (fsPath : string) (pkg : Bytes) (w : World) :
  files w !! fsPath = Some (RegularFile pkg) ->
  Fs.under (fileCachePath H) fsPath = false ->
  loadAsync H pkg = Some z ->
  writable H (files w) e = true ->
  handledOnceBy H e (VisitNew e (partName e))
                (passVisits z (Zip.keys z) newFileNode) = true ->
  let w1 := exec (viewContents H fsPath) w in
  zip w1 = z
  /\ settled H (files w1) e m
  /\ files w1 !! generationFile H "prev." e = Some (RegularFile m)
  /\ files w1 !! generationFile H "compare." e = Some (RegularFile m).
Proof.
  intros Hfile Hunder Hload Hw Hone. cbv zeta.
  destruct (viewContents_starts fsPath pkg z w Hfile Hunder Hload)
    as (w0 & w1 & Z0 & T0 & F0 & Epop & Eview).
  destruct (cache_folder_made w1) as (w2 & E2 & Z2 & _ & _ & F2).
  unfold exec. rewrite Eview, E2. cbn [snd].
  destruct (populate_visits H z false w0) as (r & w' & E & Z & Hout).
  rewrite Epop in E. injection E as <- <-.
  rewrite Z0, T0 in Hout.
  assert (Hw0 : writable H (files w0) e = true).
  { apply writable_spec in Hw as [HK HF]. apply writable_spec. split.
    - intros k Hk. destruct (F0 k) as [-> | ->]; [now apply HK | discriminate].
    - intros q Hq b. destruct (F0 q) as [-> | ->];
        [now apply HF | discriminate]. }
  destruct (visitsEffect H false z
              (passVisits z (Zip.keys z) newFileNode) (files w0))
    as [fs1 [err|]] eqn:Ev; cbn [fst snd] in Hout;
    [destruct Hout; discriminate|].
  destruct Hout as [_ Hq].
  destruct (part_handled H z e f m Hplain Hentry Hbytes Hattrib false
              (VisitNew e (partName e)) _ _ _ (or_intror eq_refl) Hone Hw0 Ev)
    as ((Hcur & _ & Hdir) & Hnew & _).
  destruct (Hnew eq_refl) as [Hprev Hcmp].
  assert (Hkeep : forall q x, fs1 !! q = Some x -> files w2 !! q = Some x).
  { intros q x Hx. rewrite <- Hq in Hx by discriminate.
    destruct (F2 q) as [Eq | [N _]]; congruence. }
  split; [congruence|]. split; [|split; now apply Hkeep].
  split; [now apply Hkeep|]. split; [left; now apply Hkeep|].
  now apply Hkeep.
Qed.


End OnePart.

(** C3, as the code has it, for a whole pass and a part whose path is made
    of plain segments, whose files can be written, which the pass handles
    by one visit, and whose three files no other step of the pass touches.
    After a reload that ran to its end: when the node of the part was in
    the tree and the previous file held what the entry materialises to (so
    that the detector finds no change), the current file is byte-identical
    to the previous file, and the previous and compare files are as they
    were; when the part is first seen, current and previous hold the
    materialised entry and the compare file is empty.  After the first
    load, current, previous and compare are three copies of the
    materialised entry: the compare file is not empty then. *)
Theorem unchanged_part_after_a_pass
    (z : JSZip) (e : string) (f : JSZipObject) (m : Bytes)
    (filePath : string) (pkg : Bytes) :
  Forall plain (JS.split "/" e) ->
  Zip.file z e = Some f ->
  materialise H z ∅ e = Some m ->
  attribFails H = false ->
  loadAsync H pkg = Some z ->
  let current := generationFile H "" e in
  let previous := generationFile H "prev." e in
  let compare := generationFile H "compare." e in
  (forall w w',
      files w !! filePath = Some (RegularFile pkg) ->
      writable H (files w) e = true ->
      handledBy H z (rootFileNode w) e (VisitExisting e (partName e)) = true ->
      files w !! previous = Some (RegularFile m) ->
      _reloadOoxmlFile H filePath w = (Ok tt, w') ->
      files w' !! current = files w' !! previous
      /\ files w' !! current = Some (RegularFile m)
      /\ files w' !! previous = files w !! previous
      /\ files w' !! compare = files w !! compare)
  /\ (forall w w',
      files w !! filePath = Some (RegularFile pkg) ->
      writable H (files w) e = true ->
      handledBy H z (rootFileNode w) e (VisitNew e (partName e)) = true ->
      _reloadOoxmlFile H filePath w = (Ok tt, w') ->
      files w' !! current = Some (RegularFile m)
      /\ files w' !! previous = Some (RegularFile m)
      /\ files w' !! compare = Some (RegularFile []))
  /\ (forall w,
      files w !! filePath = Some (RegularFile pkg) ->
      Fs.under (fileCachePath H) filePath = false ->
      writable H (files w) e = true ->
      handledOnceBy H e (VisitNew e (partName e))
                    (passVisits z (Zip.keys z) newFileNode) = true ->
      let w' := exec (viewContents H filePath) w in
      files w' !! current = Some (RegularFile m)
      /\ files w' !! previous = Some (RegularFile m)
      /\ files w' !! compare = Some (RegularFile m)).
Proof.
  intros Hplain Hentry Hbytes Hattrib Hload. cbv zeta.
  split; [|split].
  - intros w w' Hfile Hw Hh Hprev Hrun.
    destruct (reload_settles z e f m Hplain Hentry Hbytes Hattrib filePath pkg
                _ w w' Hfile Hload Hw (or_introl eq_refl) Hh Hrun)
      as (_ & (Hcur & _) & _ & Hold).
    destruct (Hold eq_refl Hprev) as [Ep Ec].
    rewrite Ep, Ec, Hcur, Hprev. auto.
  - intros w w' Hfile Hw Hh Hrun.
    destruct (reload_settles z e f m Hplain Hentry Hbytes Hattrib filePath pkg
                _ w w' Hfile Hload Hw (or_intror eq_refl) Hh Hrun)
      as (_ & (Hcur & _) & Hnew & _).
    destruct (Hnew eq_refl) as [Ep Ec]. auto.
  - intros w Hfile Hunder Hw Hone.
    destruct (first_load_settles z e f m Hplain Hentry Hbytes Hattrib filePath
                pkg w Hfile Hunder Hload Hw Hone)
      as (_ & (Hcur & _) & Hp & Hc).
    auto.
Qed.


End Passes.

(** ** Failures during a pass *)

Section Failures.
Context (H : Host).

(** C10, as the code has it, failure by failure.  A reload whose package
    cannot be read or decoded ends with the error before the zip, the tree
    or any file is touched.  The first load of such a package is another
    matter: the viewer is reset before the package is read, so the
    load returns normally with an empty zip and an empty tree, and the
    cache of the package shown before is gone.  An I/O error while a cache
    file is materialised never ends a pass: [_createFile] catches it and
    returns normally, so that the pass of the first load always runs to
    its end and builds the whole tree.  The one step that can end a pass is
    the write of the empty compare file of a part first seen on a reload:
    the reload then ends with the error of that write, and the files are
    as the visits before it and the first two files of that part left
    them. *)
Theorem io_errors_during_a_pass :
  (forall (filePath : string) (w : World),
      (forall b, files w !! filePath = Some (RegularFile b) ->
                 loadAsync H b = None) ->
      let r := _reloadOoxmlFile H filePath w in
      (exists e, r.1 = Throw e)
      /\ files r.2 = files w /\ zip r.2 = zip w
      /\ rootFileNode r.2 = rootFileNode w)
  /\ (forall (fsPath : string) (w : World),
      folderHoldsItsFiles (fileCachePath H) (files w) ->
      (forall b, files w !! fsPath = Some (RegularFile b) ->
                 loadAsync H b = None) ->
      let r := viewContents H fsPath w in
      r.1 = Ok tt
      /\ zip r.2 = [] /\ rootFileNode r.2 = newFileNode
      /\ forall p, files r.2 !! p
                   = if Fs.under (fileCachePath H) p then None
                     else files w !! p)
  /\ (forall (fullPath fileName : string) (w : World),
      exists w1, _createFile H fullPath fileName w = (Ok tt, w1))
  /\ (forall (z : JSZip) (w : World),
      exists w',
        _populateOOXMLViewer H z false w = (Ok tt, w')
        /\ eraseIcons (rootFileNode w')
           = insertParts z (eraseIcons (rootFileNode w)))
  /\ (forall (filePath : string) (pkg : Bytes) (z : JSZip) (w w' : World)
             (err : Err),
      files w !! filePath = Some (RegularFile pkg) ->
      loadAsync H pkg = Some z ->
      _reloadOoxmlFile H filePath w = (Throw err, w') ->
      exists l1 p n l2 fs,
        passVisits z (Zip.keys z) (rootFileNode w) = l1 ++ VisitNew p n :: l2
        /\ visitsEffect H true z l1 (files w) = (fs, None)
        /\ files w'
           = createFileEffect H z (createFileEffect H z fs p n) p
               ("prev." ++ n)
        /\ Fs.written (compareFile H p n) [] (files w') = inl err).
Proof.
  split; [|split; [|split; [|split]]].
  - intros filePath w Hbad. unfold _reloadOoxmlFile, Fs.readFile.
    unfold_io. simpl.
    destruct (files w !! filePath) as [[b|]|] eqn:E; simpl.
    + rewrite (Hbad b eq_refl). simpl. repeat split; eauto.
    + repeat split; eauto.
    + repeat split; eauto.
  - intros fsPath w Hwf Hbad.
    destruct (unreadable_first_load H fsPath w Hwf Hbad)
      as (Hr & Hz & Ht & _ & Hf & _).
    cbv zeta. auto.
  - intros fullPath fileName w.
    destruct (createFile_run H fullPath fileName w) as (w1 & E & _).
    now exists w1.
  - intros z w. destruct (first_load_completes H z w) as (w' & E).
    exists w'. split; [exact E|].
    pose proof (first_load_tree H z w) as T. unfold exec in T.
    now rewrite E in T.
  - intros filePath pkg z w w' err Hfile Hload Hrun.
    destruct (reload_starts H filePath pkg z w Hfile Hload)
      as (w0 & E0 & F0 & Z0 & T0).
    rewrite E0 in Hrun.
    destruct (populate_visits H z true w0) as (r & w1 & E & Z & Hout).
    rewrite Hrun in E. injection E as <- <-.
    rewrite Z0, F0, T0 in Hout.
    destruct (visitsEffect H true z
                (passVisits z (Zip.keys z) (rootFileNode w)) (files w))
      as [fs1 [err1|]] eqn:Ev; cbn [fst snd] in Hout.
    + destruct Hout as [Herr Hfs]. injection Herr as ->.
      destruct (visitsEffect_fails H true z _ _ _ _ Ev)
        as (_ & l1 & p & n & l2 & fsa & Evs & E1 & Efs & Ew).
      exists l1, p, n, l2, fsa. rewrite Hfs.
      split; [exact Evs|]. split; [exact E1|]. split; [exact Efs | exact Ew].
    + destruct Hout as [Hok _]. discriminate.
Qed.

End Failures.

(** ** Further properties of the steps of a pass *)

Section CreateFileEdges.
Context (H : Host).

Lemma preserves_bind {A B} (Inv : World -> Prop) (m : M A) (k : A -> M B) :
  preserves Inv m -> (forall a, preserves Inv (k a)) ->
  preserves Inv (m ≫= k).
Proof.
  intros Hm Hk w Hw. rewrite bind_run. specialize (Hm w Hw).
  destruct (m w) as [[a|e] w1]; simpl in *; [now apply Hk | assumption].
Qed.

Lemma preserves_ret {A} (Inv : World -> Prop) (a : A) : preserves Inv (mret a).
Proof. intros w Hw. exact Hw. Qed.

(** *** The pass of the first load, step by step *)

Section Invariant.
Context (Inv : World -> Prop).
Hypothesis Hcreate : forall p n, preserves Inv (_createFile H p n).
Hypothesis Hdetect :
  forall p, preserves Inv (_fileHasBeenChangedFromOutside H p).
Hypothesis Htree : forall r w, Inv w -> Inv (setRootFileNode r w).

Lemma preserves_updateTree (ref : list nat) (f : FileNode -> FileNode) :
  preserves Inv (updateTree ref f).
Proof. intros w Hw. now apply Htree. Qed.

Lemma preserves_node (ref : list nat) : preserves Inv (node ref).
Proof. intros w Hw. exact Hw. Qed.

Lemma preserves_visitExisting (ref : list nat) :
  preserves Inv (visitExisting H ref).
Proof.
  unfold visitExisting.
  apply preserves_bind; [apply preserves_node|]. intros n.
  apply preserves_bind; [apply Hcreate|]. intros _.
  apply preserves_bind; [apply Hdetect|]. intros [|].
  - apply preserves_bind; [apply preserves_updateTree|]. intros _.
    apply preserves_bind; [apply Hcreate|]. intros _.
    apply Hcreate.
  - apply preserves_updateTree.
Qed.

Lemma preserves_visitNew (e name : string) (ref : list nat) :
  preserves Inv (visitNew H false e name ref).
Proof.
  unfold visitNew.
  apply preserves_bind; [apply preserves_node|]. intros n.
  apply preserves_bind; [apply preserves_updateTree|]. intros _.
  apply preserves_bind; [apply Hcreate|]. intros _.
  apply preserves_bind; [apply Hcreate|]. intros _.
  apply preserves_bind; [apply Hcreate|]. intros _.
  apply preserves_ret.
Qed.

Lemma preserves_walkNames (e : string) (names : list string) :
  forall cur, preserves Inv (walkNames H false e names cur).
Proof.
  induction names as [|name names IH]; intros cur; [apply preserves_ret|].
  cbn [walkNames].
  apply preserves_bind; [apply preserves_node|]. intros parent.
  destruct (Tree.findChild name parent) as [[i c]|].
  - apply preserves_bind; [apply preserves_visitExisting|]. intros _. apply IH.
  - apply preserves_bind; [apply preserves_visitNew|]. intros cur'. apply IH.
Qed.

Lemma preserves_first_load (files0 : JSZip) :
  preserves Inv (_populateOOXMLViewer H files0 false).
Proof.
  unfold _populateOOXMLViewer.
  apply preserves_bind; [|intros _; apply preserves_ret].
  intros w Hw. apply forEachM_invariant; [|exact Hw].
  intros e w1 Hw1.
  assert (Hwalk : preserves Inv
            (currentFileNode ← walkNames H false e (JS.split "/" e) [];
             updateTree currentFileNode (Tree.setFullPath e))).
  { apply preserves_bind; [apply preserves_walkNames|].
    intros cur. apply preserves_updateTree. }
  destruct (Zip.get files0 e) as [[[] ?]|]; [exact Hw1|now apply Hwalk..].
Qed.

End Invariant.

(** What the host calls of a pass leave alone: a component of the state
    that is neither the files, their times, nor the log of calls. *)
Section Bookkeeping.
Context {X : Type} (proj : World -> X).
Hypothesis Hlog : forall c w, proj (logCall c w) = proj w.
Hypothesis Hfiles : forall f w, proj (setFiles f w) = proj w.
Hypothesis Hmtimes : forall m w, proj (setMtimes m w) = proj w.
Hypothesis Hclock : forall c w, proj (setClock c w) = proj w.

Lemma keeps_log (c : HostCall) : keeps proj (modify (logCall c)).
Proof. apply keeps_modify. intros w. apply Hlog. Qed.

Lemma keeps_stat (p : string) : keeps proj (Fs.stat p).
Proof.
  unfold Fs.stat. apply keeps_bind; [apply keeps_log|]. intros _.
  apply keeps_bind; [apply keeps_gets|]. intros e.
  apply keeps_bind; [apply keeps_gets|]. intros t.
  destruct e as [[|]|]; first [apply keeps_ret | apply keeps_throw].
Qed.

Lemma keeps_readFile (p : string) : keeps proj (Fs.readFile p).
Proof.
  unfold Fs.readFile. apply keeps_bind; [apply keeps_log|]. intros _.
  apply keeps_bind; [apply keeps_gets|]. intros e.
  destruct e as [[|]|]; first [apply keeps_ret | apply keeps_throw].
Qed.

Lemma keeps_writeFile (p : string) (b : Bytes) : keeps proj (Fs.writeFile p b).
Proof.
  unfold Fs.writeFile. apply keeps_bind; [apply keeps_log|]. intros _.
  apply keeps_bind; [apply keeps_gets|]. intros f.
  destruct (Fs.written p b f); [apply keeps_throw|].
  apply keeps_modify; intros w; now rewrite Hclock, Hmtimes, Hfiles.
Qed.

Lemma keeps_createDirectory (p : string) : keeps proj (Fs.createDirectory p).
Proof.
  unfold Fs.createDirectory. apply keeps_bind; [apply keeps_log|]. intros _.
  apply keeps_bind; [apply keeps_gets|]. intros f.
  destruct (Fs.mkdirp p f); [apply keeps_throw|].
  apply keeps_modify; intros w; apply Hfiles.
Qed.

Lemma keeps_createFile (fullPath fileName : string) :
  keeps proj (_createFile H fullPath fileName).
Proof.
  unfold _createFile.
  apply keeps_tryCatch; [|intros e; apply keeps_log].
  apply keeps_bind; [apply keeps_createDirectory|]. intros _.
  apply keeps_bind.
  { destruct (JS.startsWith (platform H) "win"); [|apply keeps_ret].
    destruct (attrib H _) as [e|stderr]; [apply keeps_throw|].
    destruct (JS.truthy stderr); [apply keeps_throw | apply keeps_ret]. }
  intros _. apply keeps_bind; [apply keeps_gets|]. intros file.
  apply keeps_bind.
  { destruct file; [apply keeps_ret|].
    apply keeps_bind; [apply keeps_readFile|].
    intros b. apply keeps_ret. }
  intros text. destruct (JS.startsWith text "<?xml").
  - apply keeps_bind; [|intros x; apply keeps_writeFile].
    destruct (_ <? _)%Z; [|apply keeps_ret].
    destruct (formatXml H text); [apply keeps_ret | apply keeps_throw].
  - destruct file; [apply keeps_writeFile | apply keeps_ret].
Qed.

Lemma keeps_detector (firstFile : string) :
  keeps proj (_fileHasBeenChangedFromOutside H firstFile).
Proof.
  unfold _fileHasBeenChangedFromOutside. apply keeps_tryCatch.
  - apply keeps_bind; [apply keeps_stat|]. intros s1.
    apply keeps_bind; [apply keeps_stat|]. intros s2.
    destruct (ftype s1), (ftype s2); try apply keeps_ret.
    apply keeps_bind; [apply keeps_readFile|]. intros b1.
    apply keeps_bind; [apply keeps_readFile|]. intros b2.
    destruct (bool_decide _); apply keeps_ret.
  - intros e. apply keeps_bind; [apply keeps_log|].
    intros _. apply keeps_ret.
Qed.

Hypothesis Htree : forall r w, proj (setRootFileNode r w) = proj w.

Lemma first_load_keeps (files0 : JSZip) (w : World) :
  proj (exec (_populateOOXMLViewer H files0 false) w) = proj w.
Proof.
  apply (preserves_first_load (fun w1 => proj w1 = proj w)); auto.
  - intros p n w1 Hw1. now rewrite keeps_createFile.
  - intros p w1 Hw1. now rewrite keeps_detector.
  - intros r w1 Hw1. now rewrite Htree.
Qed.

End Bookkeeping.

(** What holds of the files before the pass of the first load and is kept
    by every [_createFile] holds after the pass. *)
Lemma first_load_files_invariant (Inv : gmap string FsEntry -> Prop)
      (files0 : JSZip) (w : World) :
  (forall fs p n, Inv fs -> Inv (createFileEffect H (zip w) fs p n)) ->
  Inv (files w) ->
  Inv (files (exec (_populateOOXMLViewer H files0 false) w)).
Proof.
  intros Hstep Hi.
  apply (preserves_first_load
           (fun w1 => Inv (files w1) /\ zip w1 = zip w)); [| | |now split].
  - intros p n w1 [Hi1 Hz].
    destruct (createFile_run H p n w1) as (w2 & -> & F & Z & _). simpl.
    split; [|congruence]. rewrite F, Hz. now apply Hstep.
  - intros p w1 [Hi1 Hz].
    destruct (detector_run_full H p w1) as (w2 & -> & F & Z & _). simpl.
    split; congruence.
  - intros r w1 Hw1. exact Hw1.
Qed.

(** X10. [_createFile] for a path that is no entry of the zip (as the path of a
    previous generation is): unless the cache file of that path holds text
    that begins with the XML declaration, nothing is copied; no regular
    file is created or changed, the folder at most is created, with the
    folders above it that are missing. *)
Theorem createFile_without_entry_copies_xml_only
    (fullPath fileName : string) (w : World) :
  Zip.file (zip w) fullPath = None ->
  (forall b, files w !! currentFile H fullPath = Some (RegularFile b) ->
             JS.startsWith (utf8Decode H b) "<?xml" = false) ->
  let w' := exec (_createFile H fullPath fileName) w in
  (files w' = files w
   \/ Fs.mkdirp (folderOf H fullPath) (files w) = inr (files w'))
  /\ forall q b, files w' !! q = Some (RegularFile b) ->
                 files w !! q = Some (RegularFile b).
Proof.
  intros Hnone Htext. cbv zeta. rewrite createFile_files.
  unfold createFileEffect.
  destruct (Fs.mkdirp (folderOf H fullPath) (files w)) as [err|fs1] eqn:E1;
    [split; [now left | auto]|].
  assert (Hfs1 : (if attribFails H then fs1
                  else match materialise H (zip w) fs1 fullPath with
                       | Some b =>
                           match Fs.written (fileOf H fullPath fileName) b fs1
                           with
                           | inl _ => fs1
                           | inr fs2 => fs2
                           end
                       | None => fs1
                       end) = fs1).
  { destruct (attribFails H); [reflexivity|].
    unfold materialise. rewrite Hnone. fold (currentFile H fullPath).
    destruct (fs1 !! currentFile H fullPath) as [[b|]|] eqn:Ec;
      try reflexivity.
    apply (FsFacts.mkdirpChain_files _ _ _ _ _ E1) in Ec.
    now rewrite (Htext b Ec). }
  rewrite Hfs1. split; [now right|].
  intros q b Hq. exact (FsFacts.mkdirpChain_files _ _ _ _ _ E1 Hq).
Qed.

(** X11. On Windows, when [attrib +h] fails or writes to stderr, [_createFile]
    stops before it writes: the pass of the first load still builds the
    tree, but it leaves no part file; every regular file found after
    the pass was there before it, with the same bytes. *)
Theorem failing_attrib_leaves_no_part_file (files0 : JSZip) (w : World) :
  attribFails H = true ->
  let w' := exec (_populateOOXMLViewer H files0 false) w in
  forall q b, files w' !! q = Some (RegularFile b) ->
              files w !! q = Some (RegularFile b).
Proof.
  intros Hfail. cbv zeta.
  apply (first_load_files_invariant
           (fun fs => forall q b, fs !! q = Some (RegularFile b) ->
                                  files w !! q = Some (RegularFile b)));
    [|auto].
  intros fs p n Hi q b. unfold createFileEffect. rewrite Hfail.
  destruct (Fs.mkdirp (folderOf H p) fs) as [err|fs1] eqn:E1; [apply Hi|].
  intros Hq. apply Hi. exact (FsFacts.mkdirpChain_files _ _ _ _ _ E1 Hq).
Qed.

End CreateFileEdges.

Section WatcherGuard.
Import Watcher.

Lemma run_snoc (events : list Event) (ev : Event) (s : State) :
  run (events ++ [ev]) s = step (run events s) ev.
Proof. unfold run. now rewrite fold_left_app. Qed.

Lemma guard_invariant (events : list Event) :
  let s := run events initial in
  opening s <= 1 /\ (opening s = 1 -> locked s = true).
Proof.
  induction events as [|ev events IH] using rev_ind.
  - simpl. split; [lia | discriminate].
  - rewrite run_snoc. destruct IH as [Hle Hlock].
    destruct (run events initial) as [l o n]. simpl in *.
    destruct ev; simpl.
    + destruct l; simpl; [now split|]. split; [|reflexivity].
      destruct o as [|[|o]]; [lia | | lia].
      specialize (Hlock eq_refl). discriminate.
    + destruct o as [|o]; simpl; [now split|]. split; [lia|]. lia.
    + destruct o as [|o]; simpl; [now split|]. split; [lia|]. lia.
Qed.

(** X12. Whatever the order of change reports and ends of
    [openOOXMLPackage], at most one call of [openOOXMLPackage] is under way
    at any time, and a change reported while one is under way starts no
    other: it is dropped, not kept for later. *)
Theorem watcher_opens_one_package_at_a_time (events : list Event) :
  let s := run events initial in
  opening s <= 1
  /\ (opening s = 1 -> step s Change = s).
Proof.
  destruct (guard_invariant events) as [Hle Hlock]. cbv zeta.
  split; [exact Hle|]. intros Ho. simpl. now rewrite (Hlock Ho).
Qed.

Lemma locked_idle_stays (events : list Event) (s : State) :
  locked s = true -> opening s = 0 -> run events s = s.
Proof.
  intros Hl Ho. induction events as [|ev events IH] using rev_ind;
    [reflexivity|].
  rewrite run_snoc, IH. destruct ev; simpl; now rewrite ?Hl, ?Ho.
Qed.

(** X13. [locked] is set back after the [await] only: once a call of
    [openOOXMLPackage] has thrown, the flag stays set, and no later change
    of the package file starts a reload. *)
Theorem watcher_stays_locked_after_a_failed_open
    (before after : list Event) :
  let s := run before initial in
  opening s = 1 ->
  let s' := run (before ++ OpenRejected :: after) initial in
  locked s' = true /\ opens s' = opens s /\ opening s' = 0.
Proof.
  intros s Ho. cbv zeta.
  destruct (guard_invariant before) as [_ Hlock]. fold s in Hlock.
  specialize (Hlock Ho).
  unfold run. rewrite fold_left_app. fold (run before initial). fold s.
  cbn [fold_left]. fold (run after (step s OpenRejected)).
  rewrite locked_idle_stays; simpl; rewrite Ho; simpl; auto.
Qed.

End WatcherGuard.

Section LargeXml.
Context (H : Host).

(** X15. XML text of 100000 UTF-16 code units or more is not handed to the
    formatter, and when the formatter returns the empty string its result
    is not used: in both cases [_createFile] writes the text of the entry,
    encoded again, as it is (when no folder on the way to the file is a
    file, and the file is no folder). *)
Theorem large_xml_is_written_unformatted
    (fullPath fileName : string) (f : JSZipObject) (w : World) :
  Zip.file (zip w) fullPath = Some f ->
  let text := utf8Decode H (data f) in
  JS.startsWith text "<?xml" = true ->
  (100000 <= Z.of_nat (JS.length text))%Z \/ formatXml H text = Some "" ->
  attribFails H = false ->
  let folder := folderOf H fullPath in
  let file := fileOf H fullPath fileName in
  (forall q, q ∈ folder :: Fs.above folder ++ Fs.above file ->
             forall b0, files w !! q <> Some (RegularFile b0)) ->
  file ∉ folder :: Fs.above folder ->
  files w !! file <> Some Directory ->
  files (exec (_createFile H fullPath fileName) w) !! file
  = Some (RegularFile (utf8Encode H text)).
Proof.
  intros Hf text Hxml Hbig Hattrib folder file Hway Hnot Hfile.
  rewrite createFile_files.
  apply (createFileEffect_writes H _ _ _ _ f); auto.
  unfold materialise. rewrite Hf. fold text. rewrite Hxml.
  destruct Hbig as [Hbig | Hempty].
  - destruct (Z.ltb_spec (Z.of_nat (JS.length text)) 100000);
      [lia | reflexivity].
  - rewrite Hempty. simpl. now destruct (_ <? _)%Z.
Qed.

End LargeXml.

Section ReloadNewPart.
Context (H : Host).

(** The files after the first two [_createFile] of a visit that creates a
    node. *)
Lemma visitNew_reload_run (e name : string) (ref : list nat) (w : World) :
  let n := default newFileNode (Tree.getNode ref (rootFileNode w)) in
  let ref' := ref ++ [length (children n)] in
  let fs2 :=
    createFileEffect H (zip w)
      (createFileEffect H (zip w) (files w) e name) e ("prev." ++ name) in
  let root' :=
    Tree.updateNode ref' (Tree.setIconPath asteriskGreen)
      (Tree.updateNode ref (Tree.pushChild (mkFileNode name e IconUnset []))
         (rootFileNode w)) in
  exists w2,
    files w2 = fs2 /\ zip w2 = zip w /\ rootFileNode w2 = root'
    /\ visitNew H true e name ref w
       = (x ← Fs.writeFile (compareFile H e name) []; mret ref') w2.
Proof.
  intros n ref' fs2 root'. unfold visitNew.
  rewrite bind_run, node_run. fold n.
  rewrite bind_run, updateTree_run.
  set (w0 := setRootFileNode _ w). rewrite bind_run.
  destruct (createFile_run H e name w0) as (w1 & -> & F1 & Z1 & T1).
  rewrite bind_run.
  destruct (createFile_run H e ("prev." ++ name) w1) as (w2 & -> & F2 & Z2 & T2).
  rewrite bind_run. fold ref'.
  rewrite bind_run, updateTree_run.
  exists (setRootFileNode
            (Tree.updateNode ref' (Tree.setIconPath asteriskGreen)
               (rootFileNode w2)) w2).
  split; [|split; [|split]]; simpl.
  - rewrite F2, F1, Z1. reflexivity.
  - rewrite Z2, Z1. reflexivity.
  - rewrite T2, T1. reflexivity.
  - rewrite bind_run. reflexivity.
Qed.

(** X16. A part first seen on a reload: its current and previous files take the
    materialised content of the entry, its compare file is written empty,
    and its node, the last child of the node the walk stands on, carries
    the green asterisk.  The path of the entry and the name of the node
    are made of plain segments, no folder on the way to the files is a
    file, and none of the three files is a folder. *)
Theorem part_new_on_reload_gets_an_empty_compare_file
    (e name : string) (ref : list nat) (n : FileNode) (f : JSZipObject)
    (b : Bytes) (w : World) :
  Tree.getNode ref (rootFileNode w) = Some n ->
  Zip.file (zip w) e = Some f ->
  materialise H (zip w) ∅ e = Some b ->
  attribFails H = false ->
  Forall PathShape.plain (JS.split "/" e) ->
  PathShape.plain name ->
  (forall q, q ∈ folderOf H e :: Fs.above (folderOf H e) ->
             forall b0, files w !! q <> Some (RegularFile b0)) ->
  (forall role, role ∈ [""; "prev."; "compare."] ->
                files w !! fileOf H e (role ++ name) <> Some Directory) ->
  let ref' := ref ++ [length (children n)] in
  exists w',
    visitNew H true e name ref w = (Ok ref', w')
    /\ files w' !! fileOf H e name = Some (RegularFile b)
    /\ files w' !! fileOf H e ("prev." ++ name) = Some (RegularFile b)
    /\ files w' !! compareFile H e name = Some (RegularFile [])
    /\ Tree.getNode ref' (rootFileNode w')
       = Some (mkFileNode name e asteriskGreen []).
Proof.
  intros Hn Hf Hb Hattrib Hplain Hname Hway Hfiles ref'.
  destruct (visitNew_effect H true e name ref n w Hn)
    as (w' & E & T & Z & F).
  destruct (new_node_effect H (zip w) e f b name Hplain Hf Hb Hattrib Hname
              true (files w) Hway Hfiles) as (Ho & A & B & C & D).
  rewrite Ho in E. exists w'. split; [exact E|].
  rewrite F, compareFile_fileOf. split; [exact A|]. split; [exact B|].
  split; [exact C|]. rewrite T. now apply getNode_pushed.
Qed.

(** X17. The write of the empty compare file of a part first seen on a
    reload is the one step of a pass outside every [try]: when it fails for
    the first entry of the package, the
    reload ends with the error.  The node of the entry has been added and
    marked, no other entry has been walked and no deleted part has been
    looked for. *)
Theorem failed_empty_compare_write_ends_the_reload
    (filePath e : string) (o : JSZipObject) (rest : JSZip) (b : Bytes)
    (w : World) :
  files w !! filePath = Some (RegularFile b) ->
  loadAsync H b = Some ((e, o) :: rest) ->
  dir o = false ->
  let name := hd "" (JS.split "/" e) in
  Tree.findChild name (rootFileNode w) = None ->
  let cmp := compareFile H e name in
  files w !! cmp = Some Directory ->
  cmp <> folderOf H e ->
  cmp <> fileOf H e name ->
  cmp <> fileOf H e ("prev." ++ name) ->
  let r := _reloadOoxmlFile H filePath w in
  r.1 = Throw (FileIsADirectory cmp)
  /\ zip r.2 = (e, o) :: rest
  /\ rootFileNode r.2
     = Tree.pushChild (mkFileNode name e asteriskGreen []) (rootFileNode w).
Proof.
  intros Hfile Hload Hdir name Hnew cmp Hcd Hc1 Hc2 Hc3.
  assert (Hrun : exists w',
    _reloadOoxmlFile H filePath w = (Throw (FileIsADirectory cmp), w')
    /\ zip w' = (e, o) :: rest
    /\ rootFileNode w'
       = Tree.pushChild (mkFileNode name e asteriskGreen []) (rootFileNode w)).
  2:{ destruct Hrun as (w' & -> & Hz & Ht). now repeat split. }
  unfold _reloadOoxmlFile. rewrite bind_run.
  unfold Fs.readFile at 1. unfold_io. simpl. rewrite Hfile. simpl.
  rewrite Hload. simpl.
  unfold _populateOOXMLViewer. unfold_io. simpl.
  rewrite String.eqb_refl. destruct o as [[] d]; [discriminate|]. simpl.
  pose proof (PathFacts.split_nonempty e) as Hne.
  subst name cmp. destruct (JS.split "/" e) as [|name names] eqn:Es;
    [congruence|].
  cbn [hd] in *. cbn [walkNames].
  change (?m ;; ?k) with (m ≫= fun _ => k).
  set (w0 := setZip _ _).
  rewrite !bind_run, node_run.
  change (rootFileNode w0) with (rootFileNode w).
  cbn [Tree.getNode default from_option id]. rewrite Hnew. rewrite bind_run.
  destruct (visitNew_reload_run e name [] w0) as (w2 & F2 & Z2 & T2 & ->).
  unfold Fs.writeFile. unfold_io. simpl.
  assert (Hcmp2 : files w2 !! compareFile H e name = Some Directory).
  { rewrite F2. now do 2 apply createFileEffect_folder. }
  rewrite (FsFacts.written_fails _ _ _ Hcmp2). simpl.
  eexists. split; [reflexivity|]. simpl.
  split; [exact Z2|]. rewrite T2. simpl.
  destruct (rootFileNode w) as [nm full ic ch]. simpl.
  rewrite lookup_app_r by lia. rewrite Nat.sub_diag. simpl.
  unfold Tree.pushChild, Tree.setChildren. simpl. f_equal.
  rewrite insert_app_r_alt by lia. now rewrite Nat.sub_diag.
Qed.

End ReloadNewPart.

Section InsideTheCache.
Context (H : Host).
Import Path PathShape PathFacts PathAlgebra.

Lemma plainb_plain (s : string) : plainb s = true -> plain s.
Proof.
  unfold plainb. rewrite !andb_true_iff, !negb_true_iff.
  intros [[[Hsf H1] H2] H3]. apply String.eqb_neq in H1, H2, H3.
  split; [|now repeat split].
  unfold slashFree. apply Forall_forall. intros c Hc.
  rewrite forallb_forall in Hsf. apply list_elem_of_In in Hc.
  specialize (Hsf c Hc). now apply negb_true_iff in Hsf.
Qed.

Lemma plainPathb_plain (e : string) :
  plainPathb e = true -> Forall plain (JS.split "/" e).
Proof.
  unfold plainPathb. rewrite forallb_forall, Forall_forall.
  intros Hall s Hs. apply plainb_plain, Hall. now apply list_elem_of_In.
Qed.

Lemma prefix_empty (s : string) : String.prefix "" s = true.
Proof. now destruct s. Qed.

Lemma prefix_app_r (a f y : string) :
  String.prefix a f = true -> String.prefix a (f ++ y) = true.
Proof.
  revert f. induction a as [|c a IH]; intros f Hp; [apply prefix_empty|].
  destruct f as [|d f]; [discriminate|]. rewrite append_cons.
  cbn [String.prefix] in *.
  destruct (ascii_dec c d); [now apply IH | discriminate].
Qed.

Lemma under_deeper (root f x : string) :
  Fs.under root f = true -> Fs.under root (f ++ "/" ++ x) = true.
Proof.
  unfold Fs.under. intros Hu. apply orb_true_iff in Hu as [Hu|Hu].
  - apply String.eqb_eq in Hu. subst f. apply orb_true_iff. right.
    rewrite <- string_app_assoc. apply prefix_app.
  - apply orb_true_iff. right. now apply prefix_app_r.
Qed.

(** The folder and the file of [_createFile] are inside the cache folder
    when the path is made of plain segments and the name is plain. *)
Lemma createFile_paths_inside (p x : string) :
  Forall plain (JS.split "/" p) -> plain x ->
  Fs.under (fileCachePath H) (folderOf H p) = true
  /\ Fs.under (fileCachePath H) (fileOf H p x) = true.
Proof.
  intros Hp Hx.
  assert (Hfolder : Fs.under (fileCachePath H) (folderOf H p) = true
                    /\ normalPath (folderOf H p)).
  { pose proof (fileCachePath_normal H) as HC.
    destruct (exists_last (split_nonempty p)) as (dsegs & name & Es).
    rewrite Es in Hp. apply Forall_app in Hp as [Hd Hn].
    inversion Hn as [|? ? (Hsf & Hne & _) _]; subst.
    assert (Ee : p = JS.joinWith "/" (dsegs ++ [name]))
      by (rewrite <- Es; symmetry; apply joinWith_split).
    rewrite joinWith_snoc in Ee. unfold folderOf.
    destruct dsegs as [|d0 dsegs'].
    - subst p. rewrite dirname_of_segment by assumption.
      rewrite join_normal_dot by assumption.
      split; [apply under_refl | exact HC].
    - set (D := JS.joinWith "/" (d0 :: dsegs')) in *.
      destruct (plains_normalPath (d0 :: dsegs') ltac:(discriminate) Hd)
        as (a & S & HS & Hok & ED).
      destruct (normalPath_facts D a S HS Hok ED) as (HD & _ & _ & _ & HDr).
      subst p. rewrite dirname_last_segment by assumption.
      destruct (join_normal_plains (fileCachePath H) (d0 :: dsegs') HC
                  ltac:(discriminate) Hd) as [EF HF].
      fold D in EF, HF. rewrite EF. split; [|exact HF].
      apply under_deeper, under_refl. }
  destruct Hfolder as [Hu HF]. split; [exact Hu|].
  unfold fileOf. destruct (join_normal_plain _ x HF Hx) as [-> _].
  now apply under_deeper.
Qed.

Lemma same_folder_prefix (a b c r : string) :
  (a ++ "/" ++ b = c ++ "/" ++ r)%string ->
  a = c \/ (exists r', a = (c ++ "/" ++ r')%string)
  \/ (exists b', c = (a ++ "/" ++ b')%string).
Proof.
  revert c. induction a as [|x a IH]; intros c E.
  - destruct c as [|y c]; [now left|]. right. right.
    rewrite append_nil_l in E. rewrite append_cons in E.
    injection E as <- _. exists c. reflexivity.
  - destruct c as [|y c].
    + right. left. rewrite append_nil_l in E. rewrite append_cons in E.
      injection E as -> _. exists a. reflexivity.
    + rewrite !append_cons in E. injection E as <- E.
      destruct (IH c E) as [-> | [[r' ->] | [b' ->]]].
      * now left.
      * right. left. now exists r'.
      * right. right. now exists b'.
Qed.

(** A folder on the way to something inside the cache folder is inside
    it, or above it. *)
Lemma way_inside (d q : string) :
  Fs.under (fileCachePath H) d = true ->
  q ∈ d :: Fs.above d ->
  Fs.under (fileCachePath H) q = true \/ q ∈ Fs.above (fileCachePath H).
Proof.
  intros Hd Hq. apply elem_of_cons in Hq as [-> | Hq]; [now left|].
  apply FsFacts.above_spec in Hq as (Hq0 & b & E).
  apply FsFacts.under_spec in Hd as [-> | [r ->]].
  - right. apply FsFacts.above_spec. split; [exact Hq0 | now exists b].
  - symmetry in E.
    destruct (same_folder_prefix _ _ _ _ E) as [-> | [[r' ->] | [b' Ec]]].
    + left. apply under_refl.
    + left. apply FsFacts.under_spec. right. now exists r'.
    + right. apply FsFacts.above_spec. split; [exact Hq0 | now exists b'].
Qed.

Lemma createFileEffect_inside (z : JSZip) (fs : gmap string FsEntry)
      (p x q : string) :
  Forall plain (JS.split "/" p) -> plain x ->
  Fs.under (fileCachePath H) q = false ->
  createFileEffect H z fs p x !! q = fs !! q
  \/ (fs !! q = None /\ createFileEffect H z fs p x !! q = Some Directory
      /\ q ∈ Fs.above (fileCachePath H)).
Proof.
  intros Hp Hx Hq. destruct (createFile_paths_inside p x Hp Hx) as [H1 H2].
  destruct (createFileEffect_lookup H z fs p x q)
    as [E | [(Hn & Hd & Hin) | (-> & _)]]; [now left | | congruence].
  right. split; [exact Hn|]. split; [exact Hd|].
  unfold createFilePaths in Hin.
  assert (Hway : q ∈ fileOf H p x :: Fs.above (fileOf H p x)
                 \/ q ∈ folderOf H p :: Fs.above (folderOf H p)).
  { apply elem_of_cons in Hin as [-> | Hin]; [left; now left|].
    apply elem_of_app in Hin as [Hin | Hin]; [left; now right | now right]. }
  destruct Hway as [Hw | Hw];
    [destruct (way_inside _ q H2 Hw) as [Hu | Ha]
    |destruct (way_inside _ q H1 Hw) as [Hu | Ha]];
    congruence || assumption.
Qed.

Lemma inside_step (fs0 fs1 fs2 : gmap string FsEntry) (q : string) :
  fs1 !! q = fs0 !! q
  \/ (fs0 !! q = None /\ fs1 !! q = Some Directory
      /\ q ∈ Fs.above (fileCachePath H)) ->
  fs2 !! q = fs1 !! q
  \/ (fs1 !! q = None /\ fs2 !! q = Some Directory
      /\ q ∈ Fs.above (fileCachePath H)) ->
  fs2 !! q = fs0 !! q
  \/ (fs0 !! q = None /\ fs2 !! q = Some Directory
      /\ q ∈ Fs.above (fileCachePath H)).
Proof.
  intros [E1 | (N1 & D1 & A1)] [E2 | (N2 & D2 & A2)].
  - left. congruence.
  - right. repeat split; congruence || assumption.
  - right. repeat split; congruence || assumption.
  - congruence.
Qed.

(** The previous path of a path of plain segments is one, too. *)
Lemma getPrev_plainPath (p : string) :
  Forall plain (JS.split "/" p) ->
  Forall plain (JS.split "/" (_getPrevFilePath p)).
Proof.
  intros Hp.
  destruct (exists_last (split_nonempty p)) as (dsegs & name & Es).
  rewrite Es in Hp. apply Forall_app in Hp as [Hd Hn].
  inversion Hn as [|? ? (Hsf & Hne & _) _]; subst.
  pose proof (prev_plain name Hsf) as Hprev.
  assert (Ee : p = JS.joinWith "/" (dsegs ++ [name]))
    by (rewrite <- Es; symmetry; apply joinWith_split).
  rewrite joinWith_snoc in Ee.
  destruct dsegs as [|d0 dsegs'].
  - subst p. rewrite getPrev_of_segment by assumption.
    rewrite split_slashFree by apply Hprev. now constructor.
  - set (D := JS.joinWith "/" (d0 :: dsegs')) in *.
    destruct (plains_normalPath (d0 :: dsegs') ltac:(discriminate) Hd)
      as (a & S & HS & Hok & ED).
    destruct (normalPath_facts D a S HS Hok ED) as (HD & _).
    subst p. rewrite getPrev_last_segment by assumption.
    rewrite split_app_slash. apply Forall_app. split.
    + unfold D. rewrite split_joinWith; [exact Hd | | discriminate].
      eapply Forall_impl; [exact Hd | now intros ? []].
    + rewrite split_slashFree by apply Hprev. now constructor.
Qed.

Lemma safeNode_byNameAndPath : byNameAndPath safeNode.
Proof. intros n n' Hn Hf. unfold safeNode. now rewrite Hn, Hf. Qed.

Lemma allBelow_update (p : FileNode -> bool) (f : FileNode -> FileNode) :
  byNameAndPath p ->
  (forall n, allBelow p n = true -> allBelow p (f n) = true) ->
  (forall n, p n = true -> p (f n) = true) ->
  forall (ref : list nat) (root : FileNode),
    allBelow p root = true ->
    allBelow p (Tree.updateNode ref f root) = true
    /\ (p root = true -> p (Tree.updateNode ref f root) = true).
Proof.
  intros Hp Hf1 Hf2. induction ref as [|i ref IH]; intros root Hall.
  - simpl. auto.
  - cbn [Tree.updateNode].
    destruct (children root !! i) as [c|] eqn:Ei; [|auto].
    split.
    + apply allBelow_children in Hall. apply allBelow_children.
      pose proof (Forall_lookup_1 _ _ _ _ Hall Ei) as [Hc Hbelow].
      cbn [Tree.setChildren children].
      apply Forall_insert; [exact Hall|].
      destruct (IH c Hbelow) as [H1 H2]. auto.
    + intros Hroot. rewrite <- Hroot. apply Hp; now destruct root.
Qed.

Section Pass.
Context (fs0 : gmap string FsEntry).

Lemma createFile_inside (p x : string) (w : World) :
  Forall plain (JS.split "/" p) -> plain x -> insideInv H fs0 w ->
  exists w1, _createFile H p x w = (Ok tt, w1) /\ insideInv H fs0 w1.
Proof.
  intros Hp Hx [Ht Hf].
  destruct (createFile_run H p x w) as (w1 & E & F & Z & T).
  exists w1. split; [exact E|]. split; [now rewrite T|].
  intros q Hq. rewrite F. apply (inside_step fs0 (files w)); [now apply Hf|].
  now apply createFileEffect_inside.
Qed.

Lemma updateTree_inside (ref : list nat) (f : FileNode -> FileNode)
      (w : World) :
  (forall n, allBelow safeNode n = true -> allBelow safeNode (f n) = true) ->
  (forall n, safeNode n = true -> safeNode (f n) = true) ->
  insideInv H fs0 w -> insideInv H fs0 (updateTree ref f w).2.
Proof.
  intros Hf1 Hf2 [Ht Hf]. split; [|exact Hf]. simpl.
  exact (proj1 (allBelow_update _ _ safeNode_byNameAndPath Hf1 Hf2 ref _ Ht)).
Qed.

Lemma setIconPath_safe (x : Icon) :
  (forall n, allBelow safeNode n = true ->
             allBelow safeNode (Tree.setIconPath x n) = true)
  /\ (forall n, safeNode n = true -> safeNode (Tree.setIconPath x n) = true).
Proof. split; intros n Hn; now destruct n. Qed.

Lemma visitExisting_inside (ref : list nat) (c : FileNode) (w : World) :
  Tree.getNode ref (rootFileNode w) = Some c ->
  safeNode c = true -> insideInv H fs0 w ->
  exists w', visitExisting H ref w = (Ok tt, w') /\ insideInv H fs0 w'.
Proof.
  intros Hc Hsafe Hinv. unfold safeNode in Hsafe.
  apply andb_true_iff in Hsafe as [Hp Hn].
  apply plainPathb_plain in Hp. apply plainb_plain in Hn.
  pose proof Hn as (Hsf & _).
  unfold visitExisting. rewrite bind_run, node_run, Hc.
  cbn [default from_option id]. rewrite bind_run.
  destruct (createFile_inside _ _ w Hp Hn Hinv) as (w1 & -> & Hinv1).
  rewrite bind_run.
  destruct (detector_run_full H (fullPath c) w1) as (w2 & -> & F2 & Z2 & T2).
  assert (Hinv2 : insideInv H fs0 w2).
  { destruct Hinv1 as [Ht Hf]. split; [now rewrite T2|].
    intros q Hq. rewrite F2. auto. }
  destruct (changedFromOutside H (files w1) (fullPath c)).
  - rewrite bind_run, updateTree_run.
    pose proof (updateTree_inside ref (Tree.setIconPath asteriskYellow) w2
                  (proj1 (setIconPath_safe _)) (proj2 (setIconPath_safe _))
                  Hinv2) as Hinv3.
    rewrite updateTree_run in Hinv3. cbn [snd] in Hinv3.
    rewrite bind_run.
    destruct (createFile_inside (_getPrevFilePath (fullPath c))
                ("compare." ++ fileName c) _
                (getPrev_plainPath _ Hp) (compare_plain _ Hsf) Hinv3)
      as (w4 & -> & Hinv4).
    apply (createFile_inside _ _ w4 Hp (prev_plain _ Hsf) Hinv4).
  - rewrite updateTree_run. eexists. split; [reflexivity|].
    pose proof (updateTree_inside ref
                  (Tree.setIconPath
                     match children c with
                     | [] => ThemeFile
                     | _ :: _ => ThemeFolder
                     end) w2
                  (proj1 (setIconPath_safe _)) (proj2 (setIconPath_safe _))
                  Hinv2) as Hinv3.
    now rewrite updateTree_run in Hinv3.
Qed.

Lemma visitNew_inside (e name : string) (cur : list nat) (w : World) :
  plainPathb e = true -> plainb name = true -> insideInv H fs0 w ->
  exists cur' w',
    visitNew H false e name cur w = (Ok cur', w') /\ insideInv H fs0 w'.
Proof.
  intros He Hname Hinv.
  pose proof (plainPathb_plain e He) as Hp.
  pose proof (plainb_plain name Hname) as Hn. pose proof Hn as (Hsf & _).
  unfold visitNew. rewrite bind_run, node_run, bind_run, updateTree_run.
  assert (Hinv0 : insideInv H fs0
            (updateTree cur
               (Tree.pushChild (mkFileNode name e IconUnset [])) w).2).
  { apply updateTree_inside; [| |exact Hinv].
    - intros n Hall. apply allBelow_children. apply allBelow_children in Hall.
      destruct n as [nm full ic ch]. simpl in *. apply Forall_app.
      split; [exact Hall|]. constructor; [|constructor].
      split; [|reflexivity]. unfold safeNode. simpl. now rewrite He, Hname.
    - intros n Hsafe. now destruct n. }
  rewrite updateTree_run in Hinv0. cbn [snd] in Hinv0.
  rewrite bind_run.
  destruct (createFile_inside e name _ Hp Hn Hinv0) as (w1 & -> & Hinv1).
  rewrite bind_run.
  destruct (createFile_inside e ("prev." ++ name) _ Hp (prev_plain _ Hsf) Hinv1)
    as (w2 & -> & Hinv2).
  rewrite bind_run.
  destruct (createFile_inside e ("compare." ++ name) _ Hp
              (compare_plain _ Hsf) Hinv2) as (w3 & -> & Hinv3).
  now eexists _, w3.
Qed.

Lemma walkNames_inside (e : string) :
  plainPathb e = true ->
  forall (names : list string) (cur : list nat) (w : World),
    forallb plainb names = true -> insideInv H fs0 w ->
    exists cur' w',
      walkNames H false e names cur w = (Ok cur', w') /\ insideInv H fs0 w'.
Proof.
  intros He. induction names as [|name names IH]; intros cur w Hnames Hinv.
  - now exists cur, w.
  - cbn [forallb] in Hnames. apply andb_true_iff in Hnames as [Hname Hnames].
    cbn [walkNames]. rewrite bind_run, node_run.
    destruct (Tree.getNode cur (rootFileNode w)) as [parent|] eqn:Ecur;
      cbn [default from_option id].
    + destruct (Tree.findChild name parent) as [[i c]|] eqn:Ef.
      * apply findChild_Some in Ef as [Hi _].
        assert (Hc : Tree.getNode (cur ++ [i]) (rootFileNode w) = Some c)
          by now rewrite getNode_snoc, Ecur.
        destruct (allBelow_getNode safeNode _ _ _ (proj1 Hinv) Hc)
          as [_ Hsafe].
        rewrite bind_run.
        destruct (visitExisting_inside (cur ++ [i]) c w Hc) as (w1 & -> & Hinv1);
          [apply Hsafe; now destruct cur | exact Hinv |].
        now apply IH.
      * rewrite bind_run.
        destruct (visitNew_inside e name cur w He Hname Hinv)
          as (cur1 & w1 & -> & Hinv1).
        now apply IH.
    + change (Tree.findChild name newFileNode) with (@None (nat * FileNode)).
      cbv iota. rewrite bind_run.
      destruct (visitNew_inside e name cur w He Hname Hinv)
        as (cur1 & w1 & -> & Hinv1).
      now apply IH.
Qed.

End Pass.

(** X21. A package whose parts have entry paths made of plain segments (no
    empty segment, no [.] and no [..]) is unpacked inside the cache folder:
    the pass of the first load creates or changes no file outside it, and
    the only folders it makes outside are the folders above the cache
    folder that were missing. *)
Theorem first_load_writes_inside_the_cache_folder
    (files0 : JSZip) (w : World) :
  forallb (fun e => skipped files0 e || plainPathb e) (Zip.keys files0)
  = true ->
  allBelow safeNode (rootFileNode w) = true ->
  let w' := exec (_populateOOXMLViewer H files0 false) w in
  forall q, Fs.under (fileCachePath H) q = false ->
            files w' !! q = files w !! q
            \/ (files w !! q = None /\ files w' !! q = Some Directory
                /\ q ∈ Fs.above (fileCachePath H)).
Proof.
  intros Hkeys Htree. cbv zeta. unfold exec, _populateOOXMLViewer.
  rewrite bind_run.
  destruct (forEachM_ok (insideInv H (files w))
              (fun fileWithPath =>
                 match Zip.get files0 fileWithPath with
                 | Some {| dir := true |} => ret tt
                 | _ =>
                     currentFileNode ←
                       walkNames H false fileWithPath
                                 (JS.split "/" fileWithPath) [];
                     updateTree currentFileNode (Tree.setFullPath fileWithPath)
                 end)
              (Zip.keys files0)) with (w := w) as (w' & -> & Hinv').
  - intros e w1 He Hinv1.
    rewrite forallb_forall in Hkeys. apply list_elem_of_In in He.
    specialize (Hkeys e He). unfold skipped in Hkeys.
    assert (Hwalk : plainPathb e = true ->
      exists w2,
        (currentFileNode ← walkNames H false e (JS.split "/" e) [];
         updateTree currentFileNode (Tree.setFullPath e)) w1 = (Ok tt, w2)
        /\ insideInv H (files w) w2).
    { intros Hp. rewrite bind_run.
      destruct (walkNames_inside (files w) e Hp (JS.split "/" e) [] w1 Hp Hinv1)
        as (cur' & w2 & -> & Hinv2).
      rewrite updateTree_run. eexists. split; [reflexivity|].
      pose proof (updateTree_inside (files w) cur' (Tree.setFullPath e) w2)
        as Hupd.
      rewrite updateTree_run in Hupd. apply Hupd; [| |exact Hinv2].
      - intros n Hn. now destruct n.
      - intros n Hn. destruct n as [nm full ic ch]. unfold safeNode in *.
        simpl in *. apply andb_true_iff in Hn as [_ Hn]. now rewrite Hp, Hn. }
    destruct (Zip.get files0 e) as [[[] ?]|]; simpl in Hkeys.
    + now exists w1.
    + now apply Hwalk.
    + now apply Hwalk.
  - split; [exact Htree|]. intros q _. now left.
  - simpl. apply Hinv'.
Qed.

End InsideTheCache.

Section EverySecondLevel.
Context (H : Host).

Lemma forEachCollect_callbacks (w : World) (arr : list FileNode) :
  Forall (fun n =>
            removeDeletedCallback H (_removeDeletedParts H) n w
            = (Ok (n, false), w)) arr ->
  forEachCollect (removeDeletedCallback H (_removeDeletedParts H)) arr w
  = (Ok (map (fun n => (n, false)) arr), w).
Proof.
  intros Hcb. induction arr as [|a arr IHa]; [reflexivity|].
  inversion Hcb as [|? ? Ha Hrest]; subst.
  cbn [forEachCollect]. rewrite bind_run, Ha.
  fold (forEachCollect (removeDeletedCallback H (_removeDeletedParts H)) arr).
  rewrite bind_run, (IHa Hrest). reflexivity.
Qed.

(** X22. [_removeDeletedParts] looks at the children of the node it is given
    and, through the children of those that are still entries, at every
    second level below it only: when the nodes of these levels are all
    entries of the zip, it changes neither the tree nor any file, whatever
    has become of the parts at the levels in between. *)
Theorem removal_looks_at_every_second_level_only
    (nd : FileNode) (w : World) :
  oddLevelsPresent (zip w) nd = true ->
  _removeDeletedParts H nd w = (Ok nd, w).
Proof.
  set (P := fun c => oddLevelsPresent (zip w) c = true ->
                     _removeDeletedParts H c w = (Ok c, w)).
  cut (P nd /\ Forall P (children nd)); [intros [Hnd _]; exact Hnd|].
  induction nd as [name full icon arr IH] using FileNode_rose_ind.
  assert (Harr : Forall P arr)
    by (eapply Forall_impl; [exact IH | now intros c [Hc _]]).
  split; [|exact Harr]. intros Hall.
  cbn [oddLevelsPresent] in Hall. rewrite forallb_forall in Hall.
  cbn [_removeDeletedParts]. rewrite bind_run.
  rewrite forEachCollect_callbacks.
  - unfold mret, M_ret, ret. cbv beta. f_equal. f_equal. f_equal.
    rewrite applySplices_none.
    + rewrite map_map. simpl. apply map_id.
    + apply Forall_forall. intros r Hr. apply list_elem_of_In in Hr.
      apply in_map_iff in Hr as (n & <- & _). reflexivity.
  - rewrite Forall_forall in IH. apply Forall_forall. intros n Hn.
    destruct (IH n Hn) as [_ Hgrand].
    apply list_elem_of_In in Hn. specialize (Hall n Hn).
    destruct n as [nName nFull nIcon nChildren].
    apply andb_true_iff in Hall as [Hp Hbelow]. simpl in Hp.
    unfold removeDeletedCallback. rewrite bind_run. cbn [gets].
    rewrite Hp. cbn [negb].
    destruct nChildren as [|c rest]; [reflexivity|].
    rewrite bind_run, forEachCollect_same; [reflexivity|].
    cbn [children] in Hgrand. rewrite forallb_forall in Hbelow.
    rewrite Forall_forall in Hgrand. apply Forall_forall.
    intros g Hg. apply Hgrand; [assumption|].
    apply Hbelow. now apply list_elem_of_In.
Qed.

End EverySecondLevel.

Section Siblings.
Context (H : Host).

Lemma siblingsDistinct_eraseIcons (n : FileNode) :
  siblingsDistinct (eraseIcons n) = siblingsDistinct n.
Proof.
  destruct n as [nm full ic ch]. unfold siblingsDistinct. simpl.
  rewrite map_map.
  assert (E : map (fun x => fileName (eraseIcons x)) ch = map fileName ch).
  { apply map_ext. intros c. now destruct c. }
  now rewrite E.
Qed.

Lemma allBelow_siblings_eraseIcons (n : FileNode) :
  allBelow siblingsDistinct (eraseIcons n) = allBelow siblingsDistinct n.
Proof.
  induction n as [nm full ic ch IH] using FileNode_rose_ind. simpl.
  induction IH as [|c ch Hc _ IHch]; [reflexivity|]. simpl.
  now rewrite siblingsDistinct_eraseIcons, Hc, IHch.
Qed.

Lemma freshChain_distinct (e : string) (names : list string) :
  forall name,
    siblingsDistinct (freshChain e name names) = true
    /\ allBelow siblingsDistinct (freshChain e name names) = true.
Proof.
  induction names as [|name' rest IH]; intros name.
  - split; [|reflexivity]. apply bool_decide_eq_true. constructor.
  - destruct (IH name') as [H1 H2]. split.
    + apply bool_decide_eq_true. simpl. repeat constructor. set_solver.
    + simpl. now rewrite H1, H2.
Qed.

Lemma insertNames_distinct (e : string) (names : list string) :
  forall n,
    siblingsDistinct n = true -> allBelow siblingsDistinct n = true ->
    siblingsDistinct (insertNames e names n) = true
    /\ allBelow siblingsDistinct (insertNames e names n) = true.
Proof.
  induction names as [|name names IH]; intros n Hn Hall.
  - now destruct n.
  - cbn [insertNames].
    destruct (Tree.findChild name n) as [[i c]|] eqn:Ef.
    + pose proof Ef as Ef'. apply findChild_Some in Ef' as [Hi Hname].
      apply allBelow_children in Hall.
      pose proof (Forall_lookup_1 _ _ _ _ Hall Hi) as [Hc Hbelow].
      destruct (IH c Hc Hbelow) as [H1 H2]. split.
      * unfold siblingsDistinct in *. cbn [Tree.setChildren children].
        rewrite list_fmap_insert, insertNames_fileName.
        rewrite list_insert_id; [exact Hn|].
        now rewrite list_lookup_fmap, Hi.
      * apply allBelow_children. cbn [Tree.setChildren children].
        now apply Forall_insert.
    + destruct (freshChain_distinct e names name) as [H1 H2]. split.
      * unfold siblingsDistinct in *. cbn [Tree.pushChild Tree.setChildren
                                            children].
        apply bool_decide_eq_true. apply bool_decide_eq_true in Hn.
        rewrite map_app. apply NoDup_app. split; [exact Hn|].
        split; [|simpl; repeat constructor; set_solver].
        intros x Hx Hx'. cbn [map] in Hx'.
        rewrite (proj1 (freshChain_fields e name names)) in Hx'.
        apply list_elem_of_singleton in Hx'. subst x.
        apply list_elem_of_fmap in Hx as (c & Hc & Hin).
        unfold Tree.findChild in Ef. apply list_find_None in Ef.
        rewrite Forall_forall in Ef. now apply (Ef c Hin).
      * apply allBelow_children. apply allBelow_children in Hall.
        cbn [Tree.pushChild Tree.setChildren children].
        apply Forall_app. split; [exact Hall|]. now repeat constructor.
Qed.

(** X23. The pass of the first load keeps the names of siblings distinct: when
    no node of the tree has two children of the same name before the pass,
    none has after it. *)
Theorem first_load_keeps_sibling_names_distinct
    (files0 : JSZip) (w : World) :
  siblingsDistinct (rootFileNode w) = true ->
  allBelow siblingsDistinct (rootFileNode w) = true ->
  let root' := rootFileNode (exec (_populateOOXMLViewer H files0 false) w) in
  siblingsDistinct root' = true /\ allBelow siblingsDistinct root' = true.
Proof.
  intros H1 H2. cbv zeta.
  rewrite <- siblingsDistinct_eraseIcons, <- allBelow_siblings_eraseIcons.
  rewrite (first_load_tree H).
  rewrite <- siblingsDistinct_eraseIcons in H1.
  rewrite <- allBelow_siblings_eraseIcons in H2.
  unfold insertParts. revert H1 H2.
  generalize (eraseIcons (rootFileNode w)) as t.
  induction (Zip.keys files0) as [|e keys IH]; intros t H1 H2; [now split|].
  cbn [fold_left]. destruct (skipped files0 e); [now apply IH|].
  destruct (insertNames_distinct e (JS.split "/" e) t H1 H2).
  now apply IH.
Qed.

End Siblings.

Section ViewContents.
Context (H : Host).

(** X24. [viewContents] of a package that can be read and decoded: the zip is
    the decoded package, [ooxmlFilePath] is the path of the package, and the
    tree is the tree of the entry paths of its parts, so that every part
    has its node. *)
Theorem viewContents_shows_every_part
    (fsPath : string) (b : Bytes) (z : JSZip) (w : World) :
  files w !! fsPath = Some (RegularFile b) ->
  Fs.under (fileCachePath H) fsPath = false ->
  loadAsync H b = Some z ->
  let w' := exec (viewContents H fsPath) w in
  zip w' = z /\ ooxmlFilePath w' = fsPath
  /\ eraseIcons (rootFileNode w') = insertParts z newFileNode
  /\ forall e, e ∈ Zip.keys z -> skipped z e = false ->
               entryPresent (rootFileNode w') e = true.
Proof.
  intros Hfile Hout Hload.
  assert (Hrun : exists w0 w1 r,
    zip w0 = z /\ rootFileNode w0 = newFileNode /\ ooxmlFilePath w0 = fsPath
    /\ _populateOOXMLViewer H z false w0 = (Ok tt, w1)
    /\ viewContents H fsPath w
       = tryCatch (Fs.createDirectory (fileCachePath H)) consoleError w1
    /\ r = tt).
  { unfold viewContents, _resetOOXMLViewer, Fs.existsSync, Fs.rimraf,
      Fs.readFile.
    unfold_io. simpl.
    destruct (files w !! fileCachePath H) as [x|] eqn:Ec; simpl.
    - rewrite removeTree_lookup, Hout, Hfile. simpl. rewrite Hload. simpl.
      match goal with
      | |- context [_populateOOXMLViewer H z false ?w0] =>
          destruct (first_load_completes H z w0) as (w1 & E);
          exists w0, w1, tt
      end.
      rewrite E. now repeat split.
    - rewrite Hfile. simpl. rewrite Hload. simpl.
      match goal with
      | |- context [_populateOOXMLViewer H z false ?w0] =>
          destruct (first_load_completes H z w0) as (w1 & E);
          exists w0, w1, tt
      end.
      rewrite E. now repeat split. }
  destruct Hrun as (w0 & w1 & r & Hz & Ht & Hp & Epop & Eview & _).
  assert (Hw1 : zip w1 = z /\ ooxmlFilePath w1 = fsPath
                /\ eraseIcons (rootFileNode w1) = insertParts z newFileNode
                /\ forall e, e ∈ Zip.keys z -> skipped z e = false ->
                             entryPresent (rootFileNode w1) e = true).
  { assert (Ew1 : w1 = exec (_populateOOXMLViewer H z false) w0)
      by (unfold exec; now rewrite Epop).
    split; [|split; [|split]].
    - rewrite Ew1, <- Hz. now apply (first_load_keeps H zip).
    - rewrite Ew1, <- Hp. now apply (first_load_keeps H ooxmlFilePath).
    - rewrite Ew1, (first_load_tree H), Ht.
      reflexivity.
    - intros e He Hs. rewrite Ew1.
      now apply first_load_entry_present. }
  cbv zeta. unfold exec. rewrite Eview.
  destruct (cache_folder_made H w1) as (w2 & E2 & Z2 & T2 & P2 & _).
  rewrite E2. cbn [snd]. rewrite Z2, T2, P2. exact Hw1.
Qed.

End ViewContents.

(** ** Scenarios *)

Section Scenarios.

Import Demo.

(** C9, as stated, fails on the first load already: the folder node [a]
    carries the path of the entry it was created for, so the part below it
    does not have its parent's path followed by its own name. *)
Lemma first_load_breaks_parent_path_rule :
  fullPathsFollowParent (rootFileNode (opened package1)) = false.
Proof. vm_compute. reflexivity. Qed.

Lemma populate_keeps_names_leading_full_paths_witness :
  namesLeadFullPaths [] (rootFileNode (opened package1))
  /\ namesLeadFullPaths []
       (rootFileNode
          (exec (_populateOOXMLViewer host package2 true) (opened package1))).
Proof.
  assert (Hbefore : namesLeadFullPaths [] (rootFileNode (opened package1))).
  { vm_compute. repeat split; eexists; reflexivity. }
  split; [exact Hbefore|].
  apply (populate_keeps_names_leading_full_paths host package2 true
           (opened package1) Hbefore).
Defined.

(** C1 on a binary part.  The package is opened with [a/y.bin] = AAA, then
    rewritten outside twice (BBB, then CCC).  The pass after the second
    rewrite marks the node and brings current and previous to CCC, but the
    compare file still holds AAA and not BBB, the previous generation the
    pass started from. *)
Theorem binary_part_compare_is_not_refreshed :
  let before := modifiedOutside package2 (opened package1) in
  let after := modifiedOutside package3 before in
  cacheFile before "a/prev.y.bin" = Some (RegularFile (bytes "BBB"))
  /\ cacheFile after "a/y.bin" = Some (RegularFile (bytes "CCC"))
  /\ cacheFile after "a/prev.y.bin" = Some (RegularFile (bytes "CCC"))
  /\ cacheFile after "a/compare.y.bin" = Some (RegularFile (bytes "AAA"))
  /\ iconPath <$> Tree.getNode [0; 1] (rootFileNode after) = Some asteriskYellow.
Proof. vm_compute. repeat split; reflexivity. Qed.

(** The XML part next to it gets what C1 describes. *)
Example xml_part_compare_is_refreshed :
  let before := opened package1 in
  let after := modifiedOutside package2 before in
  cacheFile after "a/compare.x.xml" = cacheFile before "a/prev.x.xml"
  /\ cacheFile after "a/x.xml" = cacheFile after "a/prev.x.xml"
  /\ cacheFile after "a/x.xml"
     = Some (RegularFile (utf8Encode host (breakTags "<?xml?><a><c/></a>")))
  /\ iconPath <$> Tree.getNode [0; 0] (rootFileNode after) = Some asteriskYellow.
Proof. vm_compute. repeat split; reflexivity. Qed.

(** C5 below the first level.  [a/y.bin] is taken out of the package; after
    two (and three) passes its cache files are all still there with their
    content, and its node is still in the tree, unmarked. *)
Theorem nested_deleted_part_is_never_removed :
  let loaded := opened package1 in
  let pass1 := modifiedOutside packageWithoutY loaded in
  let pass2 := modifiedOutside packageWithoutY pass1 in
  let pass3 := modifiedOutside packageWithoutY pass2 in
  Zip.get (zip pass1) "a/y.bin" = None
  /\ cacheFile pass1 "a/y.bin" = Some (RegularFile (bytes "AAA"))
  /\ cacheFile pass2 "a/y.bin" = Some (RegularFile (bytes "AAA"))
  /\ cacheFile pass3 "a/y.bin" = Some (RegularFile (bytes "AAA"))
  /\ cacheFile pass3 "a/prev.y.bin" = Some (RegularFile (bytes "AAA"))
  /\ cacheFile pass3 "a/compare.y.bin" = Some (RegularFile (bytes "AAA"))
  /\ Tree.getNode [0; 1] (rootFileNode pass3)
     = Some (mkFileNode "y.bin" "a/y.bin" IconUnset []).
Proof. vm_compute. repeat split; reflexivity. Qed.

(** At the first level the two passes do what C5 says. *)
Example top_level_deleted_part_takes_two_passes :
  let loaded := opened flatPackage in
  let pass1 := modifiedOutside flatPackageWithoutY loaded in
  let pass2 := modifiedOutside flatPackageWithoutY pass1 in
  cacheFile pass1 "y.bin" = Some (RegularFile [])
  /\ iconPath <$> Tree.getNode [1] (rootFileNode pass1) = Some asteriskRed
  /\ cacheFile pass2 "y.bin" = None
  /\ cacheFile pass2 "prev.y.bin" = None
  /\ cacheFile pass2 "compare.y.bin" = None
  /\ length (children (rootFileNode pass2)) = 1.
Proof. vm_compute. repeat split; reflexivity. Qed.

(** C3, as stated, fails on the first load: no change is detected for
    [a/y.bin], yet its compare file is neither empty nor what it was before
    the pass (there was none); it is a third copy of the content. *)
Lemma first_load_writes_compare_copy :
  let before := initial package1 in
  let after := opened package1 in
  cacheFile after "a/y.bin" = cacheFile after "a/prev.y.bin"
  /\ cacheFile after "a/compare.y.bin" = Some (RegularFile (bytes "AAA"))
  /\ cacheFile after "a/compare.y.bin" <> Some (RegularFile [])
  /\ cacheFile after "a/compare.y.bin" <> cacheFile before "a/compare.y.bin".
Proof. vm_compute. repeat split; try reflexivity; discriminate. Qed.

(** C10, as stated, fails: the cache file of [a/x.xml] has been replaced by
    a directory, so materialising it fails during the pass; the error is
    logged and the pass goes on to overwrite the generations of [a/y.bin]. *)
Lemma pass_continues_after_io_error :
  let before :=
    setFiles (<[inCache "a/x.xml" := Directory]> (files (opened package1)))
             (opened package1) in
  let after := modifiedOutside package2 before in
  ConsoleError (FileIsADirectory (inCache "a/x.xml")) ∈ trace after
  /\ cacheFile before "a/prev.y.bin" = Some (RegularFile (bytes "AAA"))
  /\ cacheFile after "a/prev.y.bin" = Some (RegularFile (bytes "BBB"))
  /\ files after <> files (setFiles (<[docPath := RegularFile (encode package2)]>
                                       (files before)) before).
Proof.
  cbv zeta. split; [|split; [|split]].
  - apply list_elem_of_In. vm_compute. tauto.
  - vm_compute. reflexivity.
  - vm_compute. reflexivity.
  - intros E. apply (f_equal (fun m => m !! inCache "a/prev.y.bin")) in E.
    vm_compute in E. discriminate.
Qed.

(** C8, as stated, fails when the modification time goes back: the last
    processed save of [a/y.bin] was at time 10; a notification for the file
    with time 5 and new bytes is processed and rewrites the package. *)
Lemma older_mtime_is_still_processed :
  let path := inCache "a/y.bin" in
  let before :=
    editorWrites path (bytes "CCC") 5
      (savedInEditor path (bytes "BBB") 10 (opened package1)) in
  let after := exec (_updateOOXMLFile host path) before in
  watchActions before !! path = Some 10%Z
  /\ mtimes before !! path = Some 5%Z
  /\ files after !! docPath <> files before !! docPath.
Proof.
  cbv zeta. split; [|split].
  - vm_compute. reflexivity.
  - vm_compute. reflexivity.
  - vm_compute. discriminate.
Qed.

Lemma save_with_recorded_mtime_is_ignored_witness :
  let path := inCache "a/y.bin" in
  let before :=
    editorWrites path (bytes "CCC") 10
      (savedInEditor path (bytes "BBB") 10 (opened package1)) in
  let after := exec (_updateOOXMLFile host path) before in
  watchActions before !! path = Some (default 0%Z (mtimes before !! path))
  /\ files after = files before /\ zip after = zip before.
Proof.
  cbv zeta.
  assert (Hseen :
    let path := inCache "a/y.bin" in
    let before :=
      editorWrites path (bytes "CCC") 10
        (savedInEditor path (bytes "BBB") 10 (opened package1)) in
    watchActions before !! path = Some (default 0%Z (mtimes before !! path))).
  { vm_compute. reflexivity. }
  split; [exact Hseen|].
  destruct (save_with_recorded_mtime_is_ignored host _ _ Hseen)
    as (Hf & Hz & _). now split.
Defined.

Lemma save_identical_is_noop_witness :
  let path := inCache "a/y.bin" in
  let before := editorWrites path (bytes "AAA") 7 (opened package1) in
  let after := exec (_updateOOXMLFile host path) before in
  files before !! path = files before !! _getPrevFilePath path
  /\ files after = files before /\ zip after = zip before.
Proof.
  cbv zeta. split; [vm_compute; reflexivity|].
  destruct (save_identical_is_noop host (inCache "a/y.bin") (bytes "AAA")
              (editorWrites (inCache "a/y.bin") (bytes "AAA") 7
                 (opened package1)))
    as (Hf & Hz & _); [vm_compute; reflexivity | vm_compute; reflexivity |].
  now split.
Defined.

Lemma save_changed_rewrites_package_witness :
  let e := "a/y.bin" in
  let before :=
    editorWrites (generationFile host "" e) (bytes "ZZZ") 7
                 (opened package1) in
  let after := exec (_updateOOXMLFile host (generationFile host "" e)) before in
  (exists pkg z',
      files after !! docPath = Some (RegularFile pkg)
      /\ loadAsync host pkg = Some z'
      /\ Zip.file z' e = Some {| dir := false; data := bytes "ZZZ" |}
      /\ Zip.get z' "a/x.xml" = Zip.get package1 "a/x.xml"
      /\ Zip.get package1 "a/" = None
      /\ Zip.get z' "a/" = Some {| dir := true; data := [] |})
  /\ files after !! generationFile host "compare." e
     = Some (RegularFile (bytes "AAA"))
  /\ files after !! generationFile host "prev." e
     = Some (RegularFile (bytes "ZZZ")).
Proof.
  cbv zeta.
  pose proof (save_changed_rewrites_package host "a/y.bin"
                (bytes "ZZZ") (bytes "AAA") (encode package1)
                (editorWrites (generationFile host "" "a/y.bin") (bytes "ZZZ") 7
                   (opened package1))) as Hx.
  cbv zeta in Hx.
  destruct Hx as ((pkg & z' & Hpkg & Hload & Hentry & Hold & Hnew) & Hc & Hp).
  1: apply plainPathb_plain; vm_compute; reflexivity.
  1-4: vm_compute; reflexivity.
  1: vm_compute; discriminate.
  1: vm_compute; discriminate.
  1: repeat constructor; vm_compute; reflexivity.
  1: vm_compute; discriminate.
  1-3: vm_compute; reflexivity.
  split; [|split; assumption].
  exists pkg, z'. split; [exact Hpkg|]. split; [exact Hload|].
  split; [exact Hentry|].
  assert (Hx : Zip.get z' "a/x.xml" = Zip.get package1 "a/x.xml").
  { apply (Hold "a/x.xml"); [discriminate | vm_compute; reflexivity]. }
  split; [exact Hx|]. split; [vm_compute; reflexivity|].
  assert (Hz : z' = Zip.put package1 "a/y.bin" (bytes "ZZZ")).
  { assert (Hpkg' : files (exec (_updateOOXMLFile host
                                   (generationFile host "" "a/y.bin"))
                             (editorWrites (generationFile host "" "a/y.bin")
                                (bytes "ZZZ") 7 (opened package1)))
                    !! docPath
                    = Some (RegularFile
                              (encode (Zip.put package1 "a/y.bin"
                                         (bytes "ZZZ")))))
      by (vm_compute; reflexivity).
    change (ooxmlFilePath _) with docPath in Hpkg.
    rewrite Hpkg' in Hpkg.
    assert (Epkg : pkg = encode (Zip.put package1 "a/y.bin" (bytes "ZZZ")))
      by congruence.
    rewrite Epkg in Hload.
    assert (Hd : loadAsync host (encode (Zip.put package1 "a/y.bin"
                                           (bytes "ZZZ")))
                 = Some (Zip.put package1 "a/y.bin" (bytes "ZZZ")))
      by (vm_compute; reflexivity).
    rewrite Hd in Hload. now injection Hload. }
  rewrite Hz. vm_compute. reflexivity.
Defined.

(** C2, as stated, fails for a save that the debounce drops: the cache
    file of [a/y.bin] holds new bytes (CCC) that differ from its previous
    generation (BBB), but the file's modification time is the one recorded
    at the last processed save; the package is not rewritten and still
    decodes to BBB for the entry, and the previous generation stays BBB. *)
Lemma changed_save_with_recorded_mtime_is_dropped :
  let path := inCache "a/y.bin" in
  let before :=
    editorWrites path (bytes "CCC") 10
      (savedInEditor path (bytes "BBB") 10 (opened package1)) in
  let after := exec (_updateOOXMLFile host path) before in
  files before !! path = Some (RegularFile (bytes "CCC"))
  /\ files before !! _getPrevFilePath path = Some (RegularFile (bytes "BBB"))
  /\ files after !! docPath = files before !! docPath
  /\ (exists pkg z',
         files after !! docPath = Some (RegularFile pkg)
         /\ loadAsync host pkg = Some z'
         /\ Zip.file z' "a/y.bin"
            = Some {| dir := false; data := bytes "BBB" |})
  /\ files after !! _getPrevFilePath path = Some (RegularFile (bytes "BBB")).
Proof.
  cbv zeta. split; [|split; [|split; [|split]]]; try (vm_compute; reflexivity).
  eexists _, _. split; [vm_compute; reflexivity|].
  split; vm_compute; reflexivity.
Qed.

Lemma io_errors_during_a_pass_witness :
  (let before :=
     setFiles (<[docPath := RegularFile [x01]]> (files (opened package1)))
              (opened package1) in
   let r := _reloadOoxmlFile host docPath before in
   files r.2 = files before /\ rootFileNode r.2 = rootFileNode before)
  /\ (let before :=
        setFiles (<[docPath := RegularFile [x01]]> (files (opened package1)))
                 (opened package1) in
      let r := viewContents host docPath before in
      r.1 = Ok tt /\ zip r.2 = []
      /\ files r.2 !! inCache "a/y.bin" = None)
  /\ (let before :=
        setFiles (<[inCache "compare.x.xml" := Directory]>
                    (files (initial flatPackage))) (initial flatPackage) in
      let r := _reloadOoxmlFile host docPath before in
      r.1 = Throw (FileIsADirectory (inCache "compare.x.xml"))
      /\ (exists l1 p n l2 fs,
            passVisits flatPackage (Zip.keys flatPackage) (rootFileNode before)
            = l1 ++ VisitNew p n :: l2
            /\ visitsEffect host true flatPackage l1 (files before)
               = (fs, None)
            /\ Fs.written (compareFile host p n) [] (files r.2)
               = inl (FileIsADirectory (inCache "compare.x.xml")))
      /\ files r.2 !! inCache "x.xml"
         = Some (RegularFile (utf8Encode host (breakTags "<?xml?><a/>")))
      /\ files r.2 !! inCache "y.bin" = None).
Proof.
  destruct (io_errors_during_a_pass host) as (Hreload & Hfirst & _ & _ & Hend).
  split; [|split].
  - cbv zeta.
    destruct (Hreload docPath
                (setFiles (<[docPath := RegularFile [x01]]>
                             (files (opened package1))) (opened package1)))
      as (_ & Hf & _ & Ht).
    + intros b Hb. vm_compute in Hb. injection Hb as <-.
      vm_compute. reflexivity.
    + now split.
  - cbv zeta.
    destruct (Hfirst docPath
                (setFiles (<[docPath := RegularFile [x01]]>
                             (files (opened package1))) (opened package1)))
      as (Hr & Hz & _ & Hf).
    + intros Hno p Hp. exfalso. vm_compute in Hno. discriminate.
    + intros b Hb. vm_compute in Hb. injection Hb as <-.
      vm_compute. reflexivity.
    + split; [exact Hr|]. split; [exact Hz|]. rewrite Hf.
      vm_compute. reflexivity.
  - cbv zeta.
    set (before := setFiles (<[inCache "compare.x.xml" := Directory]>
                               (files (initial flatPackage)))
                            (initial flatPackage)).
    assert (Hrun : _reloadOoxmlFile host docPath before
                   = (Throw (FileIsADirectory (inCache "compare.x.xml")),
                      (_reloadOoxmlFile host docPath before).2)).
    { rewrite (surjective_pairing (_reloadOoxmlFile host docPath before))
        at 1.
      f_equal; vm_compute; reflexivity. }
    destruct (Hend docPath (encode flatPackage) flatPackage before _ _
                ltac:(vm_compute; reflexivity) ltac:(vm_compute; reflexivity)
                Hrun)
      as (l1 & p & n & l2 & fs & Evs & Efs & _ & Ew).
    split; [now rewrite Hrun|].
    split; [now exists l1, p, n, l2, fs|].
    split; vm_compute; reflexivity.
Defined.


(** A reload of the package it was loaded from leaves every file as it
    is. *)
Example reload_of_the_same_package_is_quiet :
  let before := modifiedOutside package2 (opened package1) in
  let after := exec (_reloadOoxmlFile host docPath) before in
  quiet host before = true
  /\ files after = files before /\ quiet host after = true.
Proof.
  cbv zeta. split; [vm_compute; reflexivity|].
  apply (quiet_pass_changes_no_file host docPath (encode package2)
           (modifiedOutside package2 (opened package1))).
  all: vm_compute; reflexivity.
Qed.

(** The first load leaves the cache in step with the package. *)
Example first_load_is_quiet : quiet host (opened package1) = true.
Proof. vm_compute. reflexivity. Qed.


Lemma unchanged_part_after_a_pass_witness :
  (let w := opened package1 in
   let w' := exec (_reloadOoxmlFile host docPath) w in
   files w' !! generationFile host "" "a/x.xml"
   = files w' !! generationFile host "prev." "a/x.xml"
   /\ files w' !! generationFile host "compare." "a/x.xml"
      = files w !! generationFile host "compare." "a/x.xml")
  /\ (let w :=
        setFiles (<[docPath := RegularFile (encode flatPackage)]>
                    (files (opened flatPackageWithoutY)))
                 (opened flatPackageWithoutY) in
      let w' := exec (_reloadOoxmlFile host docPath) w in
      files w' !! generationFile host "" "y.bin"
      = Some (RegularFile (bytes "AAA"))
      /\ files w' !! generationFile host "prev." "y.bin"
         = Some (RegularFile (bytes "AAA"))
      /\ files w' !! generationFile host "compare." "y.bin"
         = Some (RegularFile []))
  /\ (let w' := exec (viewContents host docPath) (initial package1) in
      files w' !! generationFile host "" "a/x.xml"
      = files w' !! generationFile host "prev." "a/x.xml"
      /\ files w' !! generationFile host "compare." "a/x.xml"
         = Some (RegularFile
                   (utf8Encode host (breakTags "<?xml?><a><b/></a>")))).
Proof.
  pose proof (unchanged_part_after_a_pass host package1 "a/x.xml"
                {| dir := false; data := bytes "<?xml?><a><b/></a>" |}
                (utf8Encode host (breakTags "<?xml?><a><b/></a>"))
                docPath (encode package1)) as Hx.
  cbv zeta in Hx. destruct Hx as (Hknown & _ & Hfirst).
  1: apply plainPathb_plain; vm_compute; reflexivity.
  1-4: vm_compute; reflexivity.
  pose proof (unchanged_part_after_a_pass host flatPackage "y.bin"
                {| dir := false; data := bytes "AAA" |} (bytes "AAA")
                docPath (encode flatPackage)) as Hy.
  cbv zeta in Hy. destruct Hy as (_ & Hnew & _).
  1: apply plainPathb_plain; vm_compute; reflexivity.
  1-4: vm_compute; reflexivity.
  split; [|split].
  - cbv zeta.
    destruct (Hknown (opened package1)
                (_reloadOoxmlFile host docPath (opened package1)).2)
      as (Heq & _ & _ & Hcmp).
    1-4: vm_compute; reflexivity.
    + rewrite (surjective_pairing
                 (_reloadOoxmlFile host docPath (opened package1))) at 1.
      f_equal; vm_compute; reflexivity.
    + split; [exact Heq | exact Hcmp].
  - cbv zeta.
    set (w := setFiles (<[docPath := RegularFile (encode flatPackage)]>
                          (files (opened flatPackageWithoutY)))
                       (opened flatPackageWithoutY)).
    apply (Hnew w (_reloadOoxmlFile host docPath w).2).
    1-3: vm_compute; reflexivity.
    rewrite (surjective_pairing (_reloadOoxmlFile host docPath w)) at 1.
    f_equal; vm_compute; reflexivity.
  - cbv zeta.
    destruct (Hfirst (initial package1)) as (Hc & Hp & Hm).
    1-4: vm_compute; reflexivity.
    split; [now rewrite Hc, Hp | exact Hm].
Defined.

(** Where two parts share a file, the files of one of them are not its
    own: with the parts [a/prev.x.xml] and [a/x.xml], the previous
    generation of [a/x.xml] is the current file of [a/prev.x.xml].  After
    the first load the current file of [a/prev.x.xml] differs from that
    part's own previous generation, and a reload of the unchanged package
    finds [a/x.xml] changed and rewrites its compare file. *)
Example parts_sharing_a_file_are_not_handled_alone :
  let package := [part "a/prev.x.xml" "P"; part "a/x.xml" "<?xml?><a/>"] in
  let loaded := opened package in
  let reloaded := exec (_reloadOoxmlFile host docPath) loaded in
  generationFile host "" "a/prev.x.xml"
  = generationFile host "prev." "a/x.xml"
  /\ handledOnceBy host "a/prev.x.xml" (VisitNew "a/prev.x.xml" "prev.x.xml")
       (passVisits package (Zip.keys package) newFileNode) = false
  /\ files loaded !! generationFile host "" "a/prev.x.xml"
     <> files loaded !! generationFile host "prev." "a/prev.x.xml"
  /\ files loaded !! docPath = Some (RegularFile (encode package))
  /\ files reloaded !! generationFile host "compare." "a/x.xml"
     <> files loaded !! generationFile host "compare." "a/x.xml".
Proof.
  cbv zeta. split; [vm_compute; reflexivity|].
  split; [vm_compute; reflexivity|].
  split; [vm_compute; discriminate|].
  split; [vm_compute; reflexivity|]. vm_compute. discriminate.
Qed.

Lemma detector_true_iff_bytes_differ_witness :
  (_fileHasBeenChangedFromOutside host "a/y.bin"
     (editorWrites (inCache "a/y.bin") (bytes "ZZZ") 7 (opened package1))).1
  = Ok true
  /\ (_fileHasBeenChangedFromOutside host "a/y.bin" (initial package1)).1
     = Ok false.
Proof.
  assert (Hplain : Forall PathShape.plain (JS.split "/" "a/y.bin"))
    by (apply plainPathb_plain; vm_compute; reflexivity).
  split.
  - destruct (detector_true_iff_bytes_differ host "a/y.bin"
                (editorWrites (inCache "a/y.bin") (bytes "ZZZ") 7
                   (opened package1))) as (_ & _ & Hpart).
    destruct (Hpart Hplain) as (_ & Hiff & _).
    apply Hiff. exists (bytes "ZZZ"), (bytes "AAA").
    split; [vm_compute; reflexivity|].
    split; [vm_compute; reflexivity | discriminate].
  - destruct (detector_true_iff_bytes_differ host "a/y.bin"
                (initial package1)) as (_ & _ & Hpart).
    destruct (Hpart Hplain) as (_ & _ & Hfalse).
    apply Hfalse. left. intros b. vm_compute. discriminate.
Defined.

End Scenarios.

(** ** Further scenarios *)

Section FurtherScenarios.
Import Demo.

Lemma reset_removes_the_cache_and_nothing_else_witness :
  folderHoldsItsFiles (fileCachePath host) (files (opened package1))
  /\ rootFileNode (clear host (opened package1)).2 = newFileNode
  /\ files (clear host (opened package1)).2 !! inCache "a/y.bin" = None
  /\ files (clear host (opened package1)).2 !! docPath
     = files (opened package1) !! docPath.
Proof.
  assert (Hwf : folderHoldsItsFiles (fileCachePath host)
                  (files (opened package1))).
  { intros E. vm_compute in E. discriminate. }
  split; [exact Hwf|].
  destruct (reset_removes_the_cache_and_nothing_else host (opened package1) Hwf)
    as (_ & _ & Ht & _ & Hf).
  split; [exact Ht|]. split.
  - rewrite Hf. vm_compute. reflexivity.
  - rewrite Hf. vm_compute. reflexivity.
Defined.

Lemma unreadable_package_leaves_the_viewer_reset_witness :
  let before :=
    setFiles (<[docPath := RegularFile [x01]]> (files (opened package1)))
             (opened package1) in
  let after := exec (viewContents host docPath) before in
  loadAsync host [x01] = None
  /\ zip after = [] /\ rootFileNode after = newFileNode
  /\ files after !! inCache "a/y.bin" = None.
Proof.
  cbv zeta. split; [vm_compute; reflexivity|].
  destruct (unreadable_package_leaves_the_viewer_reset host docPath
              (setFiles (<[docPath := RegularFile [x01]]>
                           (files (opened package1))) (opened package1)))
    as (_ & Hz & Ht & _ & Hf & _).
  - intros E. vm_compute in E. discriminate.
  - intros b Hb. vm_compute in Hb. injection Hb as <-. vm_compute. reflexivity.
  - split; [exact Hz|]. split; [exact Ht|].
    unfold exec. rewrite Hf. vm_compute. reflexivity.
Defined.

Lemma save_without_previous_generation_is_ignored_witness :
  files (opened package1) !! _getPrevFilePath (inCache "a/none.bin") = None
  /\ _updateOOXMLFile host (inCache "a/none.bin") (opened package1)
     = (Ok tt, opened package1).
Proof.
  assert (Hnone : files (opened package1)
                    !! _getPrevFilePath (inCache "a/none.bin") = None)
    by (vm_compute; reflexivity).
  split; [exact Hnone|].
  apply save_without_previous_generation_is_ignored. right. right. exact Hnone.
Defined.

Lemma failed_package_write_changes_no_file_witness :
  let path := inCache "a/y.bin" in
  let before :=
    editorWrites path (bytes "ZZZ") 7
      (setFiles (<[docPath := Directory]> (files (opened package1)))
                (opened package1)) in
  let r := _updateOOXMLFile host path before in
  files before !! ooxmlFilePath before = Some Directory
  /\ r.1 = Ok tt /\ files r.2 = files before
  /\ Zip.get (zip r.2) "a/y.bin" = Some {| dir := false; data := bytes "ZZZ" |}.
Proof.
  cbv zeta. split; [vm_compute; reflexivity|].
  pose proof (failed_package_write_changes_no_file host (inCache "a/y.bin")
                (bytes "ZZZ") (bytes "AAA")
                (editorWrites (inCache "a/y.bin") (bytes "ZZZ") 7
                   (setFiles (<[docPath := Directory]>
                                (files (opened package1)))
                             (opened package1)))) as Hx.
  cbv zeta in Hx. destruct Hx as (Hr & Hf & Hz & _).
  1-6: first [vm_compute; reflexivity | vm_compute; discriminate].
  split; [exact Hr|]. split; [exact Hf|]. rewrite Hz. vm_compute. reflexivity.
Defined.

Lemma deleted_part_is_first_emptied_and_marked_witness :
  let w := setZip flatPackageWithoutY (opened flatPackage) in
  let n := mkFileNode "y.bin" "y.bin" IconUnset [] in
  exists w',
    removeDeletedCallback host (_removeDeletedParts host) n w
    = (Ok (Tree.setIconPath asteriskRed n, false), w')
    /\ files w' !! inCache "y.bin" = Some (RegularFile [])
    /\ files w' !! inCache "prev.y.bin" = Some (RegularFile (bytes "AAA")).
Proof.
  cbv zeta.
  destruct (deleted_part_is_first_emptied_and_marked host
              (_removeDeletedParts host)
              (mkFileNode "y.bin" "y.bin" IconUnset []) (bytes "AAA")
              (setZip flatPackageWithoutY (opened flatPackage)))
    as (w' & E & Hf & _).
  all: try (vm_compute; reflexivity).
  exists w'. split; [exact E|]. rewrite Hf. split; vm_compute; reflexivity.
Defined.

Lemma emptied_part_is_removed_when_all_three_files_are_deleted_witness :
  let w := modifiedOutside flatPackageWithoutY (opened flatPackage) in
  let n := mkFileNode "y.bin" "y.bin" asteriskRed [] in
  exists w',
    removeDeletedCallback host (_removeDeletedParts host) n w
    = (Ok (n, true), w')
    /\ files w' !! inCache "y.bin" = None
    /\ files w' !! inCache "prev.y.bin" = None
    /\ files w' !! inCache "compare.y.bin" = None.
Proof.
  cbv zeta.
  destruct (emptied_part_is_removed_when_all_three_files_are_deleted host
              (_removeDeletedParts host)
              (mkFileNode "y.bin" "y.bin" asteriskRed []) []
              (modifiedOutside flatPackageWithoutY (opened flatPackage)))
    as (spliced & w' & E & _ & Hs & Hf).
  all: try (vm_compute; reflexivity).
  exists w'.
  assert (spliced = true) as ->.
  { apply Hs. split; vm_compute; discriminate. }
  split; [exact E|]. rewrite Hf. repeat split; vm_compute; reflexivity.
Defined.

Lemma first_load_gives_every_part_its_node_witness :
  entryPresent
    (rootFileNode (exec (_populateOOXMLViewer host package1 false)
                        (initial package1))) "a/y.bin" = true.
Proof.
  apply first_load_gives_every_part_its_node.
  - apply list_elem_of_In. vm_compute. tauto.
  - vm_compute. reflexivity.
Defined.

Lemma createFile_without_entry_copies_xml_only_witness :
  let w := opened package1 in
  let w' := exec (_createFile host "a/prev.y.bin" "compare.y.bin") w in
  Zip.file (zip w) "a/prev.y.bin" = None
  /\ files w' !! inCache "a/compare.y.bin" = files w !! inCache "a/compare.y.bin".
Proof.
  cbv zeta. split; [vm_compute; reflexivity|].
  destruct (createFile_without_entry_copies_xml_only host
              "a/prev.y.bin" "compare.y.bin" (opened package1))
    as [[E|E] _].
  - vm_compute. reflexivity.
  - intros b Hb. vm_compute in Hb. injection Hb as <-. vm_compute. reflexivity.
  - now rewrite E.
  - assert (E0 : Fs.mkdirp (folderOf host "a/prev.y.bin")
                   (files (opened package1))
                 = inr (files (opened package1)))
      by (vm_compute; reflexivity).
    assert (E1 : files (exec (_createFile host "a/prev.y.bin" "compare.y.bin")
                          (opened package1))
                 = files (opened package1)) by congruence.
    now rewrite E1.
Defined.

Lemma failing_attrib_leaves_no_part_file_witness :
  let w' := exec (_populateOOXMLViewer windowsHost package1 false)
                 (setZip package1 (initial package1)) in
  attribFails windowsHost = true
  /\ files w' !! (fileCachePath windowsHost ++ "/a/y.bin")%string = None
  /\ entryPresent (rootFileNode w') "a/y.bin" = true.
Proof.
  cbv zeta. split; [vm_compute; reflexivity|]. split; [|vm_compute; reflexivity].
  pose proof (failing_attrib_leaves_no_part_file windowsHost package1
                (setZip package1 (initial package1))
                ltac:(vm_compute; reflexivity)
                (fileCachePath windowsHost ++ "/a/y.bin")%string) as Hno.
  cbv zeta in Hno.
  destruct (files (exec (_populateOOXMLViewer windowsHost package1 false)
                        (setZip package1 (initial package1)))
              !! (fileCachePath windowsHost ++ "/a/y.bin")%string)
    as [[b|]|] eqn:E; [|vm_compute in E; discriminate | reflexivity].
  specialize (Hno b eq_refl). vm_compute in Hno. discriminate.
Defined.

Lemma watcher_stays_locked_after_a_failed_open_witness :
  Watcher.opening (Watcher.run [Watcher.Change] Watcher.initial) = 1
  /\ Watcher.opens
       (Watcher.run ([Watcher.Change]
                     ++ Watcher.OpenRejected
                     :: [Watcher.Change; Watcher.Change]) Watcher.initial)
     = 1.
Proof.
  split; [reflexivity|].
  destruct (watcher_stays_locked_after_a_failed_open
              [Watcher.Change] [Watcher.Change; Watcher.Change] eq_refl)
    as (_ & -> & _).
  reflexivity.
Defined.

(** Text of one-byte characters is its own decoding. *)
Lemma utf8From_one_byte (b : Bytes) :
  Forall (fun c => (Byte.to_N c < 128)%N) b ->
  utf8From [] O 128%N 191%N b = b.
Proof.
  induction 1 as [|c b Hc _ IH]; [reflexivity|].
  cbn [utf8From]. unfold startByte.
  destruct (N.ltb_spec (Byte.to_N c) 128); [|lia].
  cbn [app]. now rewrite IH.
Qed.

Lemma decodeText_one_byte (s : string) :
  Forall (fun c => (Byte.to_N (byte_of_ascii c) < 128)%N)
         (list_ascii_of_string s) ->
  decodeText (bytes s) = s.
Proof.
  intros Hs. unfold decodeText, bytes, list_byte_of_string.
  rewrite utf8From_one_byte.
  - apply string_of_list_byte_of_string.
  - apply Forall_map. exact Hs.
Qed.

Lemma js_length_app (a b : string) :
  JS.length (a ++ b) = (JS.length a + JS.length b)%nat.
Proof. induction a as [|c a IH]; simpl; [reflexivity|]. rewrite IH. lia. Qed.

Lemma length_padding (n : nat) : JS.length (padding n) = n.
Proof. induction n as [|n IH]; simpl; [reflexivity|]. now rewrite IH. Qed.

Lemma padding_one_byte (n : nat) :
  Forall (fun c => (Byte.to_N (byte_of_ascii c) < 128)%N)
         (list_ascii_of_string (padding n)).
Proof.
  induction n as [|n IH]; simpl; constructor; [|exact IH].
  vm_compute. reflexivity.
Qed.

Lemma largeXml_decodes : decodeText (bytes largeXml) = largeXml.
Proof.
  apply decodeText_one_byte. unfold largeXml.
  rewrite !PathFacts.chars_app. apply Forall_app. split.
  - repeat constructor.
  - apply Forall_app. split; [apply padding_one_byte | repeat constructor].
Qed.

Lemma largeXml_length : (100000 <= Z.of_nat (JS.length largeXml))%Z.
Proof.
  unfold largeXml. rewrite !js_length_app, length_padding.
  rewrite !Nat2Z.inj_add, Z2Nat.id by lia. lia.
Qed.

Lemma large_xml_is_written_unformatted_witness :
  let w := setZip largePackage (initial largePackage) in
  (100000 <= Z.of_nat (JS.length (utf8Decode host (bytes largeXml))))%Z
  /\ files (exec (_createFile host "big.xml" "big.xml") w)
       !! fileOf host "big.xml" "big.xml"
     = Some (RegularFile
               (utf8Encode host (utf8Decode host (bytes largeXml)))).
Proof.
  cbv zeta.
  assert (Hlen : (100000 <= Z.of_nat (JS.length
                                        (utf8Decode host (bytes largeXml))))%Z).
  { change (utf8Decode host (bytes largeXml))
      with (decodeText (bytes largeXml)).
    rewrite largeXml_decodes. apply largeXml_length. }
  split; [exact Hlen|].
  pose proof (large_xml_is_written_unformatted host "big.xml" "big.xml"
                {| dir := false; data := bytes largeXml |}
                (setZip largePackage (initial largePackage))) as Hx.
  cbv zeta in Hx. apply Hx.
  - reflexivity.
  - change (utf8Decode host (data {| dir := false; data := bytes largeXml |}))
      with (decodeText (bytes largeXml)).
    rewrite largeXml_decodes. reflexivity.
  - left. exact Hlen.
  - vm_compute. reflexivity.
  - intros q Hq b0. apply list_elem_of_In in Hq. vm_compute in Hq.
    repeat (destruct Hq as [<- | Hq]; [vm_compute; discriminate|]).
    destruct Hq.
  - intros Hin. apply list_elem_of_In in Hin. vm_compute in Hin.
    repeat (destruct Hin as [Hin | Hin]; [discriminate|]). destruct Hin.
  - vm_compute. discriminate.
Defined.

(** The limit of the formatter counts UTF-16 code units, not bytes: an XML
    text of 50000 two-byte letters has more than 100000 bytes and is
    formatted all the same. *)
Lemma bytes_app (a b : string) : bytes (a ++ b) = bytes a ++ bytes b.
Proof.
  unfold bytes, list_byte_of_string.
  change list_ascii_of_string with Path.chars.
  now rewrite PathFacts.chars_app, map_app.
Qed.

Lemma utf8From_one_byte_app (b rest : Bytes) :
  Forall (fun c => (Byte.to_N c < 128)%N) b ->
  utf8From [] O 128%N 191%N (b ++ rest)
  = b ++ utf8From [] O 128%N 191%N rest.
Proof.
  induction 1 as [|c b Hc _ IH]; [reflexivity|].
  cbn [app utf8From]. unfold startByte.
  destruct (N.ltb_spec (Byte.to_N c) 128); [|lia].
  cbn [app]. now rewrite IH.
Qed.

Lemma utf8From_accents (n : nat) (rest : Bytes) :
  utf8From [] O 128%N 191%N (bytes (accents n) ++ rest)
  = bytes (accents n) ++ utf8From [] O 128%N 191%N rest.
Proof.
  induction n as [|n IH]; [reflexivity|].
  change (bytes (accents (S n)))
    with (xc3 :: xa9 :: bytes (accents n)).
  cbn [app].
  change (utf8From [] O 128%N 191%N
            (xc3 :: xa9 :: bytes (accents n) ++ rest))
    with (xc3 :: xa9 :: utf8From [] O 128%N 191%N
                          (bytes (accents n) ++ rest)).
  now rewrite IH.
Qed.

Lemma accentedXml_decodes : decodeText (bytes accentedXml) = accentedXml.
Proof.
  unfold decodeText, accentedXml. rewrite !bytes_app.
  rewrite utf8From_one_byte_app
    by (repeat constructor; vm_compute; reflexivity).
  rewrite utf8From_accents.
  rewrite <- (app_nil_r (bytes "</a>")).
  rewrite utf8From_one_byte_app
    by (repeat constructor; vm_compute; reflexivity).
  cbn [utf8From]. rewrite app_nil_r, <- !bytes_app.
  apply string_of_list_byte_of_string.
Qed.

Lemma length_accents (n : nat) :
  JS.length (accents n) = n /\ String.length (accents n) = (2 * n)%nat.
Proof.
  induction n as [|n [IH1 IH2]]; [now split|]. split.
  - change (JS.length (accents (S n))) with (S (JS.length (accents n))).
    now rewrite IH1.
  - cbn [accents String.length]. rewrite IH2. lia.
Qed.

Lemma string_length_app (a b : string) :
  String.length (a ++ b) = (String.length a + String.length b)%nat.
Proof. induction a as [|c a IH]; simpl; [reflexivity|]. now rewrite IH. Qed.

Lemma breakTags_truthy (s : string) :
  s <> "" -> JS.truthy (breakTags s) = true.
Proof.
  destruct s as [|c s']; [congruence|]. intros _.
  destruct s' as [|c' s'']; cbn [breakTags];
    destruct c as [[] [] [] [] [] [] [] []]; try reflexivity;
    destruct c' as [[] [] [] [] [] [] [] []]; reflexivity.
Qed.

Example two_byte_text_is_formatted_below_the_limit :
  let w := setZip accentedPackage (initial accentedPackage) in
  let text := utf8Decode host (bytes accentedXml) in
  (100000 <= Z.of_nat (String.length text))%Z
  /\ (Z.of_nat (JS.length text) < 100000)%Z
  /\ files (exec (_createFile host "big.xml" "big.xml") w)
       !! fileOf host "big.xml" "big.xml"
     = Some (RegularFile (utf8Encode host (breakTags text))).
Proof.
  cbv zeta.
  change (utf8Decode host (bytes accentedXml))
    with (decodeText (bytes accentedXml)).
  rewrite accentedXml_decodes.
  assert (Hunits : (Z.of_nat (JS.length accentedXml) < 100000)%Z).
  { unfold accentedXml.
    rewrite !js_length_app, (proj1 (length_accents _)).
    rewrite !Nat2Z.inj_add, Z2Nat.id by lia.
    change (Z.of_nat (JS.length "<?xml?><a>")) with 10%Z.
    change (Z.of_nat (JS.length "</a>")) with 4%Z. lia. }
  split; [|split; [exact Hunits|]].
  - unfold accentedXml.
    rewrite !string_length_app, (proj2 (length_accents _)).
    rewrite !Nat2Z.inj_add, Nat2Z.inj_mul, Z2Nat.id by lia.
    change (Z.of_nat (String.length "<?xml?><a>")) with 10%Z. lia.
  - rewrite createFile_files.
    apply (createFileEffect_writes host _ _ _ _
             {| dir := false; data := bytes accentedXml |}).
    + reflexivity.
    + unfold materialise.
      change (Zip.file (zip (setZip accentedPackage
                               (initial accentedPackage))) "big.xml")
        with (Some {| dir := false; data := bytes accentedXml |}).
      cbv beta iota zeta.
      change (utf8Decode host (data {| dir := false;
                                       data := bytes accentedXml |}))
        with (decodeText (bytes accentedXml)).
      rewrite accentedXml_decodes.
      change (JS.startsWith accentedXml "<?xml") with true. cbv iota.
      destruct (Z.ltb_spec (Z.of_nat (JS.length accentedXml)) 100000);
        [|lia].
      change (formatXml host accentedXml)
        with (Some (breakTags accentedXml)).
      cbv iota. rewrite breakTags_truthy; [reflexivity|].
      unfold accentedXml. discriminate.
    + vm_compute. reflexivity.
    + intros q Hq b0. apply list_elem_of_In in Hq. vm_compute in Hq.
      repeat (destruct Hq as [<- | Hq]; [vm_compute; discriminate|]).
      destruct Hq.
    + intros Hin. apply list_elem_of_In in Hin. vm_compute in Hin.
      repeat (destruct Hin as [Hin | Hin]; [discriminate|]). destruct Hin.
    + vm_compute. discriminate.
Qed.

Lemma part_new_on_reload_gets_an_empty_compare_file_witness :
  let w := setZip flatPackage (opened flatPackageWithoutY) in
  exists w',
    visitNew host true "y.bin" "y.bin" [] w = (Ok [1], w')
    /\ files w' !! fileOf host "y.bin" "y.bin" = Some (RegularFile (bytes "AAA"))
    /\ files w' !! compareFile host "y.bin" "y.bin" = Some (RegularFile [])
    /\ iconPath <$> Tree.getNode [1] (rootFileNode w') = Some asteriskGreen.
Proof.
  cbv zeta.
  pose proof (part_new_on_reload_gets_an_empty_compare_file host
                "y.bin" "y.bin" []
                (rootFileNode (opened flatPackageWithoutY))
                {| dir := false; data := bytes "AAA" |} (bytes "AAA")
                (setZip flatPackage (opened flatPackageWithoutY))) as Hx.
  cbv zeta in Hx. destruct Hx as (w' & E & Hcur & _ & Hcmp & Hnode).
  - vm_compute. reflexivity.
  - vm_compute. reflexivity.
  - vm_compute. reflexivity.
  - vm_compute. reflexivity.
  - apply plainPathb_plain; vm_compute; reflexivity.
  - apply plainb_plain; vm_compute; reflexivity.
  - intros q Hq b0. apply list_elem_of_In in Hq. vm_compute in Hq.
    repeat (destruct Hq as [<- | Hq]; [vm_compute; discriminate|]).
    destruct Hq.
  - intros role Hrole. apply list_elem_of_In in Hrole. simpl in Hrole.
    destruct Hrole as [<-|[<-|[<-|[]]]]; vm_compute; discriminate.
  - exists w'. split; [exact E|]. split; [exact Hcur|]. split; [exact Hcmp|].
    assert (Hone : [] ++ [length (children
                                    (rootFileNode (opened flatPackageWithoutY)))]
                   = [1]) by (vm_compute; reflexivity).
    rewrite Hone in Hnode. now rewrite Hnode.
Defined.

Lemma failed_empty_compare_write_ends_the_reload_witness :
  let before :=
    setFiles (<[inCache "compare.x.xml" := Directory]>
                (files (initial flatPackage))) (initial flatPackage) in
  let r := _reloadOoxmlFile host docPath before in
  r.1 = Throw (FileIsADirectory (inCache "compare.x.xml"))
  /\ length (children (rootFileNode r.2)) = 1.
Proof.
  cbv zeta.
  pose proof (failed_empty_compare_write_ends_the_reload host docPath
                "x.xml" {| dir := false; data := bytes "<?xml?><a/>" |}
                [part "y.bin" "AAA"] (encode flatPackage)
                (setFiles (<[inCache "compare.x.xml" := Directory]>
                             (files (initial flatPackage)))
                          (initial flatPackage))) as Hx.
  cbv zeta in Hx. destruct Hx as (Hr & _ & Ht).
  - vm_compute. reflexivity.
  - vm_compute. reflexivity.
  - reflexivity.
  - vm_compute. reflexivity.
  - vm_compute. reflexivity.
  - vm_compute. discriminate.
  - vm_compute. discriminate.
  - vm_compute. discriminate.
  - split; [rewrite Hr; vm_compute; reflexivity|]. now rewrite Ht.
Defined.

Lemma getDiff_compares_the_files_the_pass_writes_witness :
  getDiff host (mkFileNode "y.bin" "a/y.bin" IconUnset [])
  = VscodeDiff (inCache "a/compare.y.bin") (inCache "a/y.bin")
               "y.bin ↔ compare.y.bin".
Proof.
  rewrite getDiff_compares_the_files_the_pass_writes
    by (apply plainb_plain; vm_compute; reflexivity).
  vm_compute. reflexivity.
Defined.

Lemma generation_files_have_one_name_each_witness :
  _getPrevFilePath (currentFile host "a/y.bin") = previousFile host "a/y.bin"
  /\ savedCompareFile (currentFile host "a/y.bin")
     = compareFile host "a/y.bin" (Path.basename "a/y.bin").
Proof.
  pose proof (generation_files_have_one_name_each host "a/y.bin") as Hx.
  cbv zeta in Hx. destruct Hx as (_ & (_ & Hp & _) & (_ & Hc & _)).
  - apply plainPathb_plain. vm_compute. reflexivity.
  - now split.
Defined.

Lemma saved_cache_file_names_its_entry_witness :
  normalizedPathOf (currentFile host "a/y.bin") = "a/y.bin".
Proof.
  apply saved_cache_file_names_its_entry.
  - apply plainPathb_plain. vm_compute. reflexivity.
  - vm_compute. reflexivity.
  - vm_compute. reflexivity.
Defined.

Lemma first_load_writes_inside_the_cache_folder_witness :
  let w := setZip package1 (initial package1) in
  files (exec (_populateOOXMLViewer host package1 false) w) !! docPath
  = files w !! docPath.
Proof.
  cbv zeta.
  pose proof (first_load_writes_inside_the_cache_folder host package1
                (setZip package1 (initial package1))) as Hx.
  cbv zeta in Hx. destruct (Hx eq_refl eq_refl docPath eq_refl)
    as [E | (Hnone & _)]; [exact E|].
  vm_compute in Hnone. discriminate.
Defined.

Lemma removal_looks_at_every_second_level_only_witness :
  let w := setZip packageWithoutY (opened package1) in
  Zip.includes (Zip.keys (zip w)) "a/y.bin" = false
  /\ _removeDeletedParts host (rootFileNode w) w = (Ok (rootFileNode w), w).
Proof.
  cbv zeta. split; [vm_compute; reflexivity|].
  apply removal_looks_at_every_second_level_only.
  vm_compute. reflexivity.
Defined.

Lemma first_load_keeps_sibling_names_distinct_witness :
  let root' :=
    rootFileNode (exec (_populateOOXMLViewer host package1 false)
                       (setZip package1 (initial package1))) in
  siblingsDistinct root' = true /\ allBelow siblingsDistinct root' = true.
Proof.
  cbv zeta.
  pose proof (first_load_keeps_sibling_names_distinct host package1
                (setZip package1 (initial package1))) as Hx.
  cbv zeta in Hx. apply Hx.
  - apply bool_decide_eq_true. constructor.
  - reflexivity.
Defined.

Lemma viewContents_shows_every_part_witness :
  let w' := exec (viewContents host docPath) (initial package1) in
  zip w' = package1
  /\ entryPresent (rootFileNode w') "a/y.bin" = true.
Proof.
  cbv zeta.
  pose proof (viewContents_shows_every_part host docPath (encode package1)
                package1 (initial package1)) as Hx.
  cbv zeta in Hx. destruct Hx as (Hz & _ & _ & Hp).
  - vm_compute. reflexivity.
  - vm_compute. reflexivity.
  - vm_compute. reflexivity.
  - split; [exact Hz|]. apply Hp.
    + apply list_elem_of_In. vm_compute. tauto.
    + vm_compute. reflexivity.
Defined.

End FurtherScenarios.
